(** * MLBAggregator: the statistics aggregator and the innings parser

    A shallow embedding of [src/stats_calculator.py] (class
    [StatsCalculator]) and of [parse_innings] from
    [src/mlb_api_client.py], together with the part of Python's
    built-in behaviour these functions rely on: [int()], [float()],
    [round()], true division, [str.split] and [str.isdigit].

    Conventions.
    - Python integers are [Z] (unbounded).
    - Python floats are IEEE 754 binary64 values, represented by
      [spec_float] with precision 53 and maximal exponent 1024; every
      arithmetic operation rounds to nearest, ties to even.
    - Python strings are [string]; a character stands for the code point
      with the same number (0..255).
    - A raised exception is a value of [exn]; a computation that can
      raise has type [result A].
    - A box-score line and a game are records whose fields are optional:
      [None] is an absent key.  The keys that hold texts ([player_id],
      [name], [home_team], [away_team]) are typed as texts and the four
      line lists as lists of lines; every other field holds an arbitrary
      decoded value.
    - The limit CPython 3.11 puts on the number of digits [int()]
      accepts in a text is not modelled.
    - For what a caller of [calculate_aggregate_stats] can observe,
      lists and dicts are objects in a heap, named by references: the
      caller's list holds references to game dicts, a game dict to its
      line lists, a line list to line dicts, and the [defaultdict]s
      of the call to the stats dicts.  [Call] runs the statements of
      the method on such a heap, reading, writing and allocating
      objects.

    The second part of the file embeds the rest of the client's
    extraction ([safe_int], [_extract_batting_stats],
    [_extract_pitching_stats], [_get_player_name], [get_game_data])
    and the in-memory store of [src/data_manager.py].
    - A box-score row, a box score and a schedule entry are records of
      optional fields; [personId] and the team ids are ints,
      [battingOrder], [position], [namefield], the names and the date
      are texts, and the counting cells hold arbitrary decoded values.
    - The two calls of [statsapi] are inputs of [get_game_data]: what
      [schedule] answers, and what [boxscore_data] answers for a game
      id, each a value or an exception.
    - Writing the file is an input of the store's operations: the
      boolean [_save_data] returns, and the time stamp. *)

From Stdlib Require Import ZArith List String Ascii Bool Lia Permutation.
From Stdlib Require Import DecimalString DecimalZ.
From Stdlib Require Import Floats.SpecFloat.
Import ListNotations.
Local Open Scope Z_scope.

(* ================================================================= *)
(** * Python built-ins *)

Module Py.

(** ** Exceptions *)

Inductive exn : Type :=
| ValueError
| TypeError
| OverflowError
| ZeroDivisionError.

Inductive result (A : Type) : Type :=
| Ok (a : A)
| Raise (e : exn).
Arguments Ok {A} a.
Arguments Raise {A} e.

Definition bind {A B : Type} (m : result A) (k : A -> result B) : result B :=
  match m with
  | Ok a => k a
  | Raise e => Raise e
  end.

Definition raises {A : Type} (m : result A) : Prop :=
  exists e, m = Raise e.

(** [try: m  except (ValueError, TypeError): return h] *)
Definition except_ValueError_TypeError {A : Type} (m : result A) (h : A)
  : result A :=
  match m with
  | Raise ValueError => Ok h
  | Raise TypeError => Ok h
  | r => r
  end.

(** ** Floats *)

Definition float : Type := spec_float.
Definition prec : Z := 53.
Definition emax : Z := 1024.

Definition fzero : float := S754_zero false.          (* 0.0 *)
Definition fadd : float -> float -> float := SFadd prec emax.
Definition fdiv : float -> float -> float := SFdiv prec emax.

Definition is_inf (f : float) : bool :=
  match f with S754_infinity _ => true | _ => false end.

Definition is_zero (f : float) : bool :=
  match f with S754_zero _ => true | _ => false end.

(** The integer [z] as an exact, not yet rounded, binary number. *)
Definition exact_int (z : Z) : spec_float :=
  match z with
  | Z0 => S754_zero false
  | Zpos p => S754_finite false p 0
  | Zneg p => S754_finite true p 0
  end.

(** The double nearest to the rational [a / b], for [b <> 0]. *)
Definition nearest_ratio (a b : Z) : float :=
  SFdiv prec emax (exact_int a) (exact_int b).

(** [float(z)] for an int [z]. *)
Definition float_of_int (z : Z) : result float :=
  let f := binary_normalize prec emax z 0 false in
  if is_inf f then Raise OverflowError else Ok f.

(** [a / b] for two ints. *)
Definition int_truediv (a b : Z) : result float :=
  if b =? 0 then Raise ZeroDivisionError
  else
    let q := nearest_ratio a b in
    if is_inf q then Raise OverflowError else Ok q.

(** [a / x] for an int [a] and a float [x]. *)
Definition int_float_truediv (a : Z) (x : float) : result float :=
  match float_of_int a with
  | Raise e => Raise e
  | Ok fa => if is_zero x then Raise ZeroDivisionError else Ok (fdiv fa x)
  end.

(** [a + x] for an int [a] and a float [x]. *)
Definition int_float_add (a : Z) (x : float) : result float :=
  match float_of_int a with
  | Raise e => Raise e
  | Ok fa => Ok (fadd fa x)
  end.

(** [x > 0] for a float [x]. *)
Definition float_gt_0 (x : float) : bool := SFltb fzero x.

(** [int(x)] for a float [x]: truncation toward zero. *)
Definition int_of_float (x : float) : result Z :=
  match x with
  | S754_nan => Raise ValueError
  | S754_infinity _ => Raise OverflowError
  | S754_zero _ => Ok 0
  | S754_finite s m e => Ok (cond_Zopp s (Z.shiftl (Zpos m) e))
  end.

(** Quotient of [a] by [b > 0] rounded to the nearest integer, ties to
    even. *)
Definition div_half_even (a b : Z) : Z :=
  let q := a / b in
  let r := a mod b in
  match 2 * r ?= b with
  | Lt => q
  | Gt => q + 1
  | Eq => if Z.even q then q else q + 1
  end.

(** [round(x, ndigits)] for a float [x] and [ndigits >= 0]: the exact
    value of [x] is rounded to [ndigits] decimals, ties to even, and the
    decimal obtained is converted back to the nearest double. *)
Definition round (x : float) (ndigits : Z) : result float :=
  match x with
  | S754_finite s m e =>
      let p := 10 ^ ndigits in
      let n := if 0 <=? e then Zpos m * p * 2 ^ e
               else div_half_even (Zpos m * p) (2 ^ (- e)) in
      match n with
      | Z0 => Ok (S754_zero s)
      | _ =>
          let r := nearest_ratio (cond_Zopp s n) p in
          if is_inf r then Raise OverflowError else Ok r
      end
  | _ => Ok x
  end.

(** ** Characters and strings *)

Definition chars (s : string) : list ascii := list_ascii_of_string s.
Definition str_of (l : list ascii) : string := string_of_list_ascii l.

Definition code (c : ascii) : Z := Z.of_N (N_of_ascii c).

(** White space skipped by [int()] and [float()] around a numeral. *)
Definition is_space (c : ascii) : bool :=
  let n := code c in
  ((9 <=? n) && (n <=? 13)) || (n =? 32) || (n =? 133) || (n =? 160).

(** ASCII decimal digit. *)
Definition is_decimal (c : ascii) : bool :=
  let n := code c in (48 <=? n) && (n <=? 57).

Definition digit_value (c : ascii) : Z := code c - 48.

(** [c.isdigit()]: the decimal digits and the superscripts two, three
    and one. *)
Definition char_isdigit (c : ascii) : bool :=
  let n := code c in
  is_decimal c || (n =? 178) || (n =? 179) || (n =? 185).

(** [s.isdigit()] *)
Definition isdigit (s : string) : bool :=
  match chars s with
  | [] => false
  | l => forallb char_isdigit l
  end.

Fixpoint lstrip (l : list ascii) : list ascii :=
  match l with
  | c :: l' => if is_space c then lstrip l' else l
  | [] => []
  end.

Definition strip (l : list ascii) : list ascii :=
  rev (lstrip (rev (lstrip l))).

(** [s.split(sep)] for a one-character separator. *)
Fixpoint split_chars (sep : ascii) (l : list ascii) : list (list ascii) :=
  match l with
  | [] => [[]]
  | c :: l' =>
      if Ascii.eqb c sep then [] :: split_chars sep l'
      else match split_chars sep l' with
           | h :: t => (c :: h) :: t
           | [] => [[c]]
           end
  end.

Definition split (sep : ascii) (s : string) : list string :=
  map str_of (split_chars sep (chars s)).

(** [sep in s] for a one-character [sep]. *)
Definition contains (sep : ascii) (s : string) : bool :=
  existsb (Ascii.eqb sep) (chars s).

(** A digit part: decimal digits, single underscores allowed between
    two digits.  Returns the value and the number of digits. *)
Fixpoint digitpart (acc : Z) (count : Z) (after_digit : bool)
         (l : list ascii) : option (Z * Z) :=
  match l with
  | [] => if after_digit then Some (acc, count) else None
  | c :: l' =>
      if is_decimal c then
        digitpart (10 * acc + digit_value c) (count + 1) true l'
      else if Ascii.eqb c "_"%char then
        if after_digit then digitpart acc count false l' else None
      else None
  end.

Definition split_sign (l : list ascii) : bool * list ascii :=
  match l with
  | c :: l' =>
      if Ascii.eqb c "-"%char then (true, l')
      else if Ascii.eqb c "+"%char then (false, l')
      else (false, l)
  | [] => (false, [])
  end.

(** [int(s)] for a str [s] (base 10). *)
Definition int_of_string (s : string) : result Z :=
  let '(neg, body) := split_sign (strip (chars s)) in
  match digitpart 0 0 false body with
  | Some (n, _) => Ok (cond_Zopp neg n)
  | None => Raise ValueError
  end.

(** The characters an integer numeral is made of. *)
Definition numeral_char (c : ascii) : bool :=
  is_space c || is_decimal c || Ascii.eqb c "_"%char
  || Ascii.eqb c "-"%char || Ascii.eqb c "+"%char.

Definition lower (c : ascii) : ascii :=
  let n := code c in
  if (65 <=? n) && (n <=? 90) then ascii_of_N (Z.to_N (n + 32)) else c.

Fixpoint chars_eqb (a b : list ascii) : bool :=
  match a, b with
  | [], [] => true
  | x :: a', y :: b' => Ascii.eqb x y && chars_eqb a' b'
  | _, _ => false
  end.

(** [l] spells the word [w], whatever the case of its letters. *)
Definition is_word (w : string) (l : list ascii) : bool :=
  chars_eqb (map lower l) (chars w).

(** Cuts [l] at the first character satisfying [p]: what is before it,
    and what is after it when there is one. *)
Fixpoint break (p : ascii -> bool) (l : list ascii)
  : list ascii * option (list ascii) :=
  match l with
  | [] => ([], None)
  | c :: l' =>
      if p c then ([], Some l')
      else let '(a, b) := break p l' in (c :: a, b)
  end.

Definition is_dot (c : ascii) : bool := Ascii.eqb c "."%char.
Definition is_e (c : ascii) : bool :=
  Ascii.eqb c "e"%char || Ascii.eqb c "E"%char.

(** The digits of a decimal numeral [[digitpart] "." digitpart] or
    [digitpart ["."]]: its digits read as one integer, and the number of
    digits after the point. *)
Definition mantissa (l : list ascii) : option (Z * Z) :=
  match break is_dot l with
  | (ip, None) =>
      match digitpart 0 0 false ip with
      | Some (m, _) => Some (m, 0)
      | None => None
      end
  | ([], Some fp) => digitpart 0 0 false fp
  | (ip, Some []) =>
      match digitpart 0 0 false ip with
      | Some (m, _) => Some (m, 0)
      | None => None
      end
  | (ip, Some fp) =>
      match digitpart 0 0 false ip with
      | Some (m, _) => digitpart m 0 false fp
      | None => None
      end
  end.

(** The exponent part after ["e"]: an optional sign and a digit part. *)
Definition exponent (l : list ascii) : option Z :=
  let '(neg, body) := split_sign l in
  match digitpart 0 0 false body with
  | Some (n, _) => Some (cond_Zopp neg n)
  | None => None
  end.

(** The double nearest to [m * 10 ^ e], with the sign [neg]. *)
Definition decimal_to_float (neg : bool) (m e : Z) : float :=
  match m with
  | Z0 => S754_zero neg
  | _ =>
      if 0 <=? e then nearest_ratio (cond_Zopp neg (m * 10 ^ e)) 1
      else nearest_ratio (cond_Zopp neg m) (10 ^ (- e))
  end.

(** [float(s)] for a str [s]. *)
Definition float_of_string (s : string) : result float :=
  let '(neg, body) := split_sign (strip (chars s)) in
  if is_word "inf" body || is_word "infinity" body then
    Ok (S754_infinity neg)
  else if is_word "nan" body then Ok S754_nan
  else
    let '(mant, expo) := break is_e body in
    match mantissa mant with
    | None => Raise ValueError
    | Some (m, nfrac) =>
        match expo with
        | None => Ok (decimal_to_float neg m (- nfrac))
        | Some el =>
            match exponent el with
            | None => Raise ValueError
            | Some x => Ok (decimal_to_float neg m (x - nfrac))
            end
        end
    end.

(** [str(z)] for an int [z]. *)
Definition str_of_int (z : Z) : string :=
  NilZero.string_of_int (Z.to_int z).

(** ** Values

    The values a decoded JSON document holds.  [PContainer] stands for a
    list or a dict: neither [int()] nor [float()] looks inside one. *)

Inductive pyval : Type :=
| PNone
| PBool (b : bool)
| PInt (z : Z)
| PFloat (f : float)
| PStr (s : string)
| PContainer.

(** [int(v)] *)
Definition int (v : pyval) : result Z :=
  match v with
  | PNone => Raise TypeError
  | PBool b => Ok (if b then 1 else 0)
  | PInt z => Ok z
  | PFloat f => int_of_float f
  | PStr s => int_of_string s
  | PContainer => Raise TypeError
  end.

(** [float(v)] *)
Definition to_float (v : pyval) : result float :=
  match v with
  | PNone => Raise TypeError
  | PBool b => Ok (if b then nearest_ratio 1 1 else fzero)
  | PInt z => float_of_int z
  | PFloat f => Ok f
  | PStr s => float_of_string s
  | PContainer => Raise TypeError
  end.

(** [d.get(key, default)] once the lookup [d.get(key)] is known. *)
Definition get {A : Type} (field : option A) (default : A) : A :=
  match field with
  | Some v => v
  | None => default
  end.

End Py.

Notation "x <- m ;; k" := (Py.bind m (fun x => k))
  (at level 61, m at next level, right associativity).

(* ================================================================= *)
(** * The innings parser of [mlb_api_client.py] *)

Module MLBApiClient.
Import Py.

(** What the box score holds under ['ip'], or the default [0] of
    [player_stats.get('ip', 0)]: nothing, an int or a text. *)
Inductive ip_value : Type :=
| IpNone
| IpInt (z : Z)
| IpStr (s : string).

(** [not innings_str or innings_str == ''] *)
Definition is_blank (v : ip_value) : bool :=
  match v with
  | IpNone => true
  | IpInt z => z =? 0
  | IpStr s => match s with EmptyString => true | _ => false end
  end.

(** [str(innings_str)] *)
Definition str (v : ip_value) : string :=
  match v with
  | IpNone => "None"
  | IpInt z => str_of_int z
  | IpStr s => s
  end.

Definition is_empty (s : string) : bool :=
  match s with EmptyString => true | _ => false end.

(** [int(whole) if whole else 0] *)
Definition whole_innings_of (whole : string) : result Z :=
  if is_empty whole then Ok 0 else int_of_string whole.

(** The branches that set [fraction_decimal]: a float, or the int [0]
    when the fraction is not made of digits. *)
Definition fraction_decimal_of (fraction : string) : result pyval :=
  if String.eqb fraction "1" then
    q <- int_truediv 1 3 ;; Ok (PFloat q)
  else if String.eqb fraction "2" then
    q <- int_truediv 2 3 ;; Ok (PFloat q)
  else if isdigit fraction then
    n <- int_of_string fraction ;;
    q <- int_truediv n 3 ;;
    Ok (PFloat q)
  else Ok (PInt 0).

(** [whole_innings + fraction_decimal], the left operand an int. *)
Definition int_add (a : Z) (v : pyval) : result pyval :=
  match v with
  | PInt b => Ok (PInt (a + b))
  | PBool b => Ok (PInt (a + (if b then 1 else 0)))
  | PFloat x => r <- int_float_add a x ;; Ok (PFloat r)
  | _ => Raise TypeError
  end.

(** The body of the [try] block, once [innings_str] is a str. *)
Definition parse_innings_text (innings_str : string) : result pyval :=
  if contains "."%char innings_str then
    match split "."%char innings_str with
    | [whole; fraction] =>
        whole_innings <- whole_innings_of whole ;;
        fraction_decimal <- fraction_decimal_of fraction ;;
        int_add whole_innings fraction_decimal
    | _ => Raise ValueError
    end
  else
    r <- float_of_string innings_str ;;
    Ok (PFloat r).

Definition parse_innings (innings_str : ip_value) : result pyval :=
  except_ValueError_TypeError
    (if is_blank innings_str then Ok (PFloat fzero)
     else parse_innings_text (str innings_str))
    (PFloat fzero).

End MLBApiClient.

(* ================================================================= *)
(** * The data of [stats_calculator.py] *)

(** A batting line of a box score: a dict read with [player.get].  A
    field is [None] when the key is absent.  [player_id] and [name] are
    texts; the counting fields hold whatever value the stored document
    has. *)
Module BattingLine.
Record t : Type := make {
  player_id : option string;
  name : option string;
  at_bats : option Py.pyval;
  hits : option Py.pyval;
  runs : option Py.pyval;
  rbis : option Py.pyval;
  doubles : option Py.pyval;
  triples : option Py.pyval;
  home_runs : option Py.pyval;
  walks : option Py.pyval;
  strikeouts : option Py.pyval
}.
End BattingLine.

(** A pitching line of a box score. *)
Module PitchingLine.
Record t : Type := make {
  player_id : option string;
  name : option string;
  wins : option Py.pyval;
  losses : option Py.pyval;
  saves : option Py.pyval;
  innings_pitched : option Py.pyval;
  hits_allowed : option Py.pyval;
  runs_allowed : option Py.pyval;
  earned_runs : option Py.pyval;
  walks_allowed : option Py.pyval;
  strikeouts : option Py.pyval;
  home_runs_allowed : option Py.pyval
}.
End PitchingLine.

(** A game record: the keys the calculator reads. *)
Module Game.
Record t : Type := make {
  home_team : option string;
  away_team : option string;
  home_score : option Py.pyval;
  away_score : option Py.pyval;
  home_team_batting : option (list BattingLine.t);
  away_team_batting : option (list BattingLine.t);
  home_team_pitching : option (list PitchingLine.t);
  away_team_pitching : option (list PitchingLine.t)
}.
End Game.

(** The dict built by the [batting_stats] default factory. *)
Module BattingStats.
Record t : Type := make {
  player_name : string;
  team : string;
  games : Z;
  at_bats : Z;
  hits : Z;
  runs : Z;
  rbis : Z;
  doubles : Z;
  triples : Z;
  home_runs : Z;
  walks : Z;
  strikeouts : Z;
  batting_average : Py.float;
  on_base_percentage : Py.float;
  slugging_percentage : Py.float;
  ops : Py.float
}.

Definition default : t :=
  make "" "" 0 0 0 0 0 0 0 0 0 0 Py.fzero Py.fzero Py.fzero Py.fzero.
End BattingStats.

(** The dict built by the [pitching_stats] default factory. *)
Module PitchingStats.
Record t : Type := make {
  player_name : string;
  team : string;
  games : Z;
  wins : Z;
  losses : Z;
  saves : Z;
  innings_pitched : Py.float;
  hits_allowed : Z;
  runs_allowed : Z;
  earned_runs : Z;
  walks_allowed : Z;
  strikeouts : Z;
  home_runs_allowed : Z;
  era : Py.float;
  whip : Py.float
}.

Definition default : t :=
  make "" "" 0 0 0 0 Py.fzero 0 0 0 0 0 0 Py.fzero Py.fzero.
End PitchingStats.

(** The dict built by the [team_records] default factory. *)
Module TeamRecord.
Record t : Type := make {
  wins : Z;
  losses : Z;
  games_seen : Z
}.

Definition default : t := make 0 0 0.
End TeamRecord.

(* ================================================================= *)
(** * Dicts with string keys, in insertion order *)

Module Dict.

Definition t (V : Type) : Type := list (string * V).

Fixpoint lookup {V : Type} (k : string) (d : t V) : option V :=
  match d with
  | [] => None
  | (k', v) :: d' => if String.eqb k k' then Some v else lookup k d'
  end.

(** [d[k] = v]: an existing key keeps its place, a new key goes last. *)
Fixpoint setitem {V : Type} (k : string) (v : V) (d : t V) : t V :=
  match d with
  | [] => [(k, v)]
  | (k', v') :: d' =>
      if String.eqb k k' then (k', v) :: d'
      else (k', v') :: setitem k v d'
  end.

(** [d[k]] on a [defaultdict]: the stored value, or a fresh default. *)
Definition getitem {V : Type} (default : V) (k : string) (d : t V) : V :=
  match lookup k d with
  | Some v => v
  | None => default
  end.

Definition keys {V : Type} (d : t V) : list string := map fst d.
Definition values {V : Type} (d : t V) : list V := map snd d.

End Dict.

(** [for x in l: s = body(x, s)], stopping at the first exception. *)
Fixpoint for_each {A S : Type} (body : A -> S -> Py.result S)
         (l : list A) (s : S) : Py.result S :=
  match l with
  | [] => Py.Ok s
  | x :: l' => s' <- body x s ;; for_each body l' s'
  end.

(** [out = []; for x in l: out.append(f(x))], stopping at the first
    exception. *)
Fixpoint map_result {A B : Type} (f : A -> Py.result B) (l : list A)
  : Py.result (list B) :=
  match l with
  | [] => Py.Ok []
  | x :: l' => y <- f x ;; ys <- map_result f l' ;; Py.Ok (y :: ys)
  end.

(* ================================================================= *)
(** * [class StatsCalculator] *)

Module StatsCalculator.
Import Py.

(** [player.get('player_id', f"unknown_{player.get('name', 'unnamed')}")] *)
Definition batting_key (player : BattingLine.t) : string :=
  get (BattingLine.player_id player)
      ("unknown_" ++ get (BattingLine.name player) "unnamed")%string.

Definition pitching_key (player : PitchingLine.t) : string :=
  get (PitchingLine.player_id player)
      ("unknown_" ++ get (PitchingLine.name player) "unnamed")%string.

(** The statements of a batting loop body that act on
    [stats = batting_stats[player_id]], for a line of the side whose
    team name is [team]. *)
Definition update_batting (team : string) (player : BattingLine.t)
           (stats : BattingStats.t) : result BattingStats.t :=
  let player_name := get (BattingLine.name player) "Unknown"%string in
  let games := BattingStats.games stats + 1 in
  at_bats <- int (get (BattingLine.at_bats player) (PInt 0)) ;;
  hits <- int (get (BattingLine.hits player) (PInt 0)) ;;
  runs <- int (get (BattingLine.runs player) (PInt 0)) ;;
  rbis <- int (get (BattingLine.rbis player) (PInt 0)) ;;
  doubles <- int (get (BattingLine.doubles player) (PInt 0)) ;;
  triples <- int (get (BattingLine.triples player) (PInt 0)) ;;
  home_runs <- int (get (BattingLine.home_runs player) (PInt 0)) ;;
  walks <- int (get (BattingLine.walks player) (PInt 0)) ;;
  strikeouts <- int (get (BattingLine.strikeouts player) (PInt 0)) ;;
  Ok (BattingStats.make
        player_name team games
        (BattingStats.at_bats stats + at_bats)
        (BattingStats.hits stats + hits)
        (BattingStats.runs stats + runs)
        (BattingStats.rbis stats + rbis)
        (BattingStats.doubles stats + doubles)
        (BattingStats.triples stats + triples)
        (BattingStats.home_runs stats + home_runs)
        (BattingStats.walks stats + walks)
        (BattingStats.strikeouts stats + strikeouts)
        (BattingStats.batting_average stats)
        (BattingStats.on_base_percentage stats)
        (BattingStats.slugging_percentage stats)
        (BattingStats.ops stats)).

(** One turn of a batting loop: the home loop and the away loop have the
    same body, up to the team name. *)
Definition add_batting_line (team : string) (player : BattingLine.t)
           (batting_stats : Dict.t BattingStats.t)
  : result (Dict.t BattingStats.t) :=
  let player_id := batting_key player in
  let stats := Dict.getitem BattingStats.default player_id batting_stats in
  stats' <- update_batting team player stats ;;
  Ok (Dict.setitem player_id stats' batting_stats).

Definition _process_game_batting_stats (game : Game.t)
           (batting_stats : Dict.t BattingStats.t)
  : result (Dict.t BattingStats.t) :=
  let home_batting := get (Game.home_team_batting game) [] in
  batting_stats <-
    for_each (add_batting_line (get (Game.home_team game) "Unknown"%string))
             home_batting batting_stats ;;
  let away_batting := get (Game.away_team_batting game) [] in
  for_each (add_batting_line (get (Game.away_team game) "Unknown"%string))
           away_batting batting_stats.

(** The statements of a pitching loop body that act on
    [stats = pitching_stats[player_id]]. *)
Definition update_pitching (team : string) (player : PitchingLine.t)
           (stats : PitchingStats.t) : result PitchingStats.t :=
  let player_name := get (PitchingLine.name player) "Unknown"%string in
  let games := PitchingStats.games stats + 1 in
  wins <- int (get (PitchingLine.wins player) (PInt 0)) ;;
  losses <- int (get (PitchingLine.losses player) (PInt 0)) ;;
  saves <- int (get (PitchingLine.saves player) (PInt 0)) ;;
  innings_pitched <-
    to_float (get (PitchingLine.innings_pitched player) (PInt 0)) ;;
  hits_allowed <- int (get (PitchingLine.hits_allowed player) (PInt 0)) ;;
  runs_allowed <- int (get (PitchingLine.runs_allowed player) (PInt 0)) ;;
  earned_runs <- int (get (PitchingLine.earned_runs player) (PInt 0)) ;;
  walks_allowed <- int (get (PitchingLine.walks_allowed player) (PInt 0)) ;;
  strikeouts <- int (get (PitchingLine.strikeouts player) (PInt 0)) ;;
  home_runs_allowed <-
    int (get (PitchingLine.home_runs_allowed player) (PInt 0)) ;;
  Ok (PitchingStats.make
        player_name team games
        (PitchingStats.wins stats + wins)
        (PitchingStats.losses stats + losses)
        (PitchingStats.saves stats + saves)
        (fadd (PitchingStats.innings_pitched stats) innings_pitched)
        (PitchingStats.hits_allowed stats + hits_allowed)
        (PitchingStats.runs_allowed stats + runs_allowed)
        (PitchingStats.earned_runs stats + earned_runs)
        (PitchingStats.walks_allowed stats + walks_allowed)
        (PitchingStats.strikeouts stats + strikeouts)
        (PitchingStats.home_runs_allowed stats + home_runs_allowed)
        (PitchingStats.era stats)
        (PitchingStats.whip stats)).

Definition add_pitching_line (team : string) (player : PitchingLine.t)
           (pitching_stats : Dict.t PitchingStats.t)
  : result (Dict.t PitchingStats.t) :=
  let player_id := pitching_key player in
  let stats := Dict.getitem PitchingStats.default player_id pitching_stats in
  stats' <- update_pitching team player stats ;;
  Ok (Dict.setitem player_id stats' pitching_stats).

Definition _process_game_pitching_stats (game : Game.t)
           (pitching_stats : Dict.t PitchingStats.t)
  : result (Dict.t PitchingStats.t) :=
  let home_pitching := get (Game.home_team_pitching game) [] in
  pitching_stats <-
    for_each (add_pitching_line (get (Game.home_team game) "Unknown"%string))
             home_pitching pitching_stats ;;
  let away_pitching := get (Game.away_team_pitching game) [] in
  for_each (add_pitching_line (get (Game.away_team game) "Unknown"%string))
           away_pitching pitching_stats.

(** The body of the loop of [_calculate_batting_averages]: the derived
    fields of one player, then [dict(stats)]. *)
Definition batting_averages (stats : BattingStats.t) : result BattingStats.t :=
  let at_bats := BattingStats.at_bats stats in
  let hits := BattingStats.hits stats in
  let walks := BattingStats.walks stats in
  let doubles := BattingStats.doubles stats in
  let triples := BattingStats.triples stats in
  let home_runs := BattingStats.home_runs stats in
  batting_average <-
    (if at_bats >? 0 then q <- int_truediv hits at_bats ;; round q 3
     else Ok (BattingStats.batting_average stats)) ;;
  let plate_appearances := at_bats + walks in
  on_base_percentage <-
    (if plate_appearances >? 0 then
       let on_base := hits + walks in
       q <- int_truediv on_base plate_appearances ;; round q 3
     else Ok (BattingStats.on_base_percentage stats)) ;;
  slugging_percentage <-
    (if at_bats >? 0 then
       let total_bases :=
         hits - doubles - triples - home_runs
         + (doubles * 2) + (triples * 3) + (home_runs * 4) in
       q <- int_truediv total_bases at_bats ;; round q 3
     else Ok (BattingStats.slugging_percentage stats)) ;;
  ops <- round (fadd on_base_percentage slugging_percentage) 3 ;;
  Ok (BattingStats.make
        (BattingStats.player_name stats) (BattingStats.team stats)
        (BattingStats.games stats)
        at_bats hits
        (BattingStats.runs stats) (BattingStats.rbis stats)
        doubles triples home_runs walks
        (BattingStats.strikeouts stats)
        batting_average on_base_percentage slugging_percentage ops).

Definition _calculate_batting_averages (batting_stats : Dict.t BattingStats.t)
  : result (list BattingStats.t) :=
  map_result (fun item => batting_averages (snd item)) batting_stats.

(** The body of the loop of [_calculate_pitching_averages]. *)
Definition pitching_averages (stats : PitchingStats.t)
  : result PitchingStats.t :=
  let innings_pitched := PitchingStats.innings_pitched stats in
  era <-
    (if float_gt_0 innings_pitched then
       q <- int_float_truediv (PitchingStats.earned_runs stats * 9)
                              innings_pitched ;;
       round q 2
     else Ok (PitchingStats.era stats)) ;;
  whip <-
    (if float_gt_0 innings_pitched then
       q <- int_float_truediv
              (PitchingStats.hits_allowed stats
               + PitchingStats.walks_allowed stats)
              innings_pitched ;;
       round q 2
     else Ok (PitchingStats.whip stats)) ;;
  Ok (PitchingStats.make
        (PitchingStats.player_name stats) (PitchingStats.team stats)
        (PitchingStats.games stats)
        (PitchingStats.wins stats) (PitchingStats.losses stats)
        (PitchingStats.saves stats)
        innings_pitched
        (PitchingStats.hits_allowed stats)
        (PitchingStats.runs_allowed stats)
        (PitchingStats.earned_runs stats)
        (PitchingStats.walks_allowed stats)
        (PitchingStats.strikeouts stats)
        (PitchingStats.home_runs_allowed stats)
        era whip).

Definition _calculate_pitching_averages
           (pitching_stats : Dict.t PitchingStats.t)
  : result (list PitchingStats.t) :=
  map_result (fun item => pitching_averages (snd item)) pitching_stats.

(** The loop [for game in games] of [calculate_aggregate_stats], on the
    two dicts it fills. *)
Definition process_game (game : Game.t)
           (acc : Dict.t BattingStats.t * Dict.t PitchingStats.t)
  : result (Dict.t BattingStats.t * Dict.t PitchingStats.t) :=
  batting_stats <- _process_game_batting_stats game (fst acc) ;;
  pitching_stats <- _process_game_pitching_stats game (snd acc) ;;
  Ok (batting_stats, pitching_stats).

Definition process_games (games : list Game.t)
  : result (Dict.t BattingStats.t * Dict.t PitchingStats.t) :=
  for_each process_game games ([], []).

Definition calculate_aggregate_stats (games : list Game.t)
  : result (list BattingStats.t * list PitchingStats.t) :=
  acc <- process_games games ;;
  batting_list <- _calculate_batting_averages (fst acc) ;;
  pitching_list <- _calculate_pitching_averages (snd acc) ;;
  Ok (batting_list, pitching_list).

(** [team_records[team][field] += 1] *)
Definition bump (field : TeamRecord.t -> TeamRecord.t) (team : string)
           (team_records : Dict.t TeamRecord.t) : Dict.t TeamRecord.t :=
  Dict.setitem team
    (field (Dict.getitem TeamRecord.default team team_records))
    team_records.

Definition inc_wins (r : TeamRecord.t) : TeamRecord.t :=
  TeamRecord.make (TeamRecord.wins r + 1) (TeamRecord.losses r)
                  (TeamRecord.games_seen r).
Definition inc_losses (r : TeamRecord.t) : TeamRecord.t :=
  TeamRecord.make (TeamRecord.wins r) (TeamRecord.losses r + 1)
                  (TeamRecord.games_seen r).
Definition inc_games_seen (r : TeamRecord.t) : TeamRecord.t :=
  TeamRecord.make (TeamRecord.wins r) (TeamRecord.losses r)
                  (TeamRecord.games_seen r + 1).

(** The body of the loop of [get_team_summary]. *)
Definition summarize_game (game : Game.t)
           (team_records : Dict.t TeamRecord.t)
  : result (Dict.t TeamRecord.t) :=
  let home_team := get (Game.home_team game) "Unknown"%string in
  let away_team := get (Game.away_team game) "Unknown"%string in
  home_score <- int (get (Game.home_score game) (PInt 0)) ;;
  away_score <- int (get (Game.away_score game) (PInt 0)) ;;
  let team_records := bump inc_games_seen home_team team_records in
  let team_records := bump inc_games_seen away_team team_records in
  if home_score >? away_score then
    let team_records := bump inc_wins home_team team_records in
    Ok (bump inc_losses away_team team_records)
  else if away_score >? home_score then
    let team_records := bump inc_wins away_team team_records in
    Ok (bump inc_losses home_team team_records)
  else Ok team_records.

Definition get_team_summary (games : list Game.t)
  : result (Dict.t TeamRecord.t) :=
  for_each summarize_game games [].

End StatsCalculator.

(* ================================================================= *)
(** * The call seen from the caller

    Python hands [calculate_aggregate_stats] a reference to the caller's
    list of games, and every list and dict the call meets is an object
    it could write to.  Here the objects live in a heap and are named
    by references; a list holds references to its items, a game dict
    holds references to its four line lists, and the [defaultdict]s of
    the call hold references to the stats dicts.  The call is a
    computation that reads, writes and allocates objects and may
    raise.

    The heap is typed as the rest of the file is: a list object, a game
    dict, a line dict, a stats dict or a [defaultdict].  A computation
    that meets an object of another kind than the code expects, a
    dangling reference, or a loop that outruns its fuel, is [Wrong]:
    such a heap is outside the conventions of this file. *)

(** A game dict as the heap holds it. *)
Module GameObject.
Record t : Type := make {
  home_team : option string;
  away_team : option string;
  home_score : option Py.pyval;
  away_score : option Py.pyval;
  home_team_batting : option nat;
  away_team_batting : option nat;
  home_team_pitching : option nat;
  away_team_pitching : option nat
}.
End GameObject.

(** [stats[field] = value] on a batting stats dict, field by field. *)
Module BattingAssign.
Definition player_name (value : string) (s : BattingStats.t) : BattingStats.t :=
  BattingStats.make value (BattingStats.team s) (BattingStats.games s)
    (BattingStats.at_bats s) (BattingStats.hits s) (BattingStats.runs s)
    (BattingStats.rbis s) (BattingStats.doubles s) (BattingStats.triples s)
    (BattingStats.home_runs s) (BattingStats.walks s)
    (BattingStats.strikeouts s) (BattingStats.batting_average s)
    (BattingStats.on_base_percentage s)
    (BattingStats.slugging_percentage s) (BattingStats.ops s).
Definition team (value : string) (s : BattingStats.t) : BattingStats.t :=
  BattingStats.make (BattingStats.player_name s) value
    (BattingStats.games s) (BattingStats.at_bats s) (BattingStats.hits s)
    (BattingStats.runs s) (BattingStats.rbis s) (BattingStats.doubles s)
    (BattingStats.triples s) (BattingStats.home_runs s)
    (BattingStats.walks s) (BattingStats.strikeouts s)
    (BattingStats.batting_average s) (BattingStats.on_base_percentage s)
    (BattingStats.slugging_percentage s) (BattingStats.ops s).
Definition games (value : Z) (s : BattingStats.t) : BattingStats.t :=
  BattingStats.make (BattingStats.player_name s) (BattingStats.team s)
    value (BattingStats.at_bats s) (BattingStats.hits s)
    (BattingStats.runs s) (BattingStats.rbis s) (BattingStats.doubles s)
    (BattingStats.triples s) (BattingStats.home_runs s)
    (BattingStats.walks s) (BattingStats.strikeouts s)
    (BattingStats.batting_average s) (BattingStats.on_base_percentage s)
    (BattingStats.slugging_percentage s) (BattingStats.ops s).
Definition at_bats (value : Z) (s : BattingStats.t) : BattingStats.t :=
  BattingStats.make (BattingStats.player_name s) (BattingStats.team s)
    (BattingStats.games s) value (BattingStats.hits s)
    (BattingStats.runs s) (BattingStats.rbis s) (BattingStats.doubles s)
    (BattingStats.triples s) (BattingStats.home_runs s)
    (BattingStats.walks s) (BattingStats.strikeouts s)
    (BattingStats.batting_average s) (BattingStats.on_base_percentage s)
    (BattingStats.slugging_percentage s) (BattingStats.ops s).
Definition hits (value : Z) (s : BattingStats.t) : BattingStats.t :=
  BattingStats.make (BattingStats.player_name s) (BattingStats.team s)
    (BattingStats.games s) (BattingStats.at_bats s) value
    (BattingStats.runs s) (BattingStats.rbis s) (BattingStats.doubles s)
    (BattingStats.triples s) (BattingStats.home_runs s)
    (BattingStats.walks s) (BattingStats.strikeouts s)
    (BattingStats.batting_average s) (BattingStats.on_base_percentage s)
    (BattingStats.slugging_percentage s) (BattingStats.ops s).
Definition runs (value : Z) (s : BattingStats.t) : BattingStats.t :=
  BattingStats.make (BattingStats.player_name s) (BattingStats.team s)
    (BattingStats.games s) (BattingStats.at_bats s) (BattingStats.hits s)
    value (BattingStats.rbis s) (BattingStats.doubles s)
    (BattingStats.triples s) (BattingStats.home_runs s)
    (BattingStats.walks s) (BattingStats.strikeouts s)
    (BattingStats.batting_average s) (BattingStats.on_base_percentage s)
    (BattingStats.slugging_percentage s) (BattingStats.ops s).
Definition rbis (value : Z) (s : BattingStats.t) : BattingStats.t :=
  BattingStats.make (BattingStats.player_name s) (BattingStats.team s)
    (BattingStats.games s) (BattingStats.at_bats s) (BattingStats.hits s)
    (BattingStats.runs s) value (BattingStats.doubles s)
    (BattingStats.triples s) (BattingStats.home_runs s)
    (BattingStats.walks s) (BattingStats.strikeouts s)
    (BattingStats.batting_average s) (BattingStats.on_base_percentage s)
    (BattingStats.slugging_percentage s) (BattingStats.ops s).
Definition doubles (value : Z) (s : BattingStats.t) : BattingStats.t :=
  BattingStats.make (BattingStats.player_name s) (BattingStats.team s)
    (BattingStats.games s) (BattingStats.at_bats s) (BattingStats.hits s)
    (BattingStats.runs s) (BattingStats.rbis s) value
    (BattingStats.triples s) (BattingStats.home_runs s)
    (BattingStats.walks s) (BattingStats.strikeouts s)
    (BattingStats.batting_average s) (BattingStats.on_base_percentage s)
    (BattingStats.slugging_percentage s) (BattingStats.ops s).
Definition triples (value : Z) (s : BattingStats.t) : BattingStats.t :=
  BattingStats.make (BattingStats.player_name s) (BattingStats.team s)
    (BattingStats.games s) (BattingStats.at_bats s) (BattingStats.hits s)
    (BattingStats.runs s) (BattingStats.rbis s) (BattingStats.doubles s)
    value (BattingStats.home_runs s) (BattingStats.walks s)
    (BattingStats.strikeouts s) (BattingStats.batting_average s)
    (BattingStats.on_base_percentage s)
    (BattingStats.slugging_percentage s) (BattingStats.ops s).
Definition home_runs (value : Z) (s : BattingStats.t) : BattingStats.t :=
  BattingStats.make (BattingStats.player_name s) (BattingStats.team s)
    (BattingStats.games s) (BattingStats.at_bats s) (BattingStats.hits s)
    (BattingStats.runs s) (BattingStats.rbis s) (BattingStats.doubles s)
    (BattingStats.triples s) value (BattingStats.walks s)
    (BattingStats.strikeouts s) (BattingStats.batting_average s)
    (BattingStats.on_base_percentage s)
    (BattingStats.slugging_percentage s) (BattingStats.ops s).
Definition walks (value : Z) (s : BattingStats.t) : BattingStats.t :=
  BattingStats.make (BattingStats.player_name s) (BattingStats.team s)
    (BattingStats.games s) (BattingStats.at_bats s) (BattingStats.hits s)
    (BattingStats.runs s) (BattingStats.rbis s) (BattingStats.doubles s)
    (BattingStats.triples s) (BattingStats.home_runs s) value
    (BattingStats.strikeouts s) (BattingStats.batting_average s)
    (BattingStats.on_base_percentage s)
    (BattingStats.slugging_percentage s) (BattingStats.ops s).
Definition strikeouts (value : Z) (s : BattingStats.t) : BattingStats.t :=
  BattingStats.make (BattingStats.player_name s) (BattingStats.team s)
    (BattingStats.games s) (BattingStats.at_bats s) (BattingStats.hits s)
    (BattingStats.runs s) (BattingStats.rbis s) (BattingStats.doubles s)
    (BattingStats.triples s) (BattingStats.home_runs s)
    (BattingStats.walks s) value (BattingStats.batting_average s)
    (BattingStats.on_base_percentage s)
    (BattingStats.slugging_percentage s) (BattingStats.ops s).
Definition batting_average (value : Py.float) (s : BattingStats.t) : BattingStats.t :=
  BattingStats.make (BattingStats.player_name s) (BattingStats.team s)
    (BattingStats.games s) (BattingStats.at_bats s) (BattingStats.hits s)
    (BattingStats.runs s) (BattingStats.rbis s) (BattingStats.doubles s)
    (BattingStats.triples s) (BattingStats.home_runs s)
    (BattingStats.walks s) (BattingStats.strikeouts s) value
    (BattingStats.on_base_percentage s)
    (BattingStats.slugging_percentage s) (BattingStats.ops s).
Definition on_base_percentage (value : Py.float) (s : BattingStats.t) : BattingStats.t :=
  BattingStats.make (BattingStats.player_name s) (BattingStats.team s)
    (BattingStats.games s) (BattingStats.at_bats s) (BattingStats.hits s)
    (BattingStats.runs s) (BattingStats.rbis s) (BattingStats.doubles s)
    (BattingStats.triples s) (BattingStats.home_runs s)
    (BattingStats.walks s) (BattingStats.strikeouts s)
    (BattingStats.batting_average s) value
    (BattingStats.slugging_percentage s) (BattingStats.ops s).
Definition slugging_percentage (value : Py.float) (s : BattingStats.t) : BattingStats.t :=
  BattingStats.make (BattingStats.player_name s) (BattingStats.team s)
    (BattingStats.games s) (BattingStats.at_bats s) (BattingStats.hits s)
    (BattingStats.runs s) (BattingStats.rbis s) (BattingStats.doubles s)
    (BattingStats.triples s) (BattingStats.home_runs s)
    (BattingStats.walks s) (BattingStats.strikeouts s)
    (BattingStats.batting_average s) (BattingStats.on_base_percentage s)
    value (BattingStats.ops s).
Definition ops (value : Py.float) (s : BattingStats.t) : BattingStats.t :=
  BattingStats.make (BattingStats.player_name s) (BattingStats.team s)
    (BattingStats.games s) (BattingStats.at_bats s) (BattingStats.hits s)
    (BattingStats.runs s) (BattingStats.rbis s) (BattingStats.doubles s)
    (BattingStats.triples s) (BattingStats.home_runs s)
    (BattingStats.walks s) (BattingStats.strikeouts s)
    (BattingStats.batting_average s) (BattingStats.on_base_percentage s)
    (BattingStats.slugging_percentage s) value.
End BattingAssign.

(** [stats[field] = value] on a pitching stats dict, field by field. *)
Module PitchingAssign.
Definition player_name (value : string) (s : PitchingStats.t) : PitchingStats.t :=
  PitchingStats.make value (PitchingStats.team s) (PitchingStats.games s)
    (PitchingStats.wins s) (PitchingStats.losses s) (PitchingStats.saves s)
    (PitchingStats.innings_pitched s) (PitchingStats.hits_allowed s)
    (PitchingStats.runs_allowed s) (PitchingStats.earned_runs s)
    (PitchingStats.walks_allowed s) (PitchingStats.strikeouts s)
    (PitchingStats.home_runs_allowed s) (PitchingStats.era s)
    (PitchingStats.whip s).
Definition team (value : string) (s : PitchingStats.t) : PitchingStats.t :=
  PitchingStats.make (PitchingStats.player_name s) value
    (PitchingStats.games s) (PitchingStats.wins s) (PitchingStats.losses s)
    (PitchingStats.saves s) (PitchingStats.innings_pitched s)
    (PitchingStats.hits_allowed s) (PitchingStats.runs_allowed s)
    (PitchingStats.earned_runs s) (PitchingStats.walks_allowed s)
    (PitchingStats.strikeouts s) (PitchingStats.home_runs_allowed s)
    (PitchingStats.era s) (PitchingStats.whip s).
Definition games (value : Z) (s : PitchingStats.t) : PitchingStats.t :=
  PitchingStats.make (PitchingStats.player_name s) (PitchingStats.team s)
    value (PitchingStats.wins s) (PitchingStats.losses s)
    (PitchingStats.saves s) (PitchingStats.innings_pitched s)
    (PitchingStats.hits_allowed s) (PitchingStats.runs_allowed s)
    (PitchingStats.earned_runs s) (PitchingStats.walks_allowed s)
    (PitchingStats.strikeouts s) (PitchingStats.home_runs_allowed s)
    (PitchingStats.era s) (PitchingStats.whip s).
Definition wins (value : Z) (s : PitchingStats.t) : PitchingStats.t :=
  PitchingStats.make (PitchingStats.player_name s) (PitchingStats.team s)
    (PitchingStats.games s) value (PitchingStats.losses s)
    (PitchingStats.saves s) (PitchingStats.innings_pitched s)
    (PitchingStats.hits_allowed s) (PitchingStats.runs_allowed s)
    (PitchingStats.earned_runs s) (PitchingStats.walks_allowed s)
    (PitchingStats.strikeouts s) (PitchingStats.home_runs_allowed s)
    (PitchingStats.era s) (PitchingStats.whip s).
Definition losses (value : Z) (s : PitchingStats.t) : PitchingStats.t :=
  PitchingStats.make (PitchingStats.player_name s) (PitchingStats.team s)
    (PitchingStats.games s) (PitchingStats.wins s) value
    (PitchingStats.saves s) (PitchingStats.innings_pitched s)
    (PitchingStats.hits_allowed s) (PitchingStats.runs_allowed s)
    (PitchingStats.earned_runs s) (PitchingStats.walks_allowed s)
    (PitchingStats.strikeouts s) (PitchingStats.home_runs_allowed s)
    (PitchingStats.era s) (PitchingStats.whip s).
Definition saves (value : Z) (s : PitchingStats.t) : PitchingStats.t :=
  PitchingStats.make (PitchingStats.player_name s) (PitchingStats.team s)
    (PitchingStats.games s) (PitchingStats.wins s) (PitchingStats.losses s)
    value (PitchingStats.innings_pitched s) (PitchingStats.hits_allowed s)
    (PitchingStats.runs_allowed s) (PitchingStats.earned_runs s)
    (PitchingStats.walks_allowed s) (PitchingStats.strikeouts s)
    (PitchingStats.home_runs_allowed s) (PitchingStats.era s)
    (PitchingStats.whip s).
Definition innings_pitched (value : Py.float) (s : PitchingStats.t) : PitchingStats.t :=
  PitchingStats.make (PitchingStats.player_name s) (PitchingStats.team s)
    (PitchingStats.games s) (PitchingStats.wins s) (PitchingStats.losses s)
    (PitchingStats.saves s) value (PitchingStats.hits_allowed s)
    (PitchingStats.runs_allowed s) (PitchingStats.earned_runs s)
    (PitchingStats.walks_allowed s) (PitchingStats.strikeouts s)
    (PitchingStats.home_runs_allowed s) (PitchingStats.era s)
    (PitchingStats.whip s).
Definition hits_allowed (value : Z) (s : PitchingStats.t) : PitchingStats.t :=
  PitchingStats.make (PitchingStats.player_name s) (PitchingStats.team s)
    (PitchingStats.games s) (PitchingStats.wins s) (PitchingStats.losses s)
    (PitchingStats.saves s) (PitchingStats.innings_pitched s) value
    (PitchingStats.runs_allowed s) (PitchingStats.earned_runs s)
    (PitchingStats.walks_allowed s) (PitchingStats.strikeouts s)
    (PitchingStats.home_runs_allowed s) (PitchingStats.era s)
    (PitchingStats.whip s).
Definition runs_allowed (value : Z) (s : PitchingStats.t) : PitchingStats.t :=
  PitchingStats.make (PitchingStats.player_name s) (PitchingStats.team s)
    (PitchingStats.games s) (PitchingStats.wins s) (PitchingStats.losses s)
    (PitchingStats.saves s) (PitchingStats.innings_pitched s)
    (PitchingStats.hits_allowed s) value (PitchingStats.earned_runs s)
    (PitchingStats.walks_allowed s) (PitchingStats.strikeouts s)
    (PitchingStats.home_runs_allowed s) (PitchingStats.era s)
    (PitchingStats.whip s).
Definition earned_runs (value : Z) (s : PitchingStats.t) : PitchingStats.t :=
  PitchingStats.make (PitchingStats.player_name s) (PitchingStats.team s)
    (PitchingStats.games s) (PitchingStats.wins s) (PitchingStats.losses s)
    (PitchingStats.saves s) (PitchingStats.innings_pitched s)
    (PitchingStats.hits_allowed s) (PitchingStats.runs_allowed s) value
    (PitchingStats.walks_allowed s) (PitchingStats.strikeouts s)
    (PitchingStats.home_runs_allowed s) (PitchingStats.era s)
    (PitchingStats.whip s).
Definition walks_allowed (value : Z) (s : PitchingStats.t) : PitchingStats.t :=
  PitchingStats.make (PitchingStats.player_name s) (PitchingStats.team s)
    (PitchingStats.games s) (PitchingStats.wins s) (PitchingStats.losses s)
    (PitchingStats.saves s) (PitchingStats.innings_pitched s)
    (PitchingStats.hits_allowed s) (PitchingStats.runs_allowed s)
    (PitchingStats.earned_runs s) value (PitchingStats.strikeouts s)
    (PitchingStats.home_runs_allowed s) (PitchingStats.era s)
    (PitchingStats.whip s).
Definition strikeouts (value : Z) (s : PitchingStats.t) : PitchingStats.t :=
  PitchingStats.make (PitchingStats.player_name s) (PitchingStats.team s)
    (PitchingStats.games s) (PitchingStats.wins s) (PitchingStats.losses s)
    (PitchingStats.saves s) (PitchingStats.innings_pitched s)
    (PitchingStats.hits_allowed s) (PitchingStats.runs_allowed s)
    (PitchingStats.earned_runs s) (PitchingStats.walks_allowed s) value
    (PitchingStats.home_runs_allowed s) (PitchingStats.era s)
    (PitchingStats.whip s).
Definition home_runs_allowed (value : Z) (s : PitchingStats.t) : PitchingStats.t :=
  PitchingStats.make (PitchingStats.player_name s) (PitchingStats.team s)
    (PitchingStats.games s) (PitchingStats.wins s) (PitchingStats.losses s)
    (PitchingStats.saves s) (PitchingStats.innings_pitched s)
    (PitchingStats.hits_allowed s) (PitchingStats.runs_allowed s)
    (PitchingStats.earned_runs s) (PitchingStats.walks_allowed s)
    (PitchingStats.strikeouts s) value (PitchingStats.era s)
    (PitchingStats.whip s).
Definition era (value : Py.float) (s : PitchingStats.t) : PitchingStats.t :=
  PitchingStats.make (PitchingStats.player_name s) (PitchingStats.team s)
    (PitchingStats.games s) (PitchingStats.wins s) (PitchingStats.losses s)
    (PitchingStats.saves s) (PitchingStats.innings_pitched s)
    (PitchingStats.hits_allowed s) (PitchingStats.runs_allowed s)
    (PitchingStats.earned_runs s) (PitchingStats.walks_allowed s)
    (PitchingStats.strikeouts s) (PitchingStats.home_runs_allowed s) value
    (PitchingStats.whip s).
Definition whip (value : Py.float) (s : PitchingStats.t) : PitchingStats.t :=
  PitchingStats.make (PitchingStats.player_name s) (PitchingStats.team s)
    (PitchingStats.games s) (PitchingStats.wins s) (PitchingStats.losses s)
    (PitchingStats.saves s) (PitchingStats.innings_pitched s)
    (PitchingStats.hits_allowed s) (PitchingStats.runs_allowed s)
    (PitchingStats.earned_runs s) (PitchingStats.walks_allowed s)
    (PitchingStats.strikeouts s) (PitchingStats.home_runs_allowed s)
    (PitchingStats.era s) value.
End PitchingAssign.

Module Call.
Import Py.

Definition ref : Type := nat.

(** A [defaultdict] carries its factory: the object a missing key is
    given. *)
Inductive object : Type :=
| ListObj (items : list ref)
| GameObj (game : GameObject.t)
| BattingLineObj (player : BattingLine.t)
| PitchingLineObj (player : PitchingLine.t)
| BattingStatsObj (stats : BattingStats.t)
| PitchingStatsObj (stats : PitchingStats.t)
| DefaultDict (factory : object) (items : Dict.t ref).

Definition heap : Type := list object.

Inductive outcome (A : Type) : Type :=
| Returns (a : A)
| Raises (e : exn)
| Wrong.
Arguments Returns {A} a.
Arguments Raises {A} e.
Arguments Wrong {A}.

Definition M (A : Type) : Type := heap -> outcome A * heap.

Definition ret {A : Type} (a : A) : M A := fun h => (Returns a, h).

Definition wrong {A : Type} : M A := fun h => (Wrong, h).

Definition lift {A : Type} (r : result A) : M A :=
  fun h => (match r with Ok a => Returns a | Raise e => Raises e end, h).

Definition bindM {A B : Type} (m : M A) (k : A -> M B) : M B :=
  fun h =>
    match m h with
    | (Returns a, h') => k a h'
    | (Raises e, h') => (Raises e, h')
    | (Wrong, h') => (Wrong, h')
    end.

Notation "x <~ m ;; k" := (bindM m (fun x => k))
  (at level 61, m at next level, right associativity).

(** ** Objects *)

Fixpoint store (r : ref) (o : object) (h : heap) : heap :=
  match h, r with
  | [], _ => []
  | _ :: h', O => o :: h'
  | x :: h', Datatypes.S r' => x :: store r' o h'
  end.

Definition read (r : ref) : M object :=
  fun h =>
    match nth_error h r with
    | Some o => (Returns o, h)
    | None => (Wrong, h)
    end.

Definition write (r : ref) (o : object) : M unit :=
  fun h =>
    match nth_error h r with
    | Some _ => (Returns tt, store r o h)
    | None => (Wrong, h)
    end.

(** A new object gets the next reference. *)
Definition alloc (o : object) : M ref :=
  fun h => (Returns (List.length h), h ++ [o]).

Definition as_list (o : object) : option (list ref) :=
  match o with ListObj items => Some items | _ => None end.
Definition as_game (o : object) : option GameObject.t :=
  match o with GameObj game => Some game | _ => None end.
Definition as_batting_line (o : object) : option BattingLine.t :=
  match o with BattingLineObj player => Some player | _ => None end.
Definition as_pitching_line (o : object) : option PitchingLine.t :=
  match o with PitchingLineObj player => Some player | _ => None end.
Definition as_batting_stats (o : object) : option BattingStats.t :=
  match o with BattingStatsObj stats => Some stats | _ => None end.
Definition as_pitching_stats (o : object) : option PitchingStats.t :=
  match o with PitchingStatsObj stats => Some stats | _ => None end.
Definition as_dict (o : object) : option (object * Dict.t ref) :=
  match o with
  | DefaultDict factory items => Some (factory, items)
  | _ => None
  end.

(** The object at [r], which the code takes for a list, a game, ... *)
Definition read_as {X : Type} (view : object -> option X) (r : ref) : M X :=
  o <~ read r ;;
  match view o with
  | Some x => ret x
  | None => wrong
  end.

(** ** Loops *)

(** An iterator asks for the item at index [i], turn after turn, until
    there is none.  The fuel is enough when the body leaves the length
    of what is iterated as it was. *)
Fixpoint for_index {X : Type} (fuel i : nat) (item : nat -> M (option X))
         (body : X -> M unit) : M unit :=
  match fuel with
  | O => wrong
  | Datatypes.S fuel' =>
      x <~ item i ;;
      match x with
      | None => ret tt
      | Some x =>
          _ <~ body x ;;
          for_index fuel' (Datatypes.S i) item body
      end
  end.

Definition list_item (l : ref) (i : nat) : M (option ref) :=
  items <~ read_as as_list l ;;
  ret (nth_error items i).

(** [for x in l: body] *)
Definition for_in (l : ref) (body : ref -> M unit) : M unit :=
  items <~ read_as as_list l ;;
  for_index (Datatypes.S (List.length items)) 0 (list_item l) body.

Definition dict_item (d : ref) (i : nat) : M (option (string * ref)) :=
  dict <~ read_as as_dict d ;;
  ret (nth_error (snd dict) i).

(** [for key, value in d.items(): body] *)
Definition for_items (d : ref) (body : string * ref -> M unit) : M unit :=
  dict <~ read_as as_dict d ;;
  for_index (Datatypes.S (List.length (snd dict))) 0 (dict_item d) body.

(** ** Stats dicts *)

(** [d[key]] for a [defaultdict]: a missing key gets a new object made
    by the factory, which is stored under the key and returned. *)
Definition getitem (d : ref) (key : string) : M ref :=
  dict <~ read_as as_dict d ;;
  match Dict.lookup key (snd dict) with
  | Some r => ret r
  | None =>
      r <~ alloc (fst dict) ;;
      _ <~ write d (DefaultDict (fst dict) (Dict.setitem key r (snd dict))) ;;
      ret r
  end.

(** [stats[key] = ...] and [stats[key] += ...], for the stats dict at
    [r]: the right-hand side reads the dict and may raise, and the dict
    is then written with the key assigned. *)
Definition assign {V : Type} (view : object -> option V) (wrap : V -> object)
           (r : ref) (statement : V -> result V) : M unit :=
  stats <~ read_as view r ;;
  stats' <~ lift (statement stats) ;;
  write r (wrap stats').

(** Assignments to the keys of the stats dict at [r], one after the
    other: when one raises, the dict keeps what was assigned before
    it. *)
Fixpoint modify {V : Type} (view : object -> option V) (wrap : V -> object)
         (r : ref) (statements : list (V -> result V)) : M unit :=
  match statements with
  | [] => ret tt
  | statement :: rest =>
      _ <~ assign view wrap r statement ;;
      modify view wrap r rest
  end.

(** The assignments of a batting loop body. *)
Definition batting_statements (team : string) (player : BattingLine.t)
  : list (BattingStats.t -> result BattingStats.t) :=
  [ fun stats =>
      Ok (BattingAssign.player_name
            (get (BattingLine.name player) "Unknown"%string) stats);
    fun stats => Ok (BattingAssign.team team stats);
    fun stats =>
      Ok (BattingAssign.games (BattingStats.games stats + 1) stats);
    fun stats =>
      n <- int (get (BattingLine.at_bats player) (PInt 0)) ;;
      Ok (BattingAssign.at_bats (BattingStats.at_bats stats + n) stats);
    fun stats =>
      n <- int (get (BattingLine.hits player) (PInt 0)) ;;
      Ok (BattingAssign.hits (BattingStats.hits stats + n) stats);
    fun stats =>
      n <- int (get (BattingLine.runs player) (PInt 0)) ;;
      Ok (BattingAssign.runs (BattingStats.runs stats + n) stats);
    fun stats =>
      n <- int (get (BattingLine.rbis player) (PInt 0)) ;;
      Ok (BattingAssign.rbis (BattingStats.rbis stats + n) stats);
    fun stats =>
      n <- int (get (BattingLine.doubles player) (PInt 0)) ;;
      Ok (BattingAssign.doubles (BattingStats.doubles stats + n) stats);
    fun stats =>
      n <- int (get (BattingLine.triples player) (PInt 0)) ;;
      Ok (BattingAssign.triples (BattingStats.triples stats + n) stats);
    fun stats =>
      n <- int (get (BattingLine.home_runs player) (PInt 0)) ;;
      Ok (BattingAssign.home_runs (BattingStats.home_runs stats + n) stats);
    fun stats =>
      n <- int (get (BattingLine.walks player) (PInt 0)) ;;
      Ok (BattingAssign.walks (BattingStats.walks stats + n) stats);
    fun stats =>
      n <- int (get (BattingLine.strikeouts player) (PInt 0)) ;;
      Ok (BattingAssign.strikeouts (BattingStats.strikeouts stats + n)
                                   stats) ].

(** The assignments of a pitching loop body. *)
Definition pitching_statements (team : string) (player : PitchingLine.t)
  : list (PitchingStats.t -> result PitchingStats.t) :=
  [ fun stats =>
      Ok (PitchingAssign.player_name
            (get (PitchingLine.name player) "Unknown"%string) stats);
    fun stats => Ok (PitchingAssign.team team stats);
    fun stats =>
      Ok (PitchingAssign.games (PitchingStats.games stats + 1) stats);
    fun stats =>
      n <- int (get (PitchingLine.wins player) (PInt 0)) ;;
      Ok (PitchingAssign.wins (PitchingStats.wins stats + n) stats);
    fun stats =>
      n <- int (get (PitchingLine.losses player) (PInt 0)) ;;
      Ok (PitchingAssign.losses (PitchingStats.losses stats + n) stats);
    fun stats =>
      n <- int (get (PitchingLine.saves player) (PInt 0)) ;;
      Ok (PitchingAssign.saves (PitchingStats.saves stats + n) stats);
    fun stats =>
      x <- to_float (get (PitchingLine.innings_pitched player) (PInt 0)) ;;
      Ok (PitchingAssign.innings_pitched
            (fadd (PitchingStats.innings_pitched stats) x) stats);
    fun stats =>
      n <- int (get (PitchingLine.hits_allowed player) (PInt 0)) ;;
      Ok (PitchingAssign.hits_allowed
            (PitchingStats.hits_allowed stats + n) stats);
    fun stats =>
      n <- int (get (PitchingLine.runs_allowed player) (PInt 0)) ;;
      Ok (PitchingAssign.runs_allowed
            (PitchingStats.runs_allowed stats + n) stats);
    fun stats =>
      n <- int (get (PitchingLine.earned_runs player) (PInt 0)) ;;
      Ok (PitchingAssign.earned_runs
            (PitchingStats.earned_runs stats + n) stats);
    fun stats =>
      n <- int (get (PitchingLine.walks_allowed player) (PInt 0)) ;;
      Ok (PitchingAssign.walks_allowed
            (PitchingStats.walks_allowed stats + n) stats);
    fun stats =>
      n <- int (get (PitchingLine.strikeouts player) (PInt 0)) ;;
      Ok (PitchingAssign.strikeouts
            (PitchingStats.strikeouts stats + n) stats);
    fun stats =>
      n <- int (get (PitchingLine.home_runs_allowed player) (PInt 0)) ;;
      Ok (PitchingAssign.home_runs_allowed
            (PitchingStats.home_runs_allowed stats + n) stats) ].

(** One turn of a loop over the lines of a side: the line dict is
    read, its stats dict is fetched from the [defaultdict] (or made),
    and the assignments are run on it.  [team_of] is the name the loop
    reads in the game dict. *)
Section Turn.
Context {L V : Type}.
Variable line_view : object -> option L.
Variable view : object -> option V.
Variable wrap : V -> object.
Variable key : L -> string.
Variable statements : string -> L -> list (V -> result V).

Definition turn (team_of : GameObject.t -> option string)
           (game stats_dict player : ref) : M unit :=
  line <~ read_as line_view player ;;
  stats <~ getitem stats_dict (key line) ;;
  g <~ read_as as_game game ;;
  modify view wrap stats
         (statements (get (team_of g) "Unknown"%string) line).

(** The two loops of [_process_game_batting_stats], and of
    [_process_game_pitching_stats]: [game.get(side, [])] makes its
    default list before it looks the key up. *)
Definition process_sides (home away : GameObject.t -> option ref)
           (game stats_dict : ref) : M unit :=
  empty <~ alloc (ListObj []) ;;
  g <~ read_as as_game game ;;
  _ <~ for_in (get (home g) empty)
              (turn GameObject.home_team game stats_dict) ;;
  empty <~ alloc (ListObj []) ;;
  g <~ read_as as_game game ;;
  for_in (get (away g) empty) (turn GameObject.away_team game stats_dict).

(** The loop of [_calculate_batting_averages], and of
    [_calculate_pitching_averages]: the derived fields are assigned in
    the stats dict itself, and a copy of it is appended to the list
    that is returned. *)
Definition calculate_averages (averages : list (V -> result V))
           (stats_dict : ref) : M ref :=
  result_list <~ alloc (ListObj []) ;;
  _ <~ for_items stats_dict (fun item =>
         _ <~ modify view wrap (snd item) averages ;;
         stats <~ read_as view (snd item) ;;
         copy <~ alloc (wrap stats) ;;
         items <~ read_as as_list result_list ;;
         write result_list (ListObj (items ++ [copy]))) ;;
  ret result_list.
End Turn.

Definition _process_game_batting_stats (game batting_stats : ref) : M unit :=
  process_sides as_batting_line as_batting_stats BattingStatsObj
                StatsCalculator.batting_key batting_statements
                GameObject.home_team_batting GameObject.away_team_batting
                game batting_stats.

Definition _process_game_pitching_stats (game pitching_stats : ref)
  : M unit :=
  process_sides as_pitching_line as_pitching_stats PitchingStatsObj
                StatsCalculator.pitching_key pitching_statements
                GameObject.home_team_pitching GameObject.away_team_pitching
                game pitching_stats.

(** The assignments of the loop body of [_calculate_batting_averages]. *)
Definition batting_averages_statements
  : list (BattingStats.t -> result BattingStats.t) :=
  [ fun stats =>
      if BattingStats.at_bats stats >? 0 then
        q <- int_truediv (BattingStats.hits stats)
                         (BattingStats.at_bats stats) ;;
        r <- round q 3 ;;
        Ok (BattingAssign.batting_average r stats)
      else Ok stats;
    fun stats =>
      let plate_appearances :=
        BattingStats.at_bats stats + BattingStats.walks stats in
      if plate_appearances >? 0 then
        let on_base := BattingStats.hits stats + BattingStats.walks stats in
        q <- int_truediv on_base plate_appearances ;;
        r <- round q 3 ;;
        Ok (BattingAssign.on_base_percentage r stats)
      else Ok stats;
    fun stats =>
      if BattingStats.at_bats stats >? 0 then
        let total_bases :=
          BattingStats.hits stats - BattingStats.doubles stats
          - BattingStats.triples stats - BattingStats.home_runs stats
          + (BattingStats.doubles stats * 2)
          + (BattingStats.triples stats * 3)
          + (BattingStats.home_runs stats * 4) in
        q <- int_truediv total_bases (BattingStats.at_bats stats) ;;
        r <- round q 3 ;;
        Ok (BattingAssign.slugging_percentage r stats)
      else Ok stats;
    fun stats =>
      r <- round (fadd (BattingStats.on_base_percentage stats)
                       (BattingStats.slugging_percentage stats)) 3 ;;
      Ok (BattingAssign.ops r stats) ].

Definition pitching_averages_statements
  : list (PitchingStats.t -> result PitchingStats.t) :=
  [ fun stats =>
      if float_gt_0 (PitchingStats.innings_pitched stats) then
        q <- int_float_truediv (PitchingStats.earned_runs stats * 9)
                               (PitchingStats.innings_pitched stats) ;;
        r <- round q 2 ;;
        Ok (PitchingAssign.era r stats)
      else Ok stats;
    fun stats =>
      if float_gt_0 (PitchingStats.innings_pitched stats) then
        q <- int_float_truediv
               (PitchingStats.hits_allowed stats
                + PitchingStats.walks_allowed stats)
               (PitchingStats.innings_pitched stats) ;;
        r <- round q 2 ;;
        Ok (PitchingAssign.whip r stats)
      else Ok stats ].

Definition _calculate_batting_averages (batting_stats : ref) : M ref :=
  calculate_averages as_batting_stats BattingStatsObj
                     batting_averages_statements batting_stats.

Definition _calculate_pitching_averages (pitching_stats : ref) : M ref :=
  calculate_averages as_pitching_stats PitchingStatsObj
                     pitching_averages_statements pitching_stats.

(** [calculate_aggregate_stats(games)], for the reference [games] the
    caller passes: the two references of the tuple it returns. *)
Definition calculate_aggregate_stats (games : ref) : M (ref * ref) :=
  batting_stats <~
    alloc (DefaultDict (BattingStatsObj BattingStats.default) []) ;;
  pitching_stats <~
    alloc (DefaultDict (PitchingStatsObj PitchingStats.default) []) ;;
  _ <~ for_in games (fun game =>
         _ <~ _process_game_batting_stats game batting_stats ;;
         _process_game_pitching_stats game pitching_stats) ;;
  batting_list <~ _calculate_batting_averages batting_stats ;;
  pitching_list <~ _calculate_pitching_averages pitching_stats ;;
  ret (batting_list, pitching_list).

(** ** What a reference stands for

    The value of a list of games, of a game, of a list of lines, as the
    rest of the file has them: the objects reached from a reference,
    read in a heap.  An object met twice is read twice. *)

Fixpoint all_some {A : Type} (l : list (option A)) : option (list A) :=
  match l with
  | [] => Some []
  | Some a :: l' =>
      match all_some l' with
      | Some t => Some (a :: t)
      | None => None
      end
  | None :: _ => None
  end.

Definition object_at {X : Type} (view : object -> option X) (h : heap)
           (r : ref) : option X :=
  match nth_error h r with
  | Some o => view o
  | None => None
  end.

Definition list_at {X : Type} (view : object -> option X) (h : heap)
           (r : ref) : option (list X) :=
  match object_at as_list h r with
  | Some items => all_some (map (object_at view h) items)
  | None => None
  end.

(** A side of a game: the key is absent, or holds a list of lines. *)
Definition side_at {X : Type} (view : object -> option X) (h : heap)
           (field : option ref) : option (option (list X)) :=
  match field with
  | None => Some None
  | Some r =>
      match list_at view h r with
      | Some lines => Some (Some lines)
      | None => None
      end
  end.

Definition game_of (h : heap) (g : GameObject.t) : option Game.t :=
  match side_at as_batting_line h (GameObject.home_team_batting g),
        side_at as_batting_line h (GameObject.away_team_batting g),
        side_at as_pitching_line h (GameObject.home_team_pitching g),
        side_at as_pitching_line h (GameObject.away_team_pitching g) with
  | Some home_batting, Some away_batting,
    Some home_pitching, Some away_pitching =>
      Some (Game.make (GameObject.home_team g) (GameObject.away_team g)
                      (GameObject.home_score g) (GameObject.away_score g)
                      home_batting away_batting
                      home_pitching away_pitching)
  | _, _, _, _ => None
  end.

Definition game_at (h : heap) (r : ref) : option Game.t :=
  match object_at as_game h r with
  | Some g => game_of h g
  | None => None
  end.

Definition games_at (h : heap) (r : ref) : option (list Game.t) :=
  match object_at as_list h r with
  | Some items => all_some (map (game_at h) items)
  | None => None
  end.

(** What the call returned, read in the heap it left. *)
Definition result_at (h : heap) (out : outcome (ref * ref))
  : outcome (list BattingStats.t * list PitchingStats.t) :=
  match out with
  | Returns (batting_list, pitching_list) =>
      match list_at as_batting_stats h batting_list,
            list_at as_pitching_stats h pitching_list with
      | Some bl, Some pl => Returns (bl, pl)
      | _, _ => Wrong
      end
  | Raises e => Raises e
  | Wrong => Wrong
  end.

(** The outcome of the call as the rest of the file computes it. *)
Definition of_result {A : Type} (r : result A) : outcome A :=
  match r with
  | Ok a => Returns a
  | Raise e => Raises e
  end.

End Call.

(* ================================================================= *)
(** * What a call may touch *)

Module Footprint.
Import Py Call.

(** The objects of [h] that [P] selects are in [h'] as they were. *)
Definition keeps (P : ref -> object -> Prop) (h h' : heap) : Prop :=
  forall r o, nth_error h r = Some o -> P r o -> nth_error h' r = Some o.

(** What a caller passes in: lists, game dicts and line dicts. *)
Definition input (o : object) : Prop :=
  match o with
  | ListObj _ | GameObj _ | BattingLineObj _ | PitchingLineObj _ => True
  | _ => False
  end.

(** Objects were added, and no object the caller had (a reference
    below [n0]) nor any list, game or line was written. *)
Definition grows (n0 : nat) (h h' : heap) : Prop :=
  (List.length h <= List.length h')%nat
  /\ keeps (fun r o => (r < n0)%nat \/ input o) h h'.

(** The outcome of a statement that returns nothing. *)
Definition done {S : Type} (r : result S) : outcome unit :=
  match r with
  | Ok _ => Returns tt
  | Raise e => Raises e
  end.

(** What assignments make of a stats dict, one after the other: the
    dict after the last one that did not raise, and whether one
    raised. *)
Fixpoint run_statements {V : Type} (statements : list (V -> result V))
         (stats : V) : V * result unit :=
  match statements with
  | [] => (stats, Ok tt)
  | statement :: rest =>
      match statement stats with
      | Ok stats' => run_statements rest stats'
      | Raise e => (stats, Raise e)
      end
  end.

Section Kind.
Context {V : Type}.
Variable wrap : V -> object.
Variable default : V.

(** The objects a call makes for one kind of statistics: the
    [defaultdict] and the stats dicts. *)
Definition owned (o : object) : Prop :=
  (exists v, o = wrap v)
  \/ (exists items, o = DefaultDict (wrap default) items).

(** Objects were added, and the only objects written are owned ones
    made since the call began (references from [n0] on). *)
Definition frame (n0 : nat) (h h' : heap) : Prop :=
  (List.length h <= List.length h')%nat
  /\ keeps (fun r o => (r < n0)%nat \/ ~ owned o) h h'.

(** The [defaultdict] at [d] stands for [dict]: it has the same keys in
    the same order, under each key a reference to a stats dict of its
    own that holds the value [dict] has there, and all of it was made
    since the call began. *)
Definition holds (n0 : nat) (h : heap) (d : ref) (items : Dict.t ref)
           (dict : Dict.t V) : Prop :=
  nth_error h d = Some (DefaultDict (wrap default) items)
  /\ (n0 <= d)%nat
  /\ Forall2 (fun ir kv => fst ir = fst kv
                           /\ nth_error h (snd ir) = Some (wrap (snd kv)))
             items dict
  /\ Forall (fun ir => (n0 <= snd ir)%nat) items
  /\ NoDup (map snd items).

(** One turn of a loop over lines, on the dict the [defaultdict]
    stands for. *)
Definition add_line {L : Type} (key : L -> string)
           (update : string -> L -> V -> result V)
           (team : string) (line : L) (dict : Dict.t V)
  : result (Dict.t V) :=
  stats' <- update team line (Dict.getitem default (key line) dict) ;;
  Ok (Dict.setitem (key line) stats' dict).
End Kind.

End Footprint.

(* ================================================================= *)
(** * Vocabulary of the statements *)

Module Lines.
Import Py StatsCalculator.

(** The batting lines of a game in the order the loops visit them, each
    with the team name its loop records. *)
Definition game_batting (game : Game.t) : list (string * BattingLine.t) :=
  map (pair (get (Game.home_team game) "Unknown"%string))
      (get (Game.home_team_batting game) [])
  ++ map (pair (get (Game.away_team game) "Unknown"%string))
         (get (Game.away_team_batting game) []).

Definition game_pitching (game : Game.t) : list (string * PitchingLine.t) :=
  map (pair (get (Game.home_team game) "Unknown"%string))
      (get (Game.home_team_pitching game) [])
  ++ map (pair (get (Game.away_team game) "Unknown"%string))
         (get (Game.away_team_pitching game) []).

Definition batting (games : list Game.t) : list (string * BattingLine.t) :=
  flat_map game_batting games.

Definition pitching (games : list Game.t) : list (string * PitchingLine.t) :=
  flat_map game_pitching games.

Definition bkey (l : string * BattingLine.t) : string := batting_key (snd l).
Definition pkey (l : string * PitchingLine.t) : string := pitching_key (snd l).

(** The lines whose accumulation key is [k], in processing order. *)
Definition batting_of (k : string) (games : list Game.t)
  : list (string * BattingLine.t) :=
  filter (fun l => String.eqb (bkey l) k) (batting games).

Definition pitching_of (k : string) (games : list Game.t)
  : list (string * PitchingLine.t) :=
  filter (fun l => String.eqb (pkey l) k) (pitching games).

(** Keys in the order of their first appearance. *)
Fixpoint first_seen (seen : list string) (ks : list string) : list string :=
  match ks with
  | [] => seen
  | k :: ks' =>
      first_seen (if existsb (String.eqb k) seen then seen else seen ++ [k])
                 ks'
  end.

Definition batting_keys (games : list Game.t) : list string :=
  first_seen [] (map bkey (batting games)).

Definition pitching_keys (games : list Game.t) : list string :=
  first_seen [] (map pkey (pitching games)).

(** The record a result list holds for the key [k]: the lists returned
    by [calculate_aggregate_stats] follow the order of the keys. *)
Definition record_for {R : Type} (keys : list string) (records : list R)
           (k : string) : option R :=
  Dict.lookup k (combine keys records).

(** The key the specification describes: [player_id] when present and
    not empty, else the marker followed by the name. *)
Definition spec_key (player_id name : option string) : string :=
  match player_id with
  | Some id =>
      if String.eqb id "" then ("unknown_" ++ get name "unnamed")%string
      else id
  | None => ("unknown_" ++ get name "unnamed")%string
  end.

(** Every counting field of the two records agrees. *)
Definition same_batting_counts (a b : BattingStats.t) : Prop :=
  BattingStats.games a = BattingStats.games b
  /\ BattingStats.at_bats a = BattingStats.at_bats b
  /\ BattingStats.hits a = BattingStats.hits b
  /\ BattingStats.runs a = BattingStats.runs b
  /\ BattingStats.rbis a = BattingStats.rbis b
  /\ BattingStats.doubles a = BattingStats.doubles b
  /\ BattingStats.triples a = BattingStats.triples b
  /\ BattingStats.home_runs a = BattingStats.home_runs b
  /\ BattingStats.walks a = BattingStats.walks b
  /\ BattingStats.strikeouts a = BattingStats.strikeouts b.

Definition same_batting_rates (a b : BattingStats.t) : Prop :=
  BattingStats.batting_average a = BattingStats.batting_average b
  /\ BattingStats.on_base_percentage a = BattingStats.on_base_percentage b
  /\ BattingStats.slugging_percentage a = BattingStats.slugging_percentage b
  /\ BattingStats.ops a = BattingStats.ops b.

Definition same_batting_numbers (a b : BattingStats.t) : Prop :=
  same_batting_counts a b /\ same_batting_rates a b.

(** Every integer counting field of the two records agrees
    ([innings_pitched], a float, is left out). *)
Definition same_pitching_counts (a b : PitchingStats.t) : Prop :=
  PitchingStats.games a = PitchingStats.games b
  /\ PitchingStats.wins a = PitchingStats.wins b
  /\ PitchingStats.losses a = PitchingStats.losses b
  /\ PitchingStats.saves a = PitchingStats.saves b
  /\ PitchingStats.hits_allowed a = PitchingStats.hits_allowed b
  /\ PitchingStats.runs_allowed a = PitchingStats.runs_allowed b
  /\ PitchingStats.earned_runs a = PitchingStats.earned_runs b
  /\ PitchingStats.walks_allowed a = PitchingStats.walks_allowed b
  /\ PitchingStats.strikeouts a = PitchingStats.strikeouts b
  /\ PitchingStats.home_runs_allowed a = PitchingStats.home_runs_allowed b.

(** The derived fields hold the [0.0] of the default factory. *)
Definition zero_batting_rates (st : BattingStats.t) : Prop :=
  same_batting_rates st BattingStats.default.

Definition zero_pitching_rates (st : PitchingStats.t) : Prop :=
  PitchingStats.era st = fzero /\ PitchingStats.whip st = fzero.

(** Two optional records are both absent, or both present and related. *)
Definition both {R : Type} (P : R -> R -> Prop) (a b : option R) : Prop :=
  match a, b with
  | Some x, Some y => P x y
  | None, None => True
  | _, _ => False
  end.

(** A present field that [int()] rejects. *)
Definition rejected_int (field : option pyval) : Prop :=
  exists v, field = Some v /\ raises (int v).

(** A present field that [float()] rejects. *)
Definition rejected_float (field : option pyval) : Prop :=
  exists v, field = Some v /\ raises (to_float v).

Definition corrupt_batting_line (player : BattingLine.t) : Prop :=
  Exists rejected_int
    [BattingLine.at_bats player; BattingLine.hits player;
     BattingLine.runs player; BattingLine.rbis player;
     BattingLine.doubles player; BattingLine.triples player;
     BattingLine.home_runs player; BattingLine.walks player;
     BattingLine.strikeouts player].

Definition corrupt_pitching_line (player : PitchingLine.t) : Prop :=
  rejected_float (PitchingLine.innings_pitched player)
  \/ Exists rejected_int
       [PitchingLine.wins player; PitchingLine.losses player;
        PitchingLine.saves player; PitchingLine.hits_allowed player;
        PitchingLine.runs_allowed player; PitchingLine.earned_runs player;
        PitchingLine.walks_allowed player; PitchingLine.strikeouts player;
        PitchingLine.home_runs_allowed player].

(** The scores of a game as [get_team_summary] reads them. *)
Definition scores (game : Game.t) : result (Z * Z) :=
  home_score <- int (get (Game.home_score game) (PInt 0)) ;;
  away_score <- int (get (Game.away_score game) (PInt 0)) ;;
  Ok (home_score, away_score).

Definition home_name (game : Game.t) : string :=
  get (Game.home_team game) "Unknown"%string.
Definition away_name (game : Game.t) : string :=
  get (Game.away_team game) "Unknown"%string.

Definition home_won (game : Game.t) : bool :=
  match scores game with
  | Ok (h, a) => h >? a
  | Raise _ => false
  end.

Definition away_won (game : Game.t) : bool :=
  match scores game with
  | Ok (h, a) => a >? h
  | Raise _ => false
  end.

Definition count {A : Type} (p : A -> bool) (l : list A) : Z :=
  Z.of_nat (List.length (filter p l)).

Definition total {V : Type} (m : V -> Z) (d : Dict.t V) : Z :=
  fold_right (fun item acc => m (snd item) + acc) 0 d.

End Lines.

(* ================================================================= *)
(** * Accumulation, in general

    Both loops follow one scheme: read [d[key]] (a default for a new
    key), update the value with the line, store it back. *)

Module Accumulate.
Import Py.

Section Scheme.
Context {L V : Type}.
Variable default : V.
Variable key : L -> string.
Variable update : L -> V -> result V.

Definition step (l : L) (d : Dict.t V) : result (Dict.t V) :=
  v <- update l (Dict.getitem default (key l) d) ;;
  Ok (Dict.setitem (key l) v d).

Definition has_key (k : string) (l : L) : bool := String.eqb (key l) k.
End Scheme.

(** The batting scheme: a line travels with the team name of its loop. *)
Definition batting_update (l : string * BattingLine.t)
  : BattingStats.t -> result BattingStats.t :=
  StatsCalculator.update_batting (fst l) (snd l).

Definition batting_step
  : string * BattingLine.t -> Dict.t BattingStats.t
    -> result (Dict.t BattingStats.t) :=
  step BattingStats.default Lines.bkey batting_update.

Definition pitching_update (l : string * PitchingLine.t)
  : PitchingStats.t -> result PitchingStats.t :=
  StatsCalculator.update_pitching (fst l) (snd l).

Definition pitching_step
  : string * PitchingLine.t -> Dict.t PitchingStats.t
    -> result (Dict.t PitchingStats.t) :=
  step PitchingStats.default Lines.pkey pitching_update.

(** Two results raise together, or return related values. *)
Definition alike {V : Type} (R : V -> V -> Prop) (a b : result V) : Prop :=
  match a, b with
  | Ok x, Ok y => R x y
  | Raise _, Raise _ => True
  | _, _ => False
  end.

End Accumulate.

(* ================================================================= *)
(** * Sample box scores *)

Module Sample.
Import Py.
Local Open Scope string_scope.

Definition batting_line (player_id name : option string)
           (at_bats hits doubles home_runs walks : pyval) : BattingLine.t :=
  BattingLine.make player_id name (Some at_bats) (Some hits) None None
                   (Some doubles) None (Some home_runs) (Some walks) None.

Definition pitching_line (player_id : string) (earned_runs : Z)
           (innings_pitched : pyval) : PitchingLine.t :=
  PitchingLine.make (Some player_id) (Some "Pat Pitcher")
                    None None None (Some innings_pitched) None None
                    (Some (PInt earned_runs)) None None None.

(** A game whose lines are all on the home side. *)
Definition home_game (home away : string) (home_score away_score : Z)
           (batting : list BattingLine.t) (pitching : list PitchingLine.t)
  : Game.t :=
  Game.make (Some home) (Some away)
            (Some (PInt home_score)) (Some (PInt away_score))
            (Some batting) None (Some pitching) None.

(** Player "123": 4 at bats, 2 hits, a double and a home run. *)
Definition slugger : BattingLine.t :=
  batting_line (Some "123") (Some "Sam Slugger")
               (PInt 4) (PInt 2) (PInt 1) (PInt 1) (PInt 0).

(** The same player under another name, 3 at bats and a single. *)
Definition slugger_renamed : BattingLine.t :=
  batting_line (Some "123") (Some "S. Slugger")
               (PInt 3) (PInt 1) (PInt 0) (PInt 0) (PInt 0).

(** A pinch hitter who walked in the only plate appearance. *)
Definition walker : BattingLine.t :=
  batting_line (Some "77") (Some "Wes Walker")
               (PInt 0) (PInt 0) (PInt 0) (PInt 0) (PInt 1).

(** A line whose [at_bats] is not a number. *)
Definition corrupt : BattingLine.t :=
  batting_line (Some "55") (Some "Kim Keystone")
               (PStr "abc") (PInt 1) (PInt 0) (PInt 0) (PInt 0).

(** A line whose [player_id] is present and empty. *)
Definition anonymous : BattingLine.t :=
  batting_line (Some "") (Some "Bob")
               (PInt 3) (PInt 1) (PInt 0) (PInt 0) (PInt 0).

(** A line with no [player_id] at all. *)
Definition unnamed : BattingLine.t :=
  batting_line None (Some "Bob")
               (PInt 3) (PInt 1) (PInt 0) (PInt 0) (PInt 0).

Definition game1 : Game.t :=
  home_game "Reds" "Cubs" 3 2 [slugger; walker] [].

Definition game2 : Game.t :=
  Game.make (Some "Cubs") (Some "Reds") (Some (PInt 1)) (Some (PInt 1))
            None (Some [slugger_renamed]) None None.

Definition corrupt_game : Game.t :=
  home_game "Reds" "Mets" 0 0 [corrupt] [].

(** One third of an inning, as [parse_innings] returns it. *)
Definition one_third : float := nearest_ratio 1 3.

(** Three outings of one pitcher: a third of an inning with an earned
    run, a third of an inning, two innings. *)
Definition outing1 : Game.t :=
  home_game "Reds" "Cubs" 0 1 [] [pitching_line "9" 1 (PFloat one_third)].
Definition outing2 : Game.t :=
  home_game "Reds" "Mets" 0 0 [] [pitching_line "9" 0 (PFloat one_third)].
Definition outing3 : Game.t :=
  home_game "Reds" "Mets" 1 0 [] [pitching_line "9" 0 (PInt 2)].

(** The same pitcher on the away side of a later game, under another
    name. *)
Definition traded : Game.t :=
  Game.make (Some "Cubs") (Some "Mets") (Some (PInt 2)) (Some (PInt 5))
            None None None
            (Some [PitchingLine.make (Some "9") (Some "P. Pitcher")
                                     None None None (Some (PInt 1)) None None
                                     (Some (PInt 0)) None None None]).

(** A game whose home score is no number. *)
Definition forfeit : Game.t :=
  Game.make (Some "Reds") (Some "Cubs") (Some (PStr "F")) (Some (PInt 0))
            None None None None.

(** Lines of one pitcher with huge innings of both signs and a huge
    count of earned runs. *)
Definition huge : float := nearest_ratio (10 ^ 308) 1.
Definition minus_huge : float := nearest_ratio (- 10 ^ 308) 1.
Definition blowout (innings_pitched : float) : Game.t :=
  home_game "Reds" "Cubs" 0 0 []
            [pitching_line "9" (10 ^ 400) (PFloat innings_pitched)].


(** A caller's heap: the list at reference 0 holds the game dict at 1
    twice and the game dict at 4 between; the two game dicts share the
    empty list at 3. *)
Definition caller_heap : Call.heap :=
  [ Call.ListObj [1; 4; 1]%nat;
    Call.GameObj (GameObject.make (Some "Reds") (Some "Cubs")
                                  (Some (PInt 3)) (Some (PInt 2))
                                  (Some 2%nat) None (Some 3%nat) None);
    Call.ListObj [5; 6]%nat;
    Call.ListObj [];
    Call.GameObj (GameObject.make (Some "Reds") (Some "Cubs")
                                  (Some (PInt 0)) (Some (PInt 1))
                                  (Some 3%nat) None (Some 7%nat) None);
    Call.BattingLineObj slugger;
    Call.BattingLineObj walker;
    Call.ListObj [8%nat];
    Call.PitchingLineObj (pitching_line "9" 1 (PFloat one_third)) ].

(** The value a call returned, [fallback] if it raised. *)
Definition returned {A : Type} (r : result A) (fallback : A) : A :=
  match r with
  | Ok a => a
  | Raise _ => fallback
  end.

Definition batting_list (games : list Game.t) : list BattingStats.t :=
  fst (returned (StatsCalculator.calculate_aggregate_stats games) ([], [])).

Definition pitching_list (games : list Game.t) : list PitchingStats.t :=
  snd (returned (StatsCalculator.calculate_aggregate_stats games) ([], [])).

End Sample.

(* ================================================================= *)
(** * The box-score extraction of [mlb_api_client.py] *)

(** A row of [homeBatters] or [awayBatters]: the keys the client reads.
    [personId] is an int, [battingOrder] and [position] are texts,
    [substitution] a bool; the counting cells hold whatever the box
    score has (texts such as ["4"], as a rule). *)
Module BatterRow.
Record t : Type := make {
  personId : option Z;
  battingOrder : option string;
  position : option string;
  substitution : option bool;
  ab : option Py.pyval;
  h : option Py.pyval;
  r : option Py.pyval;
  rbi : option Py.pyval;
  doubles : option Py.pyval;
  triples : option Py.pyval;
  hr : option Py.pyval;
  bb : option Py.pyval;
  k : option Py.pyval;
  sb : option Py.pyval
}.
End BatterRow.

(** A row of [homePitchers] or [awayPitchers]. *)
Module PitcherRow.
Record t : Type := make {
  personId : option Z;
  namefield : option string;
  ip : option MLBApiClient.ip_value;
  h : option Py.pyval;
  r : option Py.pyval;
  er : option Py.pyval;
  bb : option Py.pyval;
  k : option Py.pyval;
  hr : option Py.pyval;
  p : option Py.pyval
}.
End PitcherRow.

(** The part of [statsapi.boxscore_data] the client reads.  An entry of
    [playerInfo] is a dict that may hold a [fullName]. *)
Module BoxScore.
Record t : Type := make {
  playerInfo : option (Dict.t (option string));
  homeBatters : option (list BatterRow.t);
  awayBatters : option (list BatterRow.t);
  homePitchers : option (list PitcherRow.t);
  awayPitchers : option (list PitcherRow.t)
}.
End BoxScore.

(** The dict [_extract_batting_stats] returns: the keys the calculator
    reads, as a batting line, and the other keys. *)
Module BattingEntry.
Record t : Type := make {
  order : option Z;
  position : string;
  sub : bool;
  stolen_bases : Z;
  caught_stealing : Z;
  line : BattingLine.t
}.
End BattingEntry.

(** The dict [_extract_pitching_stats] returns. *)
Module PitchingEntry.
Record t : Type := make {
  pitches_thrown : Z;
  line : PitchingLine.t
}.
End PitchingEntry.

(** An entry of [statsapi.schedule]. *)
Module ScheduleGame.
Record t : Type := make {
  game_id : option Z;
  home_id : option Z;
  away_id : option Z;
  home_name : option string;
  away_name : option string;
  home_score : option Py.pyval;
  away_score : option Py.pyval;
  status : option string;
  venue_name : option string
}.
End ScheduleGame.

(** A game dict as [get_game_data] builds it and [DataManager] stores
    it: the keys the calculator reads, as a game record, and the other
    keys. *)
Module GameData.
Record t : Type := make {
  game_id : option Z;
  date : option string;
  home_team_id : option Z;
  away_team_id : option Z;
  game_status : option string;
  venue : option string;
  notes : option string;
  added_at : option string;
  game : Game.t
}.
End GameData.

Module Client.
Import Py.
Local Open Scope string_scope.

(** [bool(value)] for a value that is no container. *)
Definition truthy (value : pyval) : bool :=
  match value with
  | PNone => false
  | PBool b => b
  | PInt z => negb (Z.eqb z 0)
  | PFloat f => negb (is_zero f)
  | PStr s => negb (MLBApiClient.is_empty s)
  | PContainer => true
  end.

(** [value != ''] *)
Definition not_empty_text (value : pyval) : bool :=
  match value with
  | PStr s => negb (MLBApiClient.is_empty s)
  | _ => true
  end.

(** [safe_int]: [int(value) if value and value != '' else 0], with
    [ValueError] and [TypeError] turned into [0].  A container gives 0
    on both paths: empty it takes the [else] branch, otherwise [int()]
    raises [TypeError]. *)
Definition safe_int (value : pyval) : result Z :=
  except_ValueError_TypeError
    (if truthy value && not_empty_text value then int value else Ok 0)
    0.

(** [safe_float]: the same with [float()] and [0.0]. *)
Definition safe_float (value : pyval) : result float :=
  except_ValueError_TypeError
    (if truthy value && not_empty_text value then to_float value
     else Ok fzero)
    fzero.

(** [str(player_stats.get('personId', ''))] *)
Definition player_id_of (personId : option Z) : string :=
  match personId with
  | Some z => str_of_int z
  | None => ""
  end.

(** [_get_player_name] *)
Definition _get_player_name (player_id : string) (box_score : BoxScore.t)
  : string :=
  match BoxScore.playerInfo box_score with
  | Some info =>
      let player_key := "ID" ++ player_id in
      match Dict.lookup player_key info with
      | Some player_info => get player_info ("Player " ++ player_id)
      | None => "Player " ++ player_id
      end
  | None => "Player " ++ player_id
  end.

(** The conversion of [battingOrder] to a position, with its own
    [except (ValueError, IndexError)]. *)
Definition order_num_of (batting_order : string) (substitution : bool)
  : result (option Z) :=
  match batting_order with
  | String c _ =>
      if negb substitution then
        match int_of_string (String c "") with
        | Ok n => Ok (Some n)
        | Raise ValueError => Ok None
        | Raise e => Raise e
        end
      else Ok None
  | EmptyString => Ok None
  end.

(** The body of the [try] block of [_extract_batting_stats]. *)
Definition extract_batting (player_stats : BatterRow.t)
           (box_score : BoxScore.t) : result BattingEntry.t :=
  let player_id := player_id_of (BatterRow.personId player_stats) in
  let player_name := _get_player_name player_id box_score in
  let batting_order := get (BatterRow.battingOrder player_stats) "" in
  let position := get (BatterRow.position player_stats) "" in
  let substitution := get (BatterRow.substitution player_stats) false in
  order_num <- order_num_of batting_order substitution ;;
  at_bats <- safe_int (get (BatterRow.ab player_stats) (PInt 0)) ;;
  hits <- safe_int (get (BatterRow.h player_stats) (PInt 0)) ;;
  runs <- safe_int (get (BatterRow.r player_stats) (PInt 0)) ;;
  rbis <- safe_int (get (BatterRow.rbi player_stats) (PInt 0)) ;;
  doubles <- safe_int (get (BatterRow.doubles player_stats) (PInt 0)) ;;
  triples <- safe_int (get (BatterRow.triples player_stats) (PInt 0)) ;;
  home_runs <- safe_int (get (BatterRow.hr player_stats) (PInt 0)) ;;
  walks <- safe_int (get (BatterRow.bb player_stats) (PInt 0)) ;;
  strikeouts <- safe_int (get (BatterRow.k player_stats) (PInt 0)) ;;
  stolen_bases <- safe_int (get (BatterRow.sb player_stats) (PInt 0)) ;;
  Ok (BattingEntry.make
        order_num position substitution stolen_bases 0
        (BattingLine.make
           (Some player_id) (Some player_name)
           (Some (PInt at_bats)) (Some (PInt hits)) (Some (PInt runs))
           (Some (PInt rbis)) (Some (PInt doubles)) (Some (PInt triples))
           (Some (PInt home_runs)) (Some (PInt walks))
           (Some (PInt strikeouts)))).

(** [try: ...  except Exception: return None] *)
Definition or_none {A : Type} (m : result A) : option A :=
  match m with
  | Ok a => Some a
  | Raise _ => None
  end.

Definition _extract_batting_stats (player_stats : BatterRow.t)
           (box_score : BoxScore.t) : option BattingEntry.t :=
  or_none (extract_batting player_stats box_score).

(** [sub in s] for two texts. *)
Fixpoint occurs (sub s : string) : bool :=
  String.prefix sub s
  || match s with
     | String _ s' => occurs sub s'
     | EmptyString => false
     end.

(** The decision read off [namefield]: [(wins, losses, saves)]. *)
Definition decision_of (namefield : string) : Z * Z * Z :=
  if occurs "(W," namefield then (1, 0, 0)
  else if occurs "(L," namefield then (0, 1, 0)
  else if occurs "(S," namefield then (0, 0, 1)
  else (0, 0, 0).

(** The body of the [try] block of [_extract_pitching_stats]. *)
Definition extract_pitching (player_stats : PitcherRow.t)
           (box_score : BoxScore.t) : result PitchingEntry.t :=
  let player_id := player_id_of (PitcherRow.personId player_stats) in
  let player_name := _get_player_name player_id box_score in
  let namefield := get (PitcherRow.namefield player_stats) "" in
  let '(wins, losses, saves) := decision_of namefield in
  innings_pitched <-
    MLBApiClient.parse_innings
      (get (PitcherRow.ip player_stats) (MLBApiClient.IpInt 0)) ;;
  hits_allowed <- safe_int (get (PitcherRow.h player_stats) (PInt 0)) ;;
  runs_allowed <- safe_int (get (PitcherRow.r player_stats) (PInt 0)) ;;
  earned_runs <- safe_int (get (PitcherRow.er player_stats) (PInt 0)) ;;
  walks_allowed <- safe_int (get (PitcherRow.bb player_stats) (PInt 0)) ;;
  strikeouts <- safe_int (get (PitcherRow.k player_stats) (PInt 0)) ;;
  home_runs_allowed <- safe_int (get (PitcherRow.hr player_stats) (PInt 0)) ;;
  pitches_thrown <- safe_int (get (PitcherRow.p player_stats) (PInt 0)) ;;
  Ok (PitchingEntry.make
        pitches_thrown
        (PitchingLine.make
           (Some player_id) (Some player_name)
           (Some (PInt wins)) (Some (PInt losses)) (Some (PInt saves))
           (Some innings_pitched)
           (Some (PInt hits_allowed)) (Some (PInt runs_allowed))
           (Some (PInt earned_runs)) (Some (PInt walks_allowed))
           (Some (PInt strikeouts)) (Some (PInt home_runs_allowed)))).

Definition _extract_pitching_stats (player_stats : PitcherRow.t)
           (box_score : BoxScore.t) : option PitchingEntry.t :=
  or_none (extract_pitching player_stats box_score).

(** A loop of [get_game_data] over the rows of one side: the header
    row, whose [personId] is 0, and the rows that fail to extract are
    skipped. *)
Definition batting_rows (rows : list BatterRow.t) (box_score : BoxScore.t)
  : list BattingEntry.t :=
  flat_map
    (fun player_stats =>
       if Z.gtb (get (BatterRow.personId player_stats) 0) 0 then
         match _extract_batting_stats player_stats box_score with
         | Some batting_data => [batting_data]
         | None => []
         end
       else [])
    rows.

Definition pitching_rows (rows : list PitcherRow.t) (box_score : BoxScore.t)
  : list PitchingEntry.t :=
  flat_map
    (fun player_stats =>
       if Z.gtb (get (PitcherRow.personId player_stats) 0) 0 then
         match _extract_pitching_stats player_stats box_score with
         | Some pitching_data => [pitching_data]
         | None => []
         end
       else [])
    rows.

(** [game.get('home_id') == home_team_id] *)
Definition id_is (field : option Z) (team_id : Z) : bool :=
  match field with
  | Some z => Z.eqb z team_id
  | None => false
  end.

(** The loop over the schedule: the first game of the two teams. *)
Definition find_target (schedule : list ScheduleGame.t)
           (home_team_id away_team_id : Z) : option ScheduleGame.t :=
  find (fun game => id_is (ScheduleGame.home_id game) home_team_id
                    && id_is (ScheduleGame.away_id game) away_team_id)
       schedule.

(** The four lists of a box score; a side the box score lacks stays
    empty. *)
Definition side_batting (rows : option (list BatterRow.t))
           (box_score : BoxScore.t) : list BattingLine.t :=
  match rows with
  | Some rows => map BattingEntry.line (batting_rows rows box_score)
  | None => []
  end.

Definition side_pitching (rows : option (list PitcherRow.t))
           (box_score : BoxScore.t) : list PitchingLine.t :=
  match rows with
  | Some rows => map PitchingEntry.line (pitching_rows rows box_score)
  | None => []
  end.

(** [get_game_data], given what the two calls of [statsapi] answer:
    the schedule of the date, and the box score of a game id.  An
    exception of either call makes the result [None]. *)
Definition get_game_data (schedule : result (list ScheduleGame.t))
           (boxscore_data : Z -> result BoxScore.t)
           (home_team_id away_team_id : Z) (date_str : string)
  : option GameData.t :=
  match schedule with
  | Raise _ => None
  | Ok schedule =>
      match find_target schedule home_team_id away_team_id with
      | None => None
      | Some target_game =>
          match ScheduleGame.game_id target_game with
          | None => None
          | Some game_id =>
              if Z.eqb game_id 0 then None
              else
                match boxscore_data game_id with
                | Raise _ => None
                | Ok box_score =>
                    Some
                      (GameData.make
                         (Some game_id) (Some date_str)
                         (Some home_team_id) (Some away_team_id)
                         (Some (get (ScheduleGame.status target_game) ""))
                         (Some (get (ScheduleGame.venue_name target_game) ""))
                         None None
                         (Game.make
                            (Some (get (ScheduleGame.home_name target_game) ""))
                            (Some (get (ScheduleGame.away_name target_game) ""))
                            (Some (get (ScheduleGame.home_score target_game)
                                       (PInt 0)))
                            (Some (get (ScheduleGame.away_score target_game)
                                       (PInt 0)))
                            (Some (side_batting
                                     (BoxScore.homeBatters box_score)
                                     box_score))
                            (Some (side_batting
                                     (BoxScore.awayBatters box_score)
                                     box_score))
                            (Some (side_pitching
                                     (BoxScore.homePitchers box_score)
                                     box_score))
                            (Some (side_pitching
                                     (BoxScore.awayPitchers box_score)
                                     box_score))))
                end
          end
      end
  end.

End Client.

(* ================================================================= *)
(** * The in-memory store of [data_manager.py]

    [self.data["games"]] is a list of game dicts.  Writing the file is
    left to [_save_data], whose outcome ([True] when the file was
    written) is an input of the operations that call it, as is the time
    stamp of [datetime.now().isoformat()]. *)

Module DataManager.
Import Py.
Local Open Scope string_scope.

(** [f"{value}"] for an optional text and for an optional int. *)
Definition fmt_text (value : option string) : string :=
  match value with
  | Some s => s
  | None => "None"
  end.

Definition fmt_int (value : option Z) : string :=
  match value with
  | Some z => str_of_int z
  | None => "None"
  end.

(** [f"{g.get('date')}_{g.get('home_team_id')}_{g.get('away_team_id')}"] *)
Definition game_id_of (game_data : GameData.t) : string :=
  fmt_text (GameData.date game_data) ++ "_"
  ++ fmt_int (GameData.home_team_id game_data) ++ "_"
  ++ fmt_int (GameData.away_team_id game_data).

(** [game_data["notes"] = notes; game_data["added_at"] = now] *)
Definition annotate (game_data : GameData.t) (notes now : string)
  : GameData.t :=
  GameData.make
    (GameData.game_id game_data) (GameData.date game_data)
    (GameData.home_team_id game_data) (GameData.away_team_id game_data)
    (GameData.game_status game_data) (GameData.venue game_data)
    (Some notes) (Some now)
    (GameData.game game_data).

(** [add_game]: the value returned and the list afterwards. *)
Definition add_game (saved : bool) (now : string) (game_data : GameData.t)
           (notes : string) (games : list GameData.t)
  : bool * list GameData.t :=
  let game_id := game_id_of game_data in
  if existsb (fun existing_game =>
                String.eqb (game_id_of existing_game) game_id) games
  then (false, games)
  else (saved, (games ++ [annotate game_data notes now])%list).

(** [get_all_games] *)
Definition get_all_games (games : list GameData.t) : list GameData.t :=
  games.

(** [self.data["games"].pop(index)] for [0 <= index < len]. *)
Definition pop (index : nat) (games : list GameData.t) : list GameData.t :=
  (firstn index games ++ skipn (Datatypes.S index) games)%list.

(** [remove_game] *)
Definition remove_game (saved : bool) (index : Z) (games : list GameData.t)
  : bool * list GameData.t :=
  if Z.leb 0 index && Z.ltb index (Z.of_nat (List.length games)) then
    (saved, pop (Z.to_nat index) games)
  else (false, games).

(** [a == b] for an optional text and a text. *)
Definition text_is (field : option string) (value : string) : bool :=
  match field with
  | Some s => String.eqb s value
  | None => false
  end.

(** [get_game_by_date_and_teams] *)
Definition get_game_by_date_and_teams (date home_team away_team : string)
           (games : list GameData.t) : option GameData.t :=
  find (fun game =>
          text_is (GameData.date game) date
          && text_is (Game.home_team (GameData.game game)) home_team
          && text_is (Game.away_team (GameData.game game)) away_team)
       games.

(** [get_games_by_team] *)
Definition get_games_by_team (team_name : string)
           (games : list GameData.t) : list GameData.t :=
  filter (fun game =>
            text_is (Game.home_team (GameData.game game)) team_name
            || text_is (Game.away_team (GameData.game game)) team_name)
         games.

(** [get_games_by_date_range]: texts compare by code points. *)
Definition get_games_by_date_range (start_date end_date : string)
           (games : list GameData.t) : list GameData.t :=
  filter (fun game =>
            let game_date := get (GameData.date game) "" in
            String.leb start_date game_date
            && String.leb game_date end_date)
         games.

(** [clear_all_data] *)
Definition clear_all_data (saved : bool) (games : list GameData.t)
  : bool * list GameData.t :=
  (saved, []).

(** The games as [calculate_aggregate_stats] and [get_team_summary]
    read them. *)
Definition records (games : list GameData.t) : list Game.t :=
  map GameData.game games.

(** The lists a store that started empty can hold after calls of
    [add_game], [remove_game] and [clear_all_data]. *)
Inductive reachable : list GameData.t -> Prop :=
| reach_empty : reachable []
| reach_add saved now game_data notes games :
    reachable games ->
    reachable (snd (add_game saved now game_data notes games))
| reach_remove saved index games :
    reachable games -> reachable (snd (remove_game saved index games))
| reach_clear saved games :
    reachable games -> reachable (snd (clear_all_data saved games)).

(** Two games with the same date and the same two team ids, as the
    duplicate test of [add_game] formats them. *)
Definition same_slot (a b : GameData.t) : Prop :=
  fmt_text (GameData.date a) = fmt_text (GameData.date b)
  /\ GameData.home_team_id a = GameData.home_team_id b
  /\ GameData.away_team_id a = GameData.away_team_id b.

End DataManager.

(* ================================================================= *)
(** * Vocabulary for totals *)

Module Totals.
Import Py.

(** What a counting field adds: its value through [int()], [0] when the
    key is absent; and [0] for a value [int()] rejects, which is what
    [safe_int] makes of it (the aggregator itself raises there). *)
Definition int_field (field : option pyval) : Z :=
  match int (get field (PInt 0)) with
  | Ok z => z
  | Raise _ => 0
  end.

(** What the innings field of a line adds: its value through
    [float()] ([0.0] stands for a value [float()] rejects, on which the
    aggregator raises). *)
Definition float_field (field : option pyval) : float :=
  match to_float (get field (PInt 0)) with
  | Ok x => x
  | Raise _ => fzero
  end.

Definition sum {A : Type} (f : A -> Z) (l : list A) : Z :=
  fold_right (fun x acc => f x + acc) 0 l.

(** The float additions of a running total, first line first. *)
Definition float_sum {A : Type} (f : A -> float) (l : list A) : float :=
  fold_left (fun acc x => fadd acc (f x)) l fzero.

(** The teams of the games in the order [get_team_summary] meets them. *)
Definition teams (games : list Game.t) : list string :=
  flat_map (fun game => [Lines.home_name game; Lines.away_name game]) games.

(** The record [r] is what the batting lines [ls] of one key, in
    processing order, add up to: their number, the name and the team of
    the last of them, and the sum of each counting field. *)
Definition batting_record_of (ls : list (string * BattingLine.t))
           (r : BattingStats.t) : Prop :=
  let over field := sum (fun l => int_field (field (snd l))) ls in
  BattingStats.games r = Z.of_nat (List.length ls)
  /\ (exists earlier last,
         ls = earlier ++ [last]
         /\ BattingStats.player_name r
            = get (BattingLine.name (snd last)) "Unknown"%string
         /\ BattingStats.team r = fst last)
  /\ BattingStats.at_bats r = over BattingLine.at_bats
  /\ BattingStats.hits r = over BattingLine.hits
  /\ BattingStats.runs r = over BattingLine.runs
  /\ BattingStats.rbis r = over BattingLine.rbis
  /\ BattingStats.doubles r = over BattingLine.doubles
  /\ BattingStats.triples r = over BattingLine.triples
  /\ BattingStats.home_runs r = over BattingLine.home_runs
  /\ BattingStats.walks r = over BattingLine.walks
  /\ BattingStats.strikeouts r = over BattingLine.strikeouts.

Definition pitching_record_of (ls : list (string * PitchingLine.t))
           (r : PitchingStats.t) : Prop :=
  let over field := sum (fun l => int_field (field (snd l))) ls in
  PitchingStats.games r = Z.of_nat (List.length ls)
  /\ (exists earlier last,
         ls = earlier ++ [last]
         /\ PitchingStats.player_name r
            = get (PitchingLine.name (snd last)) "Unknown"%string
         /\ PitchingStats.team r = fst last)
  /\ PitchingStats.wins r = over PitchingLine.wins
  /\ PitchingStats.losses r = over PitchingLine.losses
  /\ PitchingStats.saves r = over PitchingLine.saves
  /\ PitchingStats.hits_allowed r = over PitchingLine.hits_allowed
  /\ PitchingStats.runs_allowed r = over PitchingLine.runs_allowed
  /\ PitchingStats.earned_runs r = over PitchingLine.earned_runs
  /\ PitchingStats.walks_allowed r = over PitchingLine.walks_allowed
  /\ PitchingStats.strikeouts r = over PitchingLine.strikeouts
  /\ PitchingStats.home_runs_allowed r = over PitchingLine.home_runs_allowed
  /\ PitchingStats.innings_pitched r
     = float_sum
         (fun l => float_field (PitchingLine.innings_pitched (snd l))) ls.

End Totals.

(* ================================================================= *)
(** * Sample box-score rows *)

Module SampleRows.
Import Py.
Local Open Scope string_scope.

Definition cell (text : string) : option pyval := Some (PStr text).

(** The header row of a batters table. *)
Definition header : BatterRow.t :=
  BatterRow.make (Some 0%Z) None (Some "POS") None
                 (cell "AB") (cell "H") (cell "R") (cell "RBI")
                 (cell "2B") (cell "3B") (cell "HR") (cell "BB")
                 (cell "K") (cell "SB").

(** A lead-off hitter: 4 at bats, 2 hits, one of them a home run. *)
Definition leadoff : BatterRow.t :=
  BatterRow.make (Some 668804%Z) (Some "100") (Some "SS") (Some false)
                 (cell "4") (cell "2") (cell "1") (cell "1")
                 (cell "0") (cell "0") (cell "1") (cell "0")
                 (cell "1") (cell "").

(** A substitute whose cells are partly not numbers. *)
Definition substitute : BatterRow.t :=
  BatterRow.make (Some 641584%Z) (Some "101") (Some "PH") (Some true)
                 (cell "1") (cell "-") None (cell "n/a")
                 (cell "0") (cell "0") (cell "0") (cell "1")
                 (cell "0") (cell "0").

Definition winner : PitcherRow.t :=
  PitcherRow.make (Some 666157%Z) (Some "Lodolo  (W, 9-8)")
                  (Some (MLBApiClient.IpStr "6.1"))
                  (cell "5") (cell "2") (cell "2") (cell "1")
                  (cell "7") (cell "0") (cell "98").

(** A row whose innings hold a whole part of 400 digits and a fraction
    that is no digit. *)
Definition overlong : PitcherRow.t :=
  PitcherRow.make (Some 1%Z) (Some "Nobody")
                  (Some (MLBApiClient.IpStr
                           (str_of_int (10 ^ 400) ++ ".x")))
                  None None None None None None None.

Definition box_score : BoxScore.t :=
  BoxScore.make
    (Some [("ID668804", Some "Sam Slugger"); ("ID666157", None)])
    (Some [header; leadoff; substitute]) (Some [header])
    (Some [winner]) None.

Definition scheduled : ScheduleGame.t :=
  ScheduleGame.make (Some 745001%Z) (Some 113%Z) (Some 112%Z)
                    (Some "Cincinnati Reds") (Some "Chicago Cubs")
                    (Some (PInt 5)) (Some (PInt 3))
                    (Some "Final") (Some "Great American Ball Park").

(** The game the client builds from the sample schedule and box
    score. *)
Definition fetched : option GameData.t :=
  Client.get_game_data (Ok [scheduled]) (fun _ => Ok box_score)
                       113 112 "2024-06-01".

Definition fetched_game : GameData.t :=
  match fetched with
  | Some game_data => game_data
  | None =>
      GameData.make None None None None None None None None
                    (Game.make None None None None None None None None)
  end.

End SampleRows.

(* ================================================================= *)
(** * Vocabulary for box-score rows *)

Module Rows.
Import Py.

(** A cell that holds an infinite float. *)
Definition infinite (field : option pyval) : Prop :=
  exists s, field = Some (PFloat (S754_infinity s)).

(** The cells of a batter row that [safe_int] reads. *)
Definition batting_cells (row : BatterRow.t) : list (option pyval) :=
  [BatterRow.ab row; BatterRow.h row; BatterRow.r row; BatterRow.rbi row;
   BatterRow.doubles row; BatterRow.triples row; BatterRow.hr row;
   BatterRow.bb row; BatterRow.k row; BatterRow.sb row].

(** The cells of a pitcher row that [safe_int] reads. *)
Definition pitching_cells (row : PitcherRow.t) : list (option pyval) :=
  [PitcherRow.h row; PitcherRow.r row; PitcherRow.er row;
   PitcherRow.bb row; PitcherRow.k row; PitcherRow.hr row;
   PitcherRow.p row].

(** The row is not skipped as a header: [personId > 0]. *)
Definition is_player {R : Type} (personId : R -> option Z) (row : R) : bool :=
  Z.gtb (get (personId row) 0) 0.

(** A game of the list was built by [get_game_data] from some schedule
    and some box score. *)
Definition fetched (game : Game.t) : Prop :=
  exists schedule boxscore_data home_team_id away_team_id date_str game_data,
    Client.get_game_data schedule boxscore_data home_team_id away_team_id
                         date_str = Some game_data
    /\ game = GameData.game game_data.

End Rows.

(* ================================================================= *)
(** * Facts about dicts and loops *)

Section DictFacts.
Context {V : Type}.
Implicit Types (d : Dict.t V) (k : string) (v : V).

Lemma lookup_setitem_eq k v d : Dict.lookup k (Dict.setitem k v d) = Some v.
Proof.
  induction d as [|[k' v'] d IH]; simpl.
  - now rewrite String.eqb_refl.
  - destruct (String.eqb k k') eqn:E; simpl; rewrite E; auto.
Qed.

Lemma lookup_setitem_ne k k' v d :
  k <> k' -> Dict.lookup k' (Dict.setitem k v d) = Dict.lookup k' d.
Proof.
  intros Hne. induction d as [|[k0 v0] d IH]; simpl.
  - destruct (String.eqb k' k) eqn:E; auto.
    apply String.eqb_eq in E. congruence.
  - destruct (String.eqb k k0) eqn:E; simpl.
    + apply String.eqb_eq in E. subst k0.
      destruct (String.eqb k' k) eqn:E'; auto.
      apply String.eqb_eq in E'. congruence.
    + now rewrite IH.
Qed.

Lemma getitem_setitem_eq (default : V) k v d :
  Dict.getitem default k (Dict.setitem k v d) = v.
Proof. unfold Dict.getitem. now rewrite lookup_setitem_eq. Qed.

Lemma getitem_setitem_ne (default : V) k k' v d :
  k <> k' ->
  Dict.getitem default k' (Dict.setitem k v d) = Dict.getitem default k' d.
Proof. intros. unfold Dict.getitem. now rewrite lookup_setitem_ne. Qed.

Lemma lookup_getitem (default : V) k v d :
  Dict.lookup k d = Some v -> Dict.getitem default k d = v.
Proof. unfold Dict.getitem. now intros ->. Qed.

Lemma lookup_None_keys k d :
  Dict.lookup k d = None <-> existsb (String.eqb k) (Dict.keys d) = false.
Proof.
  induction d as [|[k' v'] d IH]; simpl; [tauto|].
  destruct (String.eqb k k'); simpl; [|exact IH].
  split; discriminate.
Qed.

Lemma keys_setitem k v d :
  Dict.keys (Dict.setitem k v d) =
  if existsb (String.eqb k) (Dict.keys d) then Dict.keys d
  else Dict.keys d ++ [k].
Proof.
  unfold Dict.keys.
  induction d as [|[k' v'] d IH]; simpl; auto.
  destruct (String.eqb k k') eqn:E; simpl; auto.
  rewrite IH.
  now destruct (existsb (String.eqb k) (map fst d)).
Qed.

Lemma lookup_In k v d : Dict.lookup k d = Some v -> In v (Dict.values d).
Proof.
  induction d as [|[k' v'] d IH]; simpl; [discriminate|].
  destruct (String.eqb k k'); [intros [= ->]; now left | auto].
Qed.

Lemma Forall_values_setitem (P : V -> Prop) k v d :
  P v -> Forall P (Dict.values d) -> Forall P (Dict.values (Dict.setitem k v d)).
Proof.
  intros Hv. induction d as [|[k' v'] d IH]; simpl; intros H.
  - now constructor.
  - inversion H; subst. destruct (String.eqb k k'); simpl; constructor; auto.
Qed.

Lemma Forall_values_getitem (P : V -> Prop) (default : V) k d :
  P default -> Forall P (Dict.values d) -> P (Dict.getitem default k d).
Proof.
  intros Hd H. unfold Dict.getitem.
  destruct (Dict.lookup k d) eqn:E; auto.
  apply lookup_In in E. rewrite Forall_forall in H. auto.
Qed.

Lemma total_setitem (m : V -> Z) (default : V) k v d :
  m default = 0 ->
  Lines.total m (Dict.setitem k v d) =
  Lines.total m d - m (Dict.getitem default k d) + m v.
Proof.
  intros H0. unfold Dict.getitem.
  induction d as [|[k' v'] d IH]; simpl.
  - lia.
  - destruct (String.eqb k k'); simpl; lia.
Qed.
End DictFacts.

Section LoopFacts.
Import Py.
Context {A S : Type}.

Lemma for_each_app (body : A -> S -> result S) l1 l2 s :
  for_each body (l1 ++ l2) s =
  (s' <- for_each body l1 s ;; for_each body l2 s').
Proof.
  revert s. induction l1 as [|x l1 IH]; intros s; simpl; auto.
  destruct (body x s); simpl; auto.
Qed.

Lemma for_each_map {B : Type} (g : B -> A) (body : A -> S -> result S) l s :
  for_each body (map g l) s = for_each (fun x => body (g x)) l s.
Proof.
  revert s. induction l as [|x l IH]; intros s; simpl; auto.
  destruct (body (g x) s); simpl; auto.
Qed.

Lemma for_each_ext (f g : A -> S -> result S) l s :
  (forall x s, f x s = g x s) -> for_each f l s = for_each g l s.
Proof.
  intros E. revert s. induction l as [|x l IH]; intros s; simpl; auto.
  rewrite E. destruct (g x s); simpl; auto.
Qed.

Lemma for_each_invariant (P : S -> Prop) (body : A -> S -> result S) l :
  (forall x s s', P s -> body x s = Ok s' -> P s') ->
  forall s s', P s -> for_each body l s = Ok s' -> P s'.
Proof.
  intros Hstep. induction l as [|x l IH]; simpl; intros s s' Hs H.
  - now injection H as <-.
  - destruct (body x s) eqn:E; simpl in H; [|discriminate]. eauto.
Qed.

Lemma result_cases {B : Type} (r : result B) : (exists b, r = Ok b) \/ raises r.
Proof. destruct r; [left | right]; eexists; eauto. Qed.

Lemma raises_not_Ok {B : Type} (r : result B) b : raises r -> r <> Ok b.
Proof. intros [e ->]; discriminate. Qed.
End LoopFacts.

Lemma map_result_In {A B : Type} (f : A -> Py.result B) l out y :
map_result f l = Py.Ok out -> In y out -> exists x, In x l /\ f x = Py.Ok y.
Proof.
revert out. induction l as [|x l IH]; simpl; intros out H Hy.
- injection H as <-. destruct Hy.
- destruct (f x) eqn:E; simpl in H; [|discriminate].
  destruct (map_result f l) eqn:E'; simpl in H; [|discriminate].
  injection H as <-. destruct Hy as [<-|Hy]; eauto.
  destruct (IH _ eq_refl Hy) as (x' & Hin & Hx'). eauto.
Qed.

Lemma map_result_length {A B : Type} (f : A -> Py.result B) l out :
map_result f l = Py.Ok out -> List.length out = List.length l.
Proof.
revert out. induction l as [|x l IH]; simpl; intros out H.
- now injection H as <-.
- destruct (f x); simpl in H; [|discriminate].
  destruct (map_result f l); simpl in H; [|discriminate].
  injection H as <-. simpl. f_equal. auto.
Qed.

(** The record of a key in a result list comes from the value stored
  under that key. *)
Lemma map_result_record {V R : Type} (f : V -> Py.result R) (d : Dict.t V) out k r :
map_result (fun item => f (snd item)) d = Py.Ok out ->
Lines.record_for (Dict.keys d) out k = Some r ->
exists v, Dict.lookup k d = Some v /\ f v = Py.Ok r.
Proof.
unfold Lines.record_for.
revert out. induction d as [|[k' v'] d IH]; simpl; intros out H Hr.
- injection H as <-. discriminate.
- destruct (f v') eqn:E; simpl in H; [|discriminate].
  destruct (map_result _ d) eqn:E'; simpl in H; [|discriminate].
  injection H as <-. simpl in Hr.
  destruct (String.eqb k k').
  + injection Hr as <-. eauto.
  + eauto.
Qed.

Lemma map_result_record_back {V R : Type} (f : V -> Py.result R) (d : Dict.t V) out k v :
map_result (fun item => f (snd item)) d = Py.Ok out ->
Dict.lookup k d = Some v ->
exists r, Lines.record_for (Dict.keys d) out k = Some r /\ f v = Py.Ok r.
Proof.
unfold Lines.record_for.
revert out. induction d as [|[k' v'] d IH]; simpl; intros out H Hr.
- discriminate.
- destruct (f v') eqn:E; simpl in H; [|discriminate].
  destruct (map_result _ d) eqn:E'; simpl in H; [|discriminate].
  injection H as <-. simpl.
  destruct (String.eqb k k').
  + injection Hr as <-. eauto.
  + eauto.
Qed.


(* ================================================================= *)
(** * Facts about the accumulation scheme *)

Section SchemeFacts.
Import Py Accumulate.
Context {L V : Type}.
Variable default : V.
Variable key : L -> string.
Variable update : L -> V -> result V.

Abbreviation step := (Accumulate.step default key update).
Abbreviation sel k := (filter (has_key key k)).

Lemma step_inv l d d' :
  step l d = Ok d' ->
  exists v, update l (Dict.getitem default (key l) d) = Ok v
            /\ d' = Dict.setitem (key l) v d.
Proof.
  unfold Accumulate.step. intros H.
  destruct (update l _) as [v|e]; simpl in H; [|discriminate].
  injection H as <-. eauto.
Qed.

(** What a key holds after the loop is the fold of its own lines. *)
Lemma fold_per_key ls : forall d d' k,
  for_each step ls d = Ok d' ->
  for_each update (sel k ls) (Dict.getitem default k d)
  = Ok (Dict.getitem default k d').
Proof.
  induction ls as [|l ls IH]; simpl; intros d d' k H.
  - now injection H as <-.
  - destruct (step l d) as [d1|] eqn:E; simpl in H; [|discriminate].
    apply step_inv in E as (v & Hv & ->).
    unfold has_key at 1. destruct (String.eqb (key l) k) eqn:Ek.
    + apply String.eqb_eq in Ek. subst k. simpl. rewrite Hv. simpl.
      rewrite <- (getitem_setitem_eq default (key l) v d).
      now apply IH.
    + apply String.eqb_neq in Ek.
      rewrite <- (getitem_setitem_ne default (key l) k v d Ek).
      now apply IH.
Qed.

Lemma fold_keys ls : forall d d',
  for_each step ls d = Ok d' ->
  Dict.keys d' = Lines.first_seen (Dict.keys d) (map key ls).
Proof.
  induction ls as [|l ls IH]; simpl; intros d d' H.
  - now injection H as <-.
  - destruct (step l d) as [d1|] eqn:E; simpl in H; [|discriminate].
    apply step_inv in E as (v & Hv & ->).
    rewrite (IH _ _ H). now rewrite keys_setitem.
Qed.

Lemma fold_lookup_None ls : forall d d' k,
  for_each step ls d = Ok d' ->
  (Dict.lookup k d' = None <-> Dict.lookup k d = None /\ sel k ls = []).
Proof.
  induction ls as [|l ls IH]; simpl; intros d d' k H.
  - injection H as <-. tauto.
  - destruct (step l d) as [d1|] eqn:E; simpl in H; [|discriminate].
    apply step_inv in E as (v & Hv & ->).
    rewrite (IH _ _ k H).
    unfold has_key at 2. destruct (String.eqb (key l) k) eqn:Ek.
    + apply String.eqb_eq in Ek. subst k. rewrite lookup_setitem_eq.
      split; intros [? ?]; discriminate.
    + apply String.eqb_neq in Ek. now rewrite lookup_setitem_ne.
Qed.

(** A line whose update raises makes the whole loop raise. *)
Lemma fold_raises ls : forall d l,
  In l ls -> (forall v, raises (update l v)) -> raises (for_each step ls d).
Proof.
  induction ls as [|x ls IH]; simpl; intros d l Hin Hbad; [destruct Hin|].
  destruct (step x d) as [d1|e] eqn:E; simpl.
  - destruct Hin as [->|Hin]; [|eauto].
    apply step_inv in E as (v & Hv & _).
    destruct (Hbad (Dict.getitem default (key l) d)) as [e He]. congruence.
  - now exists e.
Qed.

Lemma fold_Ok_per_key ls : forall d,
  (forall k, exists v,
      for_each update (sel k ls) (Dict.getitem default k d) = Ok v) ->
  exists d', for_each step ls d = Ok d'.
Proof.
  induction ls as [|l ls IH]; simpl; intros d H; [eauto|].
  unfold Accumulate.step at 1.
  destruct (H (key l)) as [v0 H0]. unfold has_key at 1 in H0.
  rewrite String.eqb_refl in H0. simpl in H0.
  destruct (update l (Dict.getitem default (key l) d)) as [v|] eqn:Ev;
    simpl in H0; [|discriminate].
  simpl. apply IH. intros k.
  destruct (String.eqb (key l) k) eqn:Ek.
  - apply String.eqb_eq in Ek. subst k. rewrite getitem_setitem_eq. eauto.
  - destruct (H k) as [w Hw]. unfold has_key at 1 in Hw. rewrite Ek in Hw.
    apply String.eqb_neq in Ek. rewrite getitem_setitem_ne by exact Ek. eauto.
Qed.

Lemma fold_values_invariant (P : V -> Prop) :
  P default ->
  (forall l v v', P v -> update l v = Ok v' -> P v') ->
  forall ls d d', Forall P (Dict.values d) ->
                  for_each step ls d = Ok d' -> Forall P (Dict.values d').
Proof.
  intros Hd Hu ls.
  apply (for_each_invariant (fun d => Forall P (Dict.values d))).
  intros l d d' HP E. apply step_inv in E as (v & Hv & ->).
  apply Forall_values_setitem; auto.
  eapply Hu; [|exact Hv]. now apply Forall_values_getitem.
Qed.

Section Order.
Variable R : V -> V -> Prop.
Hypothesis R_refl : forall v, R v v.
Hypothesis R_trans : forall a b c, R a b -> R b c -> R a c.
Hypothesis update_resp :
  forall l v v', R v v' -> alike R (update l v) (update l v').
Hypothesis update_comm :
  forall a b v,
    alike R (x <- update a v ;; update b x) (x <- update b v ;; update a x).

Lemma alike_trans (a b c : result V) :
  alike R a b -> alike R b c -> alike R a c.
Proof.
  destruct a, b, c; simpl; try tauto. apply R_trans.
Qed.

Lemma for_each_resp ls : forall v v',
  R v v' -> alike R (for_each update ls v) (for_each update ls v').
Proof.
  induction ls as [|l ls IH]; simpl; intros v v' H; auto.
  pose proof (update_resp l v v' H) as Hl.
  destruct (update l v), (update l v'); simpl in *; try tauto.
  now apply IH.
Qed.

(** The order of the lines of one key does not matter, up to [R]. *)
Lemma for_each_perm ls ls' :
  Permutation ls ls' ->
  forall v v', R v v' ->
               alike R (for_each update ls v) (for_each update ls' v').
Proof.
  induction 1 as [|x l l' _ IH|x y l|l l' l'' _ IH1 _ IH2]; intros v v' Hv.
  - exact Hv.
  - simpl. pose proof (update_resp x v v' Hv) as Hx.
    destruct (update x v), (update x v'); simpl in *; try tauto.
    now apply IH.
  - simpl.
    apply alike_trans with (x0 <- (x1 <- update x v ;; update y x1) ;;
                            for_each update l x0).
    + pose proof (update_comm y x v) as Hc.
      destruct (update y v) as [vy|]; simpl in *.
      * destruct (update x vy) as [vyx|]; simpl in *;
          destruct (update x v) as [vx|]; simpl in *; try tauto;
            destruct (update y vx) as [vxy|]; simpl in *; try tauto.
        now apply for_each_resp.
      * destruct (update x v) as [vx|]; simpl in *; try tauto.
        destruct (update y vx) as [vxy|]; simpl in *; tauto.
    + pose proof (update_resp x v v' Hv) as Hx.
      destruct (update x v) as [vx|], (update x v') as [vx'|];
        simpl in *; try tauto.
      pose proof (update_resp y vx vx' Hx) as Hy.
      destruct (update y vx) as [a|], (update y vx') as [b|];
        simpl in *; try tauto.
      now apply for_each_resp.
  - eapply alike_trans; [apply IH1, R_refl | now apply IH2].
Qed.

Lemma sel_perm k ls ls' : Permutation ls ls' -> Permutation (sel k ls) (sel k ls').
Proof.
  induction 1; simpl.
  - constructor.
  - destruct (has_key key k x); auto.
  - destruct (has_key key k x), (has_key key k y); auto. constructor.
  - eapply perm_trans; eauto.
Qed.

(** Permuting the lines changes no key's value, up to [R]. *)
Lemma fold_perm ls ls' d d1 :
  Permutation ls ls' ->
  for_each step ls d = Ok d1 ->
  exists d2,
    for_each step ls' d = Ok d2
    /\ forall k,
        R (Dict.getitem default k d1) (Dict.getitem default k d2)
        /\ (Dict.lookup k d1 = None <-> Dict.lookup k d2 = None).
Proof.
  intros HP H1.
  assert (Hk : forall k,
             alike R (Ok (Dict.getitem default k d1))
                   (for_each update (sel k ls') (Dict.getitem default k d))).
  { intros k. rewrite <- (fold_per_key ls d d1 k H1).
    apply for_each_perm; [now apply sel_perm | apply R_refl]. }
  destruct (fold_Ok_per_key ls' d) as [d2 H2].
  { intros k. specialize (Hk k).
    destruct (for_each update (sel k ls') _); simpl in Hk; [eauto|tauto]. }
  exists d2. split; [exact H2|]. intros k. split.
  - specialize (Hk k). rewrite (fold_per_key ls' d d2 k H2) in Hk. exact Hk.
  - rewrite (fold_lookup_None ls d d1 k H1), (fold_lookup_None ls' d d2 k H2).
    pose proof (sel_perm k _ _ HP) as Hs.
    split; intros [Hd Hnil]; split; auto.
    + rewrite Hnil in Hs. now apply Permutation_nil in Hs.
    + rewrite Hnil in Hs. apply Permutation_sym in Hs.
      now apply Permutation_nil in Hs.
Qed.
End Order.
End SchemeFacts.


(* ================================================================= *)
(** * Facts about the two loops of the calculator *)

Section CalculatorFacts.
Import Py StatsCalculator Accumulate.

Lemma process_batting game d :
  _process_game_batting_stats game d
  = for_each batting_step (Lines.game_batting game) d.
Proof.
  unfold _process_game_batting_stats, Lines.game_batting.
  rewrite for_each_app, for_each_map.
  change (fun x => batting_step (?t, x)) with (add_batting_line t).
  destruct (for_each _ _ d); simpl; [|reflexivity].
  now rewrite for_each_map.
Qed.

Lemma process_pitching game d :
  _process_game_pitching_stats game d
  = for_each pitching_step (Lines.game_pitching game) d.
Proof.
  unfold _process_game_pitching_stats, Lines.game_pitching.
  rewrite for_each_app, for_each_map.
  change (fun x => pitching_step (?t, x)) with (add_pitching_line t).
  destruct (for_each _ _ d); simpl; [|reflexivity].
  now rewrite for_each_map.
Qed.

(** The loop over the games is the batting loop over all batting
    lines and the pitching loop over all pitching lines. *)
Lemma process_games_split games : forall b p b' p',
  for_each process_game games (b, p) = Ok (b', p')
  <-> for_each batting_step (Lines.batting games) b = Ok b'
      /\ for_each pitching_step (Lines.pitching games) p = Ok p'.
Proof.
  induction games as [|g games IH]; simpl; intros b p b' p'.
  - split; [intros [= <- <-]; auto | intros [[= <-] [= <-]]; auto].
  - unfold process_game at 1. simpl.
    rewrite process_batting, process_pitching, !for_each_app.
    destruct (for_each batting_step (Lines.game_batting g) b) as [b1|];
      simpl; [|split; [discriminate | intros [? _]; discriminate]].
    destruct (for_each pitching_step (Lines.game_pitching g) p) as [p1|];
      simpl; [|split; [discriminate | intros [_ ?]; discriminate]].
    apply IH.
Qed.

Lemma process_games_Ok games b p :
  process_games games = Ok (b, p)
  <-> for_each batting_step (Lines.batting games) [] = Ok b
      /\ for_each pitching_step (Lines.pitching games) [] = Ok p.
Proof. apply process_games_split. Qed.

Lemma update_batting_inv team player st st' :
  update_batting team player st = Ok st' ->
  BattingStats.player_name st' = get (BattingLine.name player) "Unknown"%string
  /\ BattingStats.team st' = team
  /\ BattingStats.games st' = BattingStats.games st + 1
  /\ Lines.same_batting_rates st' st.
Proof.
  unfold update_batting, Lines.same_batting_rates.
  repeat match goal with
         | |- context [int ?x] => destruct (int x); simpl; try discriminate
         end.
  intros [= <-]. simpl. auto 10.
Qed.

Lemma update_pitching_inv team player st st' :
  update_pitching team player st = Ok st' ->
  PitchingStats.player_name st' = get (PitchingLine.name player) "Unknown"%string
  /\ PitchingStats.team st' = team
  /\ PitchingStats.games st' = PitchingStats.games st + 1
  /\ PitchingStats.era st' = PitchingStats.era st
  /\ PitchingStats.whip st' = PitchingStats.whip st.
Proof.
  unfold update_pitching.
  repeat match goal with
         | |- context [int ?x] => destruct (int x); simpl; try discriminate
         | |- context [to_float ?x] =>
             destruct (to_float x); simpl; try discriminate
         end.
  intros [= <-]. simpl. auto 10.
Qed.

Ltac convert_all :=
  repeat match goal with
         | |- context [int ?x] =>
             let E := fresh "E" in destruct (int x) eqn:E; simpl
         | |- context [to_float ?x] =>
             let E := fresh "E" in destruct (to_float x) eqn:E; simpl
         end.

Ltac absurd_conversion :=
  match goal with
  | |- raises (Raise ?e) => now exists e
  | H : raises (Ok _) |- _ => destruct H as [? H]; discriminate
  end.

(** A present value that [int()] rejects makes the update raise. *)
Lemma update_batting_corrupt team player st :
  Lines.corrupt_batting_line player -> raises (update_batting team player st).
Proof.
  unfold Lines.corrupt_batting_line, Lines.rejected_int. intros H.
  repeat match goal with
         | H : Exists _ (_ :: _) |- _ =>
             apply Exists_cons in H; destruct H as [(v & Hf & Hv)|H]
         | H : Exists _ [] |- _ => inversion H
         end;
    unfold update_batting; rewrite Hf; simpl get; convert_all;
      absurd_conversion.
Qed.

Lemma update_pitching_corrupt team player st :
  Lines.corrupt_pitching_line player ->
  raises (update_pitching team player st).
Proof.
  unfold Lines.corrupt_pitching_line, Lines.rejected_int,
    Lines.rejected_float.
  intros [(v & Hf & Hv)|H].
  - unfold update_pitching; rewrite Hf; simpl get; convert_all;
      absurd_conversion.
  - repeat match goal with
           | H : Exists _ (_ :: _) |- _ =>
               apply Exists_cons in H; destruct H as [(v & Hf & Hv)|H]
           | H : Exists _ [] |- _ => inversion H
           end;
      unfold update_pitching; rewrite Hf; simpl get; convert_all;
        absurd_conversion.
Qed.
End CalculatorFacts.


(* ================================================================= *)
(** * Order of the lines *)

Section OrderFacts.
Import Py StatsCalculator Accumulate.

Lemma same_batting_numbers_refl a : Lines.same_batting_numbers a a.
Proof.
  unfold Lines.same_batting_numbers, Lines.same_batting_counts,
    Lines.same_batting_rates. auto 20.
Qed.

Lemma same_batting_numbers_trans a b c :
  Lines.same_batting_numbers a b -> Lines.same_batting_numbers b c ->
  Lines.same_batting_numbers a c.
Proof.
  unfold Lines.same_batting_numbers, Lines.same_batting_counts,
    Lines.same_batting_rates.
  intuition congruence.
Qed.

Lemma same_pitching_counts_refl a : Lines.same_pitching_counts a a.
Proof. unfold Lines.same_pitching_counts. auto 20. Qed.

Lemma same_pitching_counts_trans a b c :
  Lines.same_pitching_counts a b -> Lines.same_pitching_counts b c ->
  Lines.same_pitching_counts a c.
Proof. unfold Lines.same_pitching_counts. intuition congruence. Qed.

Ltac convert_all :=
  repeat match goal with
         | |- context [int ?x] => destruct (int x); simpl
         | |- context [to_float ?x] => destruct (to_float x); simpl
         end.

Lemma batting_update_resp l v v' :
  Lines.same_batting_numbers v v' ->
  alike Lines.same_batting_numbers (batting_update l v) (batting_update l v').
Proof.
  unfold Lines.same_batting_numbers, Lines.same_batting_counts,
    Lines.same_batting_rates, batting_update, update_batting.
  intros H. convert_all; auto. intuition (try congruence; lia).
Qed.

Lemma batting_update_comm a b v :
  alike Lines.same_batting_numbers
        (x <- batting_update a v ;; batting_update b x)
        (x <- batting_update b v ;; batting_update a x).
Proof.
  unfold Lines.same_batting_numbers, Lines.same_batting_counts,
    Lines.same_batting_rates, batting_update, update_batting.
  convert_all; auto. intuition lia.
Qed.

Lemma pitching_update_resp l v v' :
  Lines.same_pitching_counts v v' ->
  alike Lines.same_pitching_counts (pitching_update l v) (pitching_update l v').
Proof.
  unfold Lines.same_pitching_counts, pitching_update, update_pitching.
  intros H. convert_all; auto. intuition lia.
Qed.

Lemma pitching_update_comm a b v :
  alike Lines.same_pitching_counts
        (x <- pitching_update a v ;; pitching_update b x)
        (x <- pitching_update b v ;; pitching_update a x).
Proof.
  unfold Lines.same_pitching_counts, pitching_update, update_pitching.
  convert_all; auto. intuition lia.
Qed.

(** The derived batting fields depend on the numbers only. *)
Lemma batting_averages_numbers a b :
  Lines.same_batting_numbers a b ->
  alike Lines.same_batting_numbers (batting_averages a) (batting_averages b).
Proof.
  unfold Lines.same_batting_numbers, Lines.same_batting_counts,
    Lines.same_batting_rates.
  destruct a, b; simpl. intros H.
  decompose [and] H; clear H; subst.
  unfold batting_averages; simpl.
  repeat match goal with
         | |- context [bind ?m _] => destruct m; simpl
         end; auto 20.
Qed.

Lemma batting_permutation games games' :
  Permutation games games' ->
  Permutation (Lines.batting games) (Lines.batting games').
Proof. apply Permutation_flat_map. Qed.

Lemma pitching_permutation games games' :
  Permutation games games' ->
  Permutation (Lines.pitching games) (Lines.pitching games').
Proof. apply Permutation_flat_map. Qed.
End OrderFacts.


(* ================================================================= *)
(** * Records and their lines *)

Section RecordFacts.
Import Py StatsCalculator Accumulate.

Lemma batting_fold_games fl : forall v v',
  for_each batting_update fl v = Ok v' ->
  BattingStats.games v' = BattingStats.games v + Z.of_nat (List.length fl)
  /\ Lines.same_batting_rates v' v.
Proof.
  induction fl as [|l fl IH]; intros v v' H.
  - injection H as <-. simpl. split; [lia|].
    unfold Lines.same_batting_rates. auto.
  - simpl in H. destruct (batting_update l v) as [v1|] eqn:E;
      simpl in H; [|discriminate].
    apply update_batting_inv in E as (_ & _ & Hg & Hr).
    destruct (IH _ _ H) as [Hg' Hr']. split.
    + rewrite Hg', Hg. cbn [List.length]. lia.
    + unfold Lines.same_batting_rates in *. intuition congruence.
Qed.

Lemma pitching_fold_games fl : forall v v',
  for_each pitching_update fl v = Ok v' ->
  PitchingStats.games v' = PitchingStats.games v + Z.of_nat (List.length fl)
  /\ PitchingStats.era v' = PitchingStats.era v
  /\ PitchingStats.whip v' = PitchingStats.whip v.
Proof.
  induction fl as [|l fl IH]; intros v v' H.
  - injection H as <-. simpl. split; [lia|auto].
  - simpl in H. destruct (pitching_update l v) as [v1|] eqn:E;
      simpl in H; [|discriminate].
    apply update_pitching_inv in E as (_ & _ & Hg & He & Hw).
    destruct (IH _ _ H) as (Hg' & He' & Hw'). repeat split.
    + rewrite Hg', Hg. cbn [List.length]. lia.
    + congruence.
    + congruence.
Qed.

(** The name and the team of a record are those of its last line. *)
Lemma batting_fold_last fl l v v' :
  for_each batting_update (fl ++ [l]) v = Ok v' ->
  BattingStats.player_name v'
  = get (BattingLine.name (snd l)) "Unknown"%string
  /\ BattingStats.team v' = fst l.
Proof.
  rewrite for_each_app. intros H.
  destruct (for_each batting_update fl v) as [v1|]; simpl in H; [|discriminate].
  destruct (batting_update l v1) as [v2|] eqn:E; simpl in H; [|discriminate].
  injection H as <-. apply update_batting_inv in E. tauto.
Qed.

Lemma pitching_fold_last fl l v v' :
  for_each pitching_update (fl ++ [l]) v = Ok v' ->
  PitchingStats.player_name v'
  = get (PitchingLine.name (snd l)) "Unknown"%string
  /\ PitchingStats.team v' = fst l.
Proof.
  rewrite for_each_app. intros H.
  destruct (for_each pitching_update fl v) as [v1|]; simpl in H; [|discriminate].
  destruct (pitching_update l v1) as [v2|] eqn:E; simpl in H; [|discriminate].
  injection H as <-. apply update_pitching_inv in E. tauto.
Qed.

(** [_calculate_batting_averages] changes the four derived fields
    only, and [ops] is the rounded sum of the two fields it has just
    stored. *)
Lemma batting_averages_inv st r :
  batting_averages st = Ok r ->
  BattingStats.player_name r = BattingStats.player_name st
  /\ BattingStats.team r = BattingStats.team st
  /\ Lines.same_batting_counts r st
  /\ round (fadd (BattingStats.on_base_percentage r)
                 (BattingStats.slugging_percentage r)) 3
     = Ok (BattingStats.ops r)
  /\ ((BattingStats.at_bats st >? 0) = false ->
      BattingStats.batting_average r = BattingStats.batting_average st
      /\ BattingStats.slugging_percentage r
         = BattingStats.slugging_percentage st)
  /\ ((BattingStats.at_bats st + BattingStats.walks st >? 0) = false ->
      BattingStats.on_base_percentage r
      = BattingStats.on_base_percentage st).
Proof.
  unfold batting_averages, Lines.same_batting_counts.
  destruct (BattingStats.at_bats st >? 0);
    destruct (BattingStats.at_bats st + BattingStats.walks st >? 0);
    cbn [bind];
    repeat match goal with
           | |- context [bind ?m _] =>
               let E := fresh "E" in
               destruct m eqn:E; cbn [bind]; try discriminate
           end;
    intros [= <-]; simpl;
    repeat match goal with
           | |- _ /\ _ => split
           | |- _ -> _ => intro
           end; try discriminate; auto.
Qed.

Lemma pitching_averages_inv st r :
  pitching_averages st = Ok r ->
  PitchingStats.player_name r = PitchingStats.player_name st
  /\ PitchingStats.team r = PitchingStats.team st
  /\ Lines.same_pitching_counts r st
  /\ PitchingStats.innings_pitched r = PitchingStats.innings_pitched st
  /\ (float_gt_0 (PitchingStats.innings_pitched st) = false ->
      PitchingStats.era r = PitchingStats.era st
      /\ PitchingStats.whip r = PitchingStats.whip st).
Proof.
  unfold pitching_averages, Lines.same_pitching_counts.
  destruct (float_gt_0 (PitchingStats.innings_pitched st));
    cbn [bind];
    repeat match goal with
           | |- context [bind ?m _] =>
               let E := fresh "E" in
               destruct m eqn:E; cbn [bind]; try discriminate
           end;
    intros [= <-]; simpl;
    repeat match goal with
           | |- _ /\ _ => split
           | |- _ -> _ => intro
           end; try discriminate; auto.
Qed.

(** The loops never touch the derived fields: they hold [0.0] until
    the second pass. *)
Lemma batting_rates_untouched ls d :
  for_each batting_step ls [] = Ok d ->
  Forall Lines.zero_batting_rates (Dict.values d).
Proof.
  apply (fold_values_invariant BattingStats.default Lines.bkey batting_update
           Lines.zero_batting_rates).
  - unfold Lines.zero_batting_rates, Lines.same_batting_rates. auto.
  - intros l v v' Hv E. apply update_batting_inv in E as (_ & _ & _ & Hr).
    unfold Lines.zero_batting_rates, Lines.same_batting_rates in *.
    intuition congruence.
  - constructor.
Qed.

Lemma pitching_rates_untouched ls d :
  for_each pitching_step ls [] = Ok d ->
  Forall Lines.zero_pitching_rates (Dict.values d).
Proof.
  apply (fold_values_invariant PitchingStats.default Lines.pkey
           pitching_update Lines.zero_pitching_rates).
  - unfold Lines.zero_pitching_rates. auto.
  - intros l v v' Hv E. apply update_pitching_inv in E as (_ & _ & _ & He & Hw).
    unfold Lines.zero_pitching_rates in *. intuition congruence.
  - constructor.
Qed.

(** What [calculate_aggregate_stats] returns, unfolded. *)
Lemma calculate_inv games bl pl :
  calculate_aggregate_stats games = Ok (bl, pl) ->
  exists bs ps,
    for_each batting_step (Lines.batting games) [] = Ok bs
    /\ for_each pitching_step (Lines.pitching games) [] = Ok ps
    /\ _calculate_batting_averages bs = Ok bl
    /\ _calculate_pitching_averages ps = Ok pl
    /\ Dict.keys bs = Lines.batting_keys games
    /\ Dict.keys ps = Lines.pitching_keys games.
Proof.
  unfold calculate_aggregate_stats. intros H.
  destruct (process_games games) as [[bs ps]|] eqn:E; simpl in H; [|discriminate].
  apply process_games_Ok in E as [Eb Ep].
  destruct (_calculate_batting_averages bs) as [bl'|] eqn:Ebl;
    simpl in H; [|discriminate].
  destruct (_calculate_pitching_averages ps) as [pl'|] eqn:Epl;
    simpl in H; [|discriminate].
  injection H as <- <-. exists bs, ps. repeat split; auto.
  - apply (fold_keys _ _ _ _ _ _ Eb).
  - apply (fold_keys _ _ _ _ _ _ Ep).
Qed.
End RecordFacts.


(* ================================================================= *)
(** * Derived batting fields *)

Section RateFacts.
Import Py StatsCalculator.

(** Each derived batting field is a quotient of cumulative totals
    rounded to 3 decimals, or the [0.0] it held; [ops] is computed
    from the two rounded fields. *)
Lemma batting_averages_rates st r :
  batting_averages st = Ok r ->
  Lines.zero_batting_rates st ->
  let at_bats := BattingStats.at_bats st in
  let hits := BattingStats.hits st in
  let walks := BattingStats.walks st in
  let doubles := BattingStats.doubles st in
  let triples := BattingStats.triples st in
  let home_runs := BattingStats.home_runs st in
  (if at_bats >? 0
   then exists q, int_truediv hits at_bats = Ok q
                  /\ round q 3 = Ok (BattingStats.batting_average r)
   else BattingStats.batting_average r = fzero)
  /\ (if at_bats + walks >? 0
      then exists q, int_truediv (hits + walks) (at_bats + walks) = Ok q
                     /\ round q 3 = Ok (BattingStats.on_base_percentage r)
      else BattingStats.on_base_percentage r = fzero)
  /\ (if at_bats >? 0
      then exists q,
          int_truediv (hits - doubles - triples - home_runs
                       + doubles * 2 + triples * 3 + home_runs * 4)
                      at_bats = Ok q
          /\ round q 3 = Ok (BattingStats.slugging_percentage r)
      else BattingStats.slugging_percentage r = fzero)
  /\ round (fadd (BattingStats.on_base_percentage r)
                 (BattingStats.slugging_percentage r)) 3
     = Ok (BattingStats.ops r).
Proof.
  unfold Lines.zero_batting_rates, Lines.same_batting_rates.
  intros H (Hba & Hobp & Hslg & _). simpl in Hba, Hobp, Hslg.
  unfold batting_averages in H. rewrite Hba, Hobp, Hslg in H.
  cbv zeta.
  destruct (BattingStats.at_bats st >? 0);
    destruct (BattingStats.at_bats st + BattingStats.walks st >? 0);
    cbn [bind] in H;
    repeat match type of H with
           | context [int_truediv ?a ?b] =>
               let E := fresh "E" in
               destruct (int_truediv a b) eqn:E; cbn [bind] in H;
               try discriminate
           end;
    repeat match type of H with
           | context [round ?q ?n] =>
               let E := fresh "E" in
               destruct (round q n) eqn:E; cbn [bind] in H;
               try discriminate
           end;
    injection H as <-; simpl; repeat split; eauto.
Qed.


Lemma float_gt_0_zero x : is_zero x = true -> float_gt_0 x = false.
Proof. destruct x as [[|]|[|]| |]; simpl; intros; try discriminate; reflexivity. Qed.

(** Every record of the batting list comes from an accumulated value
    whose derived fields were still [0.0]. *)
Lemma batting_list_origin games bl pl r :
  calculate_aggregate_stats games = Ok (bl, pl) ->
  In r bl ->
  exists st, batting_averages st = Ok r /\ Lines.zero_batting_rates st.
Proof.
  intros H Hr.
  apply calculate_inv in H as (bs & ps & Eb & _ & Ebl & _).
  destruct (map_result_In _ _ _ _ Ebl Hr) as ([k st] & Hin & Hst).
  exists st. split; [exact Hst|].
  pose proof (batting_rates_untouched _ _ Eb) as Hz.
  rewrite Forall_forall in Hz. apply Hz.
  unfold Dict.values. now apply (in_map snd) in Hin.
Qed.

Lemma pitching_list_origin games bl pl r :
  calculate_aggregate_stats games = Ok (bl, pl) ->
  In r pl ->
  exists st, pitching_averages st = Ok r /\ Lines.zero_pitching_rates st.
Proof.
  intros H Hr.
  apply calculate_inv in H as (bs & ps & _ & Ep & _ & Epl & _).
  destruct (map_result_In _ _ _ _ Epl Hr) as ([k st] & Hin & Hst).
  exists st. split; [exact Hst|].
  pose proof (pitching_rates_untouched _ _ Ep) as Hz.
  rewrite Forall_forall in Hz. apply Hz.
  unfold Dict.values. now apply (in_map snd) in Hin.
Qed.
End RateFacts.


(* ================================================================= *)
(** * The claims about the returned records *)

Section Records.
Import Py StatsCalculator.

(** C8.  In the batting list returned by [calculate_aggregate_stats],
    the [games] field of the record of a key is the number of batting
    lines, home and away, over all games, whose key is that key; and a
    key without a record has no line. *)
Theorem games_field_counts_batting_lines games bl pl :
  calculate_aggregate_stats games = Ok (bl, pl) ->
  forall k,
    match Lines.record_for (Lines.batting_keys games) bl k with
    | Some r =>
        BattingStats.games r
        = Z.of_nat (List.length (Lines.batting_of k games))
    | None => Lines.batting_of k games = []
    end.
Proof.
  intros H k.
  apply calculate_inv in H as (bs & ps & Eb & _ & Ebl & _ & Kb & _).
  rewrite <- Kb.
  destruct (Lines.record_for (Dict.keys bs) bl k) as [r|] eqn:Er.
  - destruct (map_result_record _ _ _ _ _ Ebl Er) as (st & Hst & Hr).
    apply batting_averages_inv in Hr as (_ & _ & (Hg & _) & _).
    rewrite Hg.
    pose proof (fold_per_key _ _ _ _ _ _ k Eb) as Hk.
    rewrite (lookup_getitem _ _ _ _ Hst) in Hk.
    apply batting_fold_games in Hk as [Hk _]. exact Hk.
  - destruct (Dict.lookup k bs) as [st|] eqn:Hst.
    + destruct (map_result_record_back _ _ _ _ _ Ebl Hst) as (r & Hr & _).
      congruence.
    + apply (fold_lookup_None _ _ _ _ _ _ k Eb) in Hst. tauto.
Qed.

Lemma games_field_counts_batting_lines_witness :
  match Lines.record_for
          (Lines.batting_keys [Sample.game1; Sample.game2])
          (Sample.batting_list [Sample.game1; Sample.game2]) "123" with
  | Some r =>
      BattingStats.games r
      = Z.of_nat (List.length
                    (Lines.batting_of "123" [Sample.game1; Sample.game2]))
  | None => Lines.batting_of "123" [Sample.game1; Sample.game2] = []
  end.
Proof.
  apply (games_field_counts_batting_lines
           [Sample.game1; Sample.game2]
           (Sample.batting_list [Sample.game1; Sample.game2])
           (Sample.pitching_list [Sample.game1; Sample.game2])).
  vm_compute. reflexivity.
Defined.

(** C7.  Every key that has a batting line has a record in the
    returned batting list, and the [player_name] and [team] of that
    record are those of the last line processed for the key: the name
    of that line (['Unknown'] when it has none) and the team of the
    side it was listed on.  Earlier lines of the key leave no trace in
    these two fields.  A key without a record has no line.  The same
    holds of the pitching lines and the pitching list. *)
Theorem name_and_team_of_last_line games bl pl :
  calculate_aggregate_stats games = Ok (bl, pl) ->
  (forall k,
      match Lines.record_for (Lines.batting_keys games) bl k with
      | Some r =>
          exists earlier last,
            Lines.batting_of k games = earlier ++ [last]
            /\ BattingStats.player_name r
               = get (BattingLine.name (snd last)) "Unknown"%string
            /\ BattingStats.team r = fst last
      | None => Lines.batting_of k games = []
      end)
  /\ (forall k,
         match Lines.record_for (Lines.pitching_keys games) pl k with
         | Some r =>
             exists earlier last,
               Lines.pitching_of k games = earlier ++ [last]
               /\ PitchingStats.player_name r
                  = get (PitchingLine.name (snd last)) "Unknown"%string
               /\ PitchingStats.team r = fst last
         | None => Lines.pitching_of k games = []
         end).
Proof.
  intros H.
  apply calculate_inv in H as (bs & ps & Eb & Ep & Ebl & Epl & Kb & Kp).
  rewrite <- Kb, <- Kp. split; intros k.
  - destruct (Lines.record_for (Dict.keys bs) bl k) as [r|] eqn:Er.
    + destruct (map_result_record _ _ _ _ _ Ebl Er) as (st & Hst & Hr).
      apply batting_averages_inv in Hr as (Hn & Ht & _).
      pose proof (fold_per_key _ _ _ _ _ _ k Eb) as Hk.
      rewrite (lookup_getitem _ _ _ _ Hst) in Hk.
      destruct (exists_last (l := Lines.batting_of k games))
        as (earlier & last & E).
      { intros Hnil.
        assert (Dict.lookup k bs = None); [|congruence].
        apply (fold_lookup_None _ _ _ _ _ _ k Eb). auto. }
      exists earlier, last. split; [exact E|].
      change (filter _ (Lines.batting games))
        with (Lines.batting_of k games) in Hk.
      rewrite E in Hk. apply batting_fold_last in Hk. rewrite Hn, Ht.
      exact Hk.
    + destruct (Dict.lookup k bs) as [st|] eqn:Hst.
      * destruct (map_result_record_back _ _ _ _ _ Ebl Hst) as (r & Hr & _).
        congruence.
      * apply (fold_lookup_None _ _ _ _ _ _ k Eb) in Hst. tauto.
  - destruct (Lines.record_for (Dict.keys ps) pl k) as [r|] eqn:Er.
    + destruct (map_result_record _ _ _ _ _ Epl Er) as (st & Hst & Hr).
      apply pitching_averages_inv in Hr as (Hn & Ht & _).
      pose proof (fold_per_key _ _ _ _ _ _ k Ep) as Hk.
      rewrite (lookup_getitem _ _ _ _ Hst) in Hk.
      destruct (exists_last (l := Lines.pitching_of k games))
        as (earlier & last & E).
      { intros Hnil.
        assert (Dict.lookup k ps = None); [|congruence].
        apply (fold_lookup_None _ _ _ _ _ _ k Ep). auto. }
      exists earlier, last. split; [exact E|].
      change (filter _ (Lines.pitching games))
        with (Lines.pitching_of k games) in Hk.
      rewrite E in Hk. apply pitching_fold_last in Hk. rewrite Hn, Ht.
      exact Hk.
    + destruct (Dict.lookup k ps) as [st|] eqn:Hst.
      * destruct (map_result_record_back _ _ _ _ _ Epl Hst) as (r & Hr & _).
        congruence.
      * apply (fold_lookup_None _ _ _ _ _ _ k Ep) in Hst. tauto.
Qed.

(** C6.  For every returned batting record, [ops] is the sum of the
    stored [on_base_percentage] and [slugging_percentage], each already
    rounded to 3 decimals (or the [0.0] left by a zero denominator),
    rounded to 3 decimals again. *)
Theorem ops_is_rounded_sum_of_rounded_fields games bl pl :
  calculate_aggregate_stats games = Ok (bl, pl) ->
  forall r, In r bl ->
    let at_bats := BattingStats.at_bats r in
    let hits := BattingStats.hits r in
    let walks := BattingStats.walks r in
    let total_bases :=
      hits - BattingStats.doubles r - BattingStats.triples r
      - BattingStats.home_runs r + BattingStats.doubles r * 2
      + BattingStats.triples r * 3 + BattingStats.home_runs r * 4 in
    (if at_bats + walks >? 0
     then exists q, int_truediv (hits + walks) (at_bats + walks) = Ok q
                    /\ round q 3 = Ok (BattingStats.on_base_percentage r)
     else BattingStats.on_base_percentage r = fzero)
    /\ (if at_bats >? 0
        then exists q, int_truediv total_bases at_bats = Ok q
                       /\ round q 3 = Ok (BattingStats.slugging_percentage r)
        else BattingStats.slugging_percentage r = fzero)
    /\ round (fadd (BattingStats.on_base_percentage r)
                   (BattingStats.slugging_percentage r)) 3
       = Ok (BattingStats.ops r).
Proof.
  intros H r Hr.
  destruct (batting_list_origin _ _ _ _ H Hr) as (st & Hst & Hz).
  pose proof (batting_averages_rates _ _ Hst Hz) as (_ & Hobp & Hslg & Hops).
  apply batting_averages_inv in Hst as (_ & _ & Hc & _).
  unfold Lines.same_batting_counts in Hc.
  destruct Hc as (_ & -> & -> & _ & _ & -> & -> & -> & -> & _).
  cbv zeta. auto.
Qed.
End Records.


Section Guards.
Import Py StatsCalculator.



End Guards.


Section Malformed.
Import Py StatsCalculator Accumulate.

(** C1, as stated, fails: the text ["abc"] under [at_bats] in one line
    of the second game makes the whole call raise [ValueError], and the
    first game, which aggregates on its own, is lost with it. *)
Lemma corrupt_line_raises :
  calculate_aggregate_stats [Sample.game1; Sample.corrupt_game]
  = Raise ValueError
  /\ (exists out, calculate_aggregate_stats [Sample.game1] = Ok out)
  /\ ~ (exists out,
           calculate_aggregate_stats [Sample.game1; Sample.corrupt_game]
           = Ok out).
Proof.
  split; [vm_compute; reflexivity|]. split.
  - eexists. vm_compute. reflexivity.
  - intros [out H]. vm_compute in H. discriminate.
Qed.

(** C1, amended.  A numeric field that is absent counts as 0 ([0.0]
    for the innings): a line without any numeric field adds one game
    and nothing else.  A field that is present goes through [int()]
    ([float()] for the innings), and a value the conversion rejects is
    not coerced: if any batting or pitching line of any game holds
    one, [calculate_aggregate_stats] raises and returns nothing. *)
Theorem rejected_value_aborts_aggregation :
  (forall games,
      (exists l, In l (Lines.batting games)
                 /\ Lines.corrupt_batting_line (snd l))
      \/ (exists l, In l (Lines.pitching games)
                    /\ Lines.corrupt_pitching_line (snd l)) ->
      raises (calculate_aggregate_stats games))
  /\ (forall team player_id name st,
         exists st',
           update_batting team
             (BattingLine.make player_id name None None None None None
                               None None None None) st = Ok st'
           /\ BattingStats.games st' = BattingStats.games st + 1
           /\ BattingStats.at_bats st' = BattingStats.at_bats st
           /\ BattingStats.hits st' = BattingStats.hits st
           /\ BattingStats.runs st' = BattingStats.runs st
           /\ BattingStats.rbis st' = BattingStats.rbis st
           /\ BattingStats.doubles st' = BattingStats.doubles st
           /\ BattingStats.triples st' = BattingStats.triples st
           /\ BattingStats.home_runs st' = BattingStats.home_runs st
           /\ BattingStats.walks st' = BattingStats.walks st
           /\ BattingStats.strikeouts st' = BattingStats.strikeouts st)
  /\ (forall team player_id name st,
         exists st',
           update_pitching team
             (PitchingLine.make player_id name None None None None None
                                None None None None None) st = Ok st'
           /\ PitchingStats.games st' = PitchingStats.games st + 1
           /\ PitchingStats.innings_pitched st'
              = fadd (PitchingStats.innings_pitched st) fzero
           /\ PitchingStats.earned_runs st' = PitchingStats.earned_runs st
           /\ PitchingStats.hits_allowed st' = PitchingStats.hits_allowed st
           /\ PitchingStats.walks_allowed st'
              = PitchingStats.walks_allowed st
           /\ PitchingStats.wins st' = PitchingStats.wins st
           /\ PitchingStats.losses st' = PitchingStats.losses st
           /\ PitchingStats.saves st' = PitchingStats.saves st
           /\ PitchingStats.runs_allowed st' = PitchingStats.runs_allowed st
           /\ PitchingStats.strikeouts st' = PitchingStats.strikeouts st
           /\ PitchingStats.home_runs_allowed st'
              = PitchingStats.home_runs_allowed st).
Proof.
  split; [|split].
  - intros games Hbad.
    destruct (result_cases (calculate_aggregate_stats games))
      as [[[bl pl] H]|H]; [exfalso|exact H].
    apply calculate_inv in H as (bs & ps & Eb & Ep & _).
    destruct Hbad as [(l & Hin & Hc)|(l & Hin & Hc)].
    + eapply raises_not_Ok; [|exact Eb].
      apply fold_raises with (l := l); [exact Hin|].
      intros v. now apply update_batting_corrupt.
    + eapply raises_not_Ok; [|exact Ep].
      apply fold_raises with (l := l); [exact Hin|].
      intros v. now apply update_pitching_corrupt.
  - intros team player_id name st. eexists. split; [reflexivity|].
    simpl. repeat split; lia.
  - intros team player_id name st. eexists. split; [reflexivity|].
    simpl. repeat split; lia.
Qed.

Lemma rejected_value_aborts_aggregation_witness :
  raises (calculate_aggregate_stats [Sample.game1; Sample.corrupt_game]).
Proof.
  apply (proj1 rejected_value_aborts_aggregation).
  left. exists ("Reds"%string, Sample.corrupt). split.
  - vm_compute. auto.
  - apply Exists_cons_hd. exists (PStr "abc"). split; [reflexivity|].
    exists ValueError. reflexivity.
Defined.
End Malformed.

Section Keys.
Import Py StatsCalculator Accumulate.

(** C3, as stated, fails: a line whose [player_id] is present and
    empty is accumulated under the empty key, not under a key made
    from its name. *)
Lemma empty_player_id_is_the_key :
  batting_key Sample.anonymous = ""%string
  /\ Lines.spec_key (BattingLine.player_id Sample.anonymous)
                    (BattingLine.name Sample.anonymous)
     = "unknown_Bob"%string
  /\ batting_key Sample.anonymous
     <> Lines.spec_key (BattingLine.player_id Sample.anonymous)
                       (BattingLine.name Sample.anonymous).
Proof. vm_compute. repeat split. discriminate. Qed.

(** C3, amended.  The accumulation key of a batting or pitching line
    is its [player_id] whenever that field is present, empty or not;
    only when the field is absent is the key the marker ["unknown_"]
    followed by the name (["unnamed"] without a name).  It is the key
    the specification describes unless [player_id] is present and
    empty.  A line is added to the record stored under its key, which
    gains one game, and to no other record. *)
Theorem accumulation_key :
  (forall player,
      batting_key player
      = match BattingLine.player_id player with
        | Some id => id
        | None =>
            ("unknown_" ++ get (BattingLine.name player) "unnamed")%string
        end
      /\ (BattingLine.player_id player <> Some ""%string ->
          batting_key player
          = Lines.spec_key (BattingLine.player_id player)
                           (BattingLine.name player)))
  /\ (forall player,
         pitching_key player
         = match PitchingLine.player_id player with
           | Some id => id
           | None =>
               ("unknown_" ++ get (PitchingLine.name player) "unnamed")%string
           end
         /\ (PitchingLine.player_id player <> Some ""%string ->
             pitching_key player
             = Lines.spec_key (PitchingLine.player_id player)
                              (PitchingLine.name player)))
  /\ (forall team player d d',
         add_batting_line team player d = Ok d' ->
         (exists st',
             Dict.lookup (batting_key player) d' = Some st'
             /\ BattingStats.games st'
                = BattingStats.games
                    (Dict.getitem BattingStats.default
                                  (batting_key player) d) + 1)
         /\ forall k, k <> batting_key player ->
                      Dict.lookup k d' = Dict.lookup k d)
  /\ (forall team player d d',
         add_pitching_line team player d = Ok d' ->
         (exists st',
             Dict.lookup (pitching_key player) d' = Some st'
             /\ PitchingStats.games st'
                = PitchingStats.games
                    (Dict.getitem PitchingStats.default
                                  (pitching_key player) d) + 1)
         /\ forall k, k <> pitching_key player ->
                      Dict.lookup k d' = Dict.lookup k d).
Proof.
  split; [|split; [|split]].
  - intros player. split.
    + unfold batting_key. destruct (BattingLine.player_id player); reflexivity.
    + unfold batting_key, Lines.spec_key.
      destruct (BattingLine.player_id player) as [id|]; simpl; auto.
      intros Hne. destruct (String.eqb id "") eqn:E; auto.
      apply String.eqb_eq in E. congruence.
  - intros player. split.
    + unfold pitching_key. destruct (PitchingLine.player_id player); reflexivity.
    + unfold pitching_key, Lines.spec_key.
      destruct (PitchingLine.player_id player) as [id|]; simpl; auto.
      intros Hne. destruct (String.eqb id "") eqn:E; auto.
      apply String.eqb_eq in E. congruence.
  - intros team player d d' H. unfold add_batting_line in H.
    destruct (update_batting team player _) as [st'|] eqn:E;
      simpl in H; [|discriminate].
    injection H as <-. split.
    + exists st'. split; [apply lookup_setitem_eq|].
      now apply update_batting_inv in E.
    + intros k Hk. apply lookup_setitem_ne. congruence.
  - intros team player d d' H. unfold add_pitching_line in H.
    destruct (update_pitching team player _) as [st'|] eqn:E;
      simpl in H; [|discriminate].
    injection H as <-. split.
    + exists st'. split; [apply lookup_setitem_eq|].
      now apply update_pitching_inv in E.
    + intros k Hk. apply lookup_setitem_ne. congruence.
Qed.

Lemma accumulation_key_witness :
  batting_key Sample.unnamed = "unknown_Bob"%string
  /\ batting_key Sample.slugger
     = Lines.spec_key (BattingLine.player_id Sample.slugger)
                      (BattingLine.name Sample.slugger).
Proof.
  split.
  - apply (proj1 (proj1 accumulation_key Sample.unnamed)).
  - apply (proj2 (proj1 accumulation_key Sample.slugger)).
    vm_compute. discriminate.
Defined.
End Keys.


Section Permuted.
Import Py StatsCalculator Accumulate.

Lemma NoDup_keys_setitem {V : Type} k (v : V) d :
  NoDup (Dict.keys d) -> NoDup (Dict.keys (Dict.setitem k v d)).
Proof.
  intros H. rewrite keys_setitem.
  destruct (existsb (String.eqb k) (Dict.keys d)) eqn:E; auto.
  apply NoDup_app; auto.
  - constructor; [intros []|constructor].
  - intros x Hx [E'|[]]. subst x.
    assert (existsb (String.eqb k) (Dict.keys d) = true); [|congruence].
    apply existsb_exists. exists k. split; auto. apply String.eqb_refl.
Qed.

Lemma NoDup_keys_lookup {V : Type} k (v : V) d :
  NoDup (Dict.keys d) -> In (k, v) d -> Dict.lookup k d = Some v.
Proof.
  induction d as [|[k' v'] d IH]; simpl; intros Hn Hin; [destruct Hin|].
  inversion Hn as [|? ? Hnot Hn']; subst.
  destruct Hin as [[= -> ->]|Hin].
  - now rewrite String.eqb_refl.
  - destruct (String.eqb k k') eqn:E; auto.
    apply String.eqb_eq in E. subst k'. exfalso. apply Hnot.
    change k with (fst (k, v)). now apply in_map.
Qed.

Lemma fold_NoDup_keys {L V : Type} (default : V) key
      (update : L -> V -> result V) ls d d' :
  NoDup (Dict.keys d) ->
  for_each (step default key update) ls d = Ok d' -> NoDup (Dict.keys d').
Proof.
  apply (for_each_invariant (fun d => NoDup (Dict.keys d))).
  intros l s s' Hs E. apply step_inv in E as (v & _ & ->).
  now apply NoDup_keys_setitem.
Qed.

Lemma map_result_Ok {A B : Type} (f : A -> result B) l :
  (forall x, In x l -> exists y, f x = Ok y) ->
  exists out, map_result f l = Ok out.
Proof.
  induction l as [|x l IH]; simpl; intros H; [eauto|].
  destruct (H x (or_introl eq_refl)) as [y ->]. simpl.
  destruct IH as [out ->]; [intros; apply H; auto|]. simpl. eauto.
Qed.

(** C5, as stated, fails: the three outings of one pitcher total
    [2.6666666666666665] innings in one order and [2.666666666666667]
    in the reverse order, and the [era] is [3.38] in the first and
    [3.37] in the second. *)
Lemma innings_total_depends_on_order :
  Permutation [Sample.outing1; Sample.outing2; Sample.outing3]
              [Sample.outing3; Sample.outing2; Sample.outing1]
  /\ exists p p',
      calculate_aggregate_stats
        [Sample.outing1; Sample.outing2; Sample.outing3] = Ok ([], [p])
      /\ calculate_aggregate_stats
           [Sample.outing3; Sample.outing2; Sample.outing1] = Ok ([], [p'])
      /\ PitchingStats.innings_pitched p <> PitchingStats.innings_pitched p'
      /\ PitchingStats.era p = nearest_ratio 338 100
      /\ PitchingStats.era p' = nearest_ratio 337 100
      /\ PitchingStats.era p <> PitchingStats.era p'.
Proof.
  split.
  - apply (Permutation_rev [Sample.outing1; Sample.outing2; Sample.outing3]).
  - do 2 eexists. split; [vm_compute; reflexivity|].
    split; [vm_compute; reflexivity|].
    vm_compute. repeat split; discriminate.
Qed.

(** Whether the pitching pass raises can depend on the order too: the
    innings of the four sample lines total infinity in one order, and
    the division that follows cannot convert the earned runs; they total
    zero in another order, and the division is skipped. *)
Example overflow_depends_on_order :
  Permutation
    [Sample.blowout Sample.huge; Sample.blowout Sample.huge;
     Sample.blowout Sample.minus_huge; Sample.blowout Sample.minus_huge]
    [Sample.blowout Sample.huge; Sample.blowout Sample.minus_huge;
     Sample.blowout Sample.huge; Sample.blowout Sample.minus_huge]
  /\ calculate_aggregate_stats
       [Sample.blowout Sample.huge; Sample.blowout Sample.huge;
        Sample.blowout Sample.minus_huge; Sample.blowout Sample.minus_huge]
     = Raise OverflowError
  /\ exists out,
      calculate_aggregate_stats
        [Sample.blowout Sample.huge; Sample.blowout Sample.minus_huge;
         Sample.blowout Sample.huge; Sample.blowout Sample.minus_huge]
      = Ok out.
Proof.
  split; [|split].
  - apply perm_skip, perm_swap.
  - vm_compute. reflexivity.
  - eexists. vm_compute. reflexivity.
Qed.

(** C5, amended.  Permuting the games changes, for no player key, any
    integer counting total of the batting or pitching records nor any
    derived batting statistic ([batting_average],
    [on_base_percentage], [slugging_percentage], [ops]): the games
    accumulate in the new order, the batting pass succeeds, and
    whenever the call on the new order returns, each key has a record
    on both sides or on neither, with the same numbers.  Nothing is
    promised for [innings_pitched], [era] and [whip]. *)
Theorem permuted_games_same_counts games games' bl pl :
  Permutation games games' ->
  calculate_aggregate_stats games = Ok (bl, pl) ->
  (exists bs' ps' bl',
      process_games games' = Ok (bs', ps')
      /\ _calculate_batting_averages bs' = Ok bl')
  /\ (forall bl' pl',
         calculate_aggregate_stats games' = Ok (bl', pl') ->
         forall k,
           Lines.both Lines.same_batting_numbers
                      (Lines.record_for (Lines.batting_keys games) bl k)
                      (Lines.record_for (Lines.batting_keys games') bl' k)
           /\ Lines.both Lines.same_pitching_counts
                         (Lines.record_for (Lines.pitching_keys games) pl k)
                         (Lines.record_for (Lines.pitching_keys games') pl' k)).
Proof.
  intros HP H.
  apply calculate_inv in H as (bs & ps & Eb & Ep & Ebl & Epl & Kb & Kp).
  destruct (fold_perm BattingStats.default Lines.bkey batting_update
              Lines.same_batting_numbers same_batting_numbers_refl
              same_batting_numbers_trans batting_update_resp
              batting_update_comm _ _ [] bs
              (batting_permutation _ _ HP) Eb) as (bs2 & Eb2 & Rb).
  destruct (fold_perm PitchingStats.default Lines.pkey pitching_update
              Lines.same_pitching_counts same_pitching_counts_refl
              same_pitching_counts_trans pitching_update_resp
              pitching_update_comm _ _ [] ps
              (pitching_permutation _ _ HP) Ep) as (ps2 & Ep2 & Rp).
  assert (Hrec : forall k st2,
             Dict.lookup k bs2 = Some st2 ->
             exists st r r2,
               Dict.lookup k bs = Some st
               /\ batting_averages st = Ok r
               /\ batting_averages st2 = Ok r2
               /\ Lines.same_batting_numbers r r2).
  { intros k st2 Hst2. destruct (Rb k) as [Rk Nk].
    destruct (Dict.lookup k bs) as [st|] eqn:Hst;
      [|destruct Nk as [Nk _]; rewrite Nk in Hst2; [discriminate|reflexivity]].
    destruct (map_result_record_back _ _ _ _ _ Ebl Hst) as (r & _ & Hr).
    rewrite (lookup_getitem _ _ _ _ Hst), (lookup_getitem _ _ _ _ Hst2) in Rk.
    pose proof (batting_averages_numbers _ _ Rk) as Ha. rewrite Hr in Ha.
    destruct (batting_averages st2) as [r2|] eqn:Hr2; simpl in Ha; [|tauto].
    exists st, r, r2. auto. }
  split.
  - destruct (map_result_Ok (fun item => batting_averages (snd item)) bs2)
      as [bl2 Ebl2].
    { intros [k st2] Hin. simpl.
      apply NoDup_keys_lookup in Hin;
        [|apply (fold_NoDup_keys _ _ _ _ [] _ (NoDup_nil _) Eb2)].
      destruct (Hrec _ _ Hin) as (_ & _ & r2 & _ & _ & Hr2 & _). eauto. }
    exists bs2, ps2, bl2. split; [|exact Ebl2].
    apply process_games_Ok. auto.
  - intros bl' pl' H'.
    apply calculate_inv in H' as (bs' & ps' & Eb' & Ep' & Ebl' & Epl' & Kb' & Kp').
    unfold batting_step in Eb'. unfold pitching_step in Ep'.
    rewrite Eb2 in Eb'. injection Eb' as <-.
    rewrite Ep2 in Ep'. injection Ep' as <-.
    rewrite <- Kb, <- Kp, <- Kb', <- Kp'. intros k. split.
    + destruct (Lines.record_for (Dict.keys bs2) bl' k) as [r2|] eqn:E2.
      * destruct (map_result_record _ _ _ _ _ Ebl' E2) as (st2 & Hst2 & Hr2).
        destruct (Hrec _ _ Hst2) as (st & r & r2' & Hst & Hr & Hr2' & HR).
        destruct (map_result_record_back _ _ _ _ _ Ebl Hst) as (r0 & -> & Hr0).
        simpl. congruence.
      * destruct (Lines.record_for (Dict.keys bs) bl k) as [r|] eqn:E1;
          simpl; auto.
        destruct (map_result_record _ _ _ _ _ Ebl E1) as (st & Hst & Hr).
        destruct (Dict.lookup k bs2) as [st2|] eqn:Hst2.
        -- destruct (map_result_record_back _ _ _ _ _ Ebl' Hst2)
             as (r2 & Hr2 & _). congruence.
        -- apply (Rb k) in Hst2. congruence.
    + destruct (Rp k) as [Rk Nk].
      destruct (Lines.record_for (Dict.keys ps) pl k) as [r|] eqn:E1;
        destruct (Lines.record_for (Dict.keys ps2) pl' k) as [r2|] eqn:E2;
        simpl; auto.
      * destruct (map_result_record _ _ _ _ _ Epl E1) as (st & Hst & Hr).
        destruct (map_result_record _ _ _ _ _ Epl' E2) as (st2 & Hst2 & Hr2).
        rewrite (lookup_getitem _ _ _ _ Hst), (lookup_getitem _ _ _ _ Hst2) in Rk.
        apply pitching_averages_inv in Hr as (_ & _ & Hc & _).
        apply pitching_averages_inv in Hr2 as (_ & _ & Hc2 & _).
        unfold Lines.same_pitching_counts in *. intuition congruence.
      * destruct (map_result_record _ _ _ _ _ Epl E1) as (st & Hst & Hr).
        destruct (Dict.lookup k ps2) as [st2|] eqn:Hst2.
        -- destruct (map_result_record_back _ _ _ _ _ Epl' Hst2)
             as (r2 & Hr2 & _). congruence.
        -- pose proof (proj2 Nk eq_refl). congruence.
      * destruct (map_result_record _ _ _ _ _ Epl' E2) as (st2 & Hst2 & Hr2).
        destruct (Dict.lookup k ps) as [st|] eqn:Hst.
        -- destruct (map_result_record_back _ _ _ _ _ Epl Hst)
             as (r & Hr & _). congruence.
        -- pose proof (proj1 Nk eq_refl). congruence.
Qed.
End Permuted.



(* ================================================================= *)
(** * The heap *)

Section HeapFacts.
Import Py Call Footprint.

Lemma length_store r o : forall h,
  List.length (store r o h) = List.length h.
Proof.
  revert r; induction r as [|r IH]; intros [|x h]; simpl; auto.
Qed.

Lemma nth_error_store_same o : forall r h,
  (r < List.length h)%nat -> nth_error (store r o h) r = Some o.
Proof.
  induction r as [|r IH]; intros [|x h] H; simpl in *; try lia; auto.
  apply IH. lia.
Qed.

Lemma nth_error_store_other o : forall r r' h,
  r <> r' -> nth_error (store r o h) r' = nth_error h r'.
Proof.
  induction r as [|r IH]; intros [|r'] [|x h] H; simpl; auto;
    try congruence.
Qed.

Lemma nth_error_valid {A : Type} (l : list A) r x :
  nth_error l r = Some x -> (r < List.length l)%nat.
Proof. intros H. apply nth_error_Some. congruence. Qed.

Lemma nth_error_alloc_old (h : heap) o r x :
  nth_error h r = Some x -> nth_error (h ++ [o]) r = Some x.
Proof.
  intros H. rewrite nth_error_app1; [exact H|].
  eapply nth_error_valid, H.
Qed.

Lemma nth_error_alloc_new (h : heap) o :
  nth_error (h ++ [o]) (List.length h) = Some o.
Proof.
  rewrite nth_error_app2 by lia. now rewrite Nat.sub_diag.
Qed.

Lemma store_same : forall r (h : heap) o,
  nth_error h r = Some o -> store r o h = h.
Proof.
  induction r as [|r IH]; intros [|x h] o H; simpl in *; try discriminate.
  - now injection H as ->.
  - now rewrite IH.
Qed.

Lemma store_store o o' : forall r (h : heap),
  store r o (store r o' h) = store r o h.
Proof.
  induction r as [|r IH]; intros [|x h]; simpl; auto.
  now rewrite IH.
Qed.

(** ** Running a computation *)

Lemma bind_returns {A B : Type} (m : M A) (k : A -> M B) h a h' :
  m h = (Returns a, h') -> bindM m k h = k a h'.
Proof. unfold bindM. now intros ->. Qed.

Lemma bind_raises {A B : Type} (m : M A) (k : A -> M B) h e h' :
  m h = (Raises e, h') -> bindM m k h = (Raises e, h').
Proof. unfold bindM. now intros ->. Qed.

Lemma bind_assoc {A B C : Type} (m : M A) (k : A -> M B) (k' : B -> M C) h :
  bindM (bindM m k) k' h = bindM m (fun a => bindM (k a) k') h.
Proof. unfold bindM. destruct (m h) as [[a|e|] h']; reflexivity. Qed.

Lemma read_as_run {X : Type} (view : object -> option X) r h o x :
  nth_error h r = Some o -> view o = Some x ->
  read_as view r h = (Returns x, h).
Proof.
  intros H Hv. unfold read_as, bindM, read. now rewrite H, Hv.
Qed.

Lemma write_run r o h x :
  nth_error h r = Some x -> write r o h = (Returns tt, store r o h).
Proof. intros H. unfold write. now rewrite H. Qed.

(** ** Keeping objects *)

Lemma keeps_refl P h : keeps P h h.
Proof. intros r o H _. exact H. Qed.

Lemma keeps_trans P h1 h2 h3 :
  keeps P h1 h2 -> keeps P h2 h3 -> keeps P h1 h3.
Proof. intros H1 H2 r o H Hp. apply H2; auto. Qed.

Lemma keeps_weaken (P Q : ref -> object -> Prop) h h' :
  (forall r o, Q r o -> P r o) -> keeps P h h' -> keeps Q h h'.
Proof. intros HQ H r o Hr Hq. apply H; auto. Qed.

Lemma keeps_alloc P h o : keeps P h (h ++ [o]).
Proof. intros r x H _. now apply nth_error_alloc_old. Qed.

(** A write at [s] keeps what [P] selects when the object at [s] is
    not selected. *)
Lemma keeps_store (P : ref -> object -> Prop) h s o x :
  nth_error h s = Some x -> ~ P s x -> keeps P h (store s o h).
Proof.
  intros Hs Hn r y H Hp.
  destruct (Nat.eq_dec s r) as [->|Hne].
  - congruence.
  - now rewrite nth_error_store_other.
Qed.

(** A write at [s] keeps what [h0] had and [P] selects when the object
    at [s] is not selected. *)
Lemma keeps_store_base (P : ref -> object -> Prop) h0 h s o x :
  keeps P h0 h -> nth_error h s = Some x -> ~ P s x ->
  keeps P h0 (store s o h).
Proof.
  intros K Hs Hn r y Hr Hp.
  destruct (Nat.eq_dec s r) as [->|Hne].
  - rewrite (K _ _ Hr Hp) in Hs. congruence.
  - rewrite nth_error_store_other by exact Hne. now apply K.
Qed.

(** A write to an object made after [h0] keeps the objects of [h0]. *)
Lemma keeps_store_new P (h0 h : heap) s o :
  (List.length h0 <= s)%nat -> keeps P h0 h -> keeps P h0 (store s o h).
Proof.
  intros Hs H r y Hr Hp.
  rewrite nth_error_store_other.
  - now apply H.
  - apply nth_error_valid in Hr. lia.
Qed.

Lemma grows_refl n0 h : grows n0 h h.
Proof. split; [lia|apply keeps_refl]. Qed.

Lemma grows_trans n0 h1 h2 h3 :
  grows n0 h1 h2 -> grows n0 h2 h3 -> grows n0 h1 h3.
Proof.
  intros [L1 K1] [L2 K2]. split; [lia|]. eapply keeps_trans; eauto.
Qed.

Lemma grows_input n0 h h' :
  grows n0 h h' -> keeps (fun _ o => input o) h h'.
Proof.
  intros [_ K]. eapply keeps_weaken; [|exact K]. simpl. auto.
Qed.

(** ** Reading values back *)

Lemma all_some_map_keeps {X : Type} (decode : heap -> ref -> option X)
      (h h' : heap) :
  (forall r x, decode h r = Some x -> decode h' r = Some x) ->
  forall rs xs,
    all_some (map (decode h) rs) = Some xs ->
    all_some (map (decode h') rs) = Some xs.
Proof.
  intros Hd. induction rs as [|r rs IH]; intros xs H; simpl in *; auto.
  destruct (decode h r) as [x|] eqn:E; [|discriminate].
  rewrite (Hd _ _ E).
  destruct (all_some (map (decode h) rs)) as [t|]; [|discriminate].
  now rewrite (IH t eq_refl).
Qed.

Lemma all_some_cons {X : Type} (o : option X) l xs :
  all_some (o :: l) = Some xs ->
  exists x t, o = Some x /\ all_some l = Some t /\ xs = x :: t.
Proof.
  simpl. destruct o as [x|]; [|discriminate].
  destruct (all_some l) as [t|]; [|discriminate].
  intros [= <-]. eauto.
Qed.

Lemma object_at_keeps {X : Type} (view : object -> option X) h h' :
  keeps (fun _ o => input o) h h' ->
  (forall o x, view o = Some x -> input o) ->
  forall r x, object_at view h r = Some x -> object_at view h' r = Some x.
Proof.
  intros K Hv r x. unfold object_at.
  destruct (nth_error h r) as [o|] eqn:E; [|discriminate].
  intros H. now rewrite (K _ _ E (Hv _ _ H)).
Qed.

Lemma object_at_kept {X : Type} (view : object -> option X)
      (Q : object -> Prop) h h' :
  keeps (fun _ o => Q o) h h' ->
  (forall o x, view o = Some x -> Q o) ->
  forall r x, object_at view h r = Some x -> object_at view h' r = Some x.
Proof.
  intros K Hv r x. unfold object_at.
  destruct (nth_error h r) as [o|] eqn:E; [|discriminate].
  intros H. now rewrite (K _ _ E (Hv _ _ H)).
Qed.

Lemma list_at_kept {X : Type} (view : object -> option X)
      (Q : object -> Prop) h h' :
  keeps (fun _ o => Q o) h h' ->
  (forall items, Q (ListObj items)) ->
  (forall o x, view o = Some x -> Q o) ->
  forall r xs, list_at view h r = Some xs -> list_at view h' r = Some xs.
Proof.
  intros K Hl Hv r xs. unfold list_at.
  destruct (object_at as_list h r) as [items|] eqn:E; [|discriminate].
  assert (Ha : forall o x, as_list o = Some x -> Q o).
  { intros [] x; simpl; try discriminate. intros _. apply Hl. }
  rewrite (object_at_kept as_list Q h h' K Ha _ _ E).
  apply all_some_map_keeps. now apply object_at_kept with (Q := Q).
Qed.

Lemma as_list_input o l : as_list o = Some l -> input o.
Proof. destruct o; simpl; auto; discriminate. Qed.

Lemma as_game_input o g : as_game o = Some g -> input o.
Proof. destruct o; simpl; auto; discriminate. Qed.

Lemma as_batting_line_input o l : as_batting_line o = Some l -> input o.
Proof. destruct o; simpl; auto; discriminate. Qed.

Lemma as_pitching_line_input o l : as_pitching_line o = Some l -> input o.
Proof. destruct o; simpl; auto; discriminate. Qed.

Lemma list_at_keeps {X : Type} (view : object -> option X) h h' :
  keeps (fun _ o => input o) h h' ->
  (forall o x, view o = Some x -> input o) ->
  forall r xs, list_at view h r = Some xs -> list_at view h' r = Some xs.
Proof.
  intros K Hv r xs. unfold list_at.
  destruct (object_at as_list h r) as [items|] eqn:E; [|discriminate].
  rewrite (object_at_keeps as_list h h' K as_list_input _ _ E).
  apply all_some_map_keeps. now apply object_at_keeps.
Qed.

Lemma side_at_keeps {X : Type} (view : object -> option X) h h' :
  keeps (fun _ o => input o) h h' ->
  (forall o x, view o = Some x -> input o) ->
  forall field s, side_at view h field = Some s ->
                  side_at view h' field = Some s.
Proof.
  intros K Hv [r|] s; simpl; auto.
  destruct (list_at view h r) as [lines|] eqn:E; [|discriminate].
  now rewrite (list_at_keeps view h h' K Hv _ _ E).
Qed.

Lemma game_of_keeps h h' :
  keeps (fun _ o => input o) h h' ->
  forall g game, game_of h g = Some game -> game_of h' g = Some game.
Proof.
  intros K g game. unfold game_of.
  destruct (side_at as_batting_line h (GameObject.home_team_batting g))
    as [hb|] eqn:E1; [|discriminate].
  destruct (side_at as_batting_line h (GameObject.away_team_batting g))
    as [ab|] eqn:E2; [|discriminate].
  destruct (side_at as_pitching_line h (GameObject.home_team_pitching g))
    as [hp|] eqn:E3; [|discriminate].
  destruct (side_at as_pitching_line h (GameObject.away_team_pitching g))
    as [ap|] eqn:E4; [|discriminate].
  rewrite (side_at_keeps _ h h' K as_batting_line_input _ _ E1).
  rewrite (side_at_keeps _ h h' K as_batting_line_input _ _ E2).
  rewrite (side_at_keeps _ h h' K as_pitching_line_input _ _ E3).
  rewrite (side_at_keeps _ h h' K as_pitching_line_input _ _ E4).
  auto.
Qed.

Lemma game_at_keeps h h' :
  keeps (fun _ o => input o) h h' ->
  forall r game, game_at h r = Some game -> game_at h' r = Some game.
Proof.
  intros K r game. unfold game_at.
  destruct (object_at as_game h r) as [g|] eqn:E; [|discriminate].
  rewrite (object_at_keeps as_game h h' K as_game_input _ _ E).
  now apply game_of_keeps.
Qed.

Lemma games_at_keeps h h' :
  keeps (fun _ o => input o) h h' ->
  forall r games, games_at h r = Some games -> games_at h' r = Some games.
Proof.
  intros K r games. unfold games_at.
  destruct (object_at as_list h r) as [items|] eqn:E; [|discriminate].
  rewrite (object_at_keeps as_list h h' K as_list_input _ _ E).
  apply all_some_map_keeps. now apply game_at_keeps.
Qed.

Lemma list_at_inv {X : Type} (view : object -> option X) h l xs :
  list_at view h l = Some xs ->
  exists items,
    nth_error h l = Some (ListObj items)
    /\ all_some (map (object_at view h) items) = Some xs.
Proof.
  unfold list_at, object_at.
  destruct (nth_error h l) as [[]|]; simpl; try discriminate. eauto.
Qed.

(** [game.get(side, [])], with the default list at [empty]. *)
Lemma side_list {X : Type} (view : object -> option X) h field s empty :
  side_at view h field = Some s ->
  nth_error h empty = Some (ListObj []) ->
  list_at view h (get field empty) = Some (get s []).
Proof.
  destruct field as [r|]; simpl.
  - destruct (list_at view h r); [|discriminate]. now intros [= <-].
  - intros [= <-] He. unfold list_at, object_at. now rewrite He.
Qed.

Lemma bind_alloc {B : Type} o (k : ref -> M B) h :
  bindM (alloc o) k h = k (List.length h) (h ++ [o])%list.
Proof. reflexivity. Qed.

End HeapFacts.

(* ================================================================= *)
(** * Loops over a list object *)

Section ForIn.
Import Py Call Footprint.
Context {X S : Type}.
Variable R : heap -> heap -> Prop.
Hypothesis R_refl : forall h, R h h.
Hypothesis R_trans : forall h1 h2 h3, R h1 h2 -> R h2 h3 -> R h1 h3.
Hypothesis R_input :
  forall h h', R h h' -> keeps (fun _ o => input o) h h'.
Variable decode : heap -> ref -> option X.
Hypothesis decode_keeps :
  forall h h', keeps (fun _ o => input o) h h' ->
  forall r x, decode h r = Some x -> decode h' r = Some x.
Variable body : ref -> M unit.
Variable f : X -> S -> result S.
Variable Inv : heap -> S -> Prop.
Hypothesis body_spec :
  forall h s r x, Inv h s -> decode h r = Some x ->
  exists h', body r h = (done (f x s), h')
             /\ R h h' /\ forall s', f x s = Ok s' -> Inv h' s'.
Variable l : ref.
Variable items : list ref.

Lemma skipn_nil_nth_error {A : Type} : forall (xs : list A) i,
  skipn i xs = [] -> nth_error xs i = None.
Proof.
  induction xs as [|x xs IH]; intros [|i] H; simpl in *; auto.
  discriminate.
Qed.

Lemma skipn_cons_nth_error {A : Type} : forall (xs : list A) i y ys,
  skipn i xs = y :: ys ->
  nth_error xs i = Some y /\ skipn (Datatypes.S i) xs = ys.
Proof.
  induction xs as [|x xs IH]; intros [|i] y ys H; simpl in *;
    try discriminate.
  - injection H as -> ->. auto.
  - now apply IH.
Qed.

Lemma list_item_run h i :
  nth_error h l = Some (ListObj items) ->
  list_item l i h = (Returns (nth_error items i), h).
Proof.
  intros H. unfold list_item.
  now rewrite (bind_returns _ _ _ _ _ (read_as_run as_list l h _ _ H eq_refl)).
Qed.

(** With enough fuel the loop runs the body on every item from index
    [i] on, in order, as long as no turn raises. *)
Lemma for_index_spec : forall rs xs i fuel h s,
  nth_error h l = Some (ListObj items) ->
  skipn i items = rs ->
  all_some (map (decode h) rs) = Some xs ->
  (List.length rs < fuel)%nat ->
  Inv h s ->
  exists h',
    for_index fuel i (list_item l) body h = (done (for_each f xs s), h')
    /\ R h h' /\ forall s', for_each f xs s = Ok s' -> Inv h' s'.
Proof.
  induction rs as [|r rs IH]; intros xs i fuel h s Hl Hs Hx Hf Hi;
    (destruct fuel as [|fuel]; [simpl in Hf; lia|]); simpl for_index.
  - rewrite (bind_returns _ _ _ _ _ (list_item_run h i Hl)).
    rewrite (skipn_nil_nth_error _ _ Hs).
    simpl in Hx. injection Hx as <-. simpl.
    exists h. split; [reflexivity|]. split; [apply R_refl|].
    intros s' [= <-]. exact Hi.
  - destruct (skipn_cons_nth_error _ _ _ _ Hs) as [Hn Hs'].
    rewrite (bind_returns _ _ _ _ _ (list_item_run h i Hl)), Hn.
    destruct (all_some_cons _ _ _ Hx) as (x & t & Hd & Ht & ->).
    destruct (body_spec h s r x Hi Hd) as (h1 & Hb & HR & Hok).
    simpl for_each.
    destruct (f x s) as [s1|e] eqn:Ef; simpl in Hb.
    + rewrite (bind_returns _ _ _ _ _ Hb). cbn [bind].
      destruct (IH t (Datatypes.S i) fuel h1 s1) as (h2 & Hr & HR2 & Hok2).
      * apply (R_input _ _ HR _ _ Hl). exact I.
      * exact Hs'.
      * eapply all_some_map_keeps; [|exact Ht].
        apply decode_keeps, R_input, HR.
      * simpl in Hf. lia.
      * now apply Hok.
      * exists h2. split; [exact Hr|]. split; [eauto|exact Hok2].
    + rewrite (bind_raises _ _ _ _ _ Hb). cbn [bind done].
      exists h1. split; [reflexivity|]. split; [exact HR|discriminate].
Qed.

(** [for x in l: body] *)
Lemma for_in_spec h s xs :
  nth_error h l = Some (ListObj items) ->
  all_some (map (decode h) items) = Some xs ->
  Inv h s ->
  exists h',
    for_in l body h = (done (for_each f xs s), h')
    /\ R h h' /\ forall s', for_each f xs s = Ok s' -> Inv h' s'.
Proof.
  intros Hl Hx Hi. unfold for_in.
  rewrite (bind_returns _ _ _ _ _ (read_as_run as_list l h _ _ Hl eq_refl)).
  apply for_index_spec with (rs := items); auto.
Qed.

End ForIn.

(* ================================================================= *)
(** * One kind of statistics *)

Section KindFacts.
Import Py Call Footprint.
Context {L V : Type}.
Variable line_view : object -> option L.
Variable view : object -> option V.
Variable wrap : V -> object.
Variable default : V.
Variable key : L -> string.
Variable statements : string -> L -> list (V -> result V).
Variable update : string -> L -> V -> result V.
Hypothesis view_wrap : forall v, view (wrap v) = Some v.
Hypothesis wrap_not_input : forall v, ~ input (wrap v).
Hypothesis wrap_not_dict : forall v, as_dict (wrap v) = None.
Hypothesis line_input : forall o x, line_view o = Some x -> input o.
Hypothesis statements_ok :
  forall team line v v',
    update team line v = Ok v' ->
    run_statements (statements team line) v = (v', Ok tt).
Hypothesis statements_raise :
  forall team line v e,
    update team line v = Raise e ->
    snd (run_statements (statements team line) v) = Raise e.
Variable averages : list (V -> result V).
Variable rates : V -> result V.
Hypothesis averages_ok :
  forall v v', rates v = Ok v' -> run_statements averages v = (v', Ok tt).
Hypothesis averages_raise :
  forall v e, rates v = Raise e -> snd (run_statements averages v) = Raise e.
Variable n0 : nat.

Lemma owned_not_input o : owned wrap default o -> ~ input o.
Proof.
  intros [[v ->]|[items ->]]; [apply wrap_not_input | simpl; auto].
Qed.

Lemma frame_refl h : frame wrap default n0 h h.
Proof. split; [lia|apply keeps_refl]. Qed.

Lemma frame_trans h1 h2 h3 :
  frame wrap default n0 h1 h2 -> frame wrap default n0 h2 h3 ->
  frame wrap default n0 h1 h3.
Proof.
  intros [L1 K1] [L2 K2]. split; [lia|]. eapply keeps_trans; eauto.
Qed.

Lemma frame_alloc h o : frame wrap default n0 h (h ++ [o]).
Proof.
  split; [rewrite length_app; simpl; lia | apply keeps_alloc].
Qed.

Lemma frame_store h s o x :
  nth_error h s = Some x -> (n0 <= s)%nat -> owned wrap default x ->
  frame wrap default n0 h (store s o h).
Proof.
  intros Hs Hn Ho. split; [rewrite length_store; lia|].
  eapply keeps_store; [exact Hs|]. intros [H|H]; [lia|auto].
Qed.

Lemma frame_grows h h' : frame wrap default n0 h h' -> grows n0 h h'.
Proof.
  intros [Hl K]. split; [exact Hl|].
  eapply keeps_weaken; [|exact K]. simpl.
  intros r o [H|H]; [now left|right].
  intros Ho. now apply (owned_not_input o).
Qed.

Lemma frame_input h h' :
  frame wrap default n0 h h' -> keeps (fun _ o => input o) h h'.
Proof. intros H. eapply grows_input, frame_grows, H. Qed.

(** ** The dict a [defaultdict] stands for *)

Lemma holds_keeps h h' d items dict :
  holds wrap default n0 h d items dict ->
  keeps (fun _ o => owned wrap default o) h h' ->
  holds wrap default n0 h' d items dict.
Proof.
  intros (Hd & Hn & HF & Hge & Hnd) K.
  split; [|split; [exact Hn|split; [|split; assumption]]].
  - apply (K _ _ Hd). right. eauto.
  - eapply Forall2_impl; [|exact HF]. simpl.
    intros ir kv [Hk Hr]. split; [exact Hk|].
    apply (K _ _ Hr). left. eauto.
Qed.

Lemma holds_lookup_Some h (items : Dict.t ref) (dict : Dict.t V) k r :
  Forall2 (fun ir kv => fst ir = fst kv
                        /\ nth_error h (snd ir) = Some (wrap (snd kv)))
          items dict ->
  Dict.lookup k items = Some r ->
  exists v, Dict.lookup k dict = Some v
            /\ nth_error h r = Some (wrap v).
Proof.
  induction 1 as [|[k1 r1] [k2 v2] items dict [Hk Hr] HF IH]; simpl;
    [discriminate|].
  simpl in Hk, Hr. subst k2.
  destruct (String.eqb k k1); [intros [= <-]; eauto | exact IH].
Qed.

Lemma holds_lookup_None h (items : Dict.t ref) (dict : Dict.t V) k :
  Forall2 (fun ir kv => fst ir = fst kv
                        /\ nth_error h (snd ir) = Some (wrap (snd kv)))
          items dict ->
  Dict.lookup k items = None -> Dict.lookup k dict = None.
Proof.
  induction 1 as [|[k1 r1] [k2 v2] items dict [Hk Hr] HF IH]; simpl; auto.
  simpl in Hk. subst k2.
  destruct (String.eqb k k1); [discriminate | exact IH].
Qed.

Lemma setitem_new {A : Type} k (a : A) : forall d,
  Dict.lookup k d = None -> Dict.setitem k a d = d ++ [(k, a)].
Proof.
  induction d as [|[k' a'] d IH]; simpl; auto.
  destruct (String.eqb k k'); [discriminate|].
  intros H. now rewrite IH.
Qed.

Lemma setitem_last {A : Type} k (a b : A) : forall d,
  Dict.lookup k d = None ->
  Dict.setitem k a (d ++ [(k, b)]) = Dict.setitem k a d.
Proof.
  induction d as [|[k' a'] d IH]; simpl.
  - now rewrite String.eqb_refl.
  - destruct (String.eqb k k'); [discriminate|].
    intros H. now rewrite IH.
Qed.

Lemma lookup_last {A : Type} k (a : A) : forall d,
  Dict.lookup k d = None -> Dict.lookup k (d ++ [(k, a)]) = Some a.
Proof.
  induction d as [|[k' a'] d IH]; simpl.
  - now rewrite String.eqb_refl.
  - destruct (String.eqb k k'); [discriminate | exact IH].
Qed.

Lemma lookup_In_snd {A : Type} k (a : A) : forall d,
  Dict.lookup k d = Some a -> In a (map snd d).
Proof.
  induction d as [|[k' a'] d IH]; simpl; [discriminate|].
  destruct (String.eqb k k'); [intros [= ->]; now left | auto].
Qed.

Lemma NoDup_snoc {A : Type} (x : A) : forall l,
  NoDup l -> ~ In x l -> NoDup (l ++ [x]).
Proof.
  induction l as [|y l IH]; simpl; intros Hnd Hin.
  - constructor; [auto|constructor].
  - inversion Hnd; subst. constructor.
    + rewrite in_app_iff. simpl. intros [H|[H|[]]]; [auto|].
      apply Hin. now left.
    + apply IH; auto.
Qed.

(** Every reference under a key holds a stats dict. *)
Lemma related_valid h (items : Dict.t ref) (dict : Dict.t V) :
  Forall2 (fun ir kv => fst ir = fst kv
                        /\ nth_error h (snd ir) = Some (wrap (snd kv)))
          items dict ->
  forall ir, In ir items -> exists v, nth_error h (snd ir) = Some (wrap v).
Proof.
  induction 1 as [|x y items dict [_ Hr] HF IH]; intros ir Hin;
    [destruct Hin|].
  destruct Hin as [->|Hin]; eauto.
Qed.

Lemma related_ext h h' (items : Dict.t ref) (dict : Dict.t V) :
  Forall2 (fun ir kv => fst ir = fst kv
                        /\ nth_error h (snd ir) = Some (wrap (snd kv)))
          items dict ->
  (forall ir, In ir items -> nth_error h' (snd ir) = nth_error h (snd ir)) ->
  Forall2 (fun ir kv => fst ir = fst kv
                        /\ nth_error h' (snd ir) = Some (wrap (snd kv)))
          items dict.
Proof.
  induction 1 as [|x y items dict [Hk Hr] HF IH]; intros Hin;
    constructor.
  - split; [exact Hk|]. rewrite Hin; [exact Hr|now left].
  - apply IH. intros ir Hi. apply Hin. now right.
Qed.

(** The stats dicts under the keys of a [defaultdict] are not the
    [defaultdict]. *)
Lemma holds_ref_not_dict h d items dict ir :
  holds wrap default n0 h d items dict -> In ir items -> snd ir <> d.
Proof.
  intros (Hd & _ & HF & _) Hin E.
  destruct (related_valid _ _ _ HF _ Hin) as [v Hv].
  rewrite E, Hd in Hv. injection Hv as Hv.
  pose proof (wrap_not_dict v) as Hw. rewrite <- Hv in Hw. discriminate.
Qed.

(** ** [d[key]] *)

Lemma getitem_spec h d items dict k :
  holds wrap default n0 h d items dict ->
  exists r items' dict' h',
    getitem d k h = (Returns r, h')
    /\ frame wrap default n0 h h'
    /\ holds wrap default n0 h' d items' dict'
    /\ Dict.lookup k items' = Some r
    /\ Dict.lookup k dict' = Some (Dict.getitem default k dict)
    /\ forall v, Dict.setitem k v dict' = Dict.setitem k v dict.
Proof.
  intros Hh. pose proof Hh as (Hd & Hn & HF & Hge & Hnd).
  unfold getitem.
  rewrite (bind_returns _ _ _ _ _
             (read_as_run as_dict d h _ _ Hd eq_refl)).
  cbn [fst snd].
  destruct (Dict.lookup k items) as [r|] eqn:E.
  - destruct (holds_lookup_Some _ _ _ _ _ HF E) as (v & Hv & Hr).
    exists r, items, dict, h. unfold ret.
    repeat split; auto; try apply keeps_refl.
    unfold Dict.getitem. now rewrite Hv.
  - pose proof (holds_lookup_None _ _ _ _ HF E) as En.
    set (r := List.length h).
    set (h1 := (h ++ [wrap default])%list).
    set (items' := Dict.setitem k r items).
    assert (Hd1 : nth_error h1 d = Some (DefaultDict (wrap default) items))
      by now apply nth_error_alloc_old.
    assert (Hb : bindM (alloc (wrap default))
                   (fun r0 => bindM (write d (DefaultDict (wrap default)
                                         (Dict.setitem k r0 items)))
                                    (fun _ => ret r0)) h
                 = (Returns r, store d (DefaultDict (wrap default) items') h1)).
    { unfold bindM at 1, alloc. fold r h1.
      now rewrite (bind_returns _ _ _ _ _ (write_run d _ h1 _ Hd1)). }
    rewrite Hb. clear Hb.
    assert (Hdl : (d < List.length h)%nat) by (eapply nth_error_valid, Hd).
    exists r, items', (dict ++ [(k, default)])%list,
      (store d (DefaultDict (wrap default) items') h1).
    split; [reflexivity|]. split.
    { eapply frame_trans; [apply frame_alloc|].
      eapply frame_store; [exact Hd1|exact Hn|]. right. eauto. }
    split.
    { unfold holds. split.
      { apply nth_error_store_same. unfold h1. rewrite length_app. simpl. lia. }
      split; [exact Hn|].
      unfold items'. rewrite (setitem_new k r items E).
      split.
      { apply Forall2_app.
        - apply (related_ext h); [exact HF|].
          intros ir Hin. rewrite nth_error_store_other.
          + unfold h1. apply nth_error_app1.
            destruct (related_valid _ _ _ HF _ Hin) as [v Hv].
            eapply nth_error_valid, Hv.
          + intros Ed. now apply (holds_ref_not_dict _ _ _ _ ir Hh).
        - constructor; [|constructor]. simpl. split; [reflexivity|].
          rewrite nth_error_store_other by (unfold r; lia).
          apply nth_error_alloc_new. }
      split.
      { apply Forall_app. split; [exact Hge|].
        constructor; [simpl; unfold r; lia | constructor]. }
      rewrite map_app. simpl. apply NoDup_snoc; [exact Hnd|].
      intros Hin. apply in_map_iff in Hin. destruct Hin as (ir & Hs & Hin).
      destruct (related_valid _ _ _ HF _ Hin) as [v Hv].
      apply nth_error_valid in Hv. unfold r in Hs. lia. }
    split.
    { unfold items'. rewrite (setitem_new k r items E).
      now apply lookup_last. }
    split.
    { unfold Dict.getitem. rewrite En. now apply lookup_last. }
    intros v. now apply setitem_last.
Qed.

(** ** The assignments of a loop body *)

Lemma modify_run r (assignments : list (V -> result V)) : forall h v,
  nth_error h r = Some (wrap v) ->
  modify view wrap r assignments h
  = (of_result (snd (run_statements assignments v)),
     store r (wrap (fst (run_statements assignments v))) h).
Proof.
  induction assignments as [|statement rest IH]; intros h v Hr;
    cbn [modify run_statements].
  - cbn [fst snd of_result]. unfold ret. now rewrite (store_same _ _ _ Hr).
  - unfold assign. rewrite bind_assoc.
    rewrite (bind_returns _ _ _ _ _
               (read_as_run view r h _ _ Hr (view_wrap v))).
    rewrite bind_assoc. unfold bindM at 1, lift.
    destruct (statement v) as [v1|e].
    + rewrite (bind_returns _ _ _ _ _ (write_run r _ h _ Hr)).
      rewrite (IH _ v1), store_store; [reflexivity|].
      apply nth_error_store_same. eapply nth_error_valid, Hr.
    + cbn [fst snd of_result]. now rewrite (store_same _ _ _ Hr).
Qed.

Lemma lookup_In_pair {A : Type} k (a : A) : forall d,
  Dict.lookup k d = Some a -> In (k, a) d.
Proof.
  induction d as [|[k' a'] d IH]; simpl; [discriminate|].
  destruct (String.eqb k k') eqn:E; [|auto].
  apply String.eqb_eq in E. subst k'. intros [= ->]. now left.
Qed.

Lemma related_setitem h (items : Dict.t ref) (dict : Dict.t V) k r v :
  Forall2 (fun ir kv => fst ir = fst kv
                        /\ nth_error h (snd ir) = Some (wrap (snd kv)))
          items dict ->
  NoDup (map snd items) ->
  Dict.lookup k items = Some r ->
  Forall2 (fun ir kv => fst ir = fst kv
                        /\ nth_error (store r (wrap v) h) (snd ir)
                           = Some (wrap (snd kv)))
          items (Dict.setitem k v dict).
Proof.
  induction 1 as [|[k1 r1] [k2 v2] items dict [Hk Hr] HF IH];
    simpl; intros Hnd Hl; [discriminate|].
  simpl in Hk, Hr. subst k2. inversion Hnd as [|? ? Hnin Hnd']; subst.
  destruct (String.eqb k k1) eqn:E.
  - injection Hl as <-. constructor.
    + split; [reflexivity|]. simpl.
      apply nth_error_store_same. eapply nth_error_valid, Hr.
    + apply (related_ext h); [exact HF|].
      intros ir Hin. apply nth_error_store_other.
      intros ->. apply Hnin. now apply in_map.
  - constructor.
    + split; [reflexivity|]. simpl.
      rewrite nth_error_store_other; [exact Hr|].
      intros ->. apply Hnin. eapply lookup_In_snd, Hl.
    + now apply IH.
Qed.

(** Writing the stats dict under [k] is [dict[k] = v]. *)
Lemma holds_store h d items dict k r v :
  holds wrap default n0 h d items dict ->
  Dict.lookup k items = Some r ->
  holds wrap default n0 (store r (wrap v) h) d items (Dict.setitem k v dict).
Proof.
  intros Hh Hl. pose proof Hh as (Hd & Hn & HF & Hge & Hnd).
  split; [|split; [exact Hn|split; [|split; assumption]]].
  - rewrite nth_error_store_other; [exact Hd|].
    apply (holds_ref_not_dict _ _ _ _ (k, r) Hh).
    now apply lookup_In_pair.
  - now apply related_setitem.
Qed.

(** ** One turn of a loop over lines *)

Lemma turn_spec team_of h game g d items dict player line :
  holds wrap default n0 h d items dict ->
  nth_error h game = Some (GameObj g) ->
  object_at line_view h player = Some line ->
  exists h',
    turn line_view view wrap key statements team_of game d player h
    = (done (add_line default key update
                      (get (team_of g) "Unknown"%string) line dict), h')
    /\ frame wrap default n0 h h'
    /\ forall dict',
         add_line default key update
                  (get (team_of g) "Unknown"%string) line dict = Ok dict' ->
         exists items', holds wrap default n0 h' d items' dict'.
Proof.
  intros Hh Hg Hp. unfold turn.
  unfold object_at in Hp.
  destruct (nth_error h player) as [o|] eqn:Ep; [|discriminate].
  rewrite (bind_returns _ _ _ _ _
             (read_as_run line_view player h _ _ Ep Hp)).
  destruct (getitem_spec h d items dict (key line) Hh)
    as (r & items1 & dict1 & h1 & Hget & Hf1 & Hh1 & Hl1 & Hd1 & Hset).
  rewrite (bind_returns _ _ _ _ _ Hget).
  pose proof (frame_input _ _ Hf1 _ _ Hg I) as Hg1.
  rewrite (bind_returns _ _ _ _ _
             (read_as_run as_game game h1 _ _ Hg1 eq_refl)).
  pose proof Hh1 as (_ & _ & HF1 & Hge1 & _).
  destruct (holds_lookup_Some _ _ _ _ _ HF1 Hl1) as (v & Hv & Hr).
  rewrite Hd1 in Hv. injection Hv as <-.
  rewrite (modify_run r _ h1 _ Hr).
  assert (Hfr : forall x,
             frame wrap default n0 h (store r (wrap x) h1)).
  { intros x. eapply frame_trans; [exact Hf1|].
    eapply frame_store; [exact Hr| |left; eauto].
    rewrite Forall_forall in Hge1.
    apply (Hge1 _ (lookup_In_pair _ _ _ Hl1)). }
  unfold add_line.
  set (team := get (team_of g) "Unknown"%string).
  destruct (update team line (Dict.getitem default (key line) dict))
    as [v'|e] eqn:Eu.
  - rewrite (statements_ok _ _ _ _ Eu). cbn [fst snd bind done of_result].
    eexists. split; [reflexivity|]. split; [apply Hfr|].
    intros dict' [= <-]. exists items1. rewrite <- Hset.
    now apply holds_store.
  - rewrite (statements_raise _ _ _ _ Eu). cbn [bind done of_result].
    eexists. split; [reflexivity|]. split; [apply Hfr|discriminate].
Qed.

(** ** The loop over the lines of a side *)

Lemma lines_loop_spec team_of h game g d items dict l lines :
  holds wrap default n0 h d items dict ->
  nth_error h game = Some (GameObj g) ->
  list_at line_view h l = Some lines ->
  exists h',
    for_in l (turn line_view view wrap key statements team_of game d) h
    = (done (for_each (add_line default key update
                                (get (team_of g) "Unknown"%string))
                      lines dict), h')
    /\ frame wrap default n0 h h'
    /\ forall dict',
         for_each (add_line default key update
                            (get (team_of g) "Unknown"%string))
                  lines dict = Ok dict' ->
         exists items', holds wrap default n0 h' d items' dict'.
Proof.
  intros Hh Hg Hl.
  destruct (list_at_inv _ _ _ _ Hl) as (its & Hits & Hall).
  set (Inv := fun h s =>
                (exists items, holds wrap default n0 h d items s)
                /\ nth_error h game = Some (GameObj g)).
  assert (Hbody : forall h s r x,
             Inv h s -> object_at line_view h r = Some x ->
             exists h',
               turn line_view view wrap key statements team_of game d r h
               = (done (add_line default key update
                                 (get (team_of g) "Unknown"%string) x s), h')
               /\ frame wrap default n0 h h'
               /\ forall s',
                    add_line default key update
                             (get (team_of g) "Unknown"%string) x s = Ok s' ->
                    Inv h' s').
  { intros h0 s r x [[its' Hh'] Hg'] Hd.
    destruct (turn_spec team_of h0 game g d its' s r x Hh' Hg' Hd)
      as (h' & E & F & Hok).
    exists h'. split; [exact E|]. split; [exact F|].
    intros s' Es. split; [now apply Hok|].
    apply (frame_input _ _ F _ _ Hg' I). }
  destruct (for_in_spec
              (frame wrap default n0) frame_refl frame_trans frame_input
              (object_at line_view)
              (fun h h' K => object_at_keeps line_view h h' K line_input)
              _ _ Inv Hbody
              l its h dict lines Hits Hall (conj (ex_intro _ items Hh) Hg))
    as (h' & E & F & Hok).
  exists h'. split; [exact E|]. split; [exact F|].
  intros dict' Ed. now destruct (Hok dict' Ed).
Qed.

(** ** The two loops of a game *)

Lemma process_sides_spec home away h game g d items dict hs aws :
  holds wrap default n0 h d items dict ->
  nth_error h game = Some (GameObj g) ->
  side_at line_view h (home g) = Some hs ->
  side_at line_view h (away g) = Some aws ->
  let both :=
    dict1 <- for_each (add_line default key update
                                (get (GameObject.home_team g)
                                     "Unknown"%string))
                      (get hs []) dict ;;
    for_each (add_line default key update
                       (get (GameObject.away_team g) "Unknown"%string))
             (get aws []) dict1 in
  exists h',
    process_sides line_view view wrap key statements home away game d h
    = (done both, h')
    /\ frame wrap default n0 h h'
    /\ forall dict', both = Ok dict' ->
                     exists items', holds wrap default n0 h' d items' dict'.
Proof.
  intros Hh Hg Hhs Haws both. unfold process_sides.
  rewrite bind_alloc.
  set (h1 := (h ++ [ListObj []])%list).
  assert (K1 : keeps (fun _ o => input o) h h1) by apply keeps_alloc.
  pose proof (nth_error_alloc_old h (ListObj []) _ _ Hg) as Hg1.
  rewrite (bind_returns _ _ _ _ _
             (read_as_run as_game game h1 _ _ Hg1 eq_refl)).
  assert (Hh1 : holds wrap default n0 h1 d items dict).
  { eapply holds_keeps; [exact Hh|apply keeps_alloc]. }
  pose proof (side_list line_view h1 (home g) hs (List.length h)
                (side_at_keeps line_view h h1 K1 line_input _ _ Hhs)
                (nth_error_alloc_new h _)) as Hl1.
  destruct (lines_loop_spec GameObject.home_team h1 game g d items dict
              _ _ Hh1 Hg1 Hl1) as (h2 & E2 & F2 & Hok2).
  assert (F02 : frame wrap default n0 h h2).
  { eapply frame_trans; [apply frame_alloc|exact F2]. }
  subst both.
  destruct (for_each
              (add_line default key update
                        (get (GameObject.home_team g) "Unknown"%string))
              (get hs []) dict) as [dict1|e] eqn:E1; cbn [done] in E2.
  - rewrite (bind_returns _ _ _ _ _ E2). cbn [bind].
    destruct (Hok2 dict1 eq_refl) as [items2 Hh2].
    rewrite bind_alloc.
    set (h3 := (h2 ++ [ListObj []])%list).
    assert (K3 : keeps (fun _ o => input o) h h3).
    { eapply keeps_trans; [apply (frame_input _ _ F02)|apply keeps_alloc]. }
    pose proof (K3 _ _ Hg I) as Hg3.
    rewrite (bind_returns _ _ _ _ _
               (read_as_run as_game game h3 _ _ Hg3 eq_refl)).
    assert (Hh3 : holds wrap default n0 h3 d items2 dict1).
    { eapply holds_keeps; [exact Hh2|apply keeps_alloc]. }
    pose proof (side_list line_view h3 (away g) aws (List.length h2)
                  (side_at_keeps line_view h h3 K3 line_input _ _ Haws)
                  (nth_error_alloc_new h2 _)) as Hl3.
    destruct (lines_loop_spec GameObject.away_team h3 game g d items2 dict1
                _ _ Hh3 Hg3 Hl3) as (h4 & E4 & F4 & Hok4).
    exists h4. split; [exact E4|]. split; [|exact Hok4].
    eapply frame_trans; [exact F02|].
    eapply frame_trans; [apply frame_alloc|exact F4].
  - rewrite (bind_raises _ _ _ _ _ E2). cbn [bind done].
    exists h2. split; [reflexivity|]. split; [exact F02|discriminate].
Qed.

(** ** The loop over the stats dicts *)

Lemma copies_list_at h rl cs outs :
  nth_error h rl = Some (ListObj cs) ->
  Forall2 (fun c v => nth_error h c = Some (wrap v)) cs outs ->
  list_at view h rl = Some outs.
Proof.
  intros Hrl HF. unfold list_at, object_at at 1. rewrite Hrl. simpl.
  clear Hrl. induction HF as [|c v cs outs Hc HF IH]; simpl; auto.
  unfold object_at at 1. rewrite Hc, view_wrap, IH. reflexivity.
Qed.

Lemma copies_ext h h' cs (outs : list V) :
  Forall2 (fun c v => nth_error h c = Some (wrap v)) cs outs ->
  (forall c v, nth_error h c = Some (wrap v) -> In c cs ->
               nth_error h' c = nth_error h c) ->
  Forall2 (fun c v => nth_error h' c = Some (wrap v)) cs outs.
Proof.
  induction 1 as [|c v cs outs Hc HF IH]; intros Hin; constructor.
  - rewrite (Hin c v Hc); [exact Hc|now left].
  - apply IH. intros c' v' Hc' Hi. apply (Hin c' v' Hc'). now right.
Qed.

Lemma dict_item_run h d factory items i :
  nth_error h d = Some (DefaultDict factory items) ->
  dict_item d i h = (Returns (nth_error items i), h).
Proof.
  intros H. unfold dict_item.
  now rewrite (bind_returns _ _ _ _ _
                 (read_as_run as_dict d h _ _ H eq_refl)).
Qed.

(** One turn of the loop: the derived fields are assigned in the stats
    dict at [s], and a copy of it is appended to the list at [rl]. *)
Lemma averages_turn_returns h rl cs (k : string) s v v' :
  nth_error h s = Some (wrap v) ->
  nth_error h rl = Some (ListObj cs) ->
  rates v = Ok v' ->
  bindM (modify view wrap (snd (k, s)) averages) (fun _ =>
  bindM (read_as view (snd (k, s))) (fun stats =>
  bindM (alloc (wrap stats)) (fun copy =>
  bindM (read_as as_list rl) (fun done_so_far =>
  write rl (ListObj (done_so_far ++ [copy])))))) h
  = (Returns tt,
     store rl (ListObj (cs ++ [List.length h]))
           (store s (wrap v') h ++ [wrap v'])).
Proof.
  intros Hs Hrl Hv. cbn [snd].
  assert (Hne : s <> rl).
  { intros ->. rewrite Hs in Hrl. injection Hrl as Hrl.
    apply (wrap_not_input v). now rewrite Hrl. }
  pose proof (nth_error_valid _ _ _ Hs) as Hsl.
  pose proof (nth_error_valid _ _ _ Hrl) as Hrll.
  assert (Hm : modify view wrap s averages h
               = (Returns tt, store s (wrap v') h)).
  { rewrite (modify_run s averages h v Hs), (averages_ok _ _ Hv).
    reflexivity. }
  rewrite (bind_returns _ _ _ _ _ Hm).
  rewrite (bind_returns _ _ _ _ _
             (read_as_run view s _ _ _
                (nth_error_store_same _ s h Hsl) (view_wrap v'))).
  rewrite bind_alloc, length_store.
  assert (Hrl' : nth_error (store s (wrap v') h ++ [wrap v']) rl
                 = Some (ListObj cs)).
  { apply nth_error_alloc_old.
    now rewrite nth_error_store_other. }
  rewrite (bind_returns _ _ _ _ _
             (read_as_run as_list rl _ _ _ Hrl' eq_refl)).
  apply (write_run rl _ _ _ Hrl').
Qed.

Lemma averages_turn_raises h rl (k : string) s v e :
  nth_error h s = Some (wrap v) ->
  rates v = Raise e ->
  bindM (modify view wrap (snd (k, s)) averages) (fun _ =>
  bindM (read_as view (snd (k, s))) (fun stats =>
  bindM (alloc (wrap stats)) (fun copy =>
  bindM (read_as as_list rl) (fun done_so_far =>
  write rl (ListObj (done_so_far ++ [copy])))))) h
  = (Raises e, store s (wrap (fst (run_statements averages v))) h).
Proof.
  intros Hs Hv. cbn [snd].
  apply bind_raises.
  rewrite (modify_run s averages h v Hs), (averages_raise _ _ Hv).
  reflexivity.
Qed.

Lemma averages_loop_spec (h : heap) d items :
  let rl := List.length h in
  let body := fun item : string * ref =>
    bindM (modify view wrap (snd item) averages) (fun _ =>
    bindM (read_as view (snd item)) (fun stats =>
    bindM (alloc (wrap stats)) (fun copy =>
    bindM (read_as as_list rl) (fun done_so_far =>
    write rl (ListObj (done_so_far ++ [copy])))))) in
  forall rest drest i fuel hcur cs outs,
    keeps (fun r o => (r < n0)%nat \/ ~ owned wrap default o) h hcur ->
    (List.length h < List.length hcur)%nat ->
    nth_error hcur d = Some (DefaultDict (wrap default) items) ->
    (d < List.length h)%nat ->
    nth_error hcur rl = Some (ListObj cs) ->
    Forall2 (fun c v => nth_error hcur c = Some (wrap v)) cs outs ->
    Forall (fun c => (List.length h < c)%nat) cs ->
    skipn i items = rest ->
    Forall2 (fun ir kv => fst ir = fst kv
                          /\ nth_error hcur (snd ir) = Some (wrap (snd kv)))
            rest drest ->
    Forall (fun ir => (n0 <= snd ir < List.length h)%nat) rest ->
    NoDup (map snd rest) ->
    (List.length rest < fuel)%nat ->
    exists out h',
      for_index fuel i (dict_item d) body hcur = (out, h')
      /\ keeps (fun r o => (r < n0)%nat \/ ~ owned wrap default o) h h'
      /\ (List.length hcur <= List.length h')%nat
      /\ match map_result (fun item => rates (snd item)) drest with
         | Ok outs' =>
             out = Returns tt
             /\ exists cs',
                  nth_error h' rl = Some (ListObj cs')
                  /\ Forall2 (fun c v => nth_error h' c = Some (wrap v))
                             cs' (outs ++ outs')
         | Raise e => out = Raises e
         end.
Proof.
  intros rl body.
  induction rest as [|[k s] rest IH];
    intros drest i fuel hcur cs outs K Hlen Hd Hdl Hrl Hcs Hcl Hsk HF Hr Hnd Hf;
    (destruct fuel as [|fuel]; [simpl in Hf; lia|]); simpl for_index;
    rewrite (bind_returns _ _ _ _ _ (dict_item_run hcur d _ _ i Hd)).
  - rewrite (skipn_nil_nth_error _ _ Hsk).
    destruct drest as [|kv drest]; [|inversion HF].
    simpl. rewrite app_nil_r.
    exists (Returns tt), hcur.
    split; [reflexivity|]. split; [exact K|]. split; [lia|].
    split; [reflexivity|]. eauto.
  - destruct (skipn_cons_nth_error _ _ _ _ Hsk) as [Hn Hsk'].
    rewrite Hn.
    destruct drest as [|[k' v] drest]; [inversion HF|].
    apply Forall2_cons_iff in HF. destruct HF as [[_ Hs] HF]. simpl in Hs.
    apply Forall_cons_iff in Hr. destruct Hr as [[Hsn Hsl] Hr].
    simpl in Hsn, Hsl.
    simpl map in Hnd. apply NoDup_cons_iff in Hnd.
    destruct Hnd as [Hnin Hnd].
    assert (Hown : ~ ((s < n0)%nat \/ ~ owned wrap default (wrap v))).
    { intros [H|H]; [lia|]. apply H. left. eauto. }
    simpl map_result. unfold body at 1.
    destruct (rates v) as [v'|e] eqn:Ev; cbn [bind].
    + rewrite (bind_returns _ _ _ _ _
                 (averages_turn_returns hcur rl cs k s v v' Hs Hrl Ev)).
      set (h1 := store s (wrap v') hcur).
      set (h2 := (h1 ++ [wrap v'])%list).
      set (c := List.length hcur).
      set (h3 := store rl (ListObj (cs ++ [c])) h2).
      assert (L1 : List.length h1 = List.length hcur)
        by apply length_store.
      assert (L2 : List.length h2 = Datatypes.S (List.length hcur)).
      { unfold h2. rewrite length_app, L1. simpl. lia. }
      assert (L3 : List.length h3 = Datatypes.S (List.length hcur)).
      { unfold h3. now rewrite length_store. }
      assert (Hother : forall r : nat, r <> s -> r <> rl ->
                (r < List.length hcur)%nat ->
                nth_error h3 r = nth_error hcur r).
      { intros r H1 H2 H3. unfold h3, h2, h1.
        rewrite nth_error_store_other by congruence.
        rewrite nth_error_app1 by (rewrite length_store; lia).
        apply nth_error_store_other. congruence. }
      assert (Hsrl : s <> rl) by (unfold rl; lia).
      destruct (IH drest (Datatypes.S i) fuel h3 (cs ++ [c])%list
                   (outs ++ [v'])%list)
        as (out & h' & E & K' & Hl' & Hres).
      * unfold h3. apply keeps_store_new; [unfold rl; lia|].
        unfold h2. eapply keeps_trans; [|apply keeps_alloc].
        unfold h1. eapply keeps_store_base; eauto.
      * lia.
      * rewrite Hother; [exact Hd| |unfold rl; lia|lia].
        intros ->. rewrite Hd in Hs. injection Hs as Hs.
        pose proof (wrap_not_dict v) as Hw. rewrite <- Hs in Hw.
        discriminate.
      * exact Hdl.
      * unfold h3. apply nth_error_store_same. rewrite L2. lia.
      * apply Forall2_app.
        -- apply (copies_ext hcur); [exact Hcs|].
           intros x y Hx Hin. rewrite Forall_forall in Hcl.
           pose proof (Hcl _ Hin).
           apply Hother; [lia|unfold rl; lia|].
           eapply nth_error_valid, Hx.
        -- constructor; [|constructor].
           unfold h3. rewrite nth_error_store_other by (unfold c, rl; lia).
           unfold h2, c. rewrite <- L1. apply nth_error_alloc_new.
      * apply Forall_app. split; [exact Hcl|].
        constructor; [unfold c; lia|constructor].
      * exact Hsk'.
      * apply (related_ext hcur); [exact HF|].
        intros ir Hin. rewrite Forall_forall in Hr.
        pose proof (Hr _ Hin).
        apply Hother; [|unfold rl, ref in *; lia|unfold ref in *; lia].
        intros E. apply Hnin. rewrite <- E. now apply in_map.
      * exact Hr.
      * exact Hnd.
      * simpl in Hf. lia.
      * exists out, h'. split; [exact E|]. split; [exact K'|].
        split; [lia|].
        destruct (map_result (fun item => rates (snd item)) drest)
          as [outs'|e]; cbn [bind]; [|exact Hres].
        now rewrite <- app_assoc in Hres.
    + rewrite (bind_raises _ _ _ _ _
                 (averages_turn_raises hcur rl k s v e Hs Ev)).
      eexists _, _. split; [reflexivity|]. split.
      { eapply keeps_store_base; eauto. }
      split; [rewrite length_store; lia|reflexivity].
Qed.

(** [_calculate_batting_averages], and [_calculate_pitching_averages]:
    the list returned holds, in a list object of its own, copies of the
    stats dicts with their derived fields. *)
Lemma calculate_averages_spec h d items dict :
  holds wrap default n0 h d items dict ->
  exists out h',
    calculate_averages view wrap averages d h = (out, h')
    /\ frame wrap default n0 h h'
    /\ match map_result (fun item => rates (snd item)) dict with
       | Ok outs =>
           exists rl, out = Returns rl /\ list_at view h' rl = Some outs
       | Raise e => out = Raises e
       end.
Proof.
  intros Hh. pose proof Hh as (Hd & Hn & HF & Hge & Hnd).
  unfold calculate_averages. rewrite bind_alloc.
  set (h1 := (h ++ [ListObj []])%list).
  set (rl := List.length h).
  pose proof (nth_error_alloc_old h (ListObj []) _ _ Hd) as Hd1.
  fold h1 in Hd1.
  pose proof (nth_error_valid _ _ _ Hd) as Hdl.
  match goal with
  | |- context [for_items d ?b] => set (body := b)
  end.
  assert (Hloop : for_items d body h1
                  = for_index (Datatypes.S (List.length items)) 0
                              (dict_item d) body h1).
  { unfold for_items.
    now rewrite (bind_returns _ _ _ _ _
                   (read_as_run as_dict d h1 _ _ Hd1 eq_refl)). }
  destruct (averages_loop_spec h d items items dict 0
              (Datatypes.S (List.length items)) h1 [] [])
    as (out & h' & E & K' & Hl' & Hres).
  - apply keeps_alloc.
  - unfold h1. rewrite length_app. simpl. lia.
  - exact Hd1.
  - exact Hdl.
  - apply nth_error_alloc_new.
  - constructor.
  - constructor.
  - reflexivity.
  - apply (related_ext h); [exact HF|].
    intros ir Hin. unfold h1. apply nth_error_app1.
    destruct (related_valid _ _ _ HF _ Hin) as [v Hv].
    eapply nth_error_valid, Hv.
  - rewrite Forall_forall in Hge |- *. intros ir Hin.
    split; [now apply Hge|].
    destruct (related_valid _ _ _ HF _ Hin) as [v Hv].
    eapply nth_error_valid, Hv.
  - exact Hnd.
  - lia.
  - fold rl body in E. rewrite <- Hloop in E.
    assert (Hfr : frame wrap default n0 h h').
    { split; [|exact K'].
      unfold h1 in Hl'. rewrite length_app in Hl'. simpl in Hl'. lia. }
    destruct (map_result (fun item => rates (snd item)) dict) as [outs|e].
    + destruct Hres as (-> & cs' & Hrl & Hcs). simpl in Hcs.
      rewrite (bind_returns _ _ _ _ _ E).
      exists (Returns rl), h'. split; [reflexivity|]. split; [exact Hfr|].
      exists rl. split; [reflexivity|].
      now apply (copies_list_at h' rl cs').
    + subst out. rewrite (bind_raises _ _ _ _ _ E).
      exists (Raises e), h'. split; [reflexivity|]. split; [exact Hfr|].
      reflexivity.
Qed.

End KindFacts.

(* ================================================================= *)
(** * The call and the caller's list *)

Section Caller.
Import Py Call Footprint.

(** ** The assignments and the records they build *)

(** What a computation evaluates first. *)
Ltac first_evaluated m :=
  lazymatch m with
  | bind ?m' _ => first_evaluated m'
  | (if ?c then _ else _) => constr:(c)
  | _ => constr:(m)
  end.

(** Both sides evaluate the same calls in the same order. *)
Ltac evaluate :=
  cbn -[Z.gtb Z.add Z.sub Z.mul int to_float int_truediv int_float_truediv
        round fadd float_gt_0];
  repeat (match goal with
          | H : ?x = _ |- context [?x] => rewrite H
          end;
          cbn -[Z.gtb Z.add Z.sub Z.mul int to_float int_truediv
                int_float_truediv round fadd float_gt_0]).

Ltac same_calls :=
  evaluate;
  repeat (lazymatch goal with
          | |- Ok _ = _ -> _ => fail
          | |- Raise _ = _ -> _ => fail
          | |- ?lhs = _ -> _ =>
              let s := first_evaluated lhs in
              destruct s eqn:?; evaluate
          end);
  first [discriminate | intros [= <-]; reflexivity].

Lemma batting_statements_ok team line v v' :
  StatsCalculator.update_batting team line v = Ok v' ->
  run_statements (batting_statements team line) v = (v', Ok tt).
Proof.
  unfold StatsCalculator.update_batting, batting_statements. same_calls.
Qed.

Lemma batting_statements_raise team line v e :
  StatsCalculator.update_batting team line v = Raise e ->
  snd (run_statements (batting_statements team line) v) = Raise e.
Proof.
  unfold StatsCalculator.update_batting, batting_statements. same_calls.
Qed.

Lemma pitching_statements_ok team line v v' :
  StatsCalculator.update_pitching team line v = Ok v' ->
  run_statements (pitching_statements team line) v = (v', Ok tt).
Proof.
  unfold StatsCalculator.update_pitching, pitching_statements. same_calls.
Qed.

Lemma pitching_statements_raise team line v e :
  StatsCalculator.update_pitching team line v = Raise e ->
  snd (run_statements (pitching_statements team line) v) = Raise e.
Proof.
  unfold StatsCalculator.update_pitching, pitching_statements. same_calls.
Qed.

Lemma batting_averages_ok v v' :
  StatsCalculator.batting_averages v = Ok v' ->
  run_statements batting_averages_statements v = (v', Ok tt).
Proof.
  destruct v.
  unfold StatsCalculator.batting_averages, batting_averages_statements.
  same_calls.
Qed.

Lemma batting_averages_raise v e :
  StatsCalculator.batting_averages v = Raise e ->
  snd (run_statements batting_averages_statements v) = Raise e.
Proof.
  destruct v.
  unfold StatsCalculator.batting_averages, batting_averages_statements.
  same_calls.
Qed.

Lemma pitching_averages_ok v v' :
  StatsCalculator.pitching_averages v = Ok v' ->
  run_statements pitching_averages_statements v = (v', Ok tt).
Proof.
  destruct v.
  unfold StatsCalculator.pitching_averages, pitching_averages_statements.
  same_calls.
Qed.

Lemma pitching_averages_raise v e :
  StatsCalculator.pitching_averages v = Raise e ->
  snd (run_statements pitching_averages_statements v) = Raise e.
Proof.
  destruct v.
  unfold StatsCalculator.pitching_averages, pitching_averages_statements.
  same_calls.
Qed.

(** ** The two kinds of statistics *)

Abbreviation ownedB := (owned BattingStatsObj BattingStats.default).
Abbreviation ownedP := (owned PitchingStatsObj PitchingStats.default).
Abbreviation frameB := (frame BattingStatsObj BattingStats.default).
Abbreviation frameP := (frame PitchingStatsObj PitchingStats.default).
Abbreviation holdsB := (holds BattingStatsObj BattingStats.default).
Abbreviation holdsP := (holds PitchingStatsObj PitchingStats.default).

Lemma batting_not_input v : ~ input (BattingStatsObj v).
Proof. simpl. auto. Qed.

Lemma pitching_not_input v : ~ input (PitchingStatsObj v).
Proof. simpl. auto. Qed.

Lemma ownedB_not_ownedP o : ownedB o -> ~ ownedP o.
Proof.
  intros [[v Hv]|[items Hv]] [[w H]|[its H]]; subst; discriminate.
Qed.

Lemma ownedP_not_ownedB o : ownedP o -> ~ ownedB o.
Proof. intros H H'. now apply (ownedB_not_ownedP o). Qed.

(** What the batting loops write is not what stands for the pitching
    dict, and the other way round. *)
Lemma frameB_keeps_pitching n0 h h' :
  frameB n0 h h' -> keeps (fun _ o => ownedP o) h h'.
Proof.
  intros [_ K]. eapply keeps_weaken; [|exact K]. simpl.
  intros r o H. right. now apply ownedP_not_ownedB.
Qed.

Lemma frameP_keeps_batting n0 h h' :
  frameP n0 h h' -> keeps (fun _ o => ownedB o) h h'.
Proof.
  intros [_ K]. eapply keeps_weaken; [|exact K]. simpl.
  intros r o H. right. now apply ownedB_not_ownedP.
Qed.

Lemma frameB_grows n0 h h' : frameB n0 h h' -> grows n0 h h'.
Proof. apply frame_grows, batting_not_input. Qed.

Lemma frameP_grows n0 h h' : frameP n0 h h' -> grows n0 h h'.
Proof. apply frame_grows, pitching_not_input. Qed.

Lemma grows_alloc n0 h o : grows n0 h (h ++ [o]).
Proof.
  split; [rewrite length_app; simpl; lia | apply keeps_alloc].
Qed.

(** ** One game *)

Lemma game_at_inv h game gm :
  game_at h game = Some gm ->
  exists g,
    nth_error h game = Some (GameObj g)
    /\ GameObject.home_team g = Game.home_team gm
    /\ GameObject.away_team g = Game.away_team gm
    /\ side_at as_batting_line h (GameObject.home_team_batting g)
       = Some (Game.home_team_batting gm)
    /\ side_at as_batting_line h (GameObject.away_team_batting g)
       = Some (Game.away_team_batting gm)
    /\ side_at as_pitching_line h (GameObject.home_team_pitching g)
       = Some (Game.home_team_pitching gm)
    /\ side_at as_pitching_line h (GameObject.away_team_pitching g)
       = Some (Game.away_team_pitching gm).
Proof.
  unfold game_at, object_at.
  destruct (nth_error h game) as [[]|]; simpl; try discriminate.
  unfold game_of.
  destruct (side_at as_batting_line h (GameObject.home_team_batting game0))
    eqn:E1; [|discriminate].
  destruct (side_at as_batting_line h (GameObject.away_team_batting game0))
    eqn:E2; [|discriminate].
  destruct (side_at as_pitching_line h (GameObject.home_team_pitching game0))
    eqn:E3; [|discriminate].
  destruct (side_at as_pitching_line h (GameObject.away_team_pitching game0))
    eqn:E4; [|discriminate].
  intros [= <-]. exists game0. simpl. repeat split; auto.
Qed.

Lemma process_batting_spec n0 h game gm d items dict :
  game_at h game = Some gm ->
  holdsB n0 h d items dict ->
  exists h',
    Call._process_game_batting_stats game d h
    = (done (StatsCalculator._process_game_batting_stats gm dict), h')
    /\ frameB n0 h h'
    /\ forall dict',
         StatsCalculator._process_game_batting_stats gm dict = Ok dict' ->
         exists items', holdsB n0 h' d items' dict'.
Proof.
  intros Hg Hh.
  destruct (game_at_inv _ _ _ Hg) as (g & Hobj & Hht & Hat & Hhb & Hab & _).
  pose proof (process_sides_spec
                as_batting_line as_batting_stats BattingStatsObj
                BattingStats.default StatsCalculator.batting_key
                batting_statements StatsCalculator.update_batting
                (fun v => eq_refl) batting_not_input (fun v => eq_refl)
                as_batting_line_input
                batting_statements_ok batting_statements_raise
                n0 GameObject.home_team_batting GameObject.away_team_batting
                h game g d items dict _ _ Hh Hobj Hhb Hab) as H.
  cbv zeta in H. rewrite Hht, Hat in H. exact H.
Qed.

Lemma process_pitching_spec n0 h game gm d items dict :
  game_at h game = Some gm ->
  holdsP n0 h d items dict ->
  exists h',
    Call._process_game_pitching_stats game d h
    = (done (StatsCalculator._process_game_pitching_stats gm dict), h')
    /\ frameP n0 h h'
    /\ forall dict',
         StatsCalculator._process_game_pitching_stats gm dict = Ok dict' ->
         exists items', holdsP n0 h' d items' dict'.
Proof.
  intros Hg Hh.
  destruct (game_at_inv _ _ _ Hg)
    as (g & Hobj & Hht & Hat & _ & _ & Hhp & Hap).
  pose proof (process_sides_spec
                as_pitching_line as_pitching_stats PitchingStatsObj
                PitchingStats.default StatsCalculator.pitching_key
                pitching_statements StatsCalculator.update_pitching
                (fun v => eq_refl) pitching_not_input (fun v => eq_refl)
                as_pitching_line_input
                pitching_statements_ok pitching_statements_raise
                n0 GameObject.home_team_pitching
                GameObject.away_team_pitching
                h game g d items dict _ _ Hh Hobj Hhp Hap) as H.
  cbv zeta in H. rewrite Hht, Hat in H. exact H.
Qed.

(** The body of the loop [for game in games]. *)
Lemma process_game_spec n0 h game gm b p bi pi acc :
  game_at h game = Some gm ->
  holdsB n0 h b bi (fst acc) ->
  holdsP n0 h p pi (snd acc) ->
  exists h',
    bindM (Call._process_game_batting_stats game b)
          (fun _ => Call._process_game_pitching_stats game p) h
    = (done (StatsCalculator.process_game gm acc), h')
    /\ grows n0 h h'
    /\ forall acc',
         StatsCalculator.process_game gm acc = Ok acc' ->
         (exists bi', holdsB n0 h' b bi' (fst acc'))
         /\ (exists pi', holdsP n0 h' p pi' (snd acc')).
Proof.
  intros Hg Hb Hp. unfold StatsCalculator.process_game.
  destruct (process_batting_spec n0 h game gm b bi (fst acc) Hg Hb)
    as (h1 & E1 & F1 & Hok1).
  destruct (StatsCalculator._process_game_batting_stats gm (fst acc))
    as [bd|e]; cbn [done] in E1; cbn [bind].
  - rewrite (bind_returns _ _ _ _ _ E1).
    destruct (Hok1 bd eq_refl) as [bi' Hb1].
    pose proof (holds_keeps _ _ _ _ _ _ _ _ Hp
                  (frameB_keeps_pitching _ _ _ F1)) as Hp1.
    pose proof (game_at_keeps h h1 (grows_input _ _ _ (frameB_grows _ _ _ F1))
                  _ _ Hg) as Hg1.
    destruct (process_pitching_spec n0 h1 game gm p pi (snd acc) Hg1 Hp1)
      as (h2 & E2 & F2 & Hok2).
    exists h2.
    assert (G : grows n0 h h2).
    { eapply grows_trans; [apply frameB_grows|apply frameP_grows]; eauto. }
    destruct (StatsCalculator._process_game_pitching_stats gm (snd acc))
      as [pd|e]; cbn [done] in E2; cbn [bind done].
    + split; [exact E2|]. split; [exact G|].
      intros acc' [= <-]. cbn [fst snd]. split.
      * exists bi'. eapply holds_keeps; [exact Hb1|].
        eapply frameP_keeps_batting, F2.
      * now apply Hok2.
    + split; [exact E2|]. split; [exact G|discriminate].
  - rewrite (bind_raises _ _ _ _ _ E1). cbn [done].
    exists h1. split; [reflexivity|].
    split; [eapply frameB_grows, F1|discriminate].
Qed.

(** ** The loop over the games *)

Lemma games_at_inv h games_ref games :
  games_at h games_ref = Some games ->
  exists items,
    nth_error h games_ref = Some (ListObj items)
    /\ all_some (map (game_at h) items) = Some games.
Proof.
  unfold games_at, object_at.
  destruct (nth_error h games_ref) as [[]|]; simpl; try discriminate. eauto.
Qed.

Lemma games_loop_spec n0 h games_ref games b p :
  games_at h games_ref = Some games ->
  holdsB n0 h b [] [] ->
  holdsP n0 h p [] [] ->
  exists h',
    for_in games_ref
           (fun game =>
              bindM (Call._process_game_batting_stats game b)
                    (fun _ => Call._process_game_pitching_stats game p)) h
    = (done (StatsCalculator.process_games games), h')
    /\ grows n0 h h'
    /\ forall acc,
         StatsCalculator.process_games games = Ok acc ->
         (exists bi, holdsB n0 h' b bi (fst acc))
         /\ (exists pi, holdsP n0 h' p pi (snd acc)).
Proof.
  intros Hg Hb Hp.
  destruct (games_at_inv _ _ _ Hg) as (items & Hl & Hall).
  set (Inv := fun h (acc : Dict.t BattingStats.t * Dict.t PitchingStats.t) =>
                (exists bi, holdsB n0 h b bi (fst acc))
                /\ (exists pi, holdsP n0 h p pi (snd acc))).
  assert (Hbody : forall h acc r gm,
             Inv h acc -> game_at h r = Some gm ->
             exists h',
               bindM (Call._process_game_batting_stats r b)
                     (fun _ => Call._process_game_pitching_stats r p) h
               = (done (StatsCalculator.process_game gm acc), h')
               /\ grows n0 h h'
               /\ forall acc',
                    StatsCalculator.process_game gm acc = Ok acc' ->
                    Inv h' acc').
  { intros h0 acc r gm [[bi Hbi] [pi Hpi]] Hr.
    apply (process_game_spec n0 h0 r gm b p bi pi acc Hr Hbi Hpi). }
  apply (for_in_spec (grows n0) (grows_refl n0) (grows_trans n0)
                     (grows_input n0) game_at game_at_keeps
                     _ _ Inv Hbody games_ref items h ([], []) games Hl Hall).
  split; eexists; eassumption.
Qed.

(** ** The call *)

Lemma grows_app : forall (h h' : heap),
  grows (List.length h) h h' -> h' = (h ++ skipn (List.length h) h')%list.
Proof.
  intros h h' [Hlen K].
  assert (H : forall r o, nth_error h r = Some o -> nth_error h' r = Some o).
  { intros r o Hr. apply (K r o Hr). left. eapply nth_error_valid, Hr. }
  clear K. revert h' Hlen H.
  induction h as [|x h IH]; intros [|y h'] Hlen H; simpl in *; auto;
    try lia.
  pose proof (H 0%nat x eq_refl) as H0. simpl in H0. injection H0 as ->.
  f_equal. apply IH; [lia|].
  intros r o Hr. apply (H (Datatypes.S r) o Hr).
Qed.

(** The call makes objects of its own and writes only to them; what it
    returns, read in the heap it leaves, is what the calculator
    computes from the games the caller's list stands for. *)
Lemma call_spec h games_ref games :
  games_at h games_ref = Some games ->
  exists out h',
    Call.calculate_aggregate_stats games_ref h = (out, h')
    /\ grows (List.length h) h h'
    /\ result_at h' out
       = of_result (StatsCalculator.calculate_aggregate_stats games).
Proof.
  intros Hg. unfold Call.calculate_aggregate_stats.
  set (n0 := List.length h).
  rewrite bind_alloc. fold n0.
  set (h1 := (h ++ [DefaultDict (BattingStatsObj BattingStats.default) []])%list).
  rewrite bind_alloc.
  set (p := List.length h1).
  set (h2 := (h1 ++ [DefaultDict (PitchingStatsObj PitchingStats.default) []])%list).
  assert (Lp : p = Datatypes.S n0).
  { unfold p, h1, n0. rewrite length_app. simpl. lia. }
  assert (G2 : grows n0 h h2).
  { eapply grows_trans; apply grows_alloc. }
  assert (Hb2 : holdsB n0 h2 n0 [] []).
  { split; [|split; [lia|split; [constructor|split; constructor]]].
    apply nth_error_alloc_old. apply nth_error_alloc_new. }
  assert (Hp2 : holdsP n0 h2 p [] []).
  { split; [|split; [lia|split; [constructor|split; constructor]]].
    apply nth_error_alloc_new. }
  pose proof (games_at_keeps h h2 (grows_input _ _ _ G2) _ _ Hg) as Hg2.
  destruct (games_loop_spec n0 h2 games_ref games n0 p Hg2 Hb2 Hp2)
    as (h3 & E3 & G3 & Hok3).
  unfold StatsCalculator.calculate_aggregate_stats.
  destruct (StatsCalculator.process_games games) as [[bd pd]|e];
    cbn [done] in E3; cbn [bind fst snd].
  2:{ rewrite (bind_raises _ _ _ _ _ E3).
      exists (Raises e), h3. split; [reflexivity|].
      split; [|reflexivity]. eapply grows_trans; eauto. }
  rewrite (bind_returns _ _ _ _ _ E3).
  destruct (Hok3 _ eq_refl) as [[bi Hb3] [pi Hp3]]. cbn [fst snd] in Hb3, Hp3.
  destruct (calculate_averages_spec
              as_batting_stats BattingStatsObj BattingStats.default
              (fun v => eq_refl) batting_not_input (fun v => eq_refl)
              batting_averages_statements StatsCalculator.batting_averages
              batting_averages_ok batting_averages_raise
              n0 h3 n0 bi bd Hb3) as (out4 & h4 & E4 & F4 & Hres4).
  fold (Call._calculate_batting_averages n0) in E4.
  assert (G4 : grows n0 h h4).
  { eapply grows_trans; [exact G2|].
    eapply grows_trans; [exact G3|]. eapply frameB_grows, F4. }
  unfold StatsCalculator._calculate_batting_averages.
  destruct (map_result
              (fun item => StatsCalculator.batting_averages (snd item)) bd)
    as [bl|e]; cbn [bind].
  2:{ subst out4. rewrite (bind_raises _ _ _ _ _ E4).
      exists (Raises e), h4. split; [reflexivity|].
      split; [exact G4|reflexivity]. }
  destruct Hres4 as (rb & -> & Hbl).
  rewrite (bind_returns _ _ _ _ _ E4).
  pose proof (holds_keeps _ _ _ _ _ _ _ _ Hp3
                (frameB_keeps_pitching _ _ _ F4)) as Hp4.
  destruct (calculate_averages_spec
              as_pitching_stats PitchingStatsObj PitchingStats.default
              (fun v => eq_refl) pitching_not_input (fun v => eq_refl)
              pitching_averages_statements StatsCalculator.pitching_averages
              pitching_averages_ok pitching_averages_raise
              n0 h4 p pi pd Hp4) as (out5 & h5 & E5 & F5 & Hres5).
  fold (Call._calculate_pitching_averages p) in E5.
  assert (G5 : grows n0 h h5).
  { eapply grows_trans; [exact G4|]. eapply frameP_grows, F5. }
  unfold StatsCalculator._calculate_pitching_averages.
  destruct (map_result
              (fun item => StatsCalculator.pitching_averages (snd item)) pd)
    as [pl|e]; cbn [bind].
  2:{ subst out5. rewrite (bind_raises _ _ _ _ _ E5).
      exists (Raises e), h5. split; [reflexivity|].
      split; [exact G5|reflexivity]. }
  destruct Hres5 as (rp & -> & Hpl).
  rewrite (bind_returns _ _ _ _ _ E5).
  exists (Returns (rb, rp)), h5. split; [reflexivity|].
  split; [exact G5|].
  cbn [result_at of_result]. rewrite Hpl.
  assert (Hbl5 : list_at as_batting_stats h5 rb = Some bl).
  { apply (list_at_kept as_batting_stats (fun o => ~ ownedP o) h4 h5);
      [| | |exact Hbl].
    - destruct F5 as [_ K]. eapply keeps_weaken; [|exact K].
      simpl. auto.
    - intros items [[v H]|[its H]]; discriminate.
    - intros [] x; simpl; try discriminate.
      intros _ [[v H]|[its H]]; discriminate. }
  now rewrite Hbl5.
Qed.

(** C9.  [calculate_aggregate_stats] is called with a reference to the
    caller's list, in a heap where that list, the game dicts in it and
    their line lists and line dicts stand for [games] (an object may
    be met more than once).  Whether the call returns or raises, the
    heap it leaves is the heap it found followed by the objects it
    made, so the caller's list stands for [games] as before; what it
    returns, read in that heap, is what the calculator computes from
    [games]; and a second call, on the heap the first one left,
    returns lists that hold the same records, field for field and bit
    for bit, or raises the same exception. *)
Theorem call_preserves_games_and_repeats
        (h : Call.heap) (games_ref : Call.ref) (games : list Game.t) :
  Call.games_at h games_ref = Some games ->
  let first := Call.calculate_aggregate_stats games_ref h in
  let second := Call.calculate_aggregate_stats games_ref (snd first) in
  (exists made, snd first = (h ++ made)%list)
  /\ Call.games_at (snd first) games_ref = Some games
  /\ Call.result_at (snd first) (fst first)
     = Call.of_result (StatsCalculator.calculate_aggregate_stats games)
  /\ (exists made, snd second = (snd first ++ made)%list)
  /\ Call.games_at (snd second) games_ref = Some games
  /\ Call.result_at (snd second) (fst second)
     = Call.result_at (snd first) (fst first).
Proof.
  intros Hg first second.
  destruct (call_spec h games_ref games Hg) as (out1 & h1 & E1 & G1 & R1).
  assert (Hg1 : games_at h1 games_ref = Some games).
  { eapply games_at_keeps; [eapply grows_input, G1|exact Hg]. }
  destruct (call_spec h1 games_ref games Hg1) as (out2 & h2 & E2 & G2 & R2).
  subst second first. rewrite E1. cbn [fst snd]. rewrite E2. cbn [fst snd].
  split; [eexists; apply grows_app, G1|].
  split; [exact Hg1|].
  split; [exact R1|].
  split; [eexists; apply grows_app, G2|].
  split; [|congruence].
  eapply games_at_keeps; [eapply grows_input, G2|exact Hg1].
Qed.

Lemma call_preserves_games_and_repeats_witness :
  Call.games_at Sample.caller_heap 0%nat
  = Some [Sample.game1; Sample.outing1; Sample.game1]
  /\ (exists made,
        snd (Call.calculate_aggregate_stats 0%nat Sample.caller_heap)
        = (Sample.caller_heap ++ made)%list)
  /\ Call.result_at
       (snd (Call.calculate_aggregate_stats
               0%nat (snd (Call.calculate_aggregate_stats 0%nat Sample.caller_heap))))
       (fst (Call.calculate_aggregate_stats
               0%nat (snd (Call.calculate_aggregate_stats 0%nat Sample.caller_heap))))
     = Call.result_at
         (snd (Call.calculate_aggregate_stats 0%nat Sample.caller_heap))
         (fst (Call.calculate_aggregate_stats 0%nat Sample.caller_heap)).
Proof.
  split; [reflexivity|].
  pose proof (call_preserves_games_and_repeats
                Sample.caller_heap 0%nat
                [Sample.game1; Sample.outing1; Sample.game1] eq_refl) as H.
  cbv zeta in H. destruct H as (H1 & _ & _ & _ & _ & H6).
  split; [exact H1 | exact H6].
Defined.

(** On the sample heap the two calls return different references: the
    lists of the second call are new objects. *)
Example sample_calls_return_new_lists :
  fst (Call.calculate_aggregate_stats 0%nat Sample.caller_heap)
  = Call.Returns (26, 29)%nat
  /\ fst (Call.calculate_aggregate_stats
            0%nat (snd (Call.calculate_aggregate_stats 0%nat Sample.caller_heap)))
     = Call.Returns (48, 51)%nat.
Proof. vm_compute. split; reflexivity. Qed.

(** A statement that assigned to the caller's list would be seen by
    the caller. *)
Example a_write_reaches_the_caller :
  Call.games_at
    (snd (Call.write 0%nat (Call.ListObj [4%nat]) Sample.caller_heap)) 0%nat
  = Some [Sample.outing1].
Proof. reflexivity. Qed.

End Caller.

(* ================================================================= *)
(** * Team summary *)

Section TeamSummary.
Import Py StatsCalculator.

Lemma count_cons {A : Type} (p : A -> bool) x l :
  Lines.count p (x :: l) = Z.b2z (p x) + Lines.count p l.
Proof.
  unfold Lines.count. simpl. destruct (p x); simpl Z.b2z; simpl List.length; lia.
Qed.

Lemma bump_getitem f team t d :
  Dict.getitem TeamRecord.default t (bump f team d)
  = if String.eqb team t then f (Dict.getitem TeamRecord.default t d)
    else Dict.getitem TeamRecord.default t d.
Proof.
  unfold bump. destruct (String.eqb team t) eqn:E.
  - apply String.eqb_eq in E. subst t. apply getitem_setitem_eq.
  - apply String.eqb_neq in E. now apply getitem_setitem_ne.
Qed.

Lemma bump_total (m : TeamRecord.t -> Z) f team d :
  m TeamRecord.default = 0 ->
  Lines.total m (bump f team d)
  = Lines.total m d
    + (m (f (Dict.getitem TeamRecord.default team d))
       - m (Dict.getitem TeamRecord.default team d)).
Proof.
  intros H0. unfold bump.
  rewrite (total_setitem m TeamRecord.default) by exact H0. lia.
Qed.

Lemma bump_present f team t d :
  Dict.lookup t d <> None \/ t = team ->
  Dict.lookup t (bump f team d) <> None.
Proof.
  unfold bump. intros H.
  destruct (String.eqb team t) eqn:E.
  - apply String.eqb_eq in E. subst t. rewrite lookup_setitem_eq. discriminate.
  - apply String.eqb_neq in E. rewrite lookup_setitem_ne by exact E.
    destruct H; congruence.
Qed.

(** What one game adds to the record of the team [t]. *)
Lemma summarize_game_effect game d h a :
  Lines.scores game = Ok (h, a) ->
  exists d',
    summarize_game game d = Ok d'
    /\ (forall t,
           let r := Dict.getitem TeamRecord.default t d in
           let r' := Dict.getitem TeamRecord.default t d' in
           let home := String.eqb (Lines.home_name game) t in
           let away := String.eqb (Lines.away_name game) t in
           TeamRecord.games_seen r'
           = TeamRecord.games_seen r + Z.b2z home + Z.b2z away
           /\ TeamRecord.wins r'
              = TeamRecord.wins r + Z.b2z (home && (h >? a))
                + Z.b2z (away && (a >? h))
           /\ TeamRecord.losses r'
              = TeamRecord.losses r + Z.b2z (home && (a >? h))
                + Z.b2z (away && (h >? a)))
    /\ Lines.total TeamRecord.wins d'
       = Lines.total TeamRecord.wins d + Z.b2z ((h >? a) || (a >? h))
    /\ Lines.total TeamRecord.losses d'
       = Lines.total TeamRecord.losses d + Z.b2z ((h >? a) || (a >? h))
    /\ (forall t, Dict.lookup t d <> None
                  \/ t = Lines.home_name game \/ t = Lines.away_name game ->
                  Dict.lookup t d' <> None).
Proof.
  unfold Lines.scores, summarize_game, Lines.home_name, Lines.away_name.
  destruct (int (get (Game.home_score game) (PInt 0))) as [h'|]; simpl;
    [|discriminate].
  destruct (int (get (Game.away_score game) (PInt 0))) as [a'|]; simpl;
    [|discriminate].
  intros [= -> ->].
  assert (Hgt : (h >? a) = true -> (a >? h) = false).
  { rewrite !Z.gtb_ltb. intros H. apply Z.ltb_lt in H. apply Z.ltb_ge. lia. }
  destruct (h >? a) eqn:Eh; [rewrite (Hgt eq_refl)|destruct (a >? h) eqn:Ea];
    eexists; (split; [reflexivity|]);
    (split; [|split; [|split]]);
    try (intros t; cbv zeta; rewrite !bump_getitem;
         destruct (String.eqb (get (Game.home_team game) "Unknown"%string) t);
         destruct (String.eqb (get (Game.away_team game) "Unknown"%string) t);
         simpl; lia);
    try (rewrite ?bump_total by reflexivity; rewrite ?bump_getitem;
         repeat match goal with
                | |- context [String.eqb ?x ?y] => destruct (String.eqb x y)
                end; simpl; lia);
    intros t [Ht|[Ht|Ht]];
    repeat match goal with
           | |- Dict.lookup _ (bump _ _ _) <> None => apply bump_present
           | |- _ \/ _ = _ => first [right; exact Ht | left]
           end; exact Ht.
Qed.

(** C10, as stated for every list of games, fails: a game whose
    [home_score] is the text ["F"] makes [get_team_summary] raise,
    although the games before it are summarized on their own, so no
    team gets any count. *)
Lemma rejected_score_aborts_summary :
  get_team_summary [Sample.game1; Sample.forfeit] = Raise ValueError
  /\ (exists d, get_team_summary [Sample.game1] = Ok d)
  /\ ~ (exists d, get_team_summary [Sample.game1; Sample.forfeit] = Ok d).
Proof.
  split; [reflexivity|]. split; [eexists; reflexivity|].
  intros [d H]. discriminate H.
Qed.

(** C10.  When the scores of every game convert to ints,
    [get_team_summary] returns a dict in which, for every team,
    [games_seen] counts the games it hosted plus the games it visited,
    [wins] the games it hosted with the higher home score plus the
    games it visited with the higher away score, [losses] the games it
    hosted with the higher away score plus the games it visited with
    the higher home score; a tied game adds to neither.  Every team of
    every game has a record, and over all records the wins and the
    losses both total the number of games that are not tied. *)
Theorem team_summary_counts games :
  Forall (fun game => exists h a, Lines.scores game = Ok (h, a)) games ->
  exists d,
    get_team_summary games = Ok d
    /\ (forall t,
           let r := Dict.getitem TeamRecord.default t d in
           let hosted game := String.eqb (Lines.home_name game) t in
           let visited game := String.eqb (Lines.away_name game) t in
           TeamRecord.games_seen r
           = Lines.count hosted games + Lines.count visited games
           /\ TeamRecord.wins r
              = Lines.count (fun g => hosted g && Lines.home_won g) games
                + Lines.count (fun g => visited g && Lines.away_won g) games
           /\ TeamRecord.losses r
              = Lines.count (fun g => hosted g && Lines.away_won g) games
                + Lines.count (fun g => visited g && Lines.home_won g) games)
    /\ (forall game, In game games ->
                     Dict.lookup (Lines.home_name game) d <> None
                     /\ Dict.lookup (Lines.away_name game) d <> None)
    /\ Lines.total TeamRecord.wins d
       = Lines.count (fun g => Lines.home_won g || Lines.away_won g) games
    /\ Lines.total TeamRecord.losses d
       = Lines.count (fun g => Lines.home_won g || Lines.away_won g) games.
Proof.
  unfold get_team_summary.
  assert (G : forall d0,
             Forall (fun game => exists h a, Lines.scores game = Ok (h, a))
                    games ->
             exists d,
               for_each summarize_game games d0 = Ok d
               /\ (forall t,
                      let r0 := Dict.getitem TeamRecord.default t d0 in
                      let r := Dict.getitem TeamRecord.default t d in
                      let hosted game := String.eqb (Lines.home_name game) t in
                      let visited game := String.eqb (Lines.away_name game) t in
                      TeamRecord.games_seen r
                      = TeamRecord.games_seen r0
                        + Lines.count hosted games + Lines.count visited games
                      /\ TeamRecord.wins r
                         = TeamRecord.wins r0
                           + Lines.count (fun g => hosted g && Lines.home_won g) games
                           + Lines.count (fun g => visited g && Lines.away_won g) games
                      /\ TeamRecord.losses r
                         = TeamRecord.losses r0
                           + Lines.count (fun g => hosted g && Lines.away_won g) games
                           + Lines.count (fun g => visited g && Lines.home_won g) games)
               /\ (forall t,
                      Dict.lookup t d0 <> None
                      \/ (exists game, In game games
                                       /\ (t = Lines.home_name game
                                           \/ t = Lines.away_name game)) ->
                      Dict.lookup t d <> None)
               /\ Lines.total TeamRecord.wins d
                  = Lines.total TeamRecord.wins d0
                    + Lines.count (fun g => Lines.home_won g || Lines.away_won g) games
               /\ Lines.total TeamRecord.losses d
                  = Lines.total TeamRecord.losses d0
                    + Lines.count (fun g => Lines.home_won g || Lines.away_won g) games).
  { induction games as [|game games IH]; intros d0 HF.
    - exists d0. simpl. unfold Lines.count. simpl.
      repeat split; try lia. intros t [H|(g & [] & _)]. exact H.
    - inversion HF as [|? ? (h & a & Hs) HF']; subst.
      destruct (summarize_game_effect game d0 h a Hs)
        as (d1 & E1 & T1 & W1 & L1 & P1).
      destruct (IH d1 HF') as (d & E & T & P & W & L).
      exists d. simpl. rewrite E1. simpl. split; [exact E|].
      assert (Hh : Lines.home_won game = (h >? a)).
      { unfold Lines.home_won. now rewrite Hs. }
      assert (Ha : Lines.away_won game = (a >? h)).
      { unfold Lines.away_won. now rewrite Hs. }
      split; [|split; [|split]].
      + intros t. cbv zeta. destruct (T t) as (Tg & Tw & Tl).
        destruct (T1 t) as (Tg1 & Tw1 & Tl1). cbv zeta in *.
        rewrite Tg, Tw, Tl, Tg1, Tw1, Tl1, !count_cons. cbv beta.
        rewrite Hh, Ha. lia.
      + intros t Ht. apply P. destruct Ht as [Ht|(g & [<-|Hg] & Hn)].
        * left. apply P1. auto.
        * left. apply P1. tauto.
        * right. eauto.
      + rewrite W, W1, count_cons. cbv beta. rewrite Hh, Ha. lia.
      + rewrite L, L1, count_cons. cbv beta. rewrite Hh, Ha. lia. }
  intros HF. destruct (G [] HF) as (d & E & T & P & W & L).
  exists d. split; [exact E|]. split; [|split; [|split]].
  - intros t. destruct (T t) as (Tg & Tw & Tl). cbv zeta in *.
    rewrite Tg, Tw, Tl. simpl. lia.
  - intros game Hin. split; apply P; right; exists game; auto.
  - rewrite W. simpl. lia.
  - rewrite L. simpl. lia.
Qed.
End TeamSummary.


(* ================================================================= *)
(** * Integer numerals *)

Section Numerals.
Import Py MLBApiClient.

Lemma digitpart_chars l : forall acc count b r,
  digitpart acc count b l = Some r -> forallb numeral_char l = true.
Proof.
  induction l as [|c l IH]; simpl; intros acc count b r H; [reflexivity|].
  unfold numeral_char at 1.
  destruct (is_decimal c) eqn:Ed.
  - rewrite orb_true_r. simpl. eauto.
  - destruct (Ascii.eqb c "_") eqn:Eu; [|discriminate].
    rewrite orb_true_r. simpl. destruct b; [eauto|discriminate].
Qed.

Lemma lstrip_chars l :
  forallb numeral_char (lstrip l) = true -> forallb numeral_char l = true.
Proof.
  induction l as [|c l IH]; simpl; [reflexivity|].
  destruct (is_space c) eqn:Es; simpl.
  - intros H. unfold numeral_char at 1. rewrite Es. simpl. auto.
  - auto.
Qed.

Lemma forallb_rev {A : Type} (p : A -> bool) l :
  forallb p (rev l) = forallb p l.
Proof.
  induction l as [|x l IH]; simpl; [reflexivity|].
  rewrite forallb_app, IH. simpl. rewrite andb_true_r. apply andb_comm.
Qed.

Lemma strip_chars l :
  forallb numeral_char (strip l) = true -> forallb numeral_char l = true.
Proof.
  unfold strip. rewrite forallb_rev. intros H.
  apply lstrip_chars in H. rewrite forallb_rev in H.
  now apply lstrip_chars.
Qed.

Lemma split_sign_chars l :
  forallb numeral_char (snd (split_sign l)) = true ->
  forallb numeral_char l = true.
Proof.
  destruct l as [|c l]; simpl; [reflexivity|].
  destruct (Ascii.eqb c "-") eqn:E1; simpl.
  - intros ->. unfold numeral_char. rewrite E1. now rewrite !orb_true_r.
  - destruct (Ascii.eqb c "+") eqn:E2; simpl; auto.
    intros ->. unfold numeral_char. rewrite E2. now rewrite !orb_true_r.
Qed.

(** A text that [int()] accepts is made of white space, signs, digits
    and underscores. *)
Lemma int_of_string_chars s n :
  int_of_string s = Ok n -> forallb numeral_char (chars s) = true.
Proof.
  unfold int_of_string. intros H.
  apply strip_chars, split_sign_chars.
  destruct (split_sign (strip (chars s))) as [neg body]. simpl.
  destruct (digitpart 0 0 false body) as [[m k]|] eqn:E; [|discriminate].
  eapply digitpart_chars; eauto.
Qed.

Lemma numeral_chars_no_dot l :
  forallb numeral_char l = true -> existsb (Ascii.eqb ".") l = false.
Proof.
  induction l as [|c l IH]; cbn [existsb forallb]; [reflexivity|].
  intros H. apply andb_true_iff in H as [Hc Hl]. rewrite (IH Hl).
  rewrite orb_false_r.
  destruct (Ascii.eqb "." c) eqn:E; [|reflexivity].
  apply Ascii.eqb_eq in E. subst c. discriminate Hc.
Qed.

(** An accepted whole part holds no point. *)
Lemma whole_innings_no_dot w n :
  whole_innings_of w = Ok n -> contains "." w = false.
Proof.
  unfold whole_innings_of, contains. destruct w as [|c w]; [reflexivity|].
  simpl is_empty. cbv iota. intros H.
  now apply numeral_chars_no_dot, (int_of_string_chars _ n).
Qed.
End Numerals.

(* ================================================================= *)
(** * The innings parser *)

Section Innings.
Import Py MLBApiClient.
Local Open Scope string_scope.

Lemma chars_app (a b : string) : chars (a ++ b) = (chars a ++ chars b)%list.
Proof. induction a as [|c a IH]; simpl; [reflexivity|]. f_equal. exact IH. Qed.

Lemma str_of_chars (s : string) : str_of (chars s) = s.
Proof. apply string_of_list_ascii_of_string. Qed.

Lemma contains_app sep (a b : string) :
  contains sep (a ++ b) = contains sep a || contains sep b.
Proof. unfold contains. rewrite chars_app. apply existsb_app. Qed.

Lemma contains_dotted (w f : string) : contains "." (w ++ "." ++ f) = true.
Proof.
  rewrite contains_app. simpl. apply orb_true_r.
Qed.

Lemma split_chars_none sep l :
  existsb (Ascii.eqb sep) l = false -> split_chars sep l = [l].
Proof.
  induction l as [|c l IH]; simpl; [reflexivity|].
  rewrite Ascii.eqb_sym. destruct (Ascii.eqb c sep); simpl; [discriminate|].
  intros H. now rewrite IH.
Qed.

Lemma split_chars_one sep a b :
  existsb (Ascii.eqb sep) a = false ->
  existsb (Ascii.eqb sep) b = false ->
  split_chars sep (a ++ sep :: b) = [a; b].
Proof.
  intros Ha Hb. induction a as [|c a IH]; simpl.
  - rewrite Ascii.eqb_refl. now rewrite split_chars_none.
  - simpl in Ha. rewrite Ascii.eqb_sym in Ha.
    destruct (Ascii.eqb c sep); simpl in Ha; [discriminate|].
    now rewrite IH.
Qed.

Lemma split_chars_length sep l :
  List.length (split_chars sep l)
  = Datatypes.S (List.length (filter (Ascii.eqb sep) l)).
Proof.
  induction l as [|c l IH]; simpl; [reflexivity|].
  rewrite (Ascii.eqb_sym sep c).
  destruct (Ascii.eqb c sep); simpl; [now rewrite IH|].
  destruct (split_chars sep l); simpl in *; [discriminate|exact IH].
Qed.

(** A text with one point is cut into its whole part and its
    fraction. *)
Lemma split_dotted (w f : string) :
  contains "." w = false -> contains "." f = false ->
  split "." (w ++ "." ++ f) = [w; f].
Proof.
  unfold split, contains. intros Hw Hf.
  rewrite chars_app. simpl.
  rewrite split_chars_one by assumption. simpl.
  now rewrite !str_of_chars.
Qed.

Lemma split_two_dots (a b c : string) :
  match split "." (a ++ "." ++ b ++ "." ++ c) with
  | [_; _] => False
  | _ => True
  end.
Proof.
  unfold split.
  pose proof (split_chars_length "." (chars (a ++ "." ++ b ++ "." ++ c))) as H.
  destruct (split_chars "." _) as [|x [|y [|z t]]]; simpl; auto.
  rewrite !chars_app, !filter_app, !length_app in H. simpl in H. lia.
Qed.

Lemma float_of_string_raises s e :
  float_of_string s = Raise e -> e = ValueError.
Proof.
  unfold float_of_string.
  repeat match goal with
         | |- context [match ?x with _ => _ end] => destruct x
         end; congruence.
Qed.

Lemma int_of_string_raises s e :
  int_of_string s = Raise e -> e = ValueError.
Proof.
  unfold int_of_string.
  repeat match goal with
         | |- context [match ?x with _ => _ end] => destruct x
         end; congruence.
Qed.

Lemma is_blank_dotted (w f : string) : is_blank (IpStr (w ++ "." ++ f)) = false.
Proof. destruct w; reflexivity. Qed.

Lemma isdigit_false_neq f :
  isdigit f = false -> String.eqb f "1" = false /\ String.eqb f "2" = false.
Proof.
  intros H. split; apply String.eqb_neq; intros ->; discriminate.
Qed.

(** [parse_innings] on a text with exactly one point. *)
Lemma parse_innings_dotted (w f : string) :
  contains "." w = false -> contains "." f = false ->
  parse_innings (IpStr (w ++ "." ++ f))
  = except_ValueError_TypeError
      (whole_innings <- whole_innings_of w ;;
       fraction_decimal <- fraction_decimal_of f ;;
       int_add whole_innings fraction_decimal)
      (PFloat fzero).
Proof.
  intros Hw Hf. unfold parse_innings. rewrite is_blank_dotted.
  unfold parse_innings_text, str.
  now rewrite contains_dotted, split_dotted.
Qed.

(** A one-digit fraction is that digit divided by 3. *)
Lemma fraction_decimal_of_digit c :
  is_decimal c = true ->
  contains "." (String c "") = false
  /\ fraction_decimal_of (String c "")
     = Ok (PFloat (nearest_ratio (digit_value c) 3)).
Proof.
  destruct c as [[] [] [] [] [] [] [] []]; intros H;
    try (vm_compute in H; discriminate H);
    split; vm_compute; reflexivity.
Qed.

Lemma whole_innings_raises w e :
  whole_innings_of w = Raise e -> e = ValueError.
Proof.
  unfold whole_innings_of. destruct (is_empty w); [discriminate|].
  apply int_of_string_raises.
Qed.

(** C4, as stated, fails: ["6.x"] is not a number for [float()] nor
    for [int()], yet it parses to the int 6, not to [0.0]. *)
Lemma non_numeric_fraction_keeps_whole_part :
  raises (float_of_string "6.x")
  /\ raises (int_of_string "6.x")
  /\ parse_innings (IpStr "6.x") = Ok (PInt 6)
  /\ parse_innings (IpStr "6.x") <> Ok (PFloat fzero).
Proof.
  repeat split; try (eexists; vm_compute; reflexivity).
  vm_compute. discriminate.
Qed.

(** C4, amended.  The parser maps ["6.1"] to [6 + 1/3], ["6.2"] to
    [6 + 2/3], ["6"] and ["6.0"] to [6.0]; after any whole part, a
    fraction of one digit adds that digit divided by 3; a text without
    point that [float()] accepts parses to that float.  A missing
    value, the int 0, the empty text, a text without point that
    [float()] rejects, a text whose whole part [int()] rejects and a
    text with two points or more parse to [0.0].  But a text with one
    point whose whole part is accepted and whose fraction is not made
    of digits parses to the whole part alone, an int: the fraction
    counts for [0] and the text is not turned into [0.0]. *)
Theorem parse_innings_cases :
  (parse_innings (IpStr "6.1")
   = Ok (PFloat (fadd (nearest_ratio 6 1) (nearest_ratio 1 3)))
   /\ parse_innings (IpStr "6.2")
      = Ok (PFloat (fadd (nearest_ratio 6 1) (nearest_ratio 2 3)))
   /\ parse_innings (IpStr "6") = Ok (PFloat (nearest_ratio 6 1))
   /\ parse_innings (IpStr "6.0") = Ok (PFloat (nearest_ratio 6 1)))
  /\ (forall w n x c,
         whole_innings_of w = Ok n ->
         float_of_int n = Ok x ->
         is_decimal c = true ->
         parse_innings (IpStr (w ++ "." ++ String c ""))
         = Ok (PFloat (fadd x (nearest_ratio (digit_value c) 3))))
  /\ (forall s x,
         contains "." s = false ->
         float_of_string s = Ok x ->
         parse_innings (IpStr s) = Ok (PFloat x))
  /\ (parse_innings IpNone = Ok (PFloat fzero)
      /\ parse_innings (IpInt 0) = Ok (PFloat fzero)
      /\ parse_innings (IpStr "") = Ok (PFloat fzero))
  /\ (forall s,
         contains "." s = false ->
         raises (float_of_string s) ->
         parse_innings (IpStr s) = Ok (PFloat fzero))
  /\ (forall w f,
         contains "." w = false -> contains "." f = false ->
         raises (whole_innings_of w) ->
         parse_innings (IpStr (w ++ "." ++ f)) = Ok (PFloat fzero))
  /\ (forall a b c,
         parse_innings (IpStr (a ++ "." ++ b ++ "." ++ c))
         = Ok (PFloat fzero))
  /\ (forall w f n,
         contains "." f = false ->
         whole_innings_of w = Ok n ->
         isdigit f = false ->
         parse_innings (IpStr (w ++ "." ++ f)) = Ok (PInt n)).
Proof.
  split; [repeat split; vm_compute; reflexivity|].
  split; [|split; [|split; [|split; [|split; [|split]]]]].
  - intros w n x c Hn Hx Hc.
    pose proof (whole_innings_no_dot w n Hn) as Hw.
    destruct (fraction_decimal_of_digit c Hc) as [Hf Hd].
    rewrite parse_innings_dotted by assumption.
    rewrite Hn, Hd. cbn [bind int_add]. unfold int_float_add.
    rewrite Hx. reflexivity.
  - intros s x Hs Hx. unfold parse_innings.
    destruct (is_blank (IpStr s)) eqn:Eb.
    + destruct s; [discriminate Hx|discriminate Eb].
    + unfold parse_innings_text, str. rewrite Hs, Hx. reflexivity.
  - repeat split.
  - intros s Hs [e He]. unfold parse_innings.
    destruct (is_blank (IpStr s)); [reflexivity|].
    unfold parse_innings_text, str. rewrite Hs, He.
    now rewrite (float_of_string_raises _ _ He).
  - intros w f Hw Hf [e He].
    rewrite parse_innings_dotted by assumption. rewrite He.
    now rewrite (whole_innings_raises _ _ He).
  - intros a b c. unfold parse_innings.
    rewrite is_blank_dotted. unfold parse_innings_text, str.
    rewrite contains_dotted.
    pose proof (split_two_dots a b c) as H.
    destruct (split "." _) as [|x [|y [|z t]]]; try reflexivity.
    destruct H.
  - intros w f n Hf Hn Hd.
    pose proof (whole_innings_no_dot w n Hn) as Hw.
    rewrite parse_innings_dotted by assumption.
    unfold fraction_decimal_of.
    destruct (isdigit_false_neq f Hd) as [-> ->]. rewrite Hn, Hd.
    cbn [bind int_add except_ValueError_TypeError]. now rewrite Z.add_0_r.
Qed.

Lemma parse_innings_cases_witness :
  parse_innings (IpStr ("12" ++ "." ++ "7"))
  = Ok (PFloat (fadd (nearest_ratio 12 1) (nearest_ratio 7 3)))
  /\ parse_innings (IpStr ("6" ++ "." ++ "x")) = Ok (PInt 6)
  /\ parse_innings (IpStr "six") = Ok (PFloat fzero)
  /\ parse_innings (IpStr ("a" ++ "." ++ "1")) = Ok (PFloat fzero).
Proof.
  split; [|split; [|split]].
  - apply (proj1 (proj2 parse_innings_cases) "12" 12 (nearest_ratio 12 1) "7"%char);
      vm_compute; reflexivity.
  - apply (proj2 (proj2 (proj2 (proj2 (proj2 (proj2 (proj2 parse_innings_cases)))))) "6" "x" 6);
      vm_compute; reflexivity.
  - apply (proj1 (proj2 (proj2 (proj2 (proj2 parse_innings_cases)))) "six").
    + vm_compute. reflexivity.
    + exists ValueError. vm_compute. reflexivity.
  - apply (proj1 (proj2 (proj2 (proj2 (proj2 (proj2 parse_innings_cases))))) "a" "1").
    + vm_compute. reflexivity.
    + vm_compute. reflexivity.
    + exists ValueError. vm_compute. reflexivity.
Defined.
End Innings.


(* ================================================================= *)
(** * The claims on the sample box scores *)

Section OnSamples.
Import Py StatsCalculator.

Lemma name_and_team_of_last_line_witness :
  (exists earlier last,
      Lines.batting_of "123" [Sample.game1; Sample.game2] = earlier ++ [last]
      /\ BattingStats.player_name
           (hd BattingStats.default
               (Sample.batting_list [Sample.game1; Sample.game2]))
         = get (BattingLine.name (snd last)) "Unknown"%string
      /\ BattingStats.team
           (hd BattingStats.default
               (Sample.batting_list [Sample.game1; Sample.game2]))
         = fst last)
  /\ (exists earlier last,
         Lines.pitching_of "9" [Sample.outing1; Sample.traded]
         = earlier ++ [last]
         /\ PitchingStats.player_name
              (hd PitchingStats.default
                  (Sample.pitching_list [Sample.outing1; Sample.traded]))
            = get (PitchingLine.name (snd last)) "Unknown"%string
         /\ PitchingStats.team
              (hd PitchingStats.default
                  (Sample.pitching_list [Sample.outing1; Sample.traded]))
            = fst last).
Proof.
  split.
  - exact (proj1 (name_and_team_of_last_line
                    [Sample.game1; Sample.game2]
                    (Sample.batting_list [Sample.game1; Sample.game2])
                    (Sample.pitching_list [Sample.game1; Sample.game2])
                    eq_refl) "123"%string).
  - exact (proj2 (name_and_team_of_last_line
                    [Sample.outing1; Sample.traded]
                    (Sample.batting_list [Sample.outing1; Sample.traded])
                    (Sample.pitching_list [Sample.outing1; Sample.traded])
                    eq_refl) "9"%string).
Defined.

(** On the two sample games the later name and the away team win. *)
Example last_name_wins_on_samples :
  BattingStats.player_name
    (hd BattingStats.default
        (Sample.batting_list [Sample.game1; Sample.game2]))
  = "S. Slugger"%string
  /\ BattingStats.team
       (hd BattingStats.default
           (Sample.batting_list [Sample.game1; Sample.game2]))
     = "Reds"%string
  /\ BattingStats.games
       (hd BattingStats.default
           (Sample.batting_list [Sample.game1; Sample.game2])) = 2.
Proof. vm_compute. auto. Qed.

(** The pitcher of the two sample outings ends under the later name and
    the away team of the second game. *)
Example last_pitching_name_wins_on_samples :
  PitchingStats.player_name
    (hd PitchingStats.default
        (Sample.pitching_list [Sample.outing1; Sample.traded]))
  = "P. Pitcher"%string
  /\ PitchingStats.team
       (hd PitchingStats.default
           (Sample.pitching_list [Sample.outing1; Sample.traded]))
     = "Mets"%string
  /\ PitchingStats.games
       (hd PitchingStats.default
           (Sample.pitching_list [Sample.outing1; Sample.traded])) = 2.
Proof. vm_compute. auto. Qed.

Lemma ops_is_rounded_sum_of_rounded_fields_witness :
  round (fadd (BattingStats.on_base_percentage
                 (hd BattingStats.default
                     (Sample.batting_list [Sample.game2])))
              (BattingStats.slugging_percentage
                 (hd BattingStats.default
                     (Sample.batting_list [Sample.game2])))) 3
  = Ok (BattingStats.ops
          (hd BattingStats.default (Sample.batting_list [Sample.game2]))).
Proof.
  apply (ops_is_rounded_sum_of_rounded_fields
           [Sample.game2] (Sample.batting_list [Sample.game2])
           (Sample.pitching_list [Sample.game2])).
  - vm_compute. reflexivity.
  - vm_compute. left. reflexivity.
Defined.

(** One hit in three at bats: [ops] is [0.333 + 0.333 = 0.666], where
    rounding the sum of the two unrounded quotients gives [0.667]. *)
Example ops_differs_from_unrounded_sum :
  BattingStats.ops
    (hd BattingStats.default (Sample.batting_list [Sample.game2]))
  = nearest_ratio 666 1000
  /\ round (fadd (nearest_ratio 1 3) (nearest_ratio 1 3)) 3
     = Ok (nearest_ratio 667 1000)
  /\ nearest_ratio 666 1000 <> nearest_ratio 667 1000.
Proof. vm_compute. repeat split. discriminate. Qed.

(** The end-to-end example of the specification: player "123" alone. *)
Example slugger_rates :
  exists r pinch,
    calculate_aggregate_stats [Sample.game1] = Ok ([r; pinch], [])
    /\ BattingStats.batting_average r = nearest_ratio 500 1000
    /\ BattingStats.on_base_percentage r = nearest_ratio 500 1000
    /\ BattingStats.slugging_percentage r = nearest_ratio 1500 1000
    /\ BattingStats.ops r = nearest_ratio 2000 1000.
Proof. do 2 eexists. vm_compute. repeat split. Qed.

Lemma permuted_games_same_counts_witness :
  Lines.both Lines.same_batting_numbers
             (Lines.record_for
                (Lines.batting_keys [Sample.game1; Sample.game2])
                (Sample.batting_list [Sample.game1; Sample.game2]) "123")
             (Lines.record_for
                (Lines.batting_keys [Sample.game2; Sample.game1])
                (Sample.batting_list [Sample.game2; Sample.game1]) "123").
Proof.
  apply (proj2 (permuted_games_same_counts
                  [Sample.game1; Sample.game2] [Sample.game2; Sample.game1]
                  (Sample.batting_list [Sample.game1; Sample.game2])
                  (Sample.pitching_list [Sample.game1; Sample.game2])
                  (perm_swap Sample.game2 Sample.game1 [])
                  eq_refl)
               (Sample.batting_list [Sample.game2; Sample.game1])
               (Sample.pitching_list [Sample.game2; Sample.game1])
               eq_refl "123"%string).
Defined.

Lemma team_summary_counts_witness :
  exists d,
    get_team_summary [Sample.game1; Sample.game2; Sample.outing1] = Ok d
    /\ Lines.total TeamRecord.wins d = 2
    /\ Lines.total TeamRecord.losses d = 2.
Proof.
  destruct (team_summary_counts [Sample.game1; Sample.game2; Sample.outing1])
    as (d & E & _ & _ & W & L).
  - repeat constructor; do 2 eexists; vm_compute; reflexivity.
  - exists d. split; [exact E|]. rewrite W, L. vm_compute. auto.
Defined.

(** The summary of the three sample games: the Reds won one, lost one
    and tied one. *)
Example team_summary_on_samples :
  get_team_summary [Sample.game1; Sample.game2; Sample.outing1]
  = Ok [("Reds"%string, TeamRecord.make 1 1 3);
        ("Cubs"%string, TeamRecord.make 1 1 3)].
Proof. vm_compute. reflexivity. Qed.
End OnSamples.

(* ================================================================= *)
(** * Totals of the returned records *)

Section TotalFacts.
Import Py StatsCalculator Accumulate.

Ltac convert_eqn :=
  repeat match goal with
         | |- context [int ?x] =>
             let E := fresh "E" in destruct (int x) eqn:E; simpl
         | |- context [to_float ?x] =>
             let E := fresh "E" in destruct (to_float x) eqn:E; simpl
         end.

(** What one batting line adds to the counting fields. *)
Lemma batting_update_adds l v v' :
  batting_update l v = Ok v' ->
  BattingStats.at_bats v'
  = BattingStats.at_bats v + Totals.int_field (BattingLine.at_bats (snd l))
  /\ BattingStats.hits v'
     = BattingStats.hits v + Totals.int_field (BattingLine.hits (snd l))
  /\ BattingStats.runs v'
     = BattingStats.runs v + Totals.int_field (BattingLine.runs (snd l))
  /\ BattingStats.rbis v'
     = BattingStats.rbis v + Totals.int_field (BattingLine.rbis (snd l))
  /\ BattingStats.doubles v'
     = BattingStats.doubles v + Totals.int_field (BattingLine.doubles (snd l))
  /\ BattingStats.triples v'
     = BattingStats.triples v + Totals.int_field (BattingLine.triples (snd l))
  /\ BattingStats.home_runs v'
     = BattingStats.home_runs v
       + Totals.int_field (BattingLine.home_runs (snd l))
  /\ BattingStats.walks v'
     = BattingStats.walks v + Totals.int_field (BattingLine.walks (snd l))
  /\ BattingStats.strikeouts v'
     = BattingStats.strikeouts v
       + Totals.int_field (BattingLine.strikeouts (snd l)).
Proof.
  unfold batting_update, update_batting, Totals.int_field.
  convert_eqn; try discriminate.
  intros [= <-]. simpl. repeat split; reflexivity.
Qed.

Lemma batting_fold_adds fl : forall v v',
  for_each batting_update fl v = Ok v' ->
  BattingStats.at_bats v'
  = BattingStats.at_bats v
    + Totals.sum (fun l => Totals.int_field (BattingLine.at_bats (snd l))) fl
  /\ BattingStats.hits v'
     = BattingStats.hits v
       + Totals.sum (fun l => Totals.int_field (BattingLine.hits (snd l))) fl
  /\ BattingStats.runs v'
     = BattingStats.runs v
       + Totals.sum (fun l => Totals.int_field (BattingLine.runs (snd l))) fl
  /\ BattingStats.rbis v'
     = BattingStats.rbis v
       + Totals.sum (fun l => Totals.int_field (BattingLine.rbis (snd l))) fl
  /\ BattingStats.doubles v'
     = BattingStats.doubles v
       + Totals.sum (fun l => Totals.int_field (BattingLine.doubles (snd l))) fl
  /\ BattingStats.triples v'
     = BattingStats.triples v
       + Totals.sum (fun l => Totals.int_field (BattingLine.triples (snd l))) fl
  /\ BattingStats.home_runs v'
     = BattingStats.home_runs v
       + Totals.sum
           (fun l => Totals.int_field (BattingLine.home_runs (snd l))) fl
  /\ BattingStats.walks v'
     = BattingStats.walks v
       + Totals.sum (fun l => Totals.int_field (BattingLine.walks (snd l))) fl
  /\ BattingStats.strikeouts v'
     = BattingStats.strikeouts v
       + Totals.sum
           (fun l => Totals.int_field (BattingLine.strikeouts (snd l))) fl.
Proof.
  induction fl as [|l fl IH]; intros v v' H.
  - injection H as <-. unfold Totals.sum. simpl. repeat split; lia.
  - simpl in H. destruct (batting_update l v) as [v1|] eqn:E;
      simpl in H; [|discriminate].
    apply batting_update_adds in E. apply IH in H.
    unfold Totals.sum in *. simpl. intuition lia.
Qed.

(** What one pitching line adds. *)
Lemma pitching_update_adds l v v' :
  pitching_update l v = Ok v' ->
  PitchingStats.wins v'
  = PitchingStats.wins v + Totals.int_field (PitchingLine.wins (snd l))
  /\ PitchingStats.losses v'
     = PitchingStats.losses v + Totals.int_field (PitchingLine.losses (snd l))
  /\ PitchingStats.saves v'
     = PitchingStats.saves v + Totals.int_field (PitchingLine.saves (snd l))
  /\ PitchingStats.hits_allowed v'
     = PitchingStats.hits_allowed v
       + Totals.int_field (PitchingLine.hits_allowed (snd l))
  /\ PitchingStats.runs_allowed v'
     = PitchingStats.runs_allowed v
       + Totals.int_field (PitchingLine.runs_allowed (snd l))
  /\ PitchingStats.earned_runs v'
     = PitchingStats.earned_runs v
       + Totals.int_field (PitchingLine.earned_runs (snd l))
  /\ PitchingStats.walks_allowed v'
     = PitchingStats.walks_allowed v
       + Totals.int_field (PitchingLine.walks_allowed (snd l))
  /\ PitchingStats.strikeouts v'
     = PitchingStats.strikeouts v
       + Totals.int_field (PitchingLine.strikeouts (snd l))
  /\ PitchingStats.home_runs_allowed v'
     = PitchingStats.home_runs_allowed v
       + Totals.int_field (PitchingLine.home_runs_allowed (snd l))
  /\ PitchingStats.innings_pitched v'
     = fadd (PitchingStats.innings_pitched v)
            (Totals.float_field (PitchingLine.innings_pitched (snd l))).
Proof.
  unfold pitching_update, update_pitching, Totals.int_field,
    Totals.float_field.
  convert_eqn; try discriminate.
  intros [= <-]. simpl. repeat split; reflexivity.
Qed.

Lemma pitching_fold_adds fl : forall v v',
  for_each pitching_update fl v = Ok v' ->
  PitchingStats.wins v'
  = PitchingStats.wins v
    + Totals.sum (fun l => Totals.int_field (PitchingLine.wins (snd l))) fl
  /\ PitchingStats.losses v'
     = PitchingStats.losses v
       + Totals.sum (fun l => Totals.int_field (PitchingLine.losses (snd l))) fl
  /\ PitchingStats.saves v'
     = PitchingStats.saves v
       + Totals.sum (fun l => Totals.int_field (PitchingLine.saves (snd l))) fl
  /\ PitchingStats.hits_allowed v'
     = PitchingStats.hits_allowed v
       + Totals.sum
           (fun l => Totals.int_field (PitchingLine.hits_allowed (snd l))) fl
  /\ PitchingStats.runs_allowed v'
     = PitchingStats.runs_allowed v
       + Totals.sum
           (fun l => Totals.int_field (PitchingLine.runs_allowed (snd l))) fl
  /\ PitchingStats.earned_runs v'
     = PitchingStats.earned_runs v
       + Totals.sum
           (fun l => Totals.int_field (PitchingLine.earned_runs (snd l))) fl
  /\ PitchingStats.walks_allowed v'
     = PitchingStats.walks_allowed v
       + Totals.sum
           (fun l => Totals.int_field (PitchingLine.walks_allowed (snd l))) fl
  /\ PitchingStats.strikeouts v'
     = PitchingStats.strikeouts v
       + Totals.sum
           (fun l => Totals.int_field (PitchingLine.strikeouts (snd l))) fl
  /\ PitchingStats.home_runs_allowed v'
     = PitchingStats.home_runs_allowed v
       + Totals.sum
           (fun l => Totals.int_field (PitchingLine.home_runs_allowed (snd l)))
           fl
  /\ PitchingStats.innings_pitched v'
     = fold_left
         (fun acc l =>
            fadd acc (Totals.float_field (PitchingLine.innings_pitched (snd l))))
         fl (PitchingStats.innings_pitched v).
Proof.
  induction fl as [|l fl IH]; intros v v' H.
  - injection H as <-. unfold Totals.sum. simpl. repeat split; lia.
  - simpl in H. destruct (pitching_update l v) as [v1|] eqn:E;
      simpl in H; [|discriminate].
    apply pitching_update_adds in E. apply IH in H.
    unfold Totals.sum in *. simpl.
    destruct E as (E1 & E2 & E3 & E4 & E5 & E6 & E7 & E8 & E9 & E10).
    destruct H as (H1 & H2 & H3 & H4 & H5 & H6 & H7 & H8 & H9 & H10).
    rewrite <- E10. repeat split; try lia. exact H10.
Qed.

Lemma batting_fold_clean fl : forall v v',
  for_each batting_update fl v = Ok v' ->
  Forall (fun l => ~ Lines.corrupt_batting_line (snd l)) fl.
Proof.
  induction fl as [|l fl IH]; intros v v' H; [constructor|].
  simpl in H. destruct (batting_update l v) as [v1|] eqn:E;
    simpl in H; [|discriminate].
  constructor; [|eapply IH; exact H].
  intros Hc. destruct (update_batting_corrupt (fst l) (snd l) v Hc) as [e He].
  unfold batting_update in E. congruence.
Qed.

Lemma pitching_fold_clean fl : forall v v',
  for_each pitching_update fl v = Ok v' ->
  Forall (fun l => ~ Lines.corrupt_pitching_line (snd l)) fl.
Proof.
  induction fl as [|l fl IH]; intros v v' H; [constructor|].
  simpl in H. destruct (pitching_update l v) as [v1|] eqn:E;
    simpl in H; [|discriminate].
  constructor; [|eapply IH; exact H].
  intros Hc. destruct (update_pitching_corrupt (fst l) (snd l) v Hc) as [e He].
  unfold pitching_update in E. congruence.
Qed.

(** X1.  Every counting field of a returned batting record is the sum,
    over the batting lines of its key in all games, of the values of
    that field through [int()] (0 for a line without it); none of these
    lines holds a value [int()] rejects, since the call returned. *)
Theorem batting_totals_are_sums games bl pl k r :
  calculate_aggregate_stats games = Ok (bl, pl) ->
  Lines.record_for (Lines.batting_keys games) bl k = Some r ->
  let over field :=
    Totals.sum (fun l => Totals.int_field (field (snd l)))
               (Lines.batting_of k games) in
  BattingStats.at_bats r = over BattingLine.at_bats
  /\ BattingStats.hits r = over BattingLine.hits
  /\ BattingStats.runs r = over BattingLine.runs
  /\ BattingStats.rbis r = over BattingLine.rbis
  /\ BattingStats.doubles r = over BattingLine.doubles
  /\ BattingStats.triples r = over BattingLine.triples
  /\ BattingStats.home_runs r = over BattingLine.home_runs
  /\ BattingStats.walks r = over BattingLine.walks
  /\ BattingStats.strikeouts r = over BattingLine.strikeouts
  /\ Forall (fun l => ~ Lines.corrupt_batting_line (snd l))
            (Lines.batting_of k games).
Proof.
  intros H Er.
  apply calculate_inv in H as (bs & ps & Eb & _ & Ebl & _ & Kb & _).
  rewrite <- Kb in Er.
  destruct (map_result_record _ _ _ _ _ Ebl Er) as (st & Hst & Hr).
  apply batting_averages_inv in Hr as (_ & _ & Hc & _).
  pose proof (fold_per_key _ _ _ _ _ _ k Eb) as Hk.
  rewrite (lookup_getitem _ _ _ _ Hst) in Hk.
  change (filter _ (Lines.batting games)) with (Lines.batting_of k games) in Hk.
  pose proof (batting_fold_clean _ _ _ Hk) as Hclean.
  apply batting_fold_adds in Hk.
  unfold Lines.same_batting_counts in Hc. cbv zeta.
  simpl in Hk. intuition congruence.
Qed.

Lemma batting_totals_are_sums_witness :
  BattingStats.at_bats
    (hd BattingStats.default
        (Sample.batting_list [Sample.game1; Sample.game2]))
  = Totals.sum (fun l => Totals.int_field (BattingLine.at_bats (snd l)))
               (Lines.batting_of "123" [Sample.game1; Sample.game2]).
Proof.
  exact (proj1 (batting_totals_are_sums
                  [Sample.game1; Sample.game2]
                  (Sample.batting_list [Sample.game1; Sample.game2])
                  (Sample.pitching_list [Sample.game1; Sample.game2])
                  "123"%string
                  (hd BattingStats.default
                      (Sample.batting_list [Sample.game1; Sample.game2]))
                  eq_refl eq_refl)).
Defined.

(** X2.  A returned pitching record counts the pitching lines of its
    key in [games]; each of its integer counting fields is the sum of
    that field over those lines; [innings_pitched] is the running
    float total of their innings, started at [0.0] and added in the
    order the lines are processed; and none of these lines holds a
    value that [int()] or [float()] rejects. *)
Theorem pitching_totals_are_sums games bl pl k r :
  calculate_aggregate_stats games = Ok (bl, pl) ->
  Lines.record_for (Lines.pitching_keys games) pl k = Some r ->
  let over field :=
    Totals.sum (fun l => Totals.int_field (field (snd l)))
               (Lines.pitching_of k games) in
  PitchingStats.games r = Z.of_nat (List.length (Lines.pitching_of k games))
  /\ PitchingStats.wins r = over PitchingLine.wins
  /\ PitchingStats.losses r = over PitchingLine.losses
  /\ PitchingStats.saves r = over PitchingLine.saves
  /\ PitchingStats.hits_allowed r = over PitchingLine.hits_allowed
  /\ PitchingStats.runs_allowed r = over PitchingLine.runs_allowed
  /\ PitchingStats.earned_runs r = over PitchingLine.earned_runs
  /\ PitchingStats.walks_allowed r = over PitchingLine.walks_allowed
  /\ PitchingStats.strikeouts r = over PitchingLine.strikeouts
  /\ PitchingStats.home_runs_allowed r = over PitchingLine.home_runs_allowed
  /\ PitchingStats.innings_pitched r
     = Totals.float_sum
         (fun l => Totals.float_field (PitchingLine.innings_pitched (snd l)))
         (Lines.pitching_of k games)
  /\ Forall (fun l => ~ Lines.corrupt_pitching_line (snd l))
            (Lines.pitching_of k games).
Proof.
  intros H Er.
  apply calculate_inv in H as (bs & ps & _ & Ep & _ & Epl & _ & Kp).
  rewrite <- Kp in Er.
  destruct (map_result_record _ _ _ _ _ Epl Er) as (st & Hst & Hr).
  apply pitching_averages_inv in Hr as (_ & _ & Hc & Hi & _).
  pose proof (fold_per_key _ _ _ _ _ _ k Ep) as Hk.
  rewrite (lookup_getitem _ _ _ _ Hst) in Hk.
  change (filter _ (Lines.pitching games)) with (Lines.pitching_of k games) in Hk.
  pose proof (pitching_fold_games _ _ _ Hk) as (Hg & _).
  pose proof (pitching_fold_clean _ _ _ Hk) as Hclean.
  apply pitching_fold_adds in Hk.
  unfold Lines.same_pitching_counts in Hc. unfold Totals.float_sum.
  cbv zeta. simpl in Hk, Hg. rewrite Hi. intuition congruence.
Qed.

Lemma pitching_totals_are_sums_witness :
  PitchingStats.innings_pitched
    (hd PitchingStats.default
        (Sample.pitching_list
           [Sample.outing1; Sample.outing2; Sample.outing3]))
  = Totals.float_sum
      (fun l => Totals.float_field (PitchingLine.innings_pitched (snd l)))
      (Lines.pitching_of
         "9" [Sample.outing1; Sample.outing2; Sample.outing3]).
Proof.
  destruct (pitching_totals_are_sums
              [Sample.outing1; Sample.outing2; Sample.outing3]
              (Sample.batting_list
                 [Sample.outing1; Sample.outing2; Sample.outing3])
              (Sample.pitching_list
                 [Sample.outing1; Sample.outing2; Sample.outing3])
              "9"%string
              (hd PitchingStats.default
                  (Sample.pitching_list
                     [Sample.outing1; Sample.outing2; Sample.outing3]))
              eq_refl eq_refl)
    as (_ & _ & _ & _ & _ & _ & _ & _ & _ & _ & H & _).
  exact H.
Defined.
End TotalFacts.

(* ================================================================= *)
(** * Order of the returned records *)

Section RecordOrder.
Import Py StatsCalculator Accumulate.

Lemma first_seen_prefix ks : forall seen,
  exists rest, Lines.first_seen seen ks = seen ++ rest.
Proof.
  induction ks as [|k ks IH]; simpl; intros seen.
  - exists []. now rewrite app_nil_r.
  - destruct (existsb (String.eqb k) seen); [apply IH|].
    destruct (IH (seen ++ [k])) as [rest E]. exists (k :: rest).
    rewrite E, <- app_assoc. reflexivity.
Qed.

Lemma first_seen_app a : forall seen b,
  Lines.first_seen seen (a ++ b)
  = Lines.first_seen (Lines.first_seen seen a) b.
Proof. induction a as [|k a IH]; simpl; intros; auto. Qed.

Lemma existsb_eqb_In k l : existsb (String.eqb k) l = true <-> In k l.
Proof.
  rewrite existsb_exists. split.
  - intros (x & Hx & E). apply String.eqb_eq in E. now subst x.
  - intros H. exists k. split; [exact H|apply String.eqb_refl].
Qed.

Lemma first_seen_In ks : forall seen k,
  In k (Lines.first_seen seen ks) <-> In k seen \/ In k ks.
Proof.
  induction ks as [|a ks IH]; simpl; intros seen k; [tauto|].
  rewrite IH. destruct (existsb (String.eqb a) seen) eqn:E.
  - apply existsb_eqb_In in E. intuition (subst; auto).
  - rewrite in_app_iff. simpl. tauto.
Qed.

Lemma first_seen_NoDup ks : forall seen,
  NoDup seen -> NoDup (Lines.first_seen seen ks).
Proof.
  induction ks as [|a ks IH]; simpl; intros seen H; auto.
  apply IH. destruct (existsb (String.eqb a) seen) eqn:E; auto.
  apply NoDup_app; auto.
  - constructor; [intros []|constructor].
  - intros x Hx [E'|[]]. subst x.
    apply existsb_eqb_In in Hx. congruence.
Qed.

(** The position of a key: the number of distinct keys met before its
    first appearance. *)
Lemma first_seen_position before k after :
  ~ In k before ->
  nth_error (Lines.first_seen [] (before ++ k :: after))
            (List.length (Lines.first_seen [] before))
  = Some k.
Proof.
  intros Hk. rewrite first_seen_app. simpl.
  assert (E : existsb (String.eqb k) (Lines.first_seen [] before) = false).
  { destruct (existsb _ _) eqn:E; auto.
    apply existsb_eqb_In, first_seen_In in E. destruct E as [[]|E].
    contradiction. }
  rewrite E.
  destruct (first_seen_prefix after (Lines.first_seen [] before ++ [k]))
    as [rest ->].
  rewrite <- app_assoc. rewrite nth_error_app2 by lia.
  now rewrite Nat.sub_diag.
Qed.

Lemma record_at_position {R : Type} (keys : list string) :
  forall (records : list R) i k,
    NoDup keys ->
    List.length records = List.length keys ->
    nth_error keys i = Some k ->
    Lines.record_for keys records k = nth_error records i
    /\ nth_error records i <> None.
Proof.
  unfold Lines.record_for.
  induction keys as [|k0 keys IH]; intros records i k Hn Hl Hi.
  - destruct i; discriminate.
  - destruct records as [|r records]; [discriminate|].
    inversion Hn as [|? ? Hnot Hn']; subst.
    destruct i as [|i]; simpl in *.
    + injection Hi as ->. rewrite String.eqb_refl. split; [auto|discriminate].
    + destruct (String.eqb k k0) eqn:E.
      * apply String.eqb_eq in E. subst k0. exfalso. apply Hnot.
        eapply nth_error_In; eauto.
      * apply IH; auto.
Qed.

Lemma In_map_key {L : Type} (key : L -> string) k ls :
  In k (map key ls) <-> filter (fun l => String.eqb (key l) k) ls <> [].
Proof.
  induction ls as [|l ls IH]; simpl; [tauto|].
  destruct (String.eqb (key l) k) eqn:E.
  - apply String.eqb_eq in E. split; [discriminate|auto].
  - apply String.eqb_neq in E. rewrite <- IH. tauto.
Qed.

Lemma batting_record_of_key games bs st r k :
  for_each batting_step (Lines.batting games) [] = Ok bs ->
  Dict.lookup k bs = Some st ->
  batting_averages st = Ok r ->
  Totals.batting_record_of (Lines.batting_of k games) r.
Proof.
  intros Eb Hst Hr.
  apply batting_averages_inv in Hr as (Hn & Ht & Hc & _).
  pose proof (fold_per_key _ _ _ _ _ _ k Eb) as Hk.
  rewrite (lookup_getitem _ _ _ _ Hst) in Hk.
  change (filter _ (Lines.batting games)) with (Lines.batting_of k games) in Hk.
  unfold Totals.batting_record_of. cbv zeta.
  pose proof (batting_fold_games _ _ _ Hk) as (Hg & _).
  split; [destruct Hc as (Cg & _); rewrite Cg, Hg; reflexivity|].
  split.
  - destruct (exists_last (l := Lines.batting_of k games))
      as (earlier & last & E).
    { intros Hnil.
      assert (Dict.lookup k bs = None); [|congruence].
      apply (fold_lookup_None _ _ _ _ _ _ k Eb). auto. }
    exists earlier, last. split; [exact E|].
    rewrite E in Hk. apply batting_fold_last in Hk. rewrite Hn, Ht. exact Hk.
  - apply batting_fold_adds in Hk.
    unfold Lines.same_batting_counts in Hc. simpl in Hk.
    intuition congruence.
Qed.

Lemma pitching_record_of_key games ps st r k :
  for_each pitching_step (Lines.pitching games) [] = Ok ps ->
  Dict.lookup k ps = Some st ->
  pitching_averages st = Ok r ->
  Totals.pitching_record_of (Lines.pitching_of k games) r.
Proof.
  intros Ep Hst Hr.
  apply pitching_averages_inv in Hr as (Hn & Ht & Hc & Hi & _).
  pose proof (fold_per_key _ _ _ _ _ _ k Ep) as Hk.
  rewrite (lookup_getitem _ _ _ _ Hst) in Hk.
  change (filter _ (Lines.pitching games))
    with (Lines.pitching_of k games) in Hk.
  unfold Totals.pitching_record_of. cbv zeta.
  pose proof (pitching_fold_games _ _ _ Hk) as (Hg & _).
  split; [destruct Hc as (Cg & _); rewrite Cg, Hg; reflexivity|].
  split.
  - destruct (exists_last (l := Lines.pitching_of k games))
      as (earlier & last & E).
    { intros Hnil.
      assert (Dict.lookup k ps = None); [|congruence].
      apply (fold_lookup_None _ _ _ _ _ _ k Ep). auto. }
    exists earlier, last. split; [exact E|].
    rewrite E in Hk. apply pitching_fold_last in Hk. rewrite Hn, Ht.
    exact Hk.
  - apply pitching_fold_adds in Hk.
    unfold Lines.same_pitching_counts in Hc. unfold Totals.float_sum.
    simpl in Hk. rewrite Hi. intuition congruence.
Qed.

(** X3.  The batting list holds one record per distinct accumulation
    key, in the order in which the keys first appear in the lines: the
    record at the index equal to the number of distinct keys met before
    the first line of a key is the record of that key, that is, it
    counts the lines of that key, has the name and the team of the last
    of them and holds the sum of each of their counting fields.  The
    same holds of the pitching list. *)
Theorem records_in_order_of_first_appearance games bl pl :
  calculate_aggregate_stats games = Ok (bl, pl) ->
  (List.length bl = List.length (Lines.batting_keys games)
   /\ NoDup (Lines.batting_keys games)
   /\ (forall k, In k (Lines.batting_keys games)
                 <-> Lines.batting_of k games <> [])
   /\ (forall before l after,
          Lines.batting games = before ++ l :: after ->
          ~ In (Lines.bkey l) (map Lines.bkey before) ->
          exists r,
            nth_error bl
                      (List.length
                         (Lines.first_seen [] (map Lines.bkey before)))
            = Some r
            /\ Totals.batting_record_of
                 (Lines.batting_of (Lines.bkey l) games) r))
  /\ (List.length pl = List.length (Lines.pitching_keys games)
      /\ NoDup (Lines.pitching_keys games)
      /\ (forall k, In k (Lines.pitching_keys games)
                    <-> Lines.pitching_of k games <> [])
      /\ (forall before l after,
             Lines.pitching games = before ++ l :: after ->
             ~ In (Lines.pkey l) (map Lines.pkey before) ->
             exists r,
               nth_error pl
                         (List.length
                            (Lines.first_seen [] (map Lines.pkey before)))
               = Some r
               /\ Totals.pitching_record_of
                    (Lines.pitching_of (Lines.pkey l) games) r)).
Proof.
  intros H.
  apply calculate_inv in H as (bs & ps & Eb & Ep & Ebl & Epl & Kb & Kp).
  pose proof (map_result_length _ _ _ Ebl) as Lb.
  pose proof (map_result_length _ _ _ Epl) as Lp.
  assert (Lb' : List.length bl = List.length (Lines.batting_keys games)).
  { rewrite <- Kb. unfold Dict.keys. now rewrite length_map. }
  assert (Lp' : List.length pl = List.length (Lines.pitching_keys games)).
  { rewrite <- Kp. unfold Dict.keys. now rewrite length_map. }
  assert (Nb : NoDup (Lines.batting_keys games))
    by (apply first_seen_NoDup; constructor).
  assert (Np : NoDup (Lines.pitching_keys games))
    by (apply first_seen_NoDup; constructor).
  split.
  - split; [exact Lb'|]. split; [exact Nb|]. split.
    + intros k. unfold Lines.batting_keys, Lines.batting_of.
      rewrite first_seen_In, <- In_map_key. simpl. tauto.
    + intros before l after Hsplit Hnew.
      assert (Hi : nth_error (Lines.batting_keys games)
                             (List.length
                                (Lines.first_seen [] (map Lines.bkey before)))
                   = Some (Lines.bkey l)).
      { unfold Lines.batting_keys. rewrite Hsplit, map_app. simpl.
        now apply first_seen_position. }
      destruct (record_at_position _ _ _ _ Nb Lb' Hi) as [E1 E2].
      destruct (nth_error bl _) as [r|] eqn:Er; [|contradiction].
      exists r. split; [reflexivity|].
      rewrite <- Kb in E1.
      destruct (map_result_record _ _ _ _ _ Ebl E1) as (st & Hst & Hr).
      exact (batting_record_of_key _ _ _ _ _ Eb Hst Hr).
  - split; [exact Lp'|]. split; [exact Np|]. split.
    + intros k. unfold Lines.pitching_keys, Lines.pitching_of.
      rewrite first_seen_In, <- In_map_key. simpl. tauto.
    + intros before l after Hsplit Hnew.
      assert (Hi : nth_error (Lines.pitching_keys games)
                             (List.length
                                (Lines.first_seen [] (map Lines.pkey before)))
                   = Some (Lines.pkey l)).
      { unfold Lines.pitching_keys. rewrite Hsplit, map_app. simpl.
        now apply first_seen_position. }
      destruct (record_at_position _ _ _ _ Np Lp' Hi) as [E1 E2].
      destruct (nth_error pl _) as [r|] eqn:Er; [|contradiction].
      exists r. split; [reflexivity|].
      rewrite <- Kp in E1.
      destruct (map_result_record _ _ _ _ _ Epl E1) as (st & Hst & Hr).
      exact (pitching_record_of_key _ _ _ _ _ Ep Hst Hr).
Qed.

Lemma records_in_order_of_first_appearance_witness :
  exists r,
    nth_error (Sample.batting_list [Sample.game1; Sample.game2]) 1 = Some r
    /\ Totals.batting_record_of
         (Lines.batting_of "77" [Sample.game1; Sample.game2]) r.
Proof.
  destruct (records_in_order_of_first_appearance
              [Sample.game1; Sample.game2]
              (Sample.batting_list [Sample.game1; Sample.game2])
              (Sample.pitching_list [Sample.game1; Sample.game2])
              eq_refl)
    as ((_ & _ & _ & Hpos) & _).
  apply (Hpos [("Reds"%string, Sample.slugger)]
              ("Reds"%string, Sample.walker)
              [("Reds"%string, Sample.slugger_renamed)] eq_refl).
  intros [H|[]]. discriminate H.
Defined.

(** The second record of the two sample games is the pinch hitter's,
    whose first line comes after the first line of player "123". *)
Example walker_is_second_on_samples :
  exists r,
    nth_error (Sample.batting_list [Sample.game1; Sample.game2]) 1 = Some r
    /\ BattingStats.player_name r = "Wes Walker"%string
    /\ BattingStats.walks r = 1.
Proof. eexists. split; [reflexivity|]. split; reflexivity. Qed.
End RecordOrder.

(* ================================================================= *)
(** * Derived statistics and exceptions *)

Section RatesAndExceptions.
Import Py StatsCalculator Accumulate.

(** The pitching rates of a record whose innings are positive. *)
Lemma pitching_averages_positive st r :
  pitching_averages st = Ok r ->
  float_gt_0 (PitchingStats.innings_pitched st) = true ->
  (exists q,
      int_float_truediv (PitchingStats.earned_runs st * 9)
                        (PitchingStats.innings_pitched st) = Ok q
      /\ round q 2 = Ok (PitchingStats.era r))
  /\ (exists q,
         int_float_truediv
           (PitchingStats.hits_allowed st + PitchingStats.walks_allowed st)
           (PitchingStats.innings_pitched st) = Ok q
         /\ round q 2 = Ok (PitchingStats.whip r)).
Proof.
  unfold pitching_averages. intros H Hpos. rewrite Hpos in H.
  repeat match type of H with
         | context [int_float_truediv ?a ?b] =>
             let E := fresh "E" in
             destruct (int_float_truediv a b) eqn:E; cbn [bind] in H;
             try discriminate
         | context [round ?q ?n] =>
             let E := fresh "E" in
             destruct (round q n) eqn:E; cbn [bind] in H;
             try discriminate
         end.
  injection H as <-. simpl. split; eauto.
Qed.

(** X4.  In a returned batting record with a positive [at_bats],
    [batting_average] is [hits / at_bats] rounded to 3 decimals; in a
    returned pitching record with positive [innings_pitched], [era] is
    [earned_runs * 9 / innings_pitched] and [whip] is
    [(hits_allowed + walks_allowed) / innings_pitched], each rounded to
    2 decimals, all computed from the totals the record itself holds. *)
Theorem rates_are_rounded_quotients_of_totals games bl pl :
  calculate_aggregate_stats games = Ok (bl, pl) ->
  (forall r, In r bl -> BattingStats.at_bats r > 0 ->
     exists q,
       int_truediv (BattingStats.hits r) (BattingStats.at_bats r) = Ok q
       /\ round q 3 = Ok (BattingStats.batting_average r))
  /\ (forall p, In p pl ->
        float_gt_0 (PitchingStats.innings_pitched p) = true ->
        (exists q,
            int_float_truediv (PitchingStats.earned_runs p * 9)
                              (PitchingStats.innings_pitched p) = Ok q
            /\ round q 2 = Ok (PitchingStats.era p))
        /\ (exists q,
               int_float_truediv
                 (PitchingStats.hits_allowed p
                  + PitchingStats.walks_allowed p)
                 (PitchingStats.innings_pitched p) = Ok q
               /\ round q 2 = Ok (PitchingStats.whip p))).
Proof.
  intros H. split.
  - intros r Hr Hpos.
    destruct (batting_list_origin _ _ _ _ H Hr) as (st & Hst & Hz).
    pose proof (batting_averages_inv _ _ Hst) as (_ & _ & Hc & _).
    destruct Hc as (_ & Hab & Hh & _).
    pose proof (batting_averages_rates _ _ Hst Hz) as (Hba & _).
    cbv zeta in Hba. rewrite <- Hab, <- Hh in Hba.
    assert (E : (BattingStats.at_bats r >? 0) = true)
      by (apply Z.gtb_lt; lia).
    rewrite E in Hba. exact Hba.
  - intros p Hp Hpos.
    destruct (pitching_list_origin _ _ _ _ H Hp) as (st & Hst & _).
    pose proof (pitching_averages_inv _ _ Hst) as (_ & _ & Hc & Hi & _).
    destruct Hc as (_ & _ & _ & _ & Hha & _ & Her & Hwa & _).
    rewrite Hi in Hpos.
    pose proof (pitching_averages_positive _ _ Hst Hpos) as Hq.
    rewrite Hi, Hha, Her, Hwa. exact Hq.
Qed.

Lemma rates_are_rounded_quotients_of_totals_witness :
  exists q,
    int_float_truediv
      (PitchingStats.earned_runs
         (hd PitchingStats.default (Sample.pitching_list [Sample.outing1]))
       * 9)
      (PitchingStats.innings_pitched
         (hd PitchingStats.default (Sample.pitching_list [Sample.outing1])))
    = Ok q
    /\ round q 2
       = Ok (PitchingStats.era
               (hd PitchingStats.default
                   (Sample.pitching_list [Sample.outing1]))).
Proof.
  apply (proj2 (rates_are_rounded_quotients_of_totals
                  [Sample.outing1] (Sample.batting_list [Sample.outing1])
                  (Sample.pitching_list [Sample.outing1]) eq_refl)
               (hd PitchingStats.default
                   (Sample.pitching_list [Sample.outing1]))).
  - vm_compute. left. reflexivity.
  - vm_compute. reflexivity.
Defined.

(** ** What the calls can raise *)

Lemma for_each_Raise {A S : Type} (body : A -> S -> result S) l e :
  forall s, for_each body l s = Raise e ->
            exists x s0, In x l /\ body x s0 = Raise e.
Proof.
  induction l as [|x l IH]; simpl; intros s H; [discriminate|].
  destruct (body x s) as [s1|e1] eqn:E; simpl in H.
  - destruct (IH _ H) as (y & s0 & Hy & Hb). exists y, s0. auto.
  - injection H as <-. exists x, s. auto.
Qed.

Lemma map_result_Raise {A B : Type} (f : A -> result B) l e :
  map_result f l = Raise e -> exists x, In x l /\ f x = Raise e.
Proof.
  induction l as [|x l IH]; simpl; intros H; [discriminate|].
  destruct (f x) as [y|e1] eqn:E; simpl in H.
  - destruct (map_result f l); simpl in H; [discriminate|].
    injection H as <-. destruct (IH eq_refl) as (y' & Hy & Hf). eauto.
  - injection H as <-. eauto.
Qed.

Lemma int_raises v e :
  int v = Raise e -> e = ValueError \/ e = TypeError \/ e = OverflowError.
Proof.
  destruct v as [|b|z|f|s|]; simpl; intros H; try discriminate.
  - injection H as <-. auto.
  - destruct f; simpl in H; try discriminate; injection H as <-; auto.
  - apply int_of_string_raises in H. auto.
  - injection H as <-. auto.
Qed.

Lemma to_float_raises v e :
  to_float v = Raise e ->
  e = ValueError \/ e = TypeError \/ e = OverflowError.
Proof.
  destruct v as [|b|z|f|s|]; simpl; intros H; try discriminate.
  - injection H as <-. auto.
  - unfold float_of_int in H.
    destruct (is_inf _); [injection H as <-; auto|discriminate].
  - apply float_of_string_raises in H. auto.
  - injection H as <-. auto.
Qed.

Lemma round_raises x n e : round x n = Raise e -> e = OverflowError.
Proof.
  unfold round. destruct x; try discriminate.
  destruct (if 0 <=? e0 then _ else _); try discriminate.
  - destruct (is_inf _); [now intros [= <-]|discriminate].
  - destruct (is_inf _); [now intros [= <-]|discriminate].
Qed.

Lemma int_truediv_raises a b e :
  b <> 0 -> int_truediv a b = Raise e -> e = OverflowError.
Proof.
  unfold int_truediv. intros Hb. apply Z.eqb_neq in Hb. rewrite Hb.
  destruct (is_inf _); [now intros [= <-]|discriminate].
Qed.

Lemma float_gt_0_not_zero x : float_gt_0 x = true -> is_zero x = false.
Proof.
  destruct (is_zero x) eqn:E; auto.
  apply float_gt_0_zero in E. congruence.
Qed.

Lemma int_float_truediv_raises a x e :
  float_gt_0 x = true -> int_float_truediv a x = Raise e ->
  e = OverflowError.
Proof.
  unfold int_float_truediv, float_of_int. intros Hx.
  rewrite (float_gt_0_not_zero _ Hx).
  destruct (is_inf _); [now intros [= <-]|discriminate].
Qed.

Lemma update_batting_raises team player st e :
  update_batting team player st = Raise e ->
  Lines.corrupt_batting_line player
  /\ (e = ValueError \/ e = TypeError \/ e = OverflowError).
Proof.
  unfold update_batting, Lines.corrupt_batting_line, Lines.rejected_int.
  intros H.
  repeat match type of H with
         | context [int (get ?f ?d)] =>
             let E := fresh "E" in
             destruct (int (get f d)) eqn:E; cbn [bind] in H;
             [|injection H as <-; split;
               [|eapply int_raises; eassumption];
               destruct f as [v|]; simpl in E; [|discriminate];
               rewrite Exists_exists; eexists; split;
               [|exists v; split; [reflexivity|eexists; eassumption]];
               simpl; tauto]
         end.
  discriminate.
Qed.

Lemma update_pitching_raises team player st e :
  update_pitching team player st = Raise e ->
  Lines.corrupt_pitching_line player
  /\ (e = ValueError \/ e = TypeError \/ e = OverflowError).
Proof.
  unfold update_pitching, Lines.corrupt_pitching_line, Lines.rejected_int,
    Lines.rejected_float.
  intros H.
  repeat match type of H with
         | context [int (get ?f ?d)] =>
             let E := fresh "E" in
             destruct (int (get f d)) eqn:E; cbn [bind] in H;
             [|injection H as <-; split;
               [|eapply int_raises; eassumption];
               destruct f as [v|]; simpl in E; [|discriminate];
               right; rewrite Exists_exists; eexists; split;
               [|exists v; split; [reflexivity|eexists; eassumption]];
               simpl; tauto]
         | context [to_float (get ?f ?d)] =>
             let E := fresh "E" in
             destruct (to_float (get f d)) eqn:E; cbn [bind] in H;
             [|injection H as <-; split;
               [|eapply to_float_raises; eassumption];
               destruct f as [v|]; simpl in E; [|discriminate];
               left; exists v; split; [reflexivity|eexists; eassumption]]
         end.
  discriminate.
Qed.

Lemma batting_averages_raises st e :
  batting_averages st = Raise e -> e = OverflowError.
Proof.
  unfold batting_averages. intros H.
  destruct (BattingStats.at_bats st >? 0) eqn:Eab;
    destruct (BattingStats.at_bats st + BattingStats.walks st >? 0) eqn:Epa;
    cbn [bind] in H;
    repeat match type of H with
           | context [int_truediv ?a ?b] =>
               let E := fresh "E" in
               destruct (int_truediv a b) eqn:E; cbn [bind] in H;
               [|injection H as <-;
                 apply int_truediv_raises in E; [exact E|];
                 try (apply Z.gtb_lt in Eab); try (apply Z.gtb_lt in Epa); lia]
           | context [round ?q ?n] =>
               let E := fresh "E" in
               destruct (round q n) eqn:E; cbn [bind] in H;
               [|injection H as <-; eapply round_raises; eassumption]
           end;
    discriminate.
Qed.

Lemma pitching_averages_raises st e :
  pitching_averages st = Raise e -> e = OverflowError.
Proof.
  unfold pitching_averages. intros H.
  destruct (float_gt_0 (PitchingStats.innings_pitched st)) eqn:Eip;
    cbn [bind] in H;
    repeat match type of H with
           | context [int_float_truediv ?a ?b] =>
               let E := fresh "E" in
               destruct (int_float_truediv a b) eqn:E; cbn [bind] in H;
               [|injection H as <-;
                 eapply int_float_truediv_raises; eassumption]
           | context [round ?q ?n] =>
               let E := fresh "E" in
               destruct (round q n) eqn:E; cbn [bind] in H;
               [|injection H as <-; eapply round_raises; eassumption]
           end;
    discriminate.
Qed.

Lemma step_Raise {L V : Type} (default : V) key
      (update : L -> V -> result V) l d e :
  step default key update l d = Raise e ->
  update l (Dict.getitem default (key l) d) = Raise e.
Proof.
  unfold step.
  destruct (update l (Dict.getitem default (key l) d)); simpl; intros H;
    [discriminate|now injection H as <-].
Qed.

(** An exception of the call comes from a line of the games or from the
    derived statistics. *)
Lemma calculate_Raise games e :
  calculate_aggregate_stats games = Raise e ->
  (exists l st, In l (Lines.batting games) /\ batting_update l st = Raise e)
  \/ (exists l st,
         In l (Lines.pitching games) /\ pitching_update l st = Raise e)
  \/ (exists st, batting_averages st = Raise e)
  \/ (exists st, pitching_averages st = Raise e).
Proof.
  unfold calculate_aggregate_stats, process_games. intros H.
  destruct (for_each process_game games ([], [])) as [[bs ps]|e0] eqn:E;
    cbn [bind fst snd] in H.
  - destruct (_calculate_batting_averages bs) as [bl|e1] eqn:Eb;
      cbn [bind] in H.
    + destruct (_calculate_pitching_averages ps) as [pl|e2] eqn:Ep;
        cbn [bind] in H; [discriminate H|].
      injection H as <-. apply map_result_Raise in Ep as (x & _ & Hx).
      right. right. right. eauto.
    + injection H as <-. apply map_result_Raise in Eb as (x & _ & Hx).
      right. right. left. eauto.
  - injection H as <-.
    apply for_each_Raise in E as (game & [b p] & Hg & Hs).
    unfold process_game in Hs. cbn [fst snd] in Hs.
    destruct (_process_game_batting_stats game b) as [b'|e1] eqn:Eb;
      cbn [bind] in Hs.
    + destruct (_process_game_pitching_stats game p) as [p'|e2] eqn:Ep;
        cbn [bind] in Hs; [discriminate Hs|].
      injection Hs as <-. rewrite process_pitching in Ep.
      apply for_each_Raise in Ep as (l & d & Hl & Hd).
      apply step_Raise in Hd. right. left. exists l. eexists. split; eauto.
      unfold Lines.pitching. apply in_flat_map. eauto.
    + injection Hs as <-. rewrite process_batting in Eb.
      apply for_each_Raise in Eb as (l & d & Hl & Hd).
      apply step_Raise in Hd. left. exists l. eexists. split; eauto.
      unfold Lines.batting. apply in_flat_map. eauto.
Qed.

(** X5.  [calculate_aggregate_stats] and [get_team_summary] never raise
    [ZeroDivisionError]: every division is guarded by a test that its
    denominator is positive. *)
Theorem aggregation_never_divides_by_zero games :
  calculate_aggregate_stats games <> Raise ZeroDivisionError
  /\ get_team_summary games <> Raise ZeroDivisionError.
Proof.
  split; intros H.
  - apply calculate_Raise in H
      as [(l & st & _ & H)|[(l & st & _ & H)|[(st & H)|(st & H)]]].
    + apply update_batting_raises in H as (_ & [H|[H|H]]); discriminate.
    + apply update_pitching_raises in H as (_ & [H|[H|H]]); discriminate.
    + apply batting_averages_raises in H. discriminate.
    + apply pitching_averages_raises in H. discriminate.
  - unfold get_team_summary in H.
    apply for_each_Raise in H as (game & d & _ & H).
    unfold summarize_game in H.
    destruct (int (get (Game.home_score game) (PInt 0))) eqn:Eh;
      cbn [bind] in H.
    + destruct (int (get (Game.away_score game) (PInt 0))) eqn:Ea;
        cbn [bind] in H.
      * destruct (a >? a0); [discriminate|].
        destruct (a0 >? a); discriminate.
      * injection H as ->. apply int_raises in Ea as [H|[H|H]]; discriminate.
    + injection H as ->. apply int_raises in Eh as [H|[H|H]]; discriminate.
Qed.

(** X6.  When no batting or pitching line of the games holds a value
    that [int()] or [float()] rejects, the loop over the games runs to
    its end, and the call can only raise [OverflowError], out of the
    derived statistics. *)
Theorem clean_lines_accumulate games :
  (forall l, In l (Lines.batting games) ->
             ~ Lines.corrupt_batting_line (snd l)) ->
  (forall l, In l (Lines.pitching games) ->
             ~ Lines.corrupt_pitching_line (snd l)) ->
  (exists acc, process_games games = Ok acc)
  /\ (forall e, calculate_aggregate_stats games = Raise e ->
                e = OverflowError).
Proof.
  intros Hb Hp.
  assert (Hcalc : forall e, calculate_aggregate_stats games = Raise e ->
                            e = OverflowError).
  { intros e H. apply calculate_Raise in H
      as [(l & st & Hl & H)|[(l & st & Hl & H)|[(st & H)|(st & H)]]].
    - apply update_batting_raises in H as (Hc & _).
      exfalso. exact (Hb l Hl Hc).
    - apply update_pitching_raises in H as (Hc & _).
      exfalso. exact (Hp l Hl Hc).
    - now apply batting_averages_raises in H.
    - now apply pitching_averages_raises in H. }
  split; [|exact Hcalc].
  unfold process_games.
  destruct (for_each process_game games ([], [])) as [acc|e] eqn:E; [eauto|].
  exfalso.
  apply for_each_Raise in E as (game & [b p] & Hg & Hs).
  unfold process_game in Hs. cbn [fst snd] in Hs.
  destruct (_process_game_batting_stats game b) as [b'|e1] eqn:Eb;
    cbn [bind] in Hs.
  - destruct (_process_game_pitching_stats game p) as [p'|e2] eqn:Ep;
      cbn [bind] in Hs; [discriminate Hs|].
    rewrite process_pitching in Ep.
    apply for_each_Raise in Ep as (l & d & Hl & Hd).
    apply step_Raise in Hd. apply update_pitching_raises in Hd as (Hc & _).
    apply (Hp l); [|exact Hc]. unfold Lines.pitching. apply in_flat_map. eauto.
  - rewrite process_batting in Eb.
    apply for_each_Raise in Eb as (l & d & Hl & Hd).
    apply step_Raise in Hd. apply update_batting_raises in Hd as (Hc & _).
    apply (Hb l); [|exact Hc]. unfold Lines.batting. apply in_flat_map. eauto.
Qed.

Lemma clean_lines_accumulate_witness :
  exists acc, process_games [Sample.game1; Sample.game2] = Ok acc.
Proof.
  apply (clean_lines_accumulate [Sample.game1; Sample.game2]).
  - intros l Hl Hc. simpl in Hl.
    unfold Lines.corrupt_batting_line in Hc. rewrite Exists_exists in Hc.
    destruct Hc as (f & Hf & v & Hv & e & He).
    repeat (destruct Hl as [<-|Hl];
            [simpl in Hf;
             repeat (destruct Hf as [<-|Hf];
                     [try discriminate Hv; injection Hv as <-;
                      discriminate He|]);
             destruct Hf|]).
    destruct Hl.
  - intros l [].
Defined.
End RatesAndExceptions.

(* ================================================================= *)
(** * The team summary: exceptions and keys *)

Section SummaryFacts.
Import Py StatsCalculator.

Lemma summarize_game_Raise game d e :
  summarize_game game d = Raise e <-> Lines.scores game = Raise e.
Proof.
  unfold summarize_game, Lines.scores.
  destruct (int (get (Game.home_score game) (PInt 0))) as [h|eh];
    cbn [bind]; [|split; intros [= ->]; reflexivity].
  destruct (int (get (Game.away_score game) (PInt 0))) as [a|ea];
    cbn [bind]; [|split; intros [= ->]; reflexivity].
  destruct (h >? a); [split; discriminate|].
  destruct (a >? h); split; discriminate.
Qed.

Lemma scores_cases game :
  (exists h a, Lines.scores game = Ok (h, a))
  \/ (exists e, Lines.scores game = Raise e).
Proof.
  destruct (Lines.scores game) as [[h a]|e]; [left|right]; eauto.
Qed.

(** X7.  [get_team_summary] raises exactly when the score of some game
    is rejected by [int()], and the exception is the one of the first
    such game: the games before it are summarized, the games after it
    are never read. *)
Theorem team_summary_raises_at_first_rejected_score games e :
  get_team_summary games = Raise e
  <-> exists before game after,
      games = before ++ game :: after
      /\ Forall (fun g => exists h a, Lines.scores g = Ok (h, a)) before
      /\ Lines.scores game = Raise e.
Proof.
  unfold get_team_summary. generalize (@nil (string * TeamRecord.t)).
  induction games as [|g games IH]; intros d; simpl.
  - split; [discriminate|].
    intros (before & game & after & H & _). destruct before; discriminate.
  - destruct (scores_cases g) as [(h & a & Hs)|(e' & Hs)].
    + destruct (summarize_game_effect g d h a Hs) as (d' & -> & _).
      cbn [bind]. rewrite IH. split.
      * intros (before & game & after & -> & Hb & Hg).
        exists (g :: before), game, after. repeat split; auto.
        constructor; eauto.
      * intros (before & game & after & Hsplit & Hb & Hg).
        destruct before as [|g' before]; simpl in Hsplit;
          injection Hsplit as <- ->; [congruence|].
        inversion Hb; subst. exists before, game, after. auto.
    + pose proof (proj2 (summarize_game_Raise g d e') Hs) as ->.
      cbn [bind]. split.
      * intros [= <-]. exists [], g, games. auto.
      * intros (before & game & after & Hsplit & Hb & Hg).
        destruct before as [|g' before]; simpl in Hsplit;
          injection Hsplit as <- ->; [congruence|].
        inversion Hb as [|? ? (h & a & Hh) ?]; subst. congruence.
Qed.

Lemma team_summary_raises_at_first_rejected_score_witness :
  get_team_summary
    [Sample.game1;
     Game.make (Some "Reds"%string) (Some "Cubs"%string)
               (Some (PStr "F")) None None None None None;
     Sample.game2]
  = Raise ValueError.
Proof.
  apply (proj2 (team_summary_raises_at_first_rejected_score
                  [Sample.game1;
                   Game.make (Some "Reds"%string) (Some "Cubs"%string)
                             (Some (PStr "F")) None None None None None;
                   Sample.game2]
                  ValueError)).
  exists [Sample.game1],
    (Game.make (Some "Reds"%string) (Some "Cubs"%string)
               (Some (PStr "F")) None None None None None),
    [Sample.game2].
  split; [reflexivity|]. split; [|reflexivity].
  constructor; [|constructor]. exists 3, 2. reflexivity.
Defined.

Lemma keys_bump f team d :
  Dict.keys (bump f team d) = Lines.first_seen (Dict.keys d) [team].
Proof. unfold bump. now rewrite keys_setitem. Qed.

Lemma first_seen_again k seen :
  In k seen -> Lines.first_seen seen [k] = seen.
Proof.
  intros H. simpl. apply existsb_eqb_In in H. now rewrite H.
Qed.

Lemma first_seen_one_In k seen : In k (Lines.first_seen seen [k]).
Proof. apply first_seen_In. right. now left. Qed.

Lemma first_seen_keeps k k' seen :
  In k seen -> In k (Lines.first_seen seen [k']).
Proof. intros H. apply first_seen_In. now left. Qed.

Lemma summarize_game_keys game d d' :
  summarize_game game d = Ok d' ->
  Dict.keys d'
  = Lines.first_seen (Dict.keys d)
                     [Lines.home_name game; Lines.away_name game]
  /\ Lines.total TeamRecord.games_seen d'
     = Lines.total TeamRecord.games_seen d + 2.
Proof.
  unfold summarize_game, Lines.home_name, Lines.away_name.
  set (home := get (Game.home_team game) "Unknown"%string).
  set (away := get (Game.away_team game) "Unknown"%string).
  destruct (int (get (Game.home_score game) (PInt 0))) as [h|];
    cbn [bind]; [|discriminate].
  destruct (int (get (Game.away_score game) (PInt 0))) as [a|];
    cbn [bind]; [|discriminate].
  change (Lines.first_seen (Dict.keys d) [home; away])
    with (Lines.first_seen (Lines.first_seen (Dict.keys d) [home]) [away]).
  assert (Hh : In home (Lines.first_seen
                          (Lines.first_seen (Dict.keys d) [home]) [away]))
    by apply first_seen_keeps, first_seen_one_In.
  assert (Ha : In away (Lines.first_seen
                          (Lines.first_seen (Dict.keys d) [home]) [away]))
    by apply first_seen_one_In.
  set (seen := Lines.first_seen (Lines.first_seen (Dict.keys d) [home])
                               [away]) in *.
  destruct (h >? a); [|destruct (a >? h)]; intros [= <-];
    rewrite ?keys_bump;
    (split; [|rewrite ?bump_total by reflexivity; simpl; lia]);
    fold seen;
    repeat first [rewrite (first_seen_again home seen Hh)
                 |rewrite (first_seen_again away seen Ha)];
    reflexivity.
Qed.

(** X8.  The dict [get_team_summary] returns has one entry per team
    name, in the order in which the names first appear (home before
    away, game after game), and its [games_seen] fields total twice the
    number of games. *)
Theorem team_summary_keys_in_order games d :
  get_team_summary games = Ok d ->
  Dict.keys d = Lines.first_seen [] (Totals.teams games)
  /\ NoDup (Dict.keys d)
  /\ Lines.total TeamRecord.games_seen d
     = 2 * Z.of_nat (List.length games).
Proof.
  unfold get_team_summary. intros H.
  assert (G : forall games d0 d,
             for_each summarize_game games d0 = Ok d ->
             Dict.keys d
             = Lines.first_seen (Dict.keys d0) (Totals.teams games)
             /\ Lines.total TeamRecord.games_seen d
                = Lines.total TeamRecord.games_seen d0
                  + 2 * Z.of_nat (List.length games)).
  { clear. induction games as [|g games IH]; intros d0 d H.
    - injection H as <-. simpl. split; [reflexivity|lia].
    - simpl in H.
      destruct (summarize_game g d0) as [d1|] eqn:E; cbn [bind] in H;
        [|discriminate].
      apply summarize_game_keys in E as [Ek Et].
      destruct (IH _ _ H) as [Hk Ht]. split.
      + rewrite Hk, Ek. unfold Totals.teams. simpl flat_map.
        change (?a :: ?b :: ?l) with ([a; b] ++ l).
        now rewrite first_seen_app.
      + rewrite Ht, Et. change (List.length (g :: games))
          with (Datatypes.S (List.length games)). lia. }
  destruct (G _ _ _ H) as [Hk Ht]. simpl in Hk, Ht.
  split; [exact Hk|]. split; [|exact Ht].
  rewrite Hk. apply first_seen_NoDup. constructor.
Qed.

Lemma team_summary_keys_in_order_witness :
  exists d,
    get_team_summary [Sample.game1; Sample.game2; Sample.outing2] = Ok d
    /\ Dict.keys d = ["Reds"%string; "Cubs"%string; "Mets"%string]
    /\ Lines.total TeamRecord.games_seen d = 6.
Proof.
  eexists. split; [reflexivity|].
  destruct (team_summary_keys_in_order
              [Sample.game1; Sample.game2; Sample.outing2] _ eq_refl)
    as (Hk & _ & Ht).
  split; [exact Hk|exact Ht].
Defined.
End SummaryFacts.

(* ================================================================= *)
(** * The innings parser and [safe_int]: what they raise *)

Section ParserFacts.
Import Py MLBApiClient.

Lemma except_Raise {A : Type} (m : result A) h e :
  except_ValueError_TypeError m h = Raise e ->
  m = Raise e /\ e <> ValueError /\ e <> TypeError.
Proof.
  destruct m as [a|[]]; simpl; intros H; try discriminate H;
    injection H as <-; repeat split; discriminate.
Qed.

Lemma except_Ok {A : Type} (m : result A) h a :
  except_ValueError_TypeError m h = Ok a -> m = Ok a \/ a = h.
Proof.
  destruct m as [a'|[]]; simpl; intros H; try discriminate H;
    injection H as <-; auto.
Qed.

Lemma fraction_decimal_of_Ok f v :
  fraction_decimal_of f = Ok v -> (exists x, v = PFloat x) \/ v = PInt 0.
Proof.
  unfold fraction_decimal_of.
  repeat match goal with
         | |- context [if ?b then _ else _] => destruct b
         | |- context [int_of_string ?s] =>
             destruct (int_of_string s); cbn [bind]
         | |- context [int_truediv ?a ?b] =>
             destruct (int_truediv a b); cbn [bind]
         end; intros H; try discriminate H;
    injection H as <-; eauto.
Qed.

Lemma fraction_decimal_of_Raise f e :
  fraction_decimal_of f = Raise e -> e = ValueError \/ e = OverflowError.
Proof.
  unfold fraction_decimal_of.
  repeat match goal with
         | |- context [if ?b then _ else _] => destruct b
         | |- context [int_of_string ?s] =>
             let E := fresh "E" in
             destruct (int_of_string s) eqn:E; cbn [bind]
         | |- context [int_truediv ?a ?b] =>
             let E := fresh "E" in
             destruct (int_truediv a b) eqn:E; cbn [bind]
         end; intros H; try discriminate H;
    injection H as <-;
    try (left; eapply int_of_string_raises; eassumption);
    right; (eapply int_truediv_raises; [|eassumption]); lia.
Qed.

Lemma int_add_float a x r :
  int_add a (PFloat x) = Ok r -> exists y, r = PFloat y.
Proof.
  unfold int_add, int_float_add.
  destruct (float_of_int a); cbn [bind]; intros H; [|discriminate H].
  injection H as <-. eauto.
Qed.

Lemma int_add_float_Raise a x e :
  int_add a (PFloat x) = Raise e -> e = OverflowError.
Proof.
  unfold int_add, int_float_add, float_of_int.
  destruct (is_inf _); cbn [bind]; intros H; [|discriminate H].
  now injection H as <-.
Qed.

Lemma parse_innings_text_Ok s r :
  parse_innings_text s = Ok r ->
  (exists x, r = PFloat x) \/ (exists n, r = PInt n).
Proof.
  unfold parse_innings_text. destruct (contains "." s).
  - destruct (split "." s) as [|w [|f [|? ?]]]; try discriminate.
    destruct (whole_innings_of w) as [n|]; cbn [bind]; [|discriminate].
    destruct (fraction_decimal_of f) as [v|] eqn:Ef; cbn [bind];
      [|discriminate].
    apply fraction_decimal_of_Ok in Ef as [[x ->]| ->].
    + intros H. left. eapply int_add_float. exact H.
    + simpl. intros [= <-]. right. eauto.
  - destruct (float_of_string s); cbn [bind]; [|discriminate].
    intros [= <-]. left. eauto.
Qed.

Lemma parse_innings_text_Raise s e :
  parse_innings_text s = Raise e -> e = ValueError \/ e = OverflowError.
Proof.
  unfold parse_innings_text. destruct (contains "." s).
  - destruct (split "." s) as [|w [|f [|? ?]]];
      try (intros [= <-]; now left).
    destruct (whole_innings_of w) as [n|] eqn:Ew; cbn [bind].
    + destruct (fraction_decimal_of f) as [v|] eqn:Ef; cbn [bind].
      * apply fraction_decimal_of_Ok in Ef as [[x ->]| ->].
        -- intros H. right. eapply int_add_float_Raise. exact H.
        -- discriminate.
      * intros [= <-]. eapply fraction_decimal_of_Raise. exact Ef.
    + intros [= <-]. left. eapply whole_innings_raises. exact Ew.
  - destruct (float_of_string s) eqn:E; cbn [bind]; [discriminate|].
    intros [= <-]. left. eapply float_of_string_raises. exact E.
Qed.

Lemma parse_innings_Raise v e :
  parse_innings v = Raise e -> e = OverflowError.
Proof.
  unfold parse_innings. intros H. apply except_Raise in H as (H & Hv & Ht).
  destruct (is_blank v); [discriminate H|].
  apply parse_innings_text_Raise in H as [H|H]; congruence.
Qed.

Lemma parse_innings_Ok v r :
  parse_innings v = Ok r ->
  (exists x, r = PFloat x) \/ (exists n, r = PInt n).
Proof.
  unfold parse_innings. intros H.
  apply except_Ok in H as [H| ->]; [|left; eauto].
  destruct (is_blank v); [injection H as <-; left; eauto|].
  eapply parse_innings_text_Ok. exact H.
Qed.

Lemma split_chars_single_inv sep l b :
  split_chars sep l = [b] -> l = b /\ existsb (Ascii.eqb sep) l = false.
Proof.
  revert b. induction l as [|c l IH]; intros b H; simpl in H.
  - injection H as <-. auto.
  - simpl. rewrite (Ascii.eqb_sym sep c).
    destruct (Ascii.eqb c sep) eqn:E.
    + injection H as _ H.
      pose proof (split_chars_length sep l) as Hl. rewrite H in Hl.
      discriminate Hl.
    + destruct (split_chars sep l) as [|h t] eqn:Es.
      * pose proof (split_chars_length sep l) as Hl. rewrite Es in Hl.
        discriminate Hl.
      * injection H as <- ->. destruct (IH h eq_refl) as [-> Hn]. auto.
Qed.

Lemma split_chars_two_inv sep l : forall a b,
  split_chars sep l = [a; b] ->
  l = a ++ sep :: b
  /\ existsb (Ascii.eqb sep) a = false /\ existsb (Ascii.eqb sep) b = false.
Proof.
  induction l as [|c l IH]; intros a b H; simpl in H; [discriminate H|].
  destruct (Ascii.eqb c sep) eqn:E.
  - injection H as <- H. apply Ascii.eqb_eq in E. subst c.
    apply split_chars_single_inv in H as [-> Hn]. auto.
  - destruct (split_chars sep l) as [|h t] eqn:Es; [discriminate H|].
    injection H as <- ->. destruct (IH h b eq_refl) as (-> & Ha & Hb).
    simpl. rewrite (Ascii.eqb_sym sep c), E. auto.
Qed.

Lemma chars_str_of l : chars (str_of l) = l.
Proof. apply list_ascii_of_string_of_list_ascii. Qed.

(** A text that [split] cuts in two has one point. *)
Lemma split_two_inv s w f :
  split "." s = [w; f] ->
  s = (w ++ "." ++ f)%string
  /\ contains "." w = false /\ contains "." f = false.
Proof.
  unfold split, contains. intros H.
  destruct (split_chars "." (chars s)) as [|a [|b [|? ?]]] eqn:E;
    try discriminate H.
  injection H as <- <-.
  apply split_chars_two_inv in E as (E & Ha & Hb).
  rewrite !chars_str_of. split; [|auto].
  rewrite <- (str_of_chars s), E.
  rewrite <- (chars_str_of a) at 1. rewrite <- (chars_str_of b) at 1.
  change ("."%char :: chars (str_of b))
    with (chars ("." ++ str_of b)%string).
  now rewrite <- chars_app, str_of_chars.
Qed.

Lemma uint_no_dot d : contains "." (NilEmpty.string_of_uint d) = false.
Proof. induction d; simpl; auto. Qed.

Lemma str_of_int_no_dot z : contains "." (str_of_int z) = false.
Proof.
  unfold str_of_int, NilZero.string_of_int, NilZero.string_of_uint.
  destruct (Z.to_int z) as [d|d]; destruct d; try reflexivity;
    try apply uint_no_dot;
    match goal with
    | |- contains _ (String "-" ?s) = false =>
        change (contains "." s = false)
    end; apply uint_no_dot.
Qed.

Lemma str_no_dot v :
  (forall s, v <> IpStr s) -> contains "." (str v) = false.
Proof.
  destruct v as [|z|s]; intros H; [reflexivity|apply str_of_int_no_dot|].
  now destruct (H s).
Qed.

(** The try block on a text without point. *)
Lemma parse_innings_text_no_dot s :
  contains "." s = false ->
  parse_innings_text s = (r <- float_of_string s ;; Ok (PFloat r)).
Proof. unfold parse_innings_text. now intros ->. Qed.

(** The try block on a text that holds a point. *)
Lemma parse_innings_text_dot s :
  contains "." s = true ->
  (exists w f,
      s = (w ++ "." ++ f)%string
      /\ contains "." w = false /\ contains "." f = false
      /\ parse_innings_text s
         = (whole_innings <- whole_innings_of w ;;
            fraction_decimal <- fraction_decimal_of f ;;
            int_add whole_innings fraction_decimal))
  \/ parse_innings_text s = Raise ValueError.
Proof.
  unfold parse_innings_text. intros ->.
  destruct (split "." s) as [|w [|f [|? ?]]] eqn:E; auto.
  left. apply split_two_inv in E as (E & Hw & Hf). exists w, f. auto.
Qed.

Lemma fraction_decimal_of_int f n :
  fraction_decimal_of f = Ok (PInt n) <-> isdigit f = false /\ n = 0.
Proof.
  unfold fraction_decimal_of. split.
  - destruct (String.eqb f "1") eqn:E1.
    { destruct (int_truediv 1 3); cbn [bind]; discriminate. }
    destruct (String.eqb f "2") eqn:E2.
    { destruct (int_truediv 2 3); cbn [bind]; discriminate. }
    destruct (isdigit f).
    { destruct (int_of_string f) as [m|]; cbn [bind]; [|discriminate].
      destruct (int_truediv m 3); cbn [bind]; discriminate. }
    intros [= <-]. auto.
  - intros [H ->]. destruct (isdigit_false_neq f H) as [-> ->].
    now rewrite H.
Qed.

Lemma int_add_int a v n :
  (exists x, v = PFloat x) \/ v = PInt 0 ->
  int_add a v = Ok (PInt n) <-> v = PInt 0 /\ n = a.
Proof.
  intros [[x ->]| ->]; simpl.
  - unfold int_float_add. destruct (float_of_int a); cbn [bind];
      split; try discriminate; intros [H _]; discriminate H.
  - rewrite Z.add_0_r. split; [intros [= <-]; auto|intros [_ ->]; auto].
Qed.

Lemma int_add_overflow a v :
  (exists x, v = PFloat x) \/ v = PInt 0 ->
  int_add a v = Raise OverflowError
  <-> (exists q, v = PFloat q) /\ float_of_int a = Raise OverflowError.
Proof.
  intros [[x ->]| ->]; simpl.
  - unfold int_float_add, float_of_int.
    destruct (is_inf _); cbn [bind]; split; eauto; try discriminate.
    intros [_ H]. discriminate H.
  - split; [discriminate|]. intros [[q H] _]. discriminate H.
Qed.

(** X9.  [parse_innings] can raise only [OverflowError], and it raises
    exactly on a text with one point whose whole part is empty or
    accepted by [int()] and whose fraction either is made of digits too
    many to divide by 3 as a float, or gives a float while the whole
    part is too large for a float.  A [ValueError] or [TypeError]
    raised in its [try] block becomes [0.0].  It returns an int exactly
    on a text with one point whose whole part is accepted and whose
    fraction is not made of digits, and the int is the whole part;
    every other result is a float. *)
Theorem parse_innings_raises_only_overflow v :
  (forall e, parse_innings v = Raise e -> e = OverflowError)
  /\ (parse_innings v = Raise OverflowError
      <-> exists w f n,
          v = IpStr (w ++ "." ++ f)
          /\ contains "." w = false /\ contains "." f = false
          /\ whole_innings_of w = Ok n
          /\ (fraction_decimal_of f = Raise OverflowError
              \/ (exists q, fraction_decimal_of f = Ok (PFloat q))
                 /\ float_of_int n = Raise OverflowError))
  /\ (forall e,
         is_blank v = false ->
         parse_innings_text (str v) = Raise e ->
         e = ValueError \/ e = TypeError ->
         parse_innings v = Ok (PFloat fzero))
  /\ (forall n,
         parse_innings v = Ok (PInt n)
         <-> exists w f,
             v = IpStr (w ++ "." ++ f)
             /\ contains "." w = false /\ contains "." f = false
             /\ isdigit f = false
             /\ whole_innings_of w = Ok n)
  /\ (forall r, parse_innings v = Ok r ->
                (exists x, r = PFloat x) \/ (exists n, r = PInt n)).
Proof.
  split; [apply parse_innings_Raise|].
  split; [|split; [|split; [|apply parse_innings_Ok]]].
  - split.
    + intros H. unfold parse_innings in H.
      apply except_Raise in H as (H & _ & _).
      destruct (is_blank v) eqn:Eb; [discriminate H|].
      destruct (contains "." (str v)) eqn:Ec.
      * destruct (parse_innings_text_dot _ Ec)
          as [(w & f & Es & Hw & Hf & Ep)|Ep]; [|congruence].
        rewrite Ep in H.
        assert (Ev : v = IpStr (w ++ "." ++ f)).
        { destruct v as [|z|s]; [discriminate Ec| |now rewrite <- Es].
          simpl in Ec. now rewrite str_of_int_no_dot in Ec. }
        destruct (whole_innings_of w) as [n|] eqn:Ew; cbn [bind] in H.
        -- exists w, f, n. repeat (split; [assumption|]).
           destruct (fraction_decimal_of f) as [d|e] eqn:Ef; cbn [bind] in H.
           ++ right. pose proof (fraction_decimal_of_Ok _ _ Ef) as Hd.
              apply (int_add_overflow n d Hd) in H as [[q ->] H]. eauto.
           ++ left. now injection H as ->.
        -- injection H as ->. apply whole_innings_raises in Ew.
           discriminate Ew.
      * rewrite (parse_innings_text_no_dot _ Ec) in H.
        destruct (float_of_string (str v)) eqn:Ef; cbn [bind] in H;
          [discriminate H|].
        injection H as ->. apply float_of_string_raises in Ef.
        discriminate Ef.
    + intros (w & f & n & -> & Hw & Hf & Ew & H).
      rewrite (parse_innings_dotted w f Hw Hf), Ew. cbn [bind].
      destruct H as [H|[[q Hq] H]].
      * now rewrite H.
      * rewrite Hq. cbn [bind].
        assert (E : int_add n (PFloat q) = Raise OverflowError).
        { apply int_add_overflow; eauto. }
        now rewrite E.
  - intros e Hb H He. unfold parse_innings. rewrite Hb, H.
    destruct He as [->| ->]; reflexivity.
  - intros n. split.
    + intros H. unfold parse_innings in H.
      apply except_Ok in H as [H|H]; [|discriminate H].
      destruct (is_blank v) eqn:Eb; [discriminate H|].
      destruct (contains "." (str v)) eqn:Ec.
      * destruct (parse_innings_text_dot _ Ec)
          as [(w & f & Es & Hw & Hf & Ep)|Ep]; [|congruence].
        rewrite Ep in H.
        assert (Ev : v = IpStr (w ++ "." ++ f)).
        { destruct v as [|z|s]; [discriminate Ec| |now rewrite <- Es].
          simpl in Ec. now rewrite str_of_int_no_dot in Ec. }
        destruct (whole_innings_of w) as [m|] eqn:Ew; cbn [bind] in H;
          [|discriminate H].
        destruct (fraction_decimal_of f) as [d|] eqn:Ef; cbn [bind] in H;
          [|discriminate H].
        pose proof (fraction_decimal_of_Ok _ _ Ef) as Hd.
        apply (int_add_int m d n Hd) in H as [-> ->].
        apply fraction_decimal_of_int in Ef as [Hf' _].
        exists w, f. auto.
      * rewrite (parse_innings_text_no_dot _ Ec) in H.
        destruct (float_of_string (str v)); cbn [bind] in H;
          discriminate H.
    + intros (w & f & -> & Hw & Hf & Hd & Ew).
      rewrite (parse_innings_dotted w f Hw Hf), Ew. cbn [bind].
      rewrite (proj2 (fraction_decimal_of_int f 0) (conj Hd eq_refl)).
      cbn [bind]. simpl. now rewrite Z.add_0_r.
Qed.

Lemma parse_innings_raises_only_overflow_witness :
  parse_innings (IpStr (str_of_int (10 ^ 400) ++ "." ++ "1"))
  = Raise OverflowError
  /\ parse_innings (IpStr ("6" ++ "." ++ "x")) = Ok (PInt 6)
  /\ parse_innings (IpStr "six") = Ok (PFloat fzero).
Proof.
  split; [|split].
  - apply (proj2 (proj1 (proj2 (parse_innings_raises_only_overflow
                                  (IpStr (str_of_int (10 ^ 400)
                                          ++ "." ++ "1")))))).
    exists (str_of_int (10 ^ 400)), "1"%string, (10 ^ 400).
    split; [reflexivity|]. split; [vm_compute; reflexivity|].
    split; [reflexivity|]. split; [vm_compute; reflexivity|].
    right. split; [eexists; vm_compute; reflexivity|].
    vm_compute. reflexivity.
  - apply (proj2 (proj1 (proj2 (proj2 (proj2
             (parse_innings_raises_only_overflow
                (IpStr ("6" ++ "." ++ "x")))))) 6)).
    exists "6"%string, "x"%string. repeat split.
  - apply (proj1 (proj2 (proj2 (parse_innings_raises_only_overflow
                                  (IpStr "six"))))
                 ValueError); [reflexivity|reflexivity|now left].
Defined.
(** ** [safe_int] *)

Lemma safe_int_cases value :
  match int value with
  | Ok z => Client.safe_int value = Ok z
  | Raise OverflowError =>
      Client.safe_int value = Raise OverflowError
      /\ exists s, value = PFloat (S754_infinity s)
  | Raise _ => Client.safe_int value = Ok 0
  end.
Proof.
  destruct value as [|b|z|f|s|]; try reflexivity.
  - destruct b; reflexivity.
  - simpl. unfold Client.safe_int. simpl.
    destruct (Z.eqb_spec z 0) as [->|]; reflexivity.
  - destruct f as [[|]|s| |s m e]; try reflexivity.
    split; [reflexivity|eauto].
  - destruct s as [|c s]; [reflexivity|].
    unfold Client.safe_int.
    cbn [Client.truthy Client.not_empty_text andb negb is_empty int].
    destruct (int_of_string (String c s)) as [z|e] eqn:E; [reflexivity|].
    apply int_of_string_raises in E. subst e. reflexivity.
Qed.

Lemma safe_int_Ok value z :
  Client.safe_int value = Ok z ->
  z = match int value with Ok z => z | Raise _ => 0 end.
Proof.
  pose proof (safe_int_cases value) as H.
  destruct (int value) as [z'|[]];
    try (rewrite H; intros E; now injection E).
  destruct H as [H _]. rewrite H. discriminate.
Qed.

Lemma safe_int_Raise value e :
  Client.safe_int value = Raise e ->
  e = OverflowError /\ exists s, value = PFloat (S754_infinity s).
Proof.
  pose proof (safe_int_cases value) as H.
  destruct (int value) as [z'|[]];
    try (rewrite H; discriminate).
  destruct H as [H Hs]. rewrite H. intros E. injection E as <-. auto.
Qed.

(** X10.  [safe_int] returns what [int()] returns wherever [int()]
    accepts the value, including the values that are false ([0],
    [False], [0.0]); it returns 0 wherever [int()] raises [ValueError]
    or [TypeError]; and it raises only on an infinite float, whose
    [OverflowError] its [except] clause does not catch. *)
Theorem safe_int_agrees_with_int value :
  (forall z, int value = Ok z -> Client.safe_int value = Ok z)
  /\ (int value = Raise ValueError \/ int value = Raise TypeError ->
      Client.safe_int value = Ok 0)
  /\ (forall e, Client.safe_int value = Raise e ->
                e = OverflowError
                /\ exists s, value = PFloat (S754_infinity s)).
Proof.
  pose proof (safe_int_cases value) as H. split; [|split].
  - intros z E. now rewrite E in H.
  - intros [E|E]; now rewrite E in H.
  - apply safe_int_Raise.
Qed.

Lemma safe_int_agrees_with_int_witness :
  Client.safe_int (PStr " 12 ") = Ok 12
  /\ Client.safe_int (PStr "1.5") = Ok 0
  /\ Client.safe_int PNone = Ok 0.
Proof.
  split; [|split].
  - apply (proj1 (safe_int_agrees_with_int (PStr " 12 "))).
    vm_compute. reflexivity.
  - apply (proj1 (proj2 (safe_int_agrees_with_int (PStr "1.5")))).
    left. vm_compute. reflexivity.
  - apply (proj1 (proj2 (safe_int_agrees_with_int PNone))).
    right. reflexivity.
Defined.
End ParserFacts.

(* ================================================================= *)
(** * The lines extracted from a box score *)

Section ExtractionFacts.
Import Py MLBApiClient.

Lemma one_char_int c n :
  int_of_string (String c "") = Ok n ->
  0 <= n <= 9 /\ is_decimal c = true /\ n = digit_value c.
Proof.
  destruct c as [[] [] [] [] [] [] [] []]; intros H; vm_compute in H;
    try discriminate H; injection H as <-; vm_compute;
    repeat split; discriminate.
Qed.

Lemma one_char_decimal c :
  is_decimal c = true -> int_of_string (String c "") = Ok (digit_value c).
Proof.
  destruct c as [[] [] [] [] [] [] [] []]; intros H; vm_compute in H;
    try discriminate H; reflexivity.
Qed.

Lemma order_num_of_Ok batting_order substitution :
  exists o, Client.order_num_of batting_order substitution = Ok o.
Proof.
  unfold Client.order_num_of. destruct batting_order as [|c rest]; [eauto|].
  destruct substitution; simpl; [eauto|].
  destruct (int_of_string (String c "")) as [n|e] eqn:E; [eauto|].
  apply int_of_string_raises in E. subst e. eauto.
Qed.

Lemma extract_batting_inv row bs entry :
  Client.extract_batting row bs = Ok entry ->
  exists o ab h r rbi d t hr bb k sb,
    Client.order_num_of (get (BatterRow.battingOrder row) ""%string)
                        (get (BatterRow.substitution row) false) = Ok o
    /\ Forall2 (fun f z => Client.safe_int (get f (PInt 0)) = Ok z)
               (Rows.batting_cells row) [ab; h; r; rbi; d; t; hr; bb; k; sb]
    /\ entry
       = BattingEntry.make
           o (get (BatterRow.position row) ""%string)
           (get (BatterRow.substitution row) false) sb 0
           (BattingLine.make
              (Some (Client.player_id_of (BatterRow.personId row)))
              (Some (Client._get_player_name
                       (Client.player_id_of (BatterRow.personId row)) bs))
              (Some (PInt ab)) (Some (PInt h)) (Some (PInt r))
              (Some (PInt rbi)) (Some (PInt d)) (Some (PInt t))
              (Some (PInt hr)) (Some (PInt bb)) (Some (PInt k))).
Proof.
  unfold Client.extract_batting. cbv zeta.
  destruct (Client.order_num_of _ _) as [o|] eqn:Eo; cbn [bind];
    [|discriminate].
  repeat match goal with
         | |- context [Client.safe_int ?v] =>
             let E := fresh "E" in
             destruct (Client.safe_int v) eqn:E; cbn [bind]; [|discriminate]
         end.
  intros [= <-]. do 11 eexists. split; [reflexivity|].
  split; [|reflexivity]. unfold Rows.batting_cells.
  repeat constructor; assumption.
Qed.

Lemma extract_batting_Raise row bs e :
  Client.extract_batting row bs = Raise e ->
  Exists Rows.infinite (Rows.batting_cells row).
Proof.
  unfold Client.extract_batting. cbv zeta.
  destruct (order_num_of_Ok (get (BatterRow.battingOrder row) ""%string)
                            (get (BatterRow.substitution row) false))
    as [o ->]. cbn [bind].
  unfold Rows.batting_cells.
  repeat match goal with
         | |- context [Client.safe_int (get ?f ?d)] =>
             let E := fresh "E" in
             destruct (Client.safe_int (get f d)) eqn:E; cbn [bind];
             [|intros _; apply safe_int_Raise in E as (_ & s & E);
               rewrite Exists_exists; exists f; split; [simpl; tauto|];
               exists s; destruct f; [simpl in E; now subst|discriminate E]]
         end.
  discriminate.
Qed.

Lemma safe_int_infinite f z :
  Rows.infinite f -> Client.safe_int (get f (PInt 0)) = Ok z -> False.
Proof. intros [s ->]. discriminate. Qed.

Lemma Forall2_Exists_absurd {A B : Type} (P : A -> B -> Prop)
      (Q : A -> Prop) l l' :
  Forall2 P l l' -> Exists Q l -> (forall a b, P a b -> Q a -> False) -> False.
Proof.
  intros HF HE Habs. induction HF as [|a b l l' Hab _ IH].
  - inversion HE.
  - inversion HE; subst; eauto.
Qed.

Lemma int_field_safe f z :
  Client.safe_int (get f (PInt 0)) = Ok z -> z = Totals.int_field f.
Proof. unfold Totals.int_field. apply safe_int_Ok. Qed.

(** X11.  What the aggregator reads in a line extracted from a batter
    row: it never raises on it; to each counting total it adds what
    [int()] makes of the row's cell where [int()] accepts the cell, and
    0 otherwise; the record is kept under [str(personId)] and named by
    [_get_player_name]. *)
Theorem extracted_batting_line_adds_cells row box_score entry team st :
  Client._extract_batting_stats row box_score = Some entry ->
  exists st',
    StatsCalculator.update_batting team (BattingEntry.line entry) st = Ok st'
    /\ BattingStats.at_bats st'
       = BattingStats.at_bats st + Totals.int_field (BatterRow.ab row)
    /\ BattingStats.hits st'
       = BattingStats.hits st + Totals.int_field (BatterRow.h row)
    /\ BattingStats.runs st'
       = BattingStats.runs st + Totals.int_field (BatterRow.r row)
    /\ BattingStats.rbis st'
       = BattingStats.rbis st + Totals.int_field (BatterRow.rbi row)
    /\ BattingStats.doubles st'
       = BattingStats.doubles st + Totals.int_field (BatterRow.doubles row)
    /\ BattingStats.triples st'
       = BattingStats.triples st + Totals.int_field (BatterRow.triples row)
    /\ BattingStats.home_runs st'
       = BattingStats.home_runs st + Totals.int_field (BatterRow.hr row)
    /\ BattingStats.walks st'
       = BattingStats.walks st + Totals.int_field (BatterRow.bb row)
    /\ BattingStats.strikeouts st'
       = BattingStats.strikeouts st + Totals.int_field (BatterRow.k row)
    /\ BattingStats.player_name st'
       = Client._get_player_name
           (Client.player_id_of (BatterRow.personId row)) box_score
    /\ StatsCalculator.batting_key (BattingEntry.line entry)
       = Client.player_id_of (BatterRow.personId row).
Proof.
  unfold Client._extract_batting_stats, Client.or_none.
  destruct (Client.extract_batting row box_score) as [e|] eqn:E;
    [|discriminate].
  intros [= <-].
  apply extract_batting_inv in E
    as (o & ab & h & r & rbi & d & t & hr & bb & k & sb & _ & HF & ->).
  unfold Rows.batting_cells in HF.
  repeat match goal with
         | H : Forall2 _ (_ :: _) (_ :: _) |- _ =>
             let Hz := fresh "Hz" in
             inversion H as [|? ? ? ? Hz ?]; subst; clear H;
             apply int_field_safe in Hz
         end.
  eexists. split; [reflexivity|]. simpl.
  repeat split; congruence.
Qed.

Lemma extracted_batting_line_adds_cells_witness :
  exists entry st',
    Client._extract_batting_stats SampleRows.substitute SampleRows.box_score
    = Some entry
    /\ StatsCalculator.update_batting
         "Reds" (BattingEntry.line entry) BattingStats.default = Ok st'
    /\ BattingStats.at_bats st' = 1
    /\ BattingStats.hits st' = 0
    /\ BattingStats.player_name st' = "Player 641584"%string.
Proof.
  destruct (Client._extract_batting_stats
              SampleRows.substitute SampleRows.box_score)
    as [entry|] eqn:E; [|vm_compute in E; discriminate E].
  destruct (extracted_batting_line_adds_cells
              SampleRows.substitute SampleRows.box_score entry
              "Reds"%string BattingStats.default E)
    as (st' & E' & Hab & Hh & _ & _ & _ & _ & _ & _ & _ & Hn & _).
  exists entry, st'.
  split; [reflexivity|]. split; [exact E'|].
  split; [exact Hab|]. split; [exact Hh|exact Hn].
Defined.

(** X12.  [_extract_batting_stats] returns [None], so that
    [get_game_data] drops the row, exactly when one of the ten cells
    read by [safe_int] holds an infinite float: the [OverflowError] of
    [int()] passes [safe_int] and is caught by the outer handler.  A
    cell that is no number at all never costs the row. *)
Theorem batting_row_dropped_iff_infinite_cell row box_score :
  Client._extract_batting_stats row box_score = None
  <-> Exists Rows.infinite (Rows.batting_cells row).
Proof.
  unfold Client._extract_batting_stats, Client.or_none.
  destruct (Client.extract_batting row box_score) as [e|x] eqn:E.
  - split; [discriminate|]. intros HE. exfalso.
    apply extract_batting_inv in E
      as (o & ab & h & r & rbi & d & t & hr & bb & k & sb & _ & HF & _).
    apply (Forall2_Exists_absurd _ _ _ _ HF HE).
    intros f z Hs Hi. exact (safe_int_infinite f z Hi Hs).
  - split; [|reflexivity]. intros _. eapply extract_batting_Raise. exact E.
Qed.

Lemma batting_row_dropped_iff_infinite_cell_witness :
  Client._extract_batting_stats
    (BatterRow.make (Some 7) None None None
                    (Some (PFloat (S754_infinity false)))
                    None None None None None None None None None)
    SampleRows.box_score
  = None.
Proof.
  apply (proj2 (batting_row_dropped_iff_infinite_cell
                  (BatterRow.make (Some 7) None None None
                                  (Some (PFloat (S754_infinity false)))
                                  None None None None None None None None
                                  None)
                  SampleRows.box_score)).
  constructor. exists false. reflexivity.
Defined.

(** X13.  The [order] of an extracted batting line is [None] or a
    number from 0 to 9, and it is a number only for a row that is not
    a substitution; for such a row whose [battingOrder] starts with a
    decimal digit it is that digit. *)
Theorem batting_order_is_first_digit_of_starters row box_score entry :
  Client._extract_batting_stats row box_score = Some entry ->
  (forall n, BattingEntry.order entry = Some n ->
             0 <= n <= 9 /\ BattingEntry.sub entry = false)
  /\ (BatterRow.substitution row = Some true ->
      BattingEntry.order entry = None)
  /\ (forall c rest,
         BatterRow.battingOrder row = Some (String c rest) ->
         BattingEntry.sub entry = false ->
         BattingEntry.order entry
         = if is_decimal c then Some (digit_value c) else None).
Proof.
  unfold Client._extract_batting_stats, Client.or_none.
  destruct (Client.extract_batting row box_score) as [e|] eqn:E;
    [|discriminate].
  intros [= <-].
  apply extract_batting_inv in E
    as (o & ab & h & r & rbi & d & t & hr & bb & k & sb & Ho & _ & ->).
  cbn [BattingEntry.order BattingEntry.sub].
  unfold Client.order_num_of in Ho.
  split; [|split].
  - intros n ->.
    destruct (get (BatterRow.battingOrder row) ""%string) as [|c rest];
      [discriminate Ho|].
    destruct (get (BatterRow.substitution row) false); [discriminate Ho|].
    split; [|reflexivity]. cbn [negb] in Ho.
    destruct (int_of_string (String c "")) as [m|[]] eqn:Em;
      try discriminate Ho.
    injection Ho as ->. now apply one_char_int in Em.
  - intros Hs. rewrite Hs in Ho. cbn [get negb] in Ho.
    destruct (get (BatterRow.battingOrder row) ""%string);
      now injection Ho as <-.
  - intros c rest Hb Hs. rewrite Hb, Hs in Ho. cbn [get negb] in Ho.
    destruct (is_decimal c) eqn:Ec.
    + rewrite (one_char_decimal c Ec) in Ho. now injection Ho as <-.
    + destruct (int_of_string (String c "")) as [m|[]] eqn:Em;
        try discriminate Ho; try now injection Ho as <-.
      apply one_char_int in Em as (_ & Hd & _). congruence.
Qed.

Lemma batting_order_is_first_digit_of_starters_witness :
  exists entry,
    Client._extract_batting_stats SampleRows.leadoff SampleRows.box_score
    = Some entry
    /\ BattingEntry.order entry = Some 1.
Proof.
  destruct (Client._extract_batting_stats
              SampleRows.leadoff SampleRows.box_score)
    as [entry|] eqn:E; [|vm_compute in E; discriminate E].
  exists entry. split; [reflexivity|].
  assert (Hs : BattingEntry.sub entry = false).
  { vm_compute in E. injection E as <-. reflexivity. }
  exact (proj2 (proj2 (batting_order_is_first_digit_of_starters
                         SampleRows.leadoff SampleRows.box_score entry E))
               "1"%char "00"%string eq_refl Hs).
Defined.
End ExtractionFacts.

(* ================================================================= *)
(** * The pitching lines extracted from a box score *)

Section PitchingExtraction.
Import Py MLBApiClient.

Lemma decision_of_cases namefield :
  Client.decision_of namefield = (1, 0, 0)
  \/ Client.decision_of namefield = (0, 1, 0)
  \/ Client.decision_of namefield = (0, 0, 1)
  \/ Client.decision_of namefield = (0, 0, 0).
Proof.
  unfold Client.decision_of.
  repeat match goal with
         | |- context [if ?b then _ else _] => destruct b
         end; auto.
Qed.

Lemma extract_pitching_inv row bs entry :
  Client.extract_pitching row bs = Ok entry ->
  exists w l s ip h r er bb k hr p,
    Client.decision_of (get (PitcherRow.namefield row) ""%string) = (w, l, s)
    /\ parse_innings (get (PitcherRow.ip row) (IpInt 0)) = Ok ip
    /\ Forall2 (fun f z => Client.safe_int (get f (PInt 0)) = Ok z)
               (Rows.pitching_cells row) [h; r; er; bb; k; hr; p]
    /\ entry
       = PitchingEntry.make
           p
           (PitchingLine.make
              (Some (Client.player_id_of (PitcherRow.personId row)))
              (Some (Client._get_player_name
                       (Client.player_id_of (PitcherRow.personId row)) bs))
              (Some (PInt w)) (Some (PInt l)) (Some (PInt s)) (Some ip)
              (Some (PInt h)) (Some (PInt r)) (Some (PInt er))
              (Some (PInt bb)) (Some (PInt k)) (Some (PInt hr))).
Proof.
  unfold Client.extract_pitching. cbv zeta.
  destruct (Client.decision_of _) as [[w l] s] eqn:Ed.
  destruct (parse_innings _) as [ip|] eqn:Ei; cbn [bind]; [|discriminate].
  repeat match goal with
         | |- context [Client.safe_int ?v] =>
             let E := fresh "E" in
             destruct (Client.safe_int v) eqn:E; cbn [bind]; [|discriminate]
         end.
  intros [= <-]. do 11 eexists. split; [reflexivity|].
  split; [reflexivity|]. split; [|reflexivity]. unfold Rows.pitching_cells.
  repeat constructor; assumption.
Qed.

Lemma extract_pitching_Raise row bs e :
  Client.extract_pitching row bs = Raise e ->
  parse_innings (get (PitcherRow.ip row) (IpInt 0)) = Raise OverflowError
  \/ Exists Rows.infinite (Rows.pitching_cells row).
Proof.
  unfold Client.extract_pitching. cbv zeta.
  destruct (Client.decision_of _) as [[w l] s] eqn:Ed.
  destruct (parse_innings _) as [ip|e'] eqn:Ei; cbn [bind].
  - unfold Rows.pitching_cells.
    repeat match goal with
           | |- context [Client.safe_int (get ?f ?d)] =>
               let E := fresh "E" in
               destruct (Client.safe_int (get f d)) eqn:E; cbn [bind];
               [|intros _; right; apply safe_int_Raise in E as (_ & x & E);
                 rewrite Exists_exists; exists f; split; [simpl; tauto|];
                 exists x; destruct f; [simpl in E; now subst|discriminate E]]
           end.
    discriminate.
  - intros _. left. f_equal.
    eapply parse_innings_Raise. exact Ei.
Qed.

(** X14.  [_extract_pitching_stats] returns [None], so that
    [get_game_data] drops the row, exactly when [parse_innings] raises
    [OverflowError] on the row's innings or one of the seven cells read
    by [safe_int] holds an infinite float. *)
Theorem pitching_row_dropped_iff_overflow row box_score :
  Client._extract_pitching_stats row box_score = None
  <-> parse_innings (get (PitcherRow.ip row) (IpInt 0)) = Raise OverflowError
      \/ Exists Rows.infinite (Rows.pitching_cells row).
Proof.
  unfold Client._extract_pitching_stats, Client.or_none.
  destruct (Client.extract_pitching row box_score) as [e|x] eqn:E.
  - split; [discriminate|]. intros HE. exfalso.
    apply extract_pitching_inv in E
      as (w & l & s & ip & h & r & er & bb & k & hr & p
          & _ & Hip & HF & _).
    destruct HE as [HE|HE]; [congruence|].
    apply (Forall2_Exists_absurd _ _ _ _ HF HE).
    intros f z Hs Hi. exact (safe_int_infinite f z Hi Hs).
  - split; [|reflexivity]. intros _. eapply extract_pitching_Raise. exact E.
Qed.

Lemma pitching_row_dropped_iff_overflow_witness :
  Client._extract_pitching_stats
    (PitcherRow.make (Some 7) None
                     (Some (IpStr (str_of_int (10 ^ 400) ++ ".1")))
                     None None None None None None None)
    SampleRows.box_score
  = None.
Proof.
  apply (proj2 (pitching_row_dropped_iff_overflow
                  (PitcherRow.make
                     (Some 7) None
                     (Some (IpStr (str_of_int (10 ^ 400) ++ ".1")))
                     None None None None None None None)
                  SampleRows.box_score)).
  left. vm_compute. reflexivity.
Defined.

(** The shape of an extracted pitching line. *)
Lemma extracted_pitching_line row bs entry :
  Client._extract_pitching_stats row bs = Some entry ->
  exists w l s ip h r er bb k hr,
    (0 <= w /\ 0 <= l /\ 0 <= s /\ w + l + s <= 1)
    /\ ((exists x, ip = PFloat x) \/ (exists n, ip = PInt n))
    /\ PitchingEntry.line entry
       = PitchingLine.make
           (Some (Client.player_id_of (PitcherRow.personId row)))
           (Some (Client._get_player_name
                    (Client.player_id_of (PitcherRow.personId row)) bs))
           (Some (PInt w)) (Some (PInt l)) (Some (PInt s)) (Some ip)
           (Some (PInt h)) (Some (PInt r)) (Some (PInt er))
           (Some (PInt bb)) (Some (PInt k)) (Some (PInt hr)).
Proof.
  unfold Client._extract_pitching_stats, Client.or_none.
  destruct (Client.extract_pitching row bs) as [e|] eqn:E; [|discriminate].
  intros [= <-].
  apply extract_pitching_inv in E
    as (w & l & s & ip & h & r & er & bb & k & hr & p & Hd & Hip & _ & ->).
  exists w, l, s, ip, h, r, er, bb, k, hr.
  split; [|split; [|reflexivity]].
  - destruct (decision_of_cases (get (PitcherRow.namefield row) ""%string))
      as [H|[H|[H|H]]]; rewrite H in Hd; injection Hd as <- <- <-; lia.
  - eapply parse_innings_Ok. exact Hip.
Qed.

(** X15.  On a line extracted from a pitcher row the aggregator can
    only fail at [float(innings_pitched)], with [OverflowError], and
    it does so exactly when [parse_innings] returned an int too large
    for a float (a long whole part before a fraction that is not made
    of digits). *)
Theorem extracted_pitching_line_fails_only_on_long_innings
        row box_score entry :
  Client._extract_pitching_stats row box_score = Some entry ->
  forall team st,
    (forall e,
        StatsCalculator.update_pitching team (PitchingEntry.line entry) st
        = Raise e -> e = OverflowError)
    /\ (raises (StatsCalculator.update_pitching
                  team (PitchingEntry.line entry) st)
        <-> exists n,
            PitchingLine.innings_pitched (PitchingEntry.line entry)
            = Some (PInt n)
            /\ float_of_int n = Raise OverflowError).
Proof.
  intros H team st.
  apply extracted_pitching_line in H
    as (w & l & s & ip & h & r & er & bb & k & hr & _ & Hip & ->).
  unfold StatsCalculator.update_pitching. cbn [PitchingLine.wins
    PitchingLine.losses PitchingLine.saves PitchingLine.innings_pitched
    PitchingLine.hits_allowed PitchingLine.runs_allowed
    PitchingLine.earned_runs PitchingLine.walks_allowed
    PitchingLine.strikeouts PitchingLine.home_runs_allowed
    PitchingLine.name get int bind].
  destruct Hip as [[x ->]|[n ->]]; cbn [to_float bind].
  - split; [discriminate|]. split.
    + intros [e He]. discriminate He.
    + intros (n & Hn & _). discriminate Hn.
  - unfold float_of_int.
    destruct (is_inf (binary_normalize prec emax n 0 false)) eqn:En;
      cbn [bind].
    + split; [now intros e [= <-]|]. split.
      * intros _. exists n. split; [reflexivity|].
        unfold float_of_int. now rewrite En.
      * intros _. now exists OverflowError.
    + split; [discriminate|]. split.
      * intros [e He]. discriminate He.
      * intros (n' & [= <-] & Hn). unfold float_of_int in Hn.
        rewrite En in Hn. discriminate Hn.
Qed.

Lemma extracted_pitching_line_fails_only_on_long_innings_witness :
  exists entry,
    Client._extract_pitching_stats SampleRows.overlong SampleRows.box_score
    = Some entry
    /\ raises (StatsCalculator.update_pitching
                 "Reds" (PitchingEntry.line entry) PitchingStats.default).
Proof.
  destruct (Client._extract_pitching_stats
              SampleRows.overlong SampleRows.box_score)
    as [entry|] eqn:E; [|vm_compute in E; discriminate E].
  exists entry. split; [reflexivity|].
  apply (proj2 (extracted_pitching_line_fails_only_on_long_innings
                  SampleRows.overlong SampleRows.box_score entry E
                  "Reds"%string PitchingStats.default)).
  exists (10 ^ 400). vm_compute in E. injection E as <-.
  split; vm_compute; reflexivity.
Defined.

(** ** The decision *)

Lemma prefix_spec sub : forall s,
  String.prefix sub s = true <-> exists b, s = (sub ++ b)%string.
Proof.
  induction sub as [|c sub IH]; intros s.
  - split; [intros _; now exists s|intros _; now destruct s].
  - destruct s as [|c' s]; simpl.
    + split; [discriminate|]. intros (b & H). discriminate H.
    + destruct (Ascii.ascii_dec c c') as [<-|Hne].
      * rewrite IH. split; intros (b & H); exists b.
        -- now rewrite H.
        -- now injection H.
      * split; [discriminate|]. intros (b & H). injection H as H _.
        now symmetry in H.
Qed.

Lemma occurs_spec sub s :
  Client.occurs sub s = true
  <-> exists a b, s = (a ++ sub ++ b)%string.
Proof.
  induction s as [|c s IH].
  - cbn [Client.occurs]. rewrite orb_false_r, prefix_spec. split.
    + intros (b & H). now exists ""%string, b.
    + intros (a & b & H). destruct a; [now exists b|discriminate H].
  - cbn [Client.occurs]. rewrite orb_true_iff, prefix_spec, IH. split.
    + intros [(b & H)|(a & b & H)].
      * now exists ""%string, b.
      * exists (String c a), b. simpl. now rewrite H.
    + intros (a & b & H). destruct a as [|c' a].
      * left. now exists b.
      * right. injection H as _ H. now exists a, b.
Qed.

(** X16.  The decision of an extracted pitching line is read off
    [namefield]: [wins] is 1 exactly when the text holds ["(W,"];
    [losses] is 1 exactly when it holds ["(L,"] and not ["(W,"];
    [saves] is 1 exactly when it holds ["(S,"] and neither of the
    other two; in every other case the field is 0. *)
Theorem decision_is_read_off_namefield row box_score entry :
  Client._extract_pitching_stats row box_score = Some entry ->
  let holds mark :=
    exists a b,
      get (PitcherRow.namefield row) ""%string = (a ++ mark ++ b)%string in
  let is_one field := field = Some (PInt 1) in
  let is_zero_or_one field := field = Some (PInt 0) \/ field = Some (PInt 1) in
  (is_one (PitchingLine.wins (PitchingEntry.line entry)) <-> holds "(W,"%string)
  /\ (is_one (PitchingLine.losses (PitchingEntry.line entry))
      <-> holds "(L,"%string /\ ~ holds "(W,"%string)
  /\ (is_one (PitchingLine.saves (PitchingEntry.line entry))
      <-> holds "(S,"%string /\ ~ holds "(W,"%string
          /\ ~ holds "(L,"%string)
  /\ is_zero_or_one (PitchingLine.wins (PitchingEntry.line entry))
  /\ is_zero_or_one (PitchingLine.losses (PitchingEntry.line entry))
  /\ is_zero_or_one (PitchingLine.saves (PitchingEntry.line entry)).
Proof.
  unfold Client._extract_pitching_stats, Client.or_none.
  destruct (Client.extract_pitching row box_score) as [e|] eqn:E;
    [|discriminate].
  intros [= <-].
  apply extract_pitching_inv in E
    as (w & l & s & ip & h & r & er & bb & k & hr & p & Hd & _ & _ & ->).
  cbv zeta.
  cbn [PitchingEntry.line PitchingLine.wins PitchingLine.losses
       PitchingLine.saves].
  rewrite <- !occurs_spec. unfold Client.decision_of in Hd.
  destruct (Client.occurs "(W," (get (PitcherRow.namefield row) ""%string));
    [|destruct (Client.occurs "(L,"
                  (get (PitcherRow.namefield row) ""%string));
      [|destruct (Client.occurs "(S,"
                    (get (PitcherRow.namefield row) ""%string))]];
    injection Hd as <- <- <-;
    repeat split; auto; try discriminate; try tauto;
    try (intros [? ?]; try discriminate; tauto);
    try (intros (? & ? & ?); try discriminate; tauto).
Qed.

Lemma decision_is_read_off_namefield_witness :
  exists entry,
    Client._extract_pitching_stats SampleRows.winner SampleRows.box_score
    = Some entry
    /\ PitchingLine.wins (PitchingEntry.line entry) = Some (PInt 1).
Proof.
  destruct (Client._extract_pitching_stats
              SampleRows.winner SampleRows.box_score)
    as [entry|] eqn:E; [|vm_compute in E; discriminate E].
  exists entry. split; [reflexivity|].
  apply (proj2 (proj1 (decision_is_read_off_namefield
                         SampleRows.winner SampleRows.box_score entry E))).
  exists "Lodolo  "%string, " 9-8)"%string. reflexivity.
Defined.

(** ** Keys of the extracted lines *)

Lemma to_int_not_nil z :
  Z.to_int z <> Decimal.Pos Decimal.Nil
  /\ Z.to_int z <> Decimal.Neg Decimal.Nil.
Proof.
  split; intros H; pose proof (DecimalZ.of_to z) as E; rewrite H in E;
    simpl in E; subst z; discriminate H.
Qed.

Lemma str_of_int_inj a b : str_of_int a = str_of_int b -> a = b.
Proof.
  unfold str_of_int. intros H.
  apply (f_equal NilZero.int_of_string) in H.
  destruct (to_int_not_nil a) as [Ha Ha'].
  destruct (to_int_not_nil b) as [Hb Hb'].
  rewrite !NilZero.isi in H by assumption.
  injection H as H. now apply DecimalZ.to_int_inj.
Qed.

(** X17.  Two rows with a [personId] are accumulated under the same key
    exactly when their [personId]s are equal: the key of an extracted
    line is [str(personId)], and [str] is one-to-one on ints.  It holds
    of batting and of pitching rows. *)
Theorem same_record_iff_same_person :
  (forall row row' box_score box_score' entry entry' a b,
      Client._extract_batting_stats row box_score = Some entry ->
      Client._extract_batting_stats row' box_score' = Some entry' ->
      BatterRow.personId row = Some a ->
      BatterRow.personId row' = Some b ->
      (StatsCalculator.batting_key (BattingEntry.line entry)
       = StatsCalculator.batting_key (BattingEntry.line entry')
       <-> a = b))
  /\ (forall row row' box_score box_score' entry entry' a b,
         Client._extract_pitching_stats row box_score = Some entry ->
         Client._extract_pitching_stats row' box_score' = Some entry' ->
         PitcherRow.personId row = Some a ->
         PitcherRow.personId row' = Some b ->
         (StatsCalculator.pitching_key (PitchingEntry.line entry)
          = StatsCalculator.pitching_key (PitchingEntry.line entry')
          <-> a = b)).
Proof.
  split.
  - intros row row' bs bs' entry entry' a b H H' Ha Hb.
    unfold Client._extract_batting_stats, Client.or_none in H, H'.
    destruct (Client.extract_batting row bs) as [e|] eqn:E;
      [|discriminate H].
    destruct (Client.extract_batting row' bs') as [e'|] eqn:E';
      [|discriminate H'].
    injection H as <-. injection H' as <-.
    apply extract_batting_inv in E
      as (? & ? & ? & ? & ? & ? & ? & ? & ? & ? & ? & _ & _ & ->).
    apply extract_batting_inv in E'
      as (? & ? & ? & ? & ? & ? & ? & ? & ? & ? & ? & _ & _ & ->).
    unfold StatsCalculator.batting_key. simpl. rewrite Ha, Hb. simpl.
    split; [apply str_of_int_inj|now intros ->].
  - intros row row' bs bs' entry entry' a b H H' Ha Hb.
    apply extracted_pitching_line in H
      as (? & ? & ? & ? & ? & ? & ? & ? & ? & ? & _ & _ & ->).
    apply extracted_pitching_line in H'
      as (? & ? & ? & ? & ? & ? & ? & ? & ? & ? & _ & _ & ->).
    unfold StatsCalculator.pitching_key. simpl. rewrite Ha, Hb. simpl.
    split; [apply str_of_int_inj|now intros ->].
Qed.

Lemma same_record_iff_same_person_witness :
  exists entry entry',
    Client._extract_batting_stats SampleRows.leadoff SampleRows.box_score
    = Some entry
    /\ Client._extract_batting_stats
         SampleRows.substitute SampleRows.box_score = Some entry'
    /\ StatsCalculator.batting_key (BattingEntry.line entry)
       <> StatsCalculator.batting_key (BattingEntry.line entry').
Proof.
  destruct (Client._extract_batting_stats
              SampleRows.leadoff SampleRows.box_score)
    as [entry|] eqn:E; [|vm_compute in E; discriminate E].
  destruct (Client._extract_batting_stats
              SampleRows.substitute SampleRows.box_score)
    as [entry'|] eqn:E'; [|vm_compute in E'; discriminate E'].
  exists entry, entry'. split; [reflexivity|]. split; [reflexivity|].
  intros H.
  apply (proj1 same_record_iff_same_person
               SampleRows.leadoff SampleRows.substitute
               SampleRows.box_score SampleRows.box_score entry entry'
               668804 641584 E E' eq_refl eq_refl) in H.
  discriminate H.
Defined.
End PitchingExtraction.

(* ================================================================= *)
(** * Games built by [get_game_data] *)

Section FetchedGames.
Import Py MLBApiClient StatsCalculator Accumulate.

Lemma get_game_data_inv schedule boxscore_data home_team_id away_team_id
      date_str game_data :
  Client.get_game_data schedule boxscore_data home_team_id away_team_id
                       date_str = Some game_data ->
  exists games target_game game_id box_score,
    schedule = Ok games
    /\ Client.find_target games home_team_id away_team_id = Some target_game
    /\ ScheduleGame.game_id target_game = Some game_id
    /\ game_id <> 0
    /\ boxscore_data game_id = Ok box_score
    /\ game_data
       = GameData.make
           (Some game_id) (Some date_str)
           (Some home_team_id) (Some away_team_id)
           (Some (get (ScheduleGame.status target_game) ""%string))
           (Some (get (ScheduleGame.venue_name target_game) ""%string))
           None None
           (Game.make
              (Some (get (ScheduleGame.home_name target_game) ""%string))
              (Some (get (ScheduleGame.away_name target_game) ""%string))
              (Some (get (ScheduleGame.home_score target_game) (PInt 0)))
              (Some (get (ScheduleGame.away_score target_game) (PInt 0)))
              (Some (Client.side_batting
                       (BoxScore.homeBatters box_score) box_score))
              (Some (Client.side_batting
                       (BoxScore.awayBatters box_score) box_score))
              (Some (Client.side_pitching
                       (BoxScore.homePitchers box_score) box_score))
              (Some (Client.side_pitching
                       (BoxScore.awayPitchers box_score) box_score))).
Proof.
  unfold Client.get_game_data.
  destruct schedule as [games|]; [|discriminate].
  destruct (Client.find_target games home_team_id away_team_id)
    as [target_game|] eqn:Et; [|discriminate].
  destruct (ScheduleGame.game_id target_game) as [game_id|] eqn:Eid;
    [|discriminate].
  destruct (Z.eqb_spec game_id 0) as [|Hid]; [discriminate|].
  destruct (boxscore_data game_id) as [box_score|] eqn:Eb; [|discriminate].
  intros [= <-]. exists games, target_game, game_id, box_score.
  repeat split; auto.
Qed.

(** X18.  [get_game_data] looks at the first game of the schedule whose
    home and away ids are the two requested, and at no other: the
    result is the one the call gives on a schedule holding that game
    alone, so a later game of the same two teams on that date is never
    returned, not even when the first one has no [game_id]. *)
Theorem only_first_scheduled_match_is_fetched
        before target_game after boxscore_data home_team_id away_team_id
        date_str :
  Forall (fun game =>
            Client.id_is (ScheduleGame.home_id game) home_team_id
            && Client.id_is (ScheduleGame.away_id game) away_team_id
            = false) before ->
  Client.id_is (ScheduleGame.home_id target_game) home_team_id
  && Client.id_is (ScheduleGame.away_id target_game) away_team_id = true ->
  Client.get_game_data (Ok (before ++ target_game :: after)) boxscore_data
                       home_team_id away_team_id date_str
  = Client.get_game_data (Ok [target_game]) boxscore_data
                         home_team_id away_team_id date_str.
Proof.
  intros Hb Ht. unfold Client.get_game_data.
  assert (E : Client.find_target (before ++ target_game :: after)
                                 home_team_id away_team_id
              = Some target_game).
  { unfold Client.find_target. induction Hb as [|g before Hg _ IH]; simpl.
    - now rewrite Ht.
    - now rewrite Hg. }
  rewrite E. unfold Client.find_target. simpl. now rewrite Ht.
Qed.

Lemma only_first_scheduled_match_is_fetched_witness :
  Client.get_game_data
    (Ok ([] ++ SampleRows.scheduled :: [SampleRows.scheduled]))
    (fun _ => Ok SampleRows.box_score) 113 112 "2024-06-01"
  = SampleRows.fetched.
Proof.
  apply (only_first_scheduled_match_is_fetched
           [] SampleRows.scheduled [SampleRows.scheduled]
           (fun _ => Ok SampleRows.box_score) 113 112 "2024-06-01"%string).
  - constructor.
  - reflexivity.
Defined.

(** ** The lines of a side *)

Lemma batting_rows_In rows bs entry :
  In entry (Client.batting_rows rows bs) ->
  exists row, In row rows
              /\ Client._extract_batting_stats row bs = Some entry.
Proof.
  unfold Client.batting_rows. rewrite in_flat_map.
  intros (row & Hr & Hin). exists row. split; [exact Hr|].
  destruct (Z.gtb _ _); [|destruct Hin].
  destruct (Client._extract_batting_stats row bs); [|destruct Hin].
  destruct Hin as [->|[]]. reflexivity.
Qed.

Lemma pitching_rows_In rows bs entry :
  In entry (Client.pitching_rows rows bs) ->
  exists row, In row rows
              /\ Client._extract_pitching_stats row bs = Some entry.
Proof.
  unfold Client.pitching_rows. rewrite in_flat_map.
  intros (row & Hr & Hin). exists row. split; [exact Hr|].
  destruct (Z.gtb _ _); [|destruct Hin].
  destruct (Client._extract_pitching_stats row bs); [|destruct Hin].
  destruct Hin as [->|[]]. reflexivity.
Qed.

Lemma side_batting_In rows bs line :
  In line (Client.side_batting rows bs) ->
  exists row entry,
    Client._extract_batting_stats row bs = Some entry
    /\ line = BattingEntry.line entry.
Proof.
  unfold Client.side_batting. destruct rows as [rows|]; [|intros []].
  rewrite in_map_iff. intros (entry & <- & Hin).
  apply batting_rows_In in Hin as (row & _ & H). eauto.
Qed.

Lemma side_pitching_In rows bs line :
  In line (Client.side_pitching rows bs) ->
  exists row entry,
    Client._extract_pitching_stats row bs = Some entry
    /\ line = PitchingEntry.line entry.
Proof.
  unfold Client.side_pitching. destruct rows as [rows|]; [|intros []].
  rewrite in_map_iff. intros (entry & <- & Hin).
  apply pitching_rows_In in Hin as (row & _ & H). eauto.
Qed.

Lemma extracted_batting_player_id row bs entry :
  Client._extract_batting_stats row bs = Some entry ->
  BattingLine.player_id (BattingEntry.line entry)
  = Some (Client.player_id_of (BatterRow.personId row)).
Proof.
  unfold Client._extract_batting_stats, Client.or_none.
  destruct (Client.extract_batting row bs) as [e|] eqn:E; [|discriminate].
  intros [= <-].
  apply extract_batting_inv in E
    as (? & ? & ? & ? & ? & ? & ? & ? & ? & ? & ? & _ & _ & ->).
  reflexivity.
Qed.

(** X19.  In the lists [get_game_data] fills, the header rows (a
    [personId] that is absent or not positive) are skipped, and when
    no cell of the other rows holds an infinite float each of them
    gives exactly one line, in the order of the rows, whose
    [player_id] is [str(personId)]. *)
Theorem one_batting_line_per_player_row rows box_score :
  Forall (fun row => ~ Exists Rows.infinite (Rows.batting_cells row)) rows ->
  map BattingLine.player_id (Client.side_batting (Some rows) box_score)
  = map (fun row => Some (Client.player_id_of (BatterRow.personId row)))
        (filter (Rows.is_player BatterRow.personId) rows).
Proof.
  unfold Client.side_batting, Client.batting_rows, Rows.is_player.
  induction 1 as [|row rows Hrow _ IH]; [reflexivity|].
  cbn [flat_map filter].
  destruct (Z.gtb (get (BatterRow.personId row) 0) 0); [|exact IH].
  destruct (Client._extract_batting_stats row box_score) as [entry|] eqn:E.
  - cbn [app map]. rewrite IH. f_equal.
    now apply (extracted_batting_player_id row box_score).
  - exfalso. apply Hrow.
    unfold Client._extract_batting_stats, Client.or_none in E.
    destruct (Client.extract_batting row box_score) eqn:E';
      [discriminate E|].
    eapply extract_batting_Raise. exact E'.
Qed.

Lemma one_batting_line_per_player_row_witness :
  map BattingLine.player_id
      (Client.side_batting
         (Some [SampleRows.header; SampleRows.leadoff; SampleRows.substitute])
         SampleRows.box_score)
  = [Some "668804"%string; Some "641584"%string].
Proof.
  apply (one_batting_line_per_player_row
           [SampleRows.header; SampleRows.leadoff; SampleRows.substitute]
           SampleRows.box_score).
  repeat constructor; rewrite Exists_exists; intros (f & Hin & s & Hs);
    simpl in Hin;
    repeat (destruct Hin as [<-|Hin]; [discriminate Hs|]); destruct Hin.
Defined.
End FetchedGames.

(* ================================================================= *)
(** * Fetched games in the aggregator *)

Section FetchedAggregated.
Import Py MLBApiClient StatsCalculator Accumulate.

Lemma extracted_batting_clean row bs entry :
  Client._extract_batting_stats row bs = Some entry ->
  ~ Lines.corrupt_batting_line (BattingEntry.line entry).
Proof.
  unfold Client._extract_batting_stats, Client.or_none.
  destruct (Client.extract_batting row bs) as [e|] eqn:E; [|discriminate].
  intros [= <-].
  apply extract_batting_inv in E
    as (? & ? & ? & ? & ? & ? & ? & ? & ? & ? & ? & _ & _ & ->).
  unfold Lines.corrupt_batting_line. rewrite Exists_exists.
  intros (f & Hin & v & Hv & e & He). simpl in Hin.
  repeat (destruct Hin as [<-|Hin];
          [injection Hv as <-; discriminate He|]).
  destruct Hin.
Qed.

Lemma fetched_batting_lines game l :
  Rows.fetched game -> In l (Lines.game_batting game) ->
  exists row bs entry,
    Client._extract_batting_stats row bs = Some entry
    /\ snd l = BattingEntry.line entry.
Proof.
  intros (schedule & bsd & h & a & date & gd & H & ->) Hl.
  apply get_game_data_inv in H
    as (games & target & id & bs & _ & _ & _ & _ & _ & ->).
  unfold Lines.game_batting in Hl. cbn [GameData.game Game.home_team_batting
    Game.away_team_batting Game.home_team Game.away_team get] in Hl.
  apply in_app_or in Hl as [Hl|Hl]; apply in_map_iff in Hl
    as (line & <- & Hin); apply side_batting_In in Hin
    as (row & entry & He & ->); exists row, bs, entry; auto.
Qed.

Lemma fetched_pitching_lines game l :
  Rows.fetched game -> In l (Lines.game_pitching game) ->
  exists row bs entry,
    Client._extract_pitching_stats row bs = Some entry
    /\ snd l = PitchingEntry.line entry.
Proof.
  intros (schedule & bsd & h & a & date & gd & H & ->) Hl.
  apply get_game_data_inv in H
    as (games & target & id & bs & _ & _ & _ & _ & _ & ->).
  unfold Lines.game_pitching in Hl. cbn [GameData.game
    Game.home_team_pitching Game.away_team_pitching Game.home_team
    Game.away_team get] in Hl.
  apply in_app_or in Hl as [Hl|Hl]; apply in_map_iff in Hl
    as (line & <- & Hin); apply side_pitching_In in Hin
    as (row & entry & He & ->); exists row, bs, entry; auto.
Qed.

Lemma for_each_Ok_all {A S : Type} (body : A -> S -> result S) l :
  (forall x s, In x l -> exists s', body x s = Ok s') ->
  forall s, exists s', for_each body l s = Ok s'.
Proof.
  intros H s. destruct (for_each body l s) as [s'|e] eqn:E; [eauto|].
  apply for_each_Raise in E as (x & s0 & Hx & Hb).
  destruct (H x s0 Hx) as [s' Hs]. congruence.
Qed.

(** X20.  A game built by [get_game_data] never makes the batting pass
    of the aggregator raise, whatever the cells of the box score held;
    and on a list of such games [calculate_aggregate_stats] can only
    raise [OverflowError]: neither [ValueError] nor [TypeError], which
    [safe_int] and [parse_innings] have removed. *)
Theorem fetched_games_raise_only_overflow :
  (forall game batting_stats,
      Rows.fetched game ->
      exists batting_stats',
        _process_game_batting_stats game batting_stats = Ok batting_stats')
  /\ (forall games e,
         Forall Rows.fetched games ->
         calculate_aggregate_stats games = Raise e -> e = OverflowError).
Proof.
  split.
  - intros game d Hf. rewrite process_batting.
    apply for_each_Ok_all. intros l s Hl.
    destruct (batting_step l s) as [s'|e] eqn:E; [eauto|].
    apply step_Raise in E. apply update_batting_raises in E as (Hc & _).
    destruct (fetched_batting_lines _ _ Hf Hl) as (row & bs & entry & He & Hs).
    rewrite Hs in Hc. exfalso.
    exact (extracted_batting_clean _ _ _ He Hc).
  - intros games e Hf H. rewrite Forall_forall in Hf.
    apply calculate_Raise in H
      as [(l & st & Hl & H)|[(l & st & Hl & H)|[(st & H)|(st & H)]]].
    + apply update_batting_raises in H as (Hc & _).
      unfold Lines.batting in Hl. apply in_flat_map in Hl as (g & Hg & Hl).
      destruct (fetched_batting_lines _ _ (Hf g Hg) Hl)
        as (row & bs & entry & He & Hs).
      rewrite Hs in Hc. exfalso.
      exact (extracted_batting_clean _ _ _ He Hc).
    + unfold Lines.pitching in Hl. apply in_flat_map in Hl as (g & Hg & Hl).
      destruct (fetched_pitching_lines _ _ (Hf g Hg) Hl)
        as (row & bs & entry & He & Hs).
      unfold pitching_update in H. rewrite Hs in H.
      apply extracted_pitching_line in He
        as (w & lo & s & ip & h & r & er & bb & k & hr & _ & Hip & Hline).
      rewrite Hline in H. unfold update_pitching in H.
      cbn [PitchingLine.wins PitchingLine.losses PitchingLine.saves
           PitchingLine.innings_pitched PitchingLine.hits_allowed
           PitchingLine.runs_allowed PitchingLine.earned_runs
           PitchingLine.walks_allowed PitchingLine.strikeouts
           PitchingLine.home_runs_allowed PitchingLine.name get int bind]
        in H.
      destruct Hip as [[x ->]|[n ->]]; cbn [to_float bind] in H;
        [discriminate H|].
      unfold float_of_int in H.
      destruct (is_inf _); cbn [bind] in H; [|discriminate H].
      now injection H as <-.
    + now apply batting_averages_raises in H.
    + now apply pitching_averages_raises in H.
Qed.

Lemma fetched_games_raise_only_overflow_witness :
  exists batting_stats',
    _process_game_batting_stats (GameData.game SampleRows.fetched_game) []
    = Ok batting_stats'.
Proof.
  apply (proj1 fetched_games_raise_only_overflow
               (GameData.game SampleRows.fetched_game) []).
  exists (Ok [SampleRows.scheduled]), (fun _ => Ok SampleRows.box_score),
    113, 112, "2024-06-01"%string, SampleRows.fetched_game.
  split; reflexivity.
Defined.

Lemma sum_of_decisions {A : Type} (f g h : A -> Z) l :
  (forall x, In x l ->
             0 <= f x /\ 0 <= g x /\ 0 <= h x /\ f x + g x + h x <= 1) ->
  0 <= Totals.sum f l /\ 0 <= Totals.sum g l /\ 0 <= Totals.sum h l
  /\ Totals.sum f l + Totals.sum g l + Totals.sum h l
     <= Z.of_nat (List.length l).
Proof.
  unfold Totals.sum. induction l as [|x l IH]; intros H.
  - simpl. lia.
  - destruct IH as (If & Ig & Ih & Is); [intros; apply H; now right|].
    destruct (H x (or_introl eq_refl)) as (Hf & Hg & Hh & Hs).
    cbn [fold_right]. change (List.length (x :: l))
      with (Datatypes.S (List.length l)). lia.
Qed.

(** X21.  Over games built by [get_game_data], a pitcher's [wins],
    [losses] and [saves] are not negative and together never exceed
    the pitcher's [games]: each extracted line carries at most one
    decision. *)
Theorem decisions_never_exceed_appearances games bl pl :
  Forall Rows.fetched games ->
  calculate_aggregate_stats games = Ok (bl, pl) ->
  forall p, In p pl ->
    0 <= PitchingStats.wins p /\ 0 <= PitchingStats.losses p
    /\ 0 <= PitchingStats.saves p
    /\ PitchingStats.wins p + PitchingStats.losses p + PitchingStats.saves p
       <= PitchingStats.games p.
Proof.
  intros Hf H p Hp. rewrite Forall_forall in Hf.
  apply calculate_inv in H as (bs & ps & _ & Ep & _ & Epl & _).
  destruct (map_result_In _ _ _ _ Epl Hp) as ([k st] & Hin & Hst).
  cbn [snd] in Hst.
  assert (Hn : NoDup (Dict.keys ps)).
  { eapply fold_NoDup_keys; [|exact Ep]. constructor. }
  pose proof (NoDup_keys_lookup _ _ _ Hn Hin) as Hl.
  pose proof (fold_per_key _ _ _ _ _ _ k Ep) as Hk.
  rewrite (lookup_getitem _ _ _ _ Hl) in Hk.
  change (filter _ (Lines.pitching games)) with (Lines.pitching_of k games)
    in Hk.
  pose proof (pitching_fold_games _ _ _ Hk) as (Hg & _).
  apply pitching_fold_adds in Hk as (Hw & Hlo & Hs & _).
  apply pitching_averages_inv in Hst as (_ & _ & Hc & _).
  destruct Hc as (Cg & Cw & Cl & Cs & _).
  rewrite Cg, Cw, Cl, Cs, Hg, Hw, Hlo, Hs. simpl.
  apply sum_of_decisions. intros l Hl'.
  unfold Lines.pitching_of in Hl'. apply filter_In in Hl' as [Hl' _].
  unfold Lines.pitching in Hl'. apply in_flat_map in Hl' as (g & Hg' & Hl').
  destruct (fetched_pitching_lines _ _ (Hf g Hg') Hl')
    as (row & box & entry & He & Hs').
  apply extracted_pitching_line in He
    as (w & lo & s & ip & h & r & er & bb & k' & hr & Hd & _ & Hline).
  rewrite Hs', Hline. unfold Totals.int_field. simpl. exact Hd.
Qed.

Lemma decisions_never_exceed_appearances_witness :
  Forall (fun p =>
            0 <= PitchingStats.wins p /\ 0 <= PitchingStats.losses p
            /\ 0 <= PitchingStats.saves p
            /\ PitchingStats.wins p + PitchingStats.losses p
               + PitchingStats.saves p
               <= PitchingStats.games p)
         (Sample.pitching_list [GameData.game SampleRows.fetched_game]).
Proof.
  apply Forall_forall.
  apply (decisions_never_exceed_appearances
           [GameData.game SampleRows.fetched_game]
           (Sample.batting_list [GameData.game SampleRows.fetched_game])).
  - constructor; [|constructor].
    exists (Ok [SampleRows.scheduled]), (fun _ => Ok SampleRows.box_score),
      113, 112, "2024-06-01"%string, SampleRows.fetched_game.
    split; reflexivity.
  - vm_compute. reflexivity.
Defined.
End FetchedAggregated.

(* ================================================================= *)
(** * The store of [data_manager.py] *)

Section StoreFacts.
Import Py.

Lemma append_assoc (a b c : string) :
  ((a ++ b) ++ c)%string = (a ++ b ++ c)%string.
Proof. induction a as [|x a IH]; simpl; [reflexivity|now rewrite IH]. Qed.

Lemma uint_no_underscore d :
  contains "_" (NilEmpty.string_of_uint d) = false.
Proof. induction d; simpl; auto. Qed.

Lemma str_of_int_no_underscore z : contains "_" (str_of_int z) = false.
Proof.
  unfold str_of_int, NilZero.string_of_int, NilZero.string_of_uint.
  destruct (Z.to_int z) as [d|d]; destruct d; try reflexivity;
    try apply uint_no_underscore;
    match goal with
    | |- contains _ (String "-" ?s) = false =>
        change (contains "_" s = false)
    end; apply uint_no_underscore.
Qed.

Lemma fmt_int_no_underscore v : contains "_" (DataManager.fmt_int v) = false.
Proof. destruct v; [apply str_of_int_no_underscore|reflexivity]. Qed.

Lemma contains_cons c x s :
  contains c (String x s) = Ascii.eqb c x || contains c s.
Proof. reflexivity. Qed.

(** A text is cut at its last ["_"] in one way only. *)
Lemma cut_at_last_underscore x : forall y u v,
  contains "_" u = false -> contains "_" v = false ->
  (x ++ "_" ++ u)%string = (y ++ "_" ++ v)%string -> x = y /\ u = v.
Proof.
  induction x as [|c x IH]; intros y u v Hu Hv H.
  - destruct y as [|c' y]; simpl in H.
    + injection H as H. auto.
    + injection H as Hc H. subst u.
      rewrite contains_app in Hu. simpl in Hu.
      rewrite contains_cons in Hu. simpl in Hu.
      rewrite orb_true_r in Hu. discriminate Hu.
  - destruct y as [|c' y]; simpl in H.
    + injection H as Hc H. subst v.
      rewrite contains_app in Hv. simpl in Hv.
      rewrite contains_cons in Hv. simpl in Hv.
      rewrite orb_true_r in Hv. discriminate Hv.
    + injection H as Hc H. subst c'.
      destruct (IH _ _ _ Hu Hv H) as [-> ->]. auto.
Qed.

Lemma str_of_int_not_None z : str_of_int z <> "None"%string.
Proof.
  unfold str_of_int. intros H.
  apply (f_equal NilZero.int_of_string) in H.
  destruct (to_int_not_nil z) as [Ha Ha'].
  rewrite NilZero.isi in H by assumption. discriminate H.
Qed.

Lemma fmt_int_inj a b : DataManager.fmt_int a = DataManager.fmt_int b -> a = b.
Proof.
  destruct a as [a|], b as [b|]; simpl; intros H.
  - f_equal. now apply str_of_int_inj.
  - now apply str_of_int_not_None in H.
  - symmetry in H. now apply str_of_int_not_None in H.
  - reflexivity.
Qed.

(** The duplicate test compares the date and the two team ids. *)
Lemma game_id_of_same_slot a b :
  DataManager.game_id_of a = DataManager.game_id_of b
  <-> DataManager.same_slot a b.
Proof.
  unfold DataManager.game_id_of, DataManager.same_slot. split.
  - intros H.
    assert (E : forall d h a : string,
               (d ++ "_" ++ h ++ "_" ++ a)%string
               = ((d ++ "_" ++ h) ++ "_" ++ a)%string)
      by (intros; now rewrite append_assoc).
    rewrite (E (DataManager.fmt_text (GameData.date a))),
      (E (DataManager.fmt_text (GameData.date b))) in H.
    apply cut_at_last_underscore in H as [H Ha];
      try apply fmt_int_no_underscore.
    apply cut_at_last_underscore in H as [Hd Hh];
      try apply fmt_int_no_underscore.
    repeat split; auto using fmt_int_inj.
  - intros (-> & -> & ->). reflexivity.
Qed.

Lemma duplicate_test game_data games :
  existsb (fun existing_game =>
             String.eqb (DataManager.game_id_of existing_game)
                        (DataManager.game_id_of game_data)) games = true
  <-> exists stored, In stored games /\ DataManager.same_slot stored game_data.
Proof.
  rewrite existsb_exists.
  split; intros (stored & Hin & H); exists stored; (split; [exact Hin|]).
  - apply game_id_of_same_slot. now apply String.eqb_eq.
  - apply String.eqb_eq. now apply game_id_of_same_slot.
Qed.

Lemma same_slot_annotate game_data notes now :
  DataManager.same_slot (DataManager.annotate game_data notes now) game_data.
Proof. repeat split. Qed.

Lemma same_slot_trans a b c :
  DataManager.same_slot a b -> DataManager.same_slot b c ->
  DataManager.same_slot a c.
Proof. intros (? & ? & ?) (? & ? & ?). repeat split; congruence. Qed.

Lemma records_app a b :
  DataManager.records (a ++ b)
  = DataManager.records a ++ DataManager.records b.
Proof. apply map_app. Qed.

Lemma add_game_known saved now game_data notes games :
  (exists stored,
      In stored games /\ DataManager.same_slot stored game_data) ->
  DataManager.add_game saved now game_data notes games = (false, games).
Proof.
  unfold DataManager.add_game. intros H.
  apply duplicate_test in H. now rewrite H.
Qed.

Lemma add_game_new saved now game_data notes games :
  ~ (exists stored,
        In stored games /\ DataManager.same_slot stored game_data) ->
  DataManager.add_game saved now game_data notes games
  = (saved, games ++ [DataManager.annotate game_data notes now]).
Proof.
  unfold DataManager.add_game. intros H.
  destruct (existsb _ games) eqn:E; [|reflexivity].
  apply duplicate_test in E. contradiction.
Qed.

Lemma known_or_new game_data games :
  (exists stored,
      In stored games /\ DataManager.same_slot stored game_data)
  \/ ~ (exists stored,
           In stored games /\ DataManager.same_slot stored game_data).
Proof.
  destruct (existsb (fun existing_game =>
                       String.eqb (DataManager.game_id_of existing_game)
                                  (DataManager.game_id_of game_data)) games)
    eqn:E.
  - left. now apply duplicate_test.
  - right. intros H. apply duplicate_test in H. congruence.
Qed.

(** X22.  [add_game] turns a game down exactly when a stored game has
    the same date and the same two team ids, whatever its [game_id]:
    then it returns [False] and the list is as before.  Otherwise the
    game, with its notes and time stamp, is appended, even when the
    file cannot be written and the call returns [False]; the keys the
    calculator reads are stored as they came. *)
Theorem add_game_rejects_same_date_and_teams
        saved now game_data notes games :
  ((exists stored,
       In stored games /\ DataManager.same_slot stored game_data) ->
   DataManager.add_game saved now game_data notes games = (false, games))
  /\ (~ (exists stored,
            In stored games /\ DataManager.same_slot stored game_data) ->
      DataManager.add_game saved now game_data notes games
      = (saved, games ++ [DataManager.annotate game_data notes now])
      /\ DataManager.records
           (snd (DataManager.add_game saved now game_data notes games))
         = DataManager.records games ++ [GameData.game game_data]).
Proof.
  split; intros H.
  - now apply add_game_known.
  - rewrite (add_game_new _ _ _ _ _ H). split; [reflexivity|].
    cbn [snd]. now rewrite records_app.
Qed.

Lemma add_game_rejects_same_date_and_teams_witness :
  DataManager.add_game true "now" SampleRows.fetched_game "" []
  = (true, [] ++ [DataManager.annotate SampleRows.fetched_game "" "now"])
  /\ DataManager.add_game
       true "later" SampleRows.fetched_game "again"
       [DataManager.annotate SampleRows.fetched_game "" "now"]
     = (false, [DataManager.annotate SampleRows.fetched_game "" "now"]).
Proof.
  split.
  - apply (proj2 (add_game_rejects_same_date_and_teams
                    true "now"%string SampleRows.fetched_game ""%string [])).
    intros (stored & [] & _).
  - apply (proj1 (add_game_rejects_same_date_and_teams
                    true "later"%string SampleRows.fetched_game
                    "again"%string
                    [DataManager.annotate SampleRows.fetched_game
                                          "" "now"])).
    exists (DataManager.annotate SampleRows.fetched_game "" "now").
    split; [now left|repeat split].
Defined.

(** X23.  Adding a game a second time, or any game of the same date
    and team ids, changes nothing and returns [False], whatever the
    first call returned. *)
Theorem add_game_twice_changes_nothing
        saved saved' now now' game_data game_data' notes notes' games :
  DataManager.same_slot game_data game_data' ->
  DataManager.add_game
    saved' now' game_data' notes'
    (snd (DataManager.add_game saved now game_data notes games))
  = (false, snd (DataManager.add_game saved now game_data notes games)).
Proof.
  intros Hs. apply add_game_known.
  destruct (known_or_new game_data games) as [H|H].
  - rewrite (add_game_known _ _ _ _ _ H). cbn [snd].
    destruct H as (stored & Hin & H). exists stored. split; [exact Hin|].
    eapply same_slot_trans; eauto.
  - rewrite (add_game_new _ _ _ _ _ H). cbn [snd].
    exists (DataManager.annotate game_data notes now). split.
    + apply in_or_app. right. now left.
    + eapply same_slot_trans; [apply same_slot_annotate|exact Hs].
Qed.

Lemma add_game_twice_changes_nothing_witness :
  DataManager.add_game
    true "later" SampleRows.fetched_game "again"
    (snd (DataManager.add_game false "now" SampleRows.fetched_game "" []))
  = (false,
     snd (DataManager.add_game false "now" SampleRows.fetched_game "" [])).
Proof.
  apply (add_game_twice_changes_nothing
           false true "now"%string "later"%string
           SampleRows.fetched_game SampleRows.fetched_game
           ""%string "again"%string []).
  repeat split.
Defined.

(** ** The invariant of the store *)

Lemma ids_In game_data games :
  In (DataManager.game_id_of game_data) (map DataManager.game_id_of games)
  <-> exists stored,
      In stored games /\ DataManager.same_slot stored game_data.
Proof.
  rewrite in_map_iff.
  split; intros (stored & H1 & H2); exists stored.
  - split; [exact H2|]. now apply game_id_of_same_slot.
  - split; [|exact H1]. now apply game_id_of_same_slot.
Qed.

Lemma firstn_In {A : Type} (l : list A) i x : In x (firstn i l) -> In x l.
Proof.
  intros H. rewrite <- (firstn_skipn i l). apply in_or_app. now left.
Qed.

Lemma skipn_In {A : Type} (l : list A) i x : In x (skipn i l) -> In x l.
Proof.
  intros H. rewrite <- (firstn_skipn i l). apply in_or_app. now right.
Qed.

Lemma NoDup_pop {A : Type} (l : list A) i :
  NoDup l -> NoDup (firstn i l ++ skipn (Datatypes.S i) l).
Proof.
  revert i. induction l as [|x l IH]; intros i H.
  - destruct i; simpl; constructor.
  - inversion H as [|? ? Hx Hl]; subst. destruct i as [|i].
    + exact Hl.
    + cbn [firstn app]. change (skipn (Datatypes.S (Datatypes.S i)) (x :: l))
        with (skipn (Datatypes.S i) l).
      constructor; [|now apply IH].
      intros Hin. apply Hx. apply in_app_or in Hin as [Hin|Hin].
      * eapply firstn_In; eauto.
      * eapply skipn_In; eauto.
Qed.

Lemma pop_map {A B : Type} (f : A -> B) (l : list A) i :
  map f (firstn i l ++ skipn (Datatypes.S i) l)
  = firstn i (map f l) ++ skipn (Datatypes.S i) (map f l).
Proof. now rewrite map_app, firstn_map, skipn_map. Qed.

Lemma reachable_NoDup games :
  DataManager.reachable games ->
  NoDup (map DataManager.game_id_of games).
Proof.
  induction 1 as [|saved now g notes games _ IH
                  |saved index games _ IH|saved games _ IH].
  - constructor.
  - destruct (known_or_new g games) as [H|H].
    + now rewrite (add_game_known _ _ _ _ _ H).
    + rewrite (add_game_new _ _ _ _ _ H). cbn [snd].
      rewrite map_app. apply NoDup_app; auto.
      * constructor; [intros []|constructor].
      * intros x Hx [<-|[]]. apply H. apply ids_In. exact Hx.
  - unfold DataManager.remove_game.
    destruct (_ && _); [|exact IH]. cbn [snd]. unfold DataManager.pop.
    rewrite pop_map. now apply NoDup_pop.
  - constructor.
Qed.

(** X24.  In a store that started empty and was changed by [add_game],
    [remove_game] and [clear_all_data] only, the ids that the duplicate
    test of [add_game] computes are pairwise distinct: no two stored
    games have the same date and the same two team ids. *)
Theorem stored_games_have_distinct_slots games :
  DataManager.reachable games ->
  NoDup (map DataManager.game_id_of games)
  /\ forall i j a b,
      nth_error games i = Some a -> nth_error games j = Some b ->
      DataManager.same_slot a b -> i = j.
Proof.
  intros H. apply reachable_NoDup in H. split; [exact H|].
  intros i j a b Hi Hj Hs.
  apply game_id_of_same_slot in Hs.
  rewrite NoDup_nth_error in H. apply H.
  - rewrite length_map. apply nth_error_Some. congruence.
  - rewrite !nth_error_map, Hi, Hj. simpl. now rewrite Hs.
Qed.

Lemma stored_games_have_distinct_slots_witness :
  NoDup
    (map DataManager.game_id_of
         (snd (DataManager.add_game
                 true "later" SampleRows.fetched_game ""
                 (snd (DataManager.add_game
                         true "now" SampleRows.fetched_game "" []))))).
Proof.
  refine (proj1 (stored_games_have_distinct_slots
                   (snd (DataManager.add_game
                           true "later" SampleRows.fetched_game ""
                           (snd (DataManager.add_game
                                   true "now" SampleRows.fetched_game
                                   "" [])))) _)).
  apply DataManager.reach_add, DataManager.reach_add,
    DataManager.reach_empty.
Defined.

(** ** Removing *)

Lemma nth_error_pop {A : Type} (l : list A) : forall i j,
  nth_error (firstn i l ++ skipn (Datatypes.S i) l) j
  = nth_error l (if (j <? i)%nat then j else Datatypes.S j).
Proof.
  induction l as [|x l IH]; intros i j.
  - destruct i, j; simpl; try reflexivity;
      destruct (_ <? _)%nat; reflexivity.
  - destruct i as [|i]; [reflexivity|].
    destruct j as [|j]; [reflexivity|].
    cbn [firstn skipn app nth_error]. rewrite IH.
    change (Datatypes.S j <? Datatypes.S i)%nat with (j <? i)%nat.
    destruct (j <? i)%nat; reflexivity.
Qed.

Lemma length_pop {A : Type} (l : list A) i :
  (i < List.length l)%nat ->
  Datatypes.S (List.length (firstn i l ++ skipn (Datatypes.S i) l))
  = List.length l.
Proof.
  intros H. rewrite length_app, length_firstn, length_skipn. lia.
Qed.

(** X25.  [remove_game] changes nothing and returns [False] for an
    index that is negative or not below the number of games (a
    negative index never counts from the end); for an index in range
    it removes the game at that index and no other, the games after it
    moving up by one, and returns what [_save_data] returns. *)
Theorem remove_game_removes_one_in_range saved index games :
  (index < 0 \/ Z.of_nat (List.length games) <= index ->
   DataManager.remove_game saved index games = (false, games))
  /\ (0 <= index < Z.of_nat (List.length games) ->
      fst (DataManager.remove_game saved index games) = saved
      /\ Datatypes.S
           (List.length (snd (DataManager.remove_game saved index games)))
         = List.length games
      /\ forall j,
          nth_error (snd (DataManager.remove_game saved index games)) j
          = nth_error games
                      (if (j <? Z.to_nat index)%nat then j
                       else Datatypes.S j)).
Proof.
  unfold DataManager.remove_game. split; intros H.
  - destruct (Z.leb_spec 0 index); destruct (Z.ltb_spec index
      (Z.of_nat (List.length games))); simpl; try reflexivity. lia.
  - destruct (Z.leb_spec 0 index); [|lia].
    destruct (Z.ltb_spec index (Z.of_nat (List.length games))); [|lia].
    cbn [andb fst snd]. unfold DataManager.pop. split; [reflexivity|].
    split; [apply length_pop; lia|]. intros j. apply nth_error_pop.
Qed.

Lemma remove_game_removes_one_in_range_witness :
  DataManager.remove_game true (-1) [SampleRows.fetched_game]
  = (false, [SampleRows.fetched_game])
  /\ fst (DataManager.remove_game true 0 [SampleRows.fetched_game]) = true.
Proof.
  split.
  - apply (proj1 (remove_game_removes_one_in_range
                    true (-1) [SampleRows.fetched_game])).
    left. lia.
  - apply (proj2 (remove_game_removes_one_in_range
                    true 0 [SampleRows.fetched_game])).
    simpl. lia.
Defined.

(** X26.  Removing the last index right after a game was appended
    gives back the list there was before the game was added. *)
Theorem add_then_remove_last_restores
        saved saved' now game_data notes games :
  ~ (exists stored,
        In stored games /\ DataManager.same_slot stored game_data) ->
  DataManager.remove_game
    saved' (Z.of_nat (List.length games))
    (snd (DataManager.add_game saved now game_data notes games))
  = (saved', games).
Proof.
  intros H. rewrite (add_game_new _ _ _ _ _ H). cbn [snd].
  unfold DataManager.remove_game. rewrite length_app. cbn [List.length].
  destruct (Z.leb_spec 0 (Z.of_nat (List.length games))); [|lia].
  destruct (Z.ltb_spec (Z.of_nat (List.length games))
                       (Z.of_nat (List.length games + 1))); [|lia].
  cbn [andb]. f_equal. unfold DataManager.pop. rewrite Nat2Z.id.
  rewrite firstn_app, Nat.sub_diag, firstn_all. cbn [firstn].
  rewrite app_nil_r.
  rewrite skipn_all2; [now rewrite app_nil_r|].
  rewrite length_app. cbn [List.length]. lia.
Qed.

Lemma add_then_remove_last_restores_witness :
  DataManager.remove_game
    true (Z.of_nat (List.length (@nil GameData.t)))
    (snd (DataManager.add_game true "now" SampleRows.fetched_game "" []))
  = (true, []).
Proof.
  apply (add_then_remove_last_restores
           true true "now"%string SampleRows.fetched_game ""%string []).
  intros (stored & [] & _).
Defined.
End StoreFacts.

(* ================================================================= *)
(** * Queries of the store *)

Section QueryFacts.
Import Py StatsCalculator.

Lemma summarize_game_Ok_scores game d d' :
  summarize_game game d = Ok d' -> exists h a, Lines.scores game = Ok (h, a).
Proof.
  intros H. destruct (scores_cases game) as [Hs|(e & Hs)]; [exact Hs|].
  apply (summarize_game_Raise game d e) in Hs. congruence.
Qed.

Lemma games_seen_from games : forall d0 d team,
  Forall (fun game_data =>
            exists home away,
              Game.home_team (GameData.game game_data) = Some home
              /\ Game.away_team (GameData.game game_data) = Some away
              /\ home <> away) games ->
  for_each summarize_game (DataManager.records games) d0 = Ok d ->
  TeamRecord.games_seen (Dict.getitem TeamRecord.default team d)
  = TeamRecord.games_seen (Dict.getitem TeamRecord.default team d0)
    + Z.of_nat (List.length (DataManager.get_games_by_team team games)).
Proof.
  induction games as [|g games IH]; intros d0 d team Hn H.
  - injection H as <-. simpl. lia.
  - inversion Hn as [|? ? (home & away & Hh & Ha & Hne) Hn']; subst.
    cbn [DataManager.records map for_each] in H.
    destruct (summarize_game (GameData.game g) d0) as [d1|] eqn:E;
      cbn [bind] in H; [|discriminate H].
    destruct (summarize_game_Ok_scores _ _ _ E) as (h & a & Hs).
    destruct (summarize_game_effect (GameData.game g) d0 h a Hs)
      as (d1' & E' & Heff & _).
    rewrite E in E'. injection E' as <-.
    destruct (Heff team) as (Hseen & _). cbv zeta in Hseen.
    rewrite (IH d1 d team Hn' H), Hseen.
    unfold Lines.home_name, Lines.away_name, DataManager.get_games_by_team.
    cbn [filter]. rewrite Hh, Ha. cbn [get DataManager.text_is].
    destruct (String.eqb_spec home team) as [->|];
      destruct (String.eqb_spec away team) as [->|];
      cbn [orb Z.b2z List.length]; try contradiction;
      unfold DataManager.get_games_by_team; lia.
Qed.

(** X27.  When every stored game names two different teams, the
    [games_seen] that [get_team_summary] gives a team is the number of
    games [get_games_by_team] returns for it. *)
Theorem games_seen_is_number_of_games_by_team games d :
  Forall (fun game_data =>
            exists home away,
              Game.home_team (GameData.game game_data) = Some home
              /\ Game.away_team (GameData.game game_data) = Some away
              /\ home <> away) games ->
  get_team_summary (DataManager.records games) = Ok d ->
  forall team,
    TeamRecord.games_seen (Dict.getitem TeamRecord.default team d)
    = Z.of_nat (List.length (DataManager.get_games_by_team team games)).
Proof.
  intros Hn H team. unfold get_team_summary in H.
  now rewrite (games_seen_from games [] d team Hn H).
Qed.

Lemma games_seen_is_number_of_games_by_team_witness :
  exists d,
    get_team_summary (DataManager.records [SampleRows.fetched_game]) = Ok d
    /\ TeamRecord.games_seen
         (Dict.getitem TeamRecord.default "Chicago Cubs" d)
       = Z.of_nat
           (List.length
              (DataManager.get_games_by_team
                 "Chicago Cubs" [SampleRows.fetched_game])).
Proof.
  eexists. split; [reflexivity|].
  apply (games_seen_is_number_of_games_by_team [SampleRows.fetched_game]).
  - constructor; [|constructor].
    exists "Cincinnati Reds"%string, "Chicago Cubs"%string.
    split; [reflexivity|]. split; [reflexivity|discriminate].
  - reflexivity.
Defined.

(** A team that plays itself is seen twice in one game. *)
Example games_seen_counts_both_sides :
  exists d,
    get_team_summary [Sample.home_game "Reds" "Reds" 1 0 [] []] = Ok d
    /\ TeamRecord.games_seen (Dict.getitem TeamRecord.default "Reds" d) = 2.
Proof. eexists. split; reflexivity. Qed.

(** [find] returns the first element that passes the test. *)
Lemma find_first {A : Type} (p : A -> bool) : forall l x,
  find p l = Some x ->
  exists before after,
    l = before ++ x :: after
    /\ forall y, In y before -> p y = false.
Proof.
  induction l as [|a l IH]; intros x H; simpl in H; [discriminate|].
  destruct (p a) eqn:Ea.
  - injection H as <-. exists [], l. split; [reflexivity|]. intros y [].
  - destruct (IH x H) as (before & after & -> & Hb).
    exists (a :: before), after. split; [reflexivity|].
    intros y [<-|Hy]; auto.
Qed.

(** X28.  A game that [add_game] has appended is found again by its
    date and team names: [get_game_by_date_and_teams] returns a stored
    game with that date and those names (the first one, when several
    have them). *)
Theorem added_game_is_found
        saved now game_data notes games date home_team away_team :
  ~ (exists stored,
        In stored games /\ DataManager.same_slot stored game_data) ->
  GameData.date game_data = Some date ->
  Game.home_team (GameData.game game_data) = Some home_team ->
  Game.away_team (GameData.game game_data) = Some away_team ->
  exists found,
    DataManager.get_game_by_date_and_teams
      date home_team away_team
      (snd (DataManager.add_game saved now game_data notes games))
    = Some found
    /\ In found (snd (DataManager.add_game saved now game_data notes games))
    /\ GameData.date found = Some date
    /\ Game.home_team (GameData.game found) = Some home_team
    /\ Game.away_team (GameData.game found) = Some away_team
    /\ exists before after,
         snd (DataManager.add_game saved now game_data notes games)
         = before ++ found :: after
         /\ forall other,
              In other before ->
              ~ (GameData.date other = Some date
                 /\ Game.home_team (GameData.game other) = Some home_team
                 /\ Game.away_team (GameData.game other) = Some away_team).
Proof.
  intros Hnew Hd Hh Ha. rewrite (add_game_new _ _ _ _ _ Hnew). cbn [snd].
  unfold DataManager.get_game_by_date_and_teams.
  match goal with |- context [find ?q _] => set (p := q) end.
  destruct (find p (games ++ [DataManager.annotate game_data notes now]))
    as [found|] eqn:E.
  - exists found.
    destruct (find_first _ _ _ E) as (before & after & Hsplit & Hbefore).
    apply find_some in E as [Hin Hp]. split; [reflexivity|].
    split; [exact Hin|].
    assert (Hfound : GameData.date found = Some date
                     /\ Game.home_team (GameData.game found) = Some home_team
                     /\ Game.away_team (GameData.game found)
                        = Some away_team).
    { unfold p in Hp.
      apply andb_prop in Hp as [Hp H3]. apply andb_prop in Hp as [H1 H2].
      unfold DataManager.text_is in H1, H2, H3.
      destruct (GameData.date found); [|discriminate H1].
      destruct (Game.home_team (GameData.game found)); [|discriminate H2].
      destruct (Game.away_team (GameData.game found)); [|discriminate H3].
      apply String.eqb_eq in H1, H2, H3. now subst. }
    destruct Hfound as (F1 & F2 & F3).
    split; [exact F1|]. split; [exact F2|]. split; [exact F3|].
    exists before, after. split; [exact Hsplit|].
    intros other Hother (O1 & O2 & O3).
    specialize (Hbefore other Hother). unfold p in Hbefore.
    rewrite O1, O2, O3 in Hbefore. cbn [DataManager.text_is] in Hbefore.
    rewrite !String.eqb_refl in Hbefore. discriminate Hbefore.
  - exfalso.
    pose proof (find_none _ _ E (DataManager.annotate game_data notes now))
      as Hp.
    assert (Hin : In (DataManager.annotate game_data notes now)
                     (games ++ [DataManager.annotate game_data notes now]))
      by (apply in_or_app; right; now left).
    specialize (Hp Hin). unfold p in Hp.
    cbn [DataManager.annotate GameData.date GameData.game] in Hp.
    rewrite Hd, Hh, Ha in Hp. cbn [DataManager.text_is] in Hp.
    rewrite !String.eqb_refl in Hp. discriminate Hp.
Qed.

Lemma added_game_is_found_witness :
  exists found,
    DataManager.get_game_by_date_and_teams
      "2024-06-01" "Cincinnati Reds" "Chicago Cubs"
      (snd (DataManager.add_game true "now" SampleRows.fetched_game "" []))
    = Some found
    /\ GameData.date found = Some "2024-06-01"%string.
Proof.
  destruct (added_game_is_found
              true "now"%string SampleRows.fetched_game ""%string []
              "2024-06-01"%string "Cincinnati Reds"%string
              "Chicago Cubs"%string)
    as (found & E & _ & Hd & _).
  - intros (stored & [] & _).
  - reflexivity.
  - reflexivity.
  - reflexivity.
  - exists found. split; [exact E|exact Hd].
Defined.

(** ** Date ranges *)

Lemma string_compare_trans s1 : forall s2 s3,
  String.compare s1 s2 <> Gt -> String.compare s2 s3 <> Gt ->
  String.compare s1 s3 <> Gt.
Proof.
  induction s1 as [|c1 s1 IH]; intros [|c2 s2] [|c3 s3]; simpl;
    try congruence.
  unfold Ascii.compare.
  destruct (N.compare_spec (N_of_ascii c1) (N_of_ascii c2)) as [E12|L12|G12];
    destruct (N.compare_spec (N_of_ascii c2) (N_of_ascii c3))
      as [E23|L23|G23];
    destruct (N.compare_spec (N_of_ascii c1) (N_of_ascii c3))
      as [E13|L13|G13];
    try congruence; try lia; try (intros; discriminate).
  apply IH.
Qed.

Lemma leb_compare s1 s2 :
  String.leb s1 s2 = true <-> String.compare s1 s2 <> Gt.
Proof.
  unfold String.leb. destruct (String.compare s1 s2); split;
    congruence.
Qed.

Lemma leb_trans s1 s2 s3 :
  String.leb s1 s2 = true -> String.leb s2 s3 = true ->
  String.leb s1 s3 = true.
Proof. rewrite !leb_compare. apply string_compare_trans. Qed.

Lemma leb_empty s : String.leb "" s = true.
Proof. destruct s; reflexivity. Qed.

(** X29.  [get_games_by_date_range] compares dates as texts: it returns
    nothing when the end date sorts before the start date; widening
    the range never loses a game; and a game stored without a date is
    returned only when the start date is the empty text. *)
Theorem date_range_is_an_interval_of_texts start_date end_date games :
  (String.leb start_date end_date = false ->
   DataManager.get_games_by_date_range start_date end_date games = [])
  /\ (forall earlier later,
         String.leb earlier start_date = true ->
         String.leb end_date later = true ->
         incl (DataManager.get_games_by_date_range start_date end_date games)
              (DataManager.get_games_by_date_range earlier later games))
  /\ (forall game,
         In game
            (DataManager.get_games_by_date_range start_date end_date games) ->
         GameData.date game = None -> start_date = ""%string).
Proof.
  unfold DataManager.get_games_by_date_range. split; [|split].
  - intros H. induction games as [|g games IH]; [reflexivity|].
    cbn [filter]. rewrite IH.
    destruct (String.leb start_date (get (GameData.date g) ""%string)) eqn:E1;
      [|reflexivity].
    destruct (String.leb (get (GameData.date g) ""%string) end_date) eqn:E2;
      [|reflexivity].
    rewrite (leb_trans _ _ _ E1 E2) in H. discriminate H.
  - intros earlier later He Hl g Hg.
    apply filter_In in Hg as [Hin Hp]. apply filter_In. split; [exact Hin|].
    apply andb_prop in Hp as [H1 H2]. apply andb_true_intro. split.
    + exact (leb_trans _ _ _ He H1).
    + exact (leb_trans _ _ _ H2 Hl).
  - intros g Hg Hd. apply filter_In in Hg as [_ Hp]. rewrite Hd in Hp.
    apply andb_prop in Hp as [H1 _]. cbn [get] in H1.
    apply String.leb_antisym; [exact H1|apply leb_empty].
Qed.

Lemma date_range_is_an_interval_of_texts_witness :
  DataManager.get_games_by_date_range
    "2024-07-01" "2024-06-01" [SampleRows.fetched_game] = [].
Proof.
  apply (proj1 (date_range_is_an_interval_of_texts
                  "2024-07-01" "2024-06-01" [SampleRows.fetched_game])).
  reflexivity.
Defined.
End QueryFacts.
